(** * marketscrape-web: the matching-and-ranking core of [scraper/]

    A shallow embedding of [scraper/utils.py] and [scraper/shop_class.py],
    of the part of [Index.post] in [scraper/views.py] that goes from the
    search to the total cost of the best product, and of the metadata of
    [scraper/marketplace_class.py], with the properties of the search,
    filter and selection code and of what feeds and uses it.

    Conventions of the embedding.
    - A Python [float] is the rational [Q] it denotes: comparisons, [abs],
      [max], sums and quotients are the exact ones, and [",.2f"] rounds the
      exact value; there is no rounding to 53 bits, no overflow and no
      negative zero.  Where [float] reads a string, the infinities and the
      not-a-number it can name are values of their own.  The rating
      function, which needs [numpy.exp], is stated over [R].
    - [reject_outliers] is embedded a second time, in [UtilsDouble], on
      the doubles of IEEE 754 with the rounding numpy has: which indices it
      returns can depend on that rounding, and what is proved of the
      function itself is proved of that embedding.  What is proved with the
      rationals of a result that the rounding could change is stated so as
      to hold whichever way the rounding goes.
    - A Python [str] is a [string] of 8-bit characters read as the code
      points U+0000..U+00FF; case mapping is the ASCII one.
    - A [dict] is an association list in insertion order.
    - Exceptions are values of [exn]; a function that can raise returns an
      [outcome].  The search, which requests pages and filters them several
      times, is a [run]: the list of the events it caused and its outcome.
    - The search is embedded on the records of the pages ([EbayScraper]),
      the lists its getters have returned, and on the texts of the pages
      ([EbayTexts]), where the getters run at every filtering attempt and
      can raise; on pages that the getters read the two are the same
      search.
    - A [while] loop takes a number of iterations it may make ("fuel") and
      ends as [OutOfFuel] when that is not enough; the properties show how
      much is enough.

    The file has three parts: the program, the notions used to state its
    properties, and the properties. *)

From Stdlib Require Import List String Ascii Bool Arith NArith ZArith Lia.
From Stdlib Require Import QArith Qminmax Qabs Qpower Lqa.
From Stdlib Require Import Reals Lra.
From Stdlib Require Import Sorting.Sorted.
From Stdlib Require Import DecimalString DecimalN DecimalPos.
From Stdlib Require Import SpecFloat.
Import ListNotations.

(** * The program *)

(** ** Exceptions and outcomes *)

(** The exception classes of [scraper/exceptions.py] that the embedded code
    raises, and the built-in [TypeError] ([<] on a [float] and a [str]) and
    [ValueError] ([min] of an empty list). *)
Inductive exn : Type :=
| NoProductsFound
| InvalidSimilarityThreshold
| InvalidDataFormat
| ScraperRequestError
| TypeError
| ValueError.

(** The result of running a piece of code: a value, a raised exception, or
    [OutOfFuel] when a [while] loop of the model was cut short. *)
Inductive outcome (A : Type) : Type :=
| Ok (a : A)
| Raise (e : exn)
| OutOfFuel.

Arguments Ok {A} a.
Arguments Raise {A} e.
Arguments OutOfFuel {A}.

Definition obind {A B} (m : outcome A) (f : A -> outcome B) : outcome B :=
  match m with
  | Ok a => f a
  | Raise e => Raise e
  | OutOfFuel => OutOfFuel
  end.

Declare Scope py_scope.
Delimit Scope py_scope with py.
Notation "x <- m ;; k" := (obind m (fun x => k))
  (at level 61, m at next level, right associativity) : py_scope.

(** ** [utils.price_difference_rating] *)

Module Rating.
Local Open Scope R_scope.
Local Open Scope py_scope.

(** An argument of [float(...)]: something [float] converts, or something
    on which it raises [TypeError] or [ValueError]. *)
Inductive price_arg : Type :=
| Numeric (x : R)
| NonNumeric.

Definition to_float (a : price_arg) : outcome R :=
  match a with
  | Numeric x => Ok x
  | NonNumeric => Raise InvalidDataFormat
  end.

(** [numpy.clip(x, lo, hi)]. *)
Definition clip (x lo hi : R) : R := Rmin (Rmax x lo) hi.

Definition decay_constant : R := 1 / 100.
Definition linear_factor : R := 125 / 10000.
Definition threshold_days : Z := 7%Z.

Definition price_difference_rating (initial final : price_arg) (days : Z)
  : outcome R :=
  initial_price <- to_float initial ;;
  final_price <- to_float final ;;
  if Rle_dec initial_price 0 then Raise InvalidDataFormat
  else
    let adjusted_initial :=
      if (days >=? threshold_days)%Z then
        let days_past_threshold := IZR (days - threshold_days) in
        let penalty_amount :=
          initial_price * exp (- decay_constant * days_past_threshold)
          + linear_factor * days_past_threshold * initial_price in
        initial_price + penalty_amount
      else initial_price in
    let rating :=
      if Rle_dec adjusted_initial final_price then 5
      else
        let price_difference := adjusted_initial - final_price in
        5 - (price_difference / adjusted_initial) * 5 in
    Ok (clip rating 0 5).

(** The rating as the specification words it ([qualityRating]). *)
Definition qualityRating_penalty (initialPrice : R) (daysListed : Z) : R :=
  initialPrice * exp (- (1 / 100) * IZR (daysListed - 7))
  + (125 / 10000) * IZR (daysListed - 7) * initialPrice.

Definition qualityRating_adjusted (initialPrice : R) (daysListed : Z) : R :=
  if (7 <=? daysListed)%Z
  then initialPrice + qualityRating_penalty initialPrice daysListed
  else initialPrice.

Definition qualityRating (initialPrice finalPrice : R) (daysListed : Z) : R :=
  let adjustedInitial := qualityRating_adjusted initialPrice daysListed in
  let raw :=
    if Rle_dec adjustedInitial finalPrice then 5
    else 5 - (adjustedInitial - finalPrice) / adjustedInitial * 5 in
  Rmax 0 (Rmin raw 5).

End Rating.

(** ** Python strings *)

Module Str.
Local Open Scope string_scope.
Local Open Scope nat_scope.

Definition code_in (lo hi : nat) (c : ascii) : bool :=
  (lo <=? nat_of_ascii c) && (nat_of_ascii c <=? hi).

Definition is_upper (c : ascii) : bool := code_in 65 90 c.
Definition is_lower (c : ascii) : bool := code_in 97 122 c.
Definition is_digit (c : ascii) : bool := code_in 48 57 c.

(** The class [[A-Za-z0-9]] of the regular expressions of [clean_text]. *)
Definition is_alnum (c : ascii) : bool := is_upper c || is_lower c || is_digit c.

(** [\s] of [re] on [str] patterns and the characters [str.strip()] removes:
    TAB..CR, FS..US, SPACE, NEL and NBSP (the white space below U+0100). *)
Definition is_space (c : ascii) : bool :=
  code_in 9 13 c || code_in 28 32 c
  || (nat_of_ascii c =? 133) || (nat_of_ascii c =? 160).

(** [string.punctuation]. *)
Definition is_punctuation (c : ascii) : bool :=
  code_in 33 47 c || code_in 58 64 c || code_in 91 96 c || code_in 123 126 c.

Definition lower_char (c : ascii) : ascii :=
  if is_upper c then ascii_of_nat (nat_of_ascii c + 32) else c.

(** [s.lower()]. *)
Fixpoint lower (s : string) : string :=
  match s with
  | EmptyString => EmptyString
  | String c s' => String (lower_char c) (lower s')
  end.

Fixpoint lstrip (s : string) : string :=
  match s with
  | EmptyString => EmptyString
  | String c s' => if is_space c then lstrip s' else s
  end.

Definition is_empty (s : string) : bool :=
  match s with EmptyString => true | String _ _ => false end.

Fixpoint rstrip (s : string) : string :=
  match s with
  | EmptyString => EmptyString
  | String c s' =>
      let r := rstrip s' in
      if is_space c && is_empty r then EmptyString else String c r
  end.

(** [s.strip()]. *)
Definition strip (s : string) : string := rstrip (lstrip s).

(** [s.translate(translator)] for a [translator] made by [str.maketrans]
    to delete the characters of a class. *)
Fixpoint delete_chars (cls : ascii -> bool) (s : string) : string :=
  match s with
  | EmptyString => EmptyString
  | String c s' =>
      if cls c then delete_chars cls s' else String c (delete_chars cls s')
  end.

(** [re.sub(r"[cls]+", " ", s)]: every maximal run of characters of the
    class becomes one space.  [in_run] tells that the previous character
    belonged to the run being replaced. *)
Fixpoint sub_runs (cls : ascii -> bool) (in_run : bool) (s : string) : string :=
  match s with
  | EmptyString => EmptyString
  | String c s' =>
      if cls c then
        if in_run then sub_runs cls true s'
        else String " " (sub_runs cls true s')
      else String c (sub_runs cls false s')
  end.

Definition re_sub_runs (cls : ascii -> bool) (s : string) : string :=
  sub_runs cls false s.

(** [a < b] on [str]: the order of the code points, a proper prefix first. *)
Fixpoint str_lt (a b : string) : bool :=
  match a, b with
  | _, EmptyString => false
  | EmptyString, String _ _ => true
  | String x a', String y b' =>
      if nat_of_ascii x <? nat_of_ascii y then true
      else if nat_of_ascii y <? nat_of_ascii x then false
      else str_lt a' b'
  end.

End Str.

(** ** [scraper/utils.py] *)

Module Utils.
Import Str.
Local Open Scope Q_scope.

(** [clean_text], on a [str] argument (anything else raises
    [InvalidDataFormat] before the text is looked at). *)
Definition clean_text (title : string) : string :=
  let cleaned := re_sub_runs (fun c => negb (is_alnum c || is_space c)) title in
  strip (re_sub_runs is_space cleaned).

(** *** [numpy] on one-dimensional arrays of floats

    With the arithmetic of the rationals; [UtilsDouble] has these functions
    with the arithmetic of the doubles. *)

Fixpoint insert_sorted (x : Q) (l : list Q) : list Q :=
  match l with
  | [] => [x]
  | y :: l' => if Qle_bool x y then x :: l else y :: insert_sorted x l'
  end.

Definition np_sort (l : list Q) : list Q := fold_right insert_sorted [] l.

(** [numpy.median]: the middle element of the sorted array, or the mean of
    the two middle ones. *)
Definition np_median (l : list Q) : Q :=
  let s := np_sort l in
  let n := List.length l in
  if Nat.even n
  then (nth (n / 2 - 1) s 0 + nth (n / 2) s 0) / 2
  else nth (n / 2) s 0.

(** [numpy.isclose(a, b)] with the default [rtol = 1e-05], [atol = 1e-08]. *)
Definition rtol : Q := 1 # 100000.
Definition atol : Q := 1 # 100000000.
Definition np_isclose (a b : Q) : bool :=
  Qle_bool (Qabs (a - b)) (atol + rtol * Qabs b).

(** [numpy.where(mask)[0].tolist()]: the positions of the true entries. *)
Fixpoint where_from (i : nat) (mask : list bool) : list nat :=
  match mask with
  | [] => []
  | b :: mask' =>
      if b then i :: where_from (S i) mask' else where_from (S i) mask'
  end.

Definition np_where (mask : list bool) : list nat := where_from 0 mask.

Definition reject_outliers (data : list Q) (m : Q) : list nat :=
  match data with
  | [] => []
  | _ :: _ =>
      let med := np_median data in
      let distribution := map (fun x => Qabs (x - med)) data in
      let m_deviation := np_median distribution in
      if np_isclose m_deviation 0 then
        np_where (map (fun d => Qle_bool m d) distribution)
      else
        let standard := map (fun d => d / m_deviation) distribution in
        np_where (map (fun s => Qle_bool m s) standard)
  end.

(** [re.sub(c, repl, s)] for a pattern that is the one literal character
    [c]: every occurrence of it is replaced. *)
Fixpoint sub_char (c : ascii) (repl : string) (s : string) : string :=
  match s with
  | EmptyString => EmptyString
  | String x s' =>
      if Ascii.eqb x c then (repl ++ sub_char c repl s')%string
      else String x (sub_char c repl s')
  end.

(** [remove_illegal_characters], on a [str] argument (anything else raises
    [InvalidDataFormat] first). *)
Definition remove_illegal_characters (title : string) : string :=
  let sanitized := sub_char "#" "%2" title in
  sub_char "&" "%26" sanitized.

End Utils.

(** ** Double precision

    The floats of IEEE 754 binary64, on the specification of the Standard
    Library: 53 bits of precision, rounding to the nearest, ties to even.
    A value of [spec_float] is a double when it is [valid]. *)

Module Double.

Definition prec : Z := 53.
Definition emax : Z := 1024.

Definition double : Type := spec_float.

Definition add : double -> double -> double := SFadd prec emax.
Definition sub : double -> double -> double := SFsub prec emax.
Definition mul : double -> double -> double := SFmul prec emax.
Definition div : double -> double -> double := SFdiv prec emax.
Definition abs : double -> double := SFabs.

(** [x <= y], [x < y] and [x == y]: false when an argument is not a
    number. *)
Definition leb : double -> double -> bool := SFleb.
Definition ltb : double -> double -> bool := SFltb.
Definition eqb : double -> double -> bool := SFeqb.

Definition nan : double := S754_nan.
Definition zero : double := S754_zero false.

Definition is_nan (x : double) : bool :=
  match x with S754_nan => true | _ => false end.

Definition is_finite (x : double) : bool :=
  match x with S754_nan | S754_infinity _ => false | _ => true end.

Definition valid : double -> bool := valid_binary prec emax.

(** [float(z)] of an integer. *)
Definition of_Z (z : Z) : double := binary_normalize prec emax z 0 false.

(** The double nearest to a rational: what a decimal literal such as
    [1.5] or [1e-08], or [float] of a string, denotes. *)
Definition of_Q (q : Q) : double :=
  match Qnum q with
  | Z0 => S754_zero false
  | Zpos n => SFdiv prec emax (S754_finite false n 0) (S754_finite false (Qden q) 0)
  | Zneg n => SFdiv prec emax (S754_finite true n 0) (S754_finite false (Qden q) 0)
  end.

End Double.

(** ** [utils.reject_outliers] in double precision

    [reject_outliers] as numpy computes it: the median, the deviations,
    their quotients and the tolerance of [numpy.isclose] are rounded to
    doubles, and which indices are returned can depend on it. *)

Module UtilsDouble.
Import Double.

(** [numpy.sort] of an array that holds no NaN. *)
Fixpoint insert_sorted (x : double) (l : list double) : list double :=
  match l with
  | [] => [x]
  | y :: l' => if leb x y then x :: l else y :: insert_sorted x l'
  end.

Definition np_sort (l : list double) : list double := fold_right insert_sorted [] l.

(** [numpy.mean]: the sum, added up from the left, divided by the count. *)
Definition np_sum (l : list double) : double :=
  match l with
  | [] => zero
  | x :: l' => fold_left add l' x
  end.

Definition np_mean (l : list double) : double :=
  div (np_sum l) (of_Z (Z.of_nat (List.length l))).

(** [numpy.median]: NaN when the array holds one; otherwise the mean of the
    middle element of the sorted array, or of the two middle ones. *)
Definition np_median (l : list double) : double :=
  if existsb is_nan l then nan
  else
    let s := np_sort l in
    let n := List.length l in
    if Nat.even n
    then np_mean [nth (n / 2 - 1) s nan; nth (n / 2) s nan]
    else np_mean [nth (n / 2) s nan].

(** [numpy.isclose(a, b)] with the default [rtol = 1e-05], [atol = 1e-08]. *)
Definition rtol : double := of_Q (1 # 100000).
Definition atol : double := of_Q (1 # 100000000).
Definition np_isclose (a b : double) : bool :=
  (leb (abs (sub a b)) (add atol (mul rtol (abs b))) && is_finite b) || eqb a b.

Definition reject_outliers (data : list double) (m : double) : list nat :=
  match data with
  | [] => []
  | _ :: _ =>
      let med := np_median data in
      let distribution := map (fun x => abs (sub x med)) data in
      let m_deviation := np_median distribution in
      if np_isclose m_deviation zero then
        Utils.np_where (map (fun d => leb m d) distribution)
      else
        let standard := map (fun d => div d m_deviation) distribution in
        Utils.np_where (map (fun s => leb m s) standard)
  end.

End UtilsDouble.

(** ** [difflib.SequenceMatcher]

    [get_similarity] calls [SequenceMatcher(None, a, b).ratio()] of the
    Python standard library.  The matcher is embedded here as CPython's
    [Lib/difflib.py] defines it, for [isjunk = None] and [autojunk = True],
    which is how the scraper constructs it. *)

Module Difflib.
Local Open Scope nat_scope.

Definition block : Type := (nat * nat * nat)%type.
Definition region : Type := (nat * nat * nat * nat)%type.

Section Matcher.
Variables a b : list ascii.

Definition elt_at (l : list ascii) (i : nat) : ascii := nth i l Ascii.zero.

(** [__chain_b]: [b2j] maps an element of [b] to the ascending list of its
    positions; no element is junk, and when [b] has at least 200 elements
    those occurring more than [len(b) // 100 + 1] times are "popular" and
    removed from the map.  [b2j elt] is [b2j.get(elt, [])]. *)
Fixpoint positions_from (j : nat) (elt : ascii) (l : list ascii) : list nat :=
  match l with
  | [] => []
  | x :: l' =>
      if Ascii.eqb x elt then j :: positions_from (S j) elt l'
      else positions_from (S j) elt l'
  end.

Definition is_popular (elt : ascii) : bool :=
  (200 <=? List.length b)
  && (List.length b / 100 + 1 <? List.length (positions_from 0 elt b)).

Definition b2j (elt : ascii) : list nat :=
  if is_popular elt then [] else positions_from 0 elt b.

(** [bjunk] is empty. *)
Definition isbjunk (elt : ascii) : bool := false.

(** The dictionaries [j2len] and [newj2len], read only through
    [get(j, 0)] and holding positive lengths: the function that is 0 off
    the keys. *)
Definition j2len_empty : nat -> nat := fun _ => 0.
Definition j2len_set (m : nat -> nat) (j k : nat) : nat -> nat :=
  fun x => if x =? j then k else m x.
(** [j2len.get(j - 1, 0)]; no key is negative. *)
Definition j2len_get_pred (m : nat -> nat) (j : nat) : nat :=
  match j with 0 => 0 | S j' => m j' end.

(** The inner loop of [find_longest_match], over [b2j.get(a[i], nothing)]:
    [continue] below [blo], [break] from [bhi] on. *)
Fixpoint scan_row (i blo bhi : nat) (j2len : nat -> nat) (js : list nat)
    (newj2len : nat -> nat) (best : block) : (nat -> nat) * block :=
  match js with
  | [] => (newj2len, best)
  | j :: js' =>
      if j <? blo then scan_row i blo bhi j2len js' newj2len best
      else if bhi <=? j then (newj2len, best)
      else
        let k := j2len_get_pred j2len j + 1 in
        let '(besti, bestj, bestsize) := best in
        scan_row i blo bhi j2len js' (j2len_set newj2len j k)
          (if bestsize <? k then (i + 1 - k, j + 1 - k, k) else best)
  end.

(** The outer loop, [for i in range(alo, ahi)]. *)
Fixpoint scan_rows (rows : list nat) (blo bhi : nat) (j2len : nat -> nat)
    (best : block) : block :=
  match rows with
  | [] => best
  | i :: rows' =>
      let '(newj2len, best') :=
        scan_row i blo bhi j2len (b2j (elt_at a i)) j2len_empty best in
      scan_rows rows' blo bhi newj2len best'
  end.

(** [while besti > alo and bestj > blo and isbjunk(b[bestj-1]) == junk and
    a[besti-1] == b[bestj-1]]: the match grows to the left. *)
Fixpoint extend_left (junk : bool) (alo blo : nat) (besti bestj bestsize : nat)
  : block :=
  match besti, bestj with
  | S i', S j' =>
      if (alo <? besti) && (blo <? bestj)
         && Bool.eqb (isbjunk (elt_at b j')) junk
         && Ascii.eqb (elt_at a i') (elt_at b j')
      then extend_left junk alo blo i' j' (bestsize + 1)
      else (besti, bestj, bestsize)
  | _, _ => (besti, bestj, bestsize)
  end.

(** [while besti+bestsize < ahi and bestj+bestsize < bhi and
    isbjunk(b[bestj+bestsize]) == junk and
    a[besti+bestsize] == b[bestj+bestsize]]: the match grows to the right;
    [gap] is [ahi - (besti + bestsize)]. *)
Fixpoint extend_right (junk : bool) (gap bhi : nat) (besti bestj bestsize : nat)
  : nat :=
  match gap with
  | 0 => bestsize
  | S gap' =>
      if (bestj + bestsize <? bhi)
         && Bool.eqb (isbjunk (elt_at b (bestj + bestsize))) junk
         && Ascii.eqb (elt_at a (besti + bestsize)) (elt_at b (bestj + bestsize))
      then extend_right junk gap' bhi besti bestj (bestsize + 1)
      else bestsize
  end.

Definition extend (junk : bool) (alo ahi blo bhi : nat) (best : block) : block :=
  let '(besti, bestj, bestsize) := best in
  let '(besti, bestj, bestsize) :=
    extend_left junk alo blo besti bestj bestsize in
  (besti, bestj,
   extend_right junk (ahi - (besti + bestsize)) bhi besti bestj bestsize).

Definition find_longest_match (alo ahi blo bhi : nat) : block :=
  let best := scan_rows (seq alo (ahi - alo)) blo bhi j2len_empty (alo, blo, 0) in
  (* extend by non-junk elements on each end, then by junk ones *)
  extend true alo ahi blo bhi (extend false alo ahi blo bhi best).

(** The loop [while queue] of [get_matching_blocks].  [queue] is used as a
    stack: its head here is the last element of the Python list, the one
    [queue.pop()] takes. *)
Fixpoint matching_loop (fuel : nat) (queue : list region) (matching_blocks : list block)
  : option (list block) :=
  match queue with
  | [] => Some matching_blocks
  | (alo, ahi, blo, bhi) :: queue' =>
      match fuel with
      | 0 => None
      | S fuel' =>
          let '(i, j, k) := find_longest_match alo ahi blo bhi in
          if k =? 0 then matching_loop fuel' queue' matching_blocks
          else
            let q1 := if (alo <? i) && (blo <? j)
                      then (alo, i, blo, j) :: queue' else queue' in
            let q2 := if (i + k <? ahi) && (j + k <? bhi)
                      then (i + k, ahi, j + k, bhi) :: q1 else q1 in
            matching_loop fuel' q2 (matching_blocks ++ [(i, j, k)])
      end
  end.

End Matcher.

(** [matching_blocks.sort()]: tuples are ordered lexicographically. *)
Definition block_le (x y : block) : bool :=
  let '(i1, j1, k1) := x in
  let '(i2, j2, k2) := y in
  (i1 <? i2) || ((i1 =? i2) && ((j1 <? j2) || ((j1 =? j2) && (k1 <=? k2)))).

Fixpoint insert_block (x : block) (l : list block) : list block :=
  match l with
  | [] => [x]
  | y :: l' => if block_le x y then x :: l else y :: insert_block x l'
  end.

Definition sort_blocks (l : list block) : list block :=
  fold_right insert_block [] l.

(** The pass that merges adjacent blocks: [(i1, j1, k1)] is the block being
    grown, [non_adjacent] the blocks already emitted. *)
Fixpoint collapse (cur : block) (blocks : list block) (non_adjacent : list block)
  : list block :=
  let '(i1, j1, k1) := cur in
  match blocks with
  | [] => if k1 =? 0 then non_adjacent else non_adjacent ++ [cur]
  | (i2, j2, k2) :: blocks' =>
      if (i1 + k1 =? i2) && (j1 + k1 =? j2)
      then collapse (i1, j1, k1 + k2) blocks' non_adjacent
      else collapse (i2, j2, k2) blocks'
             (if k1 =? 0 then non_adjacent else non_adjacent ++ [cur])
  end.

(** Enough iterations for [matching_loop]: every iteration either drops a
    region or splits one into strictly shorter ones. *)
Definition matching_fuel (a : list ascii) : nat := 2 * List.length a + 1.

Definition get_matching_blocks (a b : list ascii) : list block :=
  let la := List.length a in
  let lb := List.length b in
  match matching_loop a b (matching_fuel a) [(0, la, 0, lb)] [] with
  | Some matching_blocks =>
      collapse (0, 0, 0) (sort_blocks matching_blocks) [] ++ [(la, lb, 0)]
  | None => []
  end.

(** [_calculate_ratio(matches, length)]. *)
Definition calculate_ratio (matches length : nat) : Q :=
  if length =? 0 then 1%Q
  else (2 * inject_Z (Z.of_nat matches) / inject_Z (Z.of_nat length))%Q.

Definition ratio (a b : list ascii) : Q :=
  let matches := list_sum (map (fun x : block => snd x) (get_matching_blocks a b)) in
  calculate_ratio matches (List.length a + List.length b).

End Difflib.

(** ** Python values, dictionaries and number formatting *)

Module Py.
Import Str.
Local Open Scope Q_scope.

(** The values a ["price"] or ["shipping"] entry holds: a [float] or a
    [str]. *)
Inductive pyval : Type :=
| PyFloat (x : Q)
| PyStr (s : string).

Definition Qlt_bool (x y : Q) : bool := negb (Qle_bool y x).

(** [x < y]: numeric on two floats, lexicographic on two strings, and a
    [TypeError] on a float and a string. *)
Definition py_lt (x y : pyval) : outcome bool :=
  match x, y with
  | PyFloat p, PyFloat q => Ok (Qlt_bool p q)
  | PyStr s, PyStr t => Ok (str_lt s t)
  | _, _ => Raise TypeError
  end.

(** [max(x, y)] on floats: [y] when [y > x], else [x]. *)
Definition py_max (x y : Q) : Q := if Qlt_bool x y then y else x.

(** A [dict] with [str] keys, in insertion order. *)
Definition dict (V : Type) : Type := list (string * V).

(** [d[k] = v]: an existing key keeps its place and takes the new value, a
    new key goes last. *)
Fixpoint dict_set {V : Type} (k : string) (v : V) (d : dict V) : dict V :=
  match d with
  | [] => [(k, v)]
  | (k', v') :: d' =>
      if String.eqb k' k then (k', v) :: d' else (k', v') :: dict_set k v d'
  end.

Definition keys {V : Type} (d : dict V) : list string := map fst d.
Definition values {V : Type} (d : dict V) : list V := map snd d.

(** *** The format specification [",.2f"] *)

(** [round(x)] to the nearest integer, ties to even, for [x = n / d >= 0]. *)
Definition round_half_even (n : N) (d : N) : N :=
  let q := (n / d)%N in
  let r := (n mod d)%N in
  match (2 * r ?= d)%N with
  | Lt => q
  | Gt => (q + 1)%N
  | Eq => if N.even q then q else (q + 1)%N
  end.

(** A comma before every group of three digits, counted from the right. *)
Fixpoint group_thousands (digits : string) : string :=
  match digits with
  | EmptyString => EmptyString
  | String c rest =>
      if negb (is_empty rest) && (String.length rest mod 3 =? 0)%nat
      then String c (String "," (group_thousands rest))
      else String c (group_thousands rest)
  end.

Definition decimal (n : N) : string := NilEmpty.string_of_uint (N.to_uint n).

Definition two_digits (n : N) : string :=
  if (n <? 10)%N then String "0" (decimal n) else decimal n.

(** [f"{x:,.2f}"]. *)
Definition format_money (x : Q) : string :=
  let hundredths :=
    round_half_even (Z.abs_N (Qnum x) * 100) (Npos (Qden x)) in
  let body :=
    (group_thousands (decimal (hundredths / 100))
     ++ String "." (two_digits (hundredths mod 100)))%string in
  if Qlt_bool x 0 then String "-" body else body.

(** [f"{x:.2f}"]: the same rounding, without the grouping. *)
Definition format_fixed2 (x : Q) : string :=
  let hundredths :=
    round_half_even (Z.abs_N (Qnum x) * 100) (Npos (Qden x)) in
  let body :=
    (decimal (hundredths / 100)
     ++ String "." (two_digits (hundredths mod 100)))%string in
  if Qlt_bool x 0 then String "-" body else body.

(** [d.get(k)]. *)
Fixpoint dict_get {V : Type} (k : string) (d : dict V) : option V :=
  match d with
  | [] => None
  | (k', v) :: d' => if String.eqb k' k then Some v else dict_get k d'
  end.

End Py.

(** ** [utils.percentage_difference] *)

Module Percentage.
Import Py Utils.
Local Open Scope Q_scope.
Local Open Scope py_scope.

(** An argument of [float(...)]. *)
Inductive price_arg : Type :=
| Numeric (x : Q)
| NonNumeric.

Definition to_float (a : price_arg) : outcome Q :=
  match a with
  | Numeric x => Ok x
  | NonNumeric => Raise InvalidDataFormat
  end.

(** The dictionary returned, with its keys ["amount"] and ["type"]. *)
Record difference : Type := {
  amount : string;
  type : string
}.

Definition percentage_difference (list_price best_price : price_arg)
  : outcome difference :=
  list_price_value <- to_float list_price ;;
  best_price_value <- to_float best_price ;;
  if Qlt_bool list_price_value 0 || Qlt_bool best_price_value 0
  then Raise InvalidDataFormat
  else if np_isclose list_price_value best_price_value
  then Ok {| amount := "0.00"; type := "equal" |}
  else
    let '(baseline, difference_type, difference_value) :=
      if Qlt_bool best_price_value list_price_value then
        (if negb (np_isclose list_price_value 0) then list_price_value else 1,
         "decrease"%string, list_price_value - best_price_value)
      else
        (if negb (np_isclose best_price_value 0) then best_price_value else 1,
         "increase"%string, best_price_value - list_price_value) in
    let percentage := (Qabs difference_value / baseline) * 100 in
    Ok {| amount := format_fixed2 percentage; type := difference_type |}.

End Percentage.

(** ** [scraper/shop_class.py] *)

Module EbayScraper.
Import Str Py.
Local Open Scope Q_scope.
Local Open Scope py_scope.

(** *** Records *)

(** An entry of [get_product_info]. *)
Record product : Type := {
  title : string;
  price : Q;
  shipping : Q;
  country : string;
  condition : string
}.

(** A value of the dictionary [filter_products_by_similarity] builds. *)
Record scored : Type := {
  s_price : Q;
  s_shipping : Q;
  s_country : string;
  s_condition : string;
  s_similarity : Q
}.

(** A value of the dictionary [construct_candidates] builds and
    [lowest_price_highest_similarity] reads. *)
Record details : Type := {
  d_price : pyval;
  d_shipping : pyval;
  d_country : string;
  d_condition : string;
  d_similarity : Q
}.

(** What the five getters ([get_product_title], ...) have returned on the
    page [self.soup]; the lists need not have the same length.
    [EbayTexts] has the getters themselves. *)
Record soup : Type := {
  product_title : list string;
  product_price : list Q;
  product_shipping : list Q;
  product_country : list string;
  product_condition : list string
}.

(** *** Events *)

(** What a run does that the properties speak of: the page requests of
    [create_url], the calls of [get_similarity], and the calls of
    [filter_products_by_similarity] made by the search with the way each
    ended. *)
Inductive event : Type :=
| Fetch (query : string) (page : nat)
| Similarity (string1 string2 : string)
| Filter (threshold : Q) (result : outcome (dict scored)).

(** A computation: the events in order, and the outcome. *)
Definition run (A : Type) : Type := (list event * outcome A)%type.

Definition ret {A} (a : A) : run A := ([], Ok a).
Definition raise {A} (e : exn) : run A := ([], Raise e).
Definition out_of_fuel {A} : run A := ([], OutOfFuel).
Definition emit (e : event) : run unit := ([e], Ok tt).

Definition bind {A B} (m : run A) (f : A -> run B) : run B :=
  match m with
  | (l, Ok a) => let '(l', r) := f a in (l ++ l', r)
  | (l, Raise e) => (l, Raise e)
  | (l, OutOfFuel) => (l, OutOfFuel)
  end.

Declare Scope run_scope.
Delimit Scope run_scope with run.
Notation "x <- m ;; k" := (bind m (fun x => k))
  (at level 61, m at next level, right associativity) : run_scope.
Notation "m ;;; k" := (bind m (fun _ => k))
  (at level 61, right associativity) : run_scope.

Definition trace {A} (m : run A) : list event := fst m.
Definition result {A} (m : run A) : outcome A := snd m.

(** *** [get_similarity] *)

Definition get_similarity (string1 string2 : string) : Q :=
  let string1 := strip (lower string1) in
  let string2 := strip (lower string2) in
  let string1_clean := delete_chars is_punctuation string1 in
  let string2_clean := delete_chars is_punctuation string2 in
  Difflib.ratio (list_ascii_of_string string1_clean)
                (list_ascii_of_string string2_clean).

(** *** [remove_outliers] and [get_product_info] *)

Definition removal_threshold : nat := 100.

(** [[x for i, x in enumerate(l) if i not in outlier_indices]]. *)
Fixpoint drop_indices {A} (i : nat) (outlier_indices : list nat) (l : list A)
  : list A :=
  match l with
  | [] => []
  | x :: l' =>
      if existsb (Nat.eqb i) outlier_indices
      then drop_indices (S i) outlier_indices l'
      else x :: drop_indices (S i) outlier_indices l'
  end.

Definition remove_outliers (page : soup) : soup :=
  if (removal_threshold <=? List.length (product_title page))%nat then
    let outlier_indices := Utils.reject_outliers (product_price page) (15 # 10) in
    {| product_title := drop_indices 0 outlier_indices (product_title page);
       product_price := drop_indices 0 outlier_indices (product_price page);
       product_shipping := drop_indices 0 outlier_indices (product_shipping page);
       product_country := drop_indices 0 outlier_indices (product_country page);
       product_condition := drop_indices 0 outlier_indices (product_condition page) |}
  else page.

(** The title of a record: [utils.clean_text(title.lower())]. *)
Definition normalize_title (t : string) : string := Utils.clean_text (lower t).

(** The loop over [zip(titles, prices, shipping, countries, conditions)]. *)
Fixpoint zip_products (titles : list string) (prices shipping : list Q)
    (countries conditions : list string) : list product :=
  match titles, prices, shipping, countries, conditions with
  | t :: titles', p :: prices', s :: shipping', c :: countries', k :: conditions' =>
      {| title := normalize_title t; price := p; shipping := s;
         country := c; condition := k |}
      :: zip_products titles' prices' shipping' countries' conditions'
  | _, _, _, _, _ => []
  end.

Definition get_product_info (page : soup) : list product :=
  let page := remove_outliers page in
  zip_products (product_title page) (product_price page) (product_shipping page)
    (product_country page) (product_condition page).

(** *** [lowest_price_highest_similarity] *)

(** One step of the first loop.  The two variables are set together, so a
    state with exactly one of them [None] is never reached; subscripting
    [None] would raise [TypeError]. *)
Definition scan_item (st : option details * option details) (item_details : details)
  : outcome (option details * option details) :=
  match st with
  | (None, None) => Ok (Some item_details, Some item_details)
  | (Some max_similarity_item, Some min_price_item) =>
      let max_similarity_item :=
        if Qlt_bool (d_similarity max_similarity_item) (d_similarity item_details)
        then item_details else max_similarity_item in
      lower <- py_lt (d_price item_details) (d_price min_price_item) ;;
      Ok (Some max_similarity_item,
          Some (if lower : bool then item_details else min_price_item))
  | _ => Raise TypeError
  end.

Fixpoint scan_items (st : option details * option details) (items : list details)
  : outcome (option details * option details) :=
  match items with
  | [] => Ok st
  | item_details :: items' =>
      st' <- scan_item st item_details ;; scan_items st' items'
  end.

(** [min(items, key=lambda x: x[1]["price"])] after its first element: a
    later item replaces the current one when its key is [<] the current
    key, so the first of several minimal items is returned. *)
Fixpoint min_by_price (current : string * details) (items : list (string * details))
  : outcome (string * details) :=
  match items with
  | [] => Ok current
  | item :: items' =>
      lower <- py_lt (d_price (snd item)) (d_price (snd current)) ;;
      min_by_price (if lower : bool then item else current) items'
  end.

Definition lowest_price_highest_similarity
    (filtered_prices_descriptions : dict details) : outcome (string * details) :=
  match filtered_prices_descriptions with
  | [] => Raise NoProductsFound
  | _ :: _ =>
      st <- scan_items (None, None) (values filtered_prices_descriptions) ;;
      match fst st with
      | None => Raise TypeError
      | Some max_similarity_item =>
          let max_similar_items :=
            filter (fun item : string * details =>
                      Qeq_bool (d_similarity (snd item))
                               (d_similarity max_similarity_item))
                   filtered_prices_descriptions in
          match max_similar_items with
          | [] => Raise ValueError
          | first :: others => min_by_price first others
          end
      end
  end.

(** *** [construct_candidates] *)

Fixpoint zip_candidates (descriptions : list string) (prices shipping : list pyval)
    (countries conditions : list string) (similarities : list Q)
    (candidates : dict details) : dict details :=
  match descriptions, prices, shipping, countries, conditions, similarities with
  | description :: descriptions', price :: prices', ship :: shipping',
    country :: countries', condition :: conditions', similarity :: similarities' =>
      zip_candidates descriptions' prices' shipping' countries' conditions'
        similarities'
        (dict_set description
           {| d_price := price; d_shipping := ship; d_country := country;
              d_condition := condition; d_similarity := similarity |}
           candidates)
  | _, _, _, _, _, _ => candidates
  end.

Definition construct_candidates (descriptions : list string)
    (prices shipping : list pyval) (countries conditions : list string)
    (similarities : list Q) : outcome (dict details) :=
  let n := List.length descriptions in
  if (List.length prices =? n)%nat && (List.length shipping =? n)%nat
     && (List.length countries =? n)%nat && (List.length conditions =? n)%nat
     && (List.length similarities =? n)%nat
  then Ok (zip_candidates descriptions prices shipping countries conditions
             similarities [])
  else Raise InvalidDataFormat.

Local Open Scope run_scope.

(** *** [filter_products_by_similarity] *)

Fixpoint filter_loop (product_info : list product) (target_title : string)
    (similarity_threshold : Q) (filtered_products : dict scored)
  : run (dict scored) :=
  match product_info with
  | [] => ret filtered_products
  | product :: product_info' =>
      emit (Similarity (title product) target_title) ;;;
      let similarity := get_similarity (title product) target_title in
      filter_loop product_info' target_title similarity_threshold
        (if Qle_bool similarity_threshold similarity
         then dict_set (title product)
                {| s_price := price product; s_shipping := shipping product;
                   s_country := country product; s_condition := condition product;
                   s_similarity := similarity |}
                filtered_products
         else filtered_products)
  end.

Definition filter_products_by_similarity (product_info : list product)
    (target_title : string) (similarity_threshold : Q) : run (dict scored) :=
  if negb (Qle_bool 0 similarity_threshold && Qle_bool similarity_threshold 1)
  then raise InvalidSimilarityThreshold
  else filter_loop product_info target_title similarity_threshold [].

(** *** [listing_product_similarity], observed by the search *)

Definition listing_product_similarity (page : soup) (title : string)
    (similarity_threshold : Q) : run (dict scored) :=
  let product_info := get_product_info page in
  let call :=
    filter_products_by_similarity product_info (lower title) similarity_threshold in
  (trace call ++ [Filter similarity_threshold (result call)], result call).

(** *** [find_viable_product] *)

(** The six lists the search accumulates. *)
Record found : Type := {
  descriptions : list string;
  prices : list string;
  shippings : list string;
  countries : list string;
  conditions : list string;
  similarities : list Q
}.

Definition no_products : found :=
  {| descriptions := []; prices := []; shippings := []; countries := [];
     conditions := []; similarities := [] |}.

Definition similarity_threshold : Q := 35 # 100.
Definition ramp_step : Q := 5 # 100.

(** The loop [while not filtered_prices_descriptions] of the handler of
    [NoProductsFound], entered with an empty dictionary; it returns the
    accumulator and the last filtering. *)
Fixpoint ramp_down_loop (fuel : nat) (page : soup) (title : string)
    (consecutively_empty : nat) (ramp_down : Q) : run (Q * dict scored) :=
  match fuel with
  | O => out_of_fuel
  | S fuel' =>
      let ramp_down := ramp_down + ramp_step in
      filtered_prices_descriptions <-
        listing_product_similarity page title
          (py_max 0 (similarity_threshold - ramp_down)) ;;
      if (consecutively_empty =? 2)%nat then
        ret (ramp_down, filtered_prices_descriptions)
      else
        match filtered_prices_descriptions with
        | _ :: _ => ret (ramp_down, filtered_prices_descriptions)
        | [] => ramp_down_loop fuel' page title (consecutively_empty + 1) ramp_down
        end
  end.

(** The world the search runs in: what the request of [create_url] for a
    query and a page returns, [None] when the request fails. *)
Definition web : Type := string -> nat -> option soup.

Definition create_url (w : web) (title : string) (start : nat) : run soup :=
  emit (Fetch title start) ;;;
  match w title start with
  | Some page => ret page
  | None => raise ScraperRequestError
  end.

(** The six [+=] that end the body of the loop over the pages: the keys
    and the fields of the page's dictionary, prices and shipping costs
    formatted with [",.2f"]. *)
Definition accumulate (acc : found) (filtered_prices_descriptions : dict scored)
  : found :=
  let products := values filtered_prices_descriptions in
  {| descriptions := descriptions acc ++ keys filtered_prices_descriptions;
     prices := prices acc ++ map (fun p => format_money (s_price p)) products;
     shippings := shippings acc ++ map (fun p => format_money (s_shipping p)) products;
     countries := countries acc ++ map s_country products;
     conditions := conditions acc ++ map s_condition products;
     similarities := similarities acc ++ map s_similarity products |}.

(** The body of [for page_number in range(5)]. *)
Definition search_page (fuel : nat) (w : web) (title : string)
    (st : Q * found) (page_number : nat) : run (Q * found) :=
  let '(ramp_down, acc) := st in
  page <- create_url w title page_number ;;
  filtered_prices_descriptions <-
    listing_product_similarity page title similarity_threshold ;;
  st' <- match filtered_prices_descriptions with
         | _ :: _ => ret (ramp_down, filtered_prices_descriptions)
         | [] => ramp_down_loop fuel page title 0 ramp_down
         end ;;
  let '(ramp_down, filtered_prices_descriptions) := st' in
  ret (ramp_down, accumulate acc filtered_prices_descriptions).

Fixpoint search_pages (fuel : nat) (w : web) (title : string)
    (st : Q * found) (page_numbers : list nat) : run (Q * found) :=
  match page_numbers with
  | [] => ret st
  | page_number :: rest =>
      st' <- search_page fuel w title st page_number ;;
      search_pages fuel w title st' rest
  end.

Definition find_viable_product (fuel : nat) (w : web) (title : string)
    (ramp_down : Q) : run found :=
  st <- search_pages fuel w title (ramp_down, no_products) (seq 0 5) ;;
  match descriptions (snd st) with
  | [] => raise NoProductsFound
  | _ :: _ => ret (snd st)
  end.

End EbayScraper.

(** ** [scraper/views.py] *)

Module Views.
Import Py EbayScraper.

(** The call of [construct_candidates] in [Index.post], on the six lists
    [find_viable_product] returned: prices and shipping costs are the
    strings the search formatted. *)
Definition post_candidates (f : found) : outcome (dict details) :=
  construct_candidates (descriptions f) (map PyStr (prices f))
    (map PyStr (shippings f)) (countries f) (conditions f) (similarities f).

End Views.

(** ** [float] of a string

    [float(s)] of the Python language, as CPython defines it: white space
    is stripped from both ends, a sign may come first, then either one of
    the names [inf], [infinity] and [nan] in any case, or a number in
    decimal notation with an optional exponent, in whose runs of digits
    single underscores may separate digits.  Anything else raises
    [ValueError].  The value of a number is the rational it denotes. *)

Module Float.
Import Str.
Local Open Scope Q_scope.

Inductive float_value : Type :=
| Finite (x : Q)
| Infinity (negative : bool)
| NaN.

(** The white space [float] strips: TAB..CR and SPACE, and NEL and NBSP,
    which it turns into spaces first; FS..US are not stripped. *)
Definition is_float_space (c : ascii) : bool :=
  code_in 9 13 c || (nat_of_ascii c =? 32)%nat
  || (nat_of_ascii c =? 133)%nat || (nat_of_ascii c =? 160)%nat.

Fixpoint lstrip_float (s : string) : string :=
  match s with
  | EmptyString => EmptyString
  | String c s' => if is_float_space c then lstrip_float s' else s
  end.

Fixpoint rstrip_float (s : string) : string :=
  match s with
  | EmptyString => EmptyString
  | String c s' =>
      let r := rstrip_float s' in
      if is_float_space c && is_empty r then EmptyString else String c r
  end.

(** [(["_"] digit)*]: the digits read and what follows them. *)
Fixpoint digitpart_tail (s : string) : string * string :=
  match s with
  | EmptyString => (EmptyString, EmptyString)
  | String c s' =>
      if is_digit c then
        let (digits, rest) := digitpart_tail s' in (String c digits, rest)
      else if Ascii.eqb c "_" then
        match s' with
        | String c' s'' =>
            if is_digit c' then
              let (digits, rest) := digitpart_tail s'' in (String c' digits, rest)
            else (EmptyString, s)
        | EmptyString => (EmptyString, s)
        end
      else (EmptyString, s)
  end.

(** [digitpart ::= digit (["_"] digit)*]. *)
Definition digitpart (s : string) : option (string * string) :=
  match s with
  | String c s' =>
      if is_digit c then
        let (digits, rest) := digitpart_tail s' in Some (String c digits, rest)
      else None
  | EmptyString => None
  end.

(** The number a string of digits denotes, read from the left. *)
Definition digit_value (c : ascii) : N := N.of_nat (nat_of_ascii c - 48).

Fixpoint digits_from (value : N) (digits : string) : N :=
  match digits with
  | EmptyString => value
  | String c digits' => digits_from (10 * value + digit_value c) digits'
  end.

Definition digits_value (digits : string) : N := digits_from 0 digits.

(** [[sign]]: whether it is [-], and what follows. *)
Definition sign_of (s : string) : bool * string :=
  match s with
  | String c s' =>
      if Ascii.eqb c "-" then (true, s')
      else if Ascii.eqb c "+" then (false, s')
      else (false, s)
  | EmptyString => (false, s)
  end.

(** [[exponent]], with [exponent ::= ("e" | "E") [sign] digitpart]. *)
Definition exponent (s : string) : Z * string :=
  match s with
  | String c s' =>
      if Ascii.eqb c "e" || Ascii.eqb c "E" then
        let (negative, s'') := sign_of s' in
        match digitpart s'' with
        | Some (digits, rest) =>
            let e := Z.of_N (digits_value digits) in
            (if negative : bool then (- e)%Z else e, rest)
        | None => (0%Z, s)
        end
      else (0%Z, s)
  | EmptyString => (0%Z, s)
  end.

(** [number ::= [digitpart] "." digitpart | digitpart ["."]]: the digits
    before the point, those after it, and what follows. *)
Definition number (s : string) : option (string * string * string) :=
  match digitpart s with
  | Some (whole, rest) =>
      match rest with
      | String c rest' =>
          if Ascii.eqb c "." then
            match digitpart rest' with
            | Some (fraction, rest'') => Some (whole, fraction, rest'')
            | None => Some (whole, EmptyString, rest')
            end
          else Some (whole, EmptyString, rest)
      | EmptyString => Some (whole, EmptyString, rest)
      end
  | None =>
      match s with
      | String c rest' =>
          if Ascii.eqb c "." then
            match digitpart rest' with
            | Some (fraction, rest'') => Some (EmptyString, fraction, rest'')
            | None => None
            end
          else None
      | EmptyString => None
      end
  end.

(** [floatnumber ::= number [exponent]], to the end of the string. *)
Definition floatnumber (s : string) : option Q :=
  match number s with
  | Some (whole, fraction, rest) =>
      let (e, rest') := exponent rest in
      if is_empty rest' then
        Some (inject_Z (Z.of_N (digits_value (whole ++ fraction)))
              * Qpower 10 (e - Z.of_nat (String.length fraction)))
      else None
  | None => None
  end.

Definition py_float (s : string) : outcome float_value :=
  let s := rstrip_float (lstrip_float s) in
  let (negative, body) := sign_of s in
  let name := lower body in
  if String.eqb name "inf" || String.eqb name "infinity" then
    Ok (Infinity negative)
  else if String.eqb name "nan" then Ok NaN
  else match floatnumber body with
       | Some x => Ok (Finite (if negative : bool then - x else x))
       | None => Raise ValueError
       end.

End Float.

(** ** The getters of [scraper/shop_class.py]

    Each getter reads the texts of the elements [find_all] returns; the
    texts are their argument here. *)

Module EbayGetters.
Import Str Float.
Local Open Scope py_scope.

(** [s.replace(",", "")]. *)
Definition remove_commas (s : string) : string :=
  delete_chars (fun c => Ascii.eqb c ",") s.

(** The longest prefix of digits, and what follows it. *)
Fixpoint span_digits (s : string) : string * string :=
  match s with
  | EmptyString => (EmptyString, EmptyString)
  | String c s' =>
      if is_digit c then
        let (digits, rest) := span_digits s' in (String c digits, rest)
      else (EmptyString, s)
  end.

(** [[0-9]+ sep [0-9]+] matched where [s] starts: the repetitions are
    greedy, and giving digits back never helps, since a digit is not the
    separator. *)
Definition match_amount (sep : ascii) (s : string) : option string :=
  let (whole, rest) := span_digits s in
  match whole, rest with
  | String _ _, String c rest' =>
      if Ascii.eqb c sep then
        let (fraction, _) := span_digits rest' in
        match fraction with
        | String _ _ => Some (whole ++ String sep fraction)%string
        | EmptyString => None
        end
      else None
  | _, _ => None
  end.

(** [re.search(r"([0-9]+\.[0-9]+)|([0-9]+,[0-9]+)", s)]: the match at the
    first position where an alternative matches, the first alternative
    tried first. *)
Fixpoint search_price (s : string) : option string :=
  match match_amount "." s with
  | Some m => Some m
  | None =>
      match match_amount "," s with
      | Some m => Some m
      | None =>
          match s with
          | String _ s' => search_price s'
          | EmptyString => None
          end
      end
  end.

Fixpoint get_product_price (texts : list string) : outcome (list float_value) :=
  match texts with
  | [] => Ok []
  | text :: texts' =>
      match search_price text with
      | Some m =>
          let value := remove_commas m in
          price <- py_float value ;;
          prices <- get_product_price texts' ;;
          Ok (price :: prices)
      | None => get_product_price texts'
      end
  end.

(** The longest non-empty prefix of [s] that holds no line feed and ends
    with a digit. *)
Fixpoint upto_last_digit (s : string) : option string :=
  match s with
  | EmptyString => None
  | String c s' =>
      if Ascii.eqb c "010" then None
      else match upto_last_digit s' with
           | Some m => Some (String c m)
           | None => if is_digit c then Some (String c EmptyString) else None
           end
  end.

(** [[0-9]+.*[0-9]] matched where [s] starts: a digit, and then as much
    of the line as ends with a digit. *)
Definition match_cost (s : string) : option string :=
  match s with
  | String c s' =>
      if is_digit c then
        match upto_last_digit s' with
        | Some m => Some (String c m)
        | None => None
        end
      else None
  | EmptyString => None
  end.

(** What [re.search(r"([0-9]+.*[0-9])|(Free)|(not specified)", s)] finds:
    the first group, or one of the two phrases. *)
Inductive shipping_match : Type :=
| Cost (group1 : string)
| Phrase.

Fixpoint search_shipping (s : string) : option shipping_match :=
  match match_cost s with
  | Some g => Some (Cost g)
  | None =>
      if String.prefix "Free" s || String.prefix "not specified" s
      then Some Phrase
      else match s with
           | String _ s' => search_shipping s'
           | EmptyString => None
           end
  end.

Fixpoint get_product_shipping (texts : list string) : outcome (list float_value) :=
  match texts with
  | [] => Ok []
  | text :: texts' =>
      cost <- match search_shipping text with
              | None => Ok (Finite 0)
              | Some (Cost group1) =>
                  let price := remove_commas group1 in py_float price
              | Some Phrase => Ok (Finite 0)
              end ;;
      shipping_costs <- get_product_shipping texts' ;;
      Ok (cost :: shipping_costs)
  end.

End EbayGetters.

(** ** The search, from the texts of the pages

    [find_viable_product] with the getters it runs at every filtering
    attempt: a page is the texts of the elements the five getters look
    for, and [get_product_info] reads them each time it is called, so that
    the [ValueError] of [get_product_shipping], which nothing catches, ends
    the search.  After [create_url] has returned, [self.soup] is set and
    [_require_soup] does not raise. *)

Module EbayTexts.
Import Str Py Float EbayScraper EbayGetters.
Local Open Scope Q_scope.
Local Open Scope py_scope.

(** The texts of the elements of the five classes, in the order of the
    page. *)
Record texts : Type := {
  title_texts : list string;
  price_texts : list string;
  shipping_texts : list string;
  location_texts : list string;
  condition_texts : list string
}.

(** [s.replace("from ", "")]: every occurrence is removed, from the left;
    [skip] counts the characters of an occurrence still to pass. *)
Fixpoint remove_from (skip : nat) (s : string) : string :=
  match s with
  | EmptyString => EmptyString
  | String c s' =>
      match skip with
      | S skip' => remove_from skip' s'
      | O =>
          if String.prefix "from " (String c s') then remove_from 4 s'
          else String c (remove_from 0 s')
      end
  end.

Definition get_product_title (page : texts) : list string := title_texts page.

Definition get_product_condition (page : texts) : list string :=
  condition_texts page.

Definition get_product_country (page : texts) : list string :=
  map (remove_from 0) (location_texts page).

(** The float a getter has appended to its list: the getters read digits,
    so it is a number ([get_product_price_returns],
    [get_product_shipping_cases]). *)
Definition number (v : float_value) : Q :=
  match v with
  | Finite x => x
  | _ => 0
  end.

Definition get_product_info (page : texts) : outcome (list product) :=
  let titles := get_product_title page in
  prices <- get_product_price (price_texts page) ;;
  shipping <- get_product_shipping (shipping_texts page) ;;
  let countries := get_product_country page in
  let conditions := get_product_condition page in
  Ok (EbayScraper.get_product_info
        {| product_title := titles;
           product_price := map number prices;
           product_shipping := map number shipping;
           product_country := countries;
           product_condition := conditions |}).

Local Open Scope run_scope.

Definition listing_product_similarity (page : texts) (title : string)
    (similarity_threshold : Q) : run (dict scored) :=
  match get_product_info page with
  | Ok product_info =>
      let call :=
        filter_products_by_similarity product_info (lower title)
          similarity_threshold in
      (trace call ++ [Filter similarity_threshold (result call)], result call)
  | Raise e => raise e
  | OutOfFuel => out_of_fuel
  end.

Fixpoint ramp_down_loop (fuel : nat) (page : texts) (title : string)
    (consecutively_empty : nat) (ramp_down : Q) : run (Q * dict scored) :=
  match fuel with
  | O => out_of_fuel
  | S fuel' =>
      let ramp_down := ramp_down + ramp_step in
      filtered_prices_descriptions <-
        listing_product_similarity page title
          (py_max 0 (similarity_threshold - ramp_down)) ;;
      if (consecutively_empty =? 2)%nat then
        ret (ramp_down, filtered_prices_descriptions)
      else
        match filtered_prices_descriptions with
        | _ :: _ => ret (ramp_down, filtered_prices_descriptions)
        | [] => ramp_down_loop fuel' page title (consecutively_empty + 1) ramp_down
        end
  end.

(** What the request for a query and a page returns, [None] when it
    fails. *)
Definition web : Type := string -> nat -> option texts.

Definition create_url (w : web) (title : string) (start : nat) : run texts :=
  emit (Fetch title start) ;;;
  match w title start with
  | Some page => ret page
  | None => raise ScraperRequestError
  end.

Definition search_page (fuel : nat) (w : web) (title : string)
    (st : Q * found) (page_number : nat) : run (Q * found) :=
  let '(ramp_down, acc) := st in
  page <- create_url w title page_number ;;
  filtered_prices_descriptions <-
    listing_product_similarity page title similarity_threshold ;;
  st' <- match filtered_prices_descriptions with
         | _ :: _ => ret (ramp_down, filtered_prices_descriptions)
         | [] => ramp_down_loop fuel page title 0 ramp_down
         end ;;
  let '(ramp_down, filtered_prices_descriptions) := st' in
  ret (ramp_down, accumulate acc filtered_prices_descriptions).

Fixpoint search_pages (fuel : nat) (w : web) (title : string)
    (st : Q * found) (page_numbers : list nat) : run (Q * found) :=
  match page_numbers with
  | [] => ret st
  | page_number :: rest =>
      st' <- search_page fuel w title st page_number ;;
      search_pages fuel w title st' rest
  end.

Definition find_viable_product (fuel : nat) (w : web) (title : string)
    (ramp_down : Q) : run found :=
  st <- search_pages fuel w title (ramp_down, no_products) (seq 0 5) ;;
  match descriptions (snd st) with
  | [] => raise NoProductsFound
  | _ :: _ => ret (snd st)
  end.

End EbayTexts.

(** ** [Index.post], from the candidates to the total

    Lines 85 to 121 of [scraper/views.py]: what the view computes from the
    six lists the search returned, up to the total cost of the best
    product.  An exception the view does not catch ends it. *)

Module IndexPost.
Import Str Py Float EbayScraper EbayGetters Views.

(** [float(x)] of an entry of the candidates. *)
Definition float_of (v : pyval) : outcome float_value :=
  match v with
  | PyFloat x => Ok (Finite x)
  | PyStr s => py_float s
  end.

(** [[float(s.replace(",", "")) for s in l]]. *)
Fixpoint parse_amounts (l : list string) : outcome (list float_value) :=
  match l with
  | [] => Ok []
  | s :: l' =>
      match py_float (remove_commas s) with
      | Ok x =>
          match parse_amounts l' with
          | Ok xs => Ok (x :: xs)
          | Raise e => Raise e
          | OutOfFuel => OutOfFuel
          end
      | Raise e => Raise e
      | OutOfFuel => OutOfFuel
      end
  end.

(** [l.index(x)], [None] standing for [ValueError]. *)
Fixpoint index (x : string) (l : list string) : option nat :=
  match l with
  | [] => None
  | y :: l' => if String.eqb y x then Some 0%nat else option_map S (index x l')
  end.

(** [x + y] on floats. *)
Definition float_add (x y : float_value) : float_value :=
  match x, y with
  | Finite a, Finite b => Finite (a + b)
  | NaN, _ => NaN
  | _, NaN => NaN
  | Infinity s, Infinity t => if Bool.eqb s t then Infinity s else NaN
  | Infinity s, Finite _ => Infinity s
  | Finite _, Infinity t => Infinity t
  end.

(** [f"{x:,.2f}"] on floats. *)
Definition format_float (x : float_value) : string :=
  match x with
  | Finite a => format_money a
  | Infinity false => "inf"
  | Infinity true => "-inf"
  | NaN => "nan"
  end.

(** What the view has computed when it reaches line 121. *)
Record best : Type := {
  best_description : string;
  best_price_display : string;
  best_shipping_display : string;
  best_total : float_value;
  best_score : Q
}.

(** How the view ends: with the form and an error message, with the
    values of the best product, or with an exception it does not catch. *)
Inductive response : Type :=
| FormError (message : string)
| Best (b : best)
| Uncaught (e : exn)
| UncaughtIndexError
| Unfinished.

Definition post_best (f : found) : response :=
  match post_candidates f with
  | Raise e => Uncaught e
  | OutOfFuel => Unfinished
  | Ok candidates =>
  match parse_amounts (prices f) with
  | Raise ValueError => FormError "We couldn't parse eBay pricing data."
  | Raise e => Uncaught e
  | OutOfFuel => Unfinished
  | Ok similar_prices_float =>
  match parse_amounts (shippings f) with
  | Raise ValueError => FormError "We couldn't parse eBay pricing data."
  | Raise e => Uncaught e
  | OutOfFuel => Unfinished
  | Ok similar_shipping_float =>
  match lowest_price_highest_similarity candidates with
  | Raise NoProductsFound =>
      FormError "We couldn't determine the best comparable listing."
  | Raise e => Uncaught e
  | OutOfFuel => Unfinished
  | Ok (best_description, best_details) =>
  match float_of (d_price best_details) with
  | Raise e => Uncaught e
  | OutOfFuel => Unfinished
  | Ok best_price =>
  match float_of (d_shipping best_details) with
  | Raise e => Uncaught e
  | OutOfFuel => Unfinished
  | Ok best_shipping =>
      let best_country := d_country best_details in
      let best_score := (d_similarity best_details * 100)%Q in
      let idx :=
        match index best_country (countries f) with
        | Some i => i
        | None => 0%nat
        end in
      match nth_error similar_prices_float idx with
      | None => UncaughtIndexError
      | Some price_at_idx =>
      match nth_error similar_shipping_float idx with
      | None => UncaughtIndexError
      | Some shipping_at_idx =>
          Best {| best_description := best_description;
                  best_price_display := format_float price_at_idx;
                  best_shipping_display := format_float shipping_at_idx;
                  best_total := float_add best_price best_shipping;
                  best_score := best_score |}
      end end
  end end end end end end.

End IndexPost.

(** ** [utils.create_bargraph], up to the figure

    What the bar graph shows: the names, the heights and the hover texts
    of its bars, or nothing for an empty sequence. *)

Module Bargraph.
Import Py.

(** [Counter(countries)]: each element counted, keyed where it first
    occurs. *)
Fixpoint count_from (country_counts : dict nat) (countries : list string)
  : dict nat :=
  match countries with
  | [] => country_counts
  | country :: countries' =>
      count_from
        (dict_set country
           (match dict_get country country_counts with
            | Some count => S count
            | None => 1%nat
            end)
           country_counts)
        countries'
  end.

Definition Counter (countries : list string) : dict nat := count_from [] countries.

(** [str(count)]. *)
Definition str_nat (count : nat) : string := decimal (N.of_nat count).

Record bars : Type := {
  x : list string;
  y : list nat;
  hovertext : list string
}.

Definition create_bargraph (countries : list string) : option bars :=
  match countries with
  | [] => None
  | _ :: _ =>
      let country_counts := Counter countries in
      let country_names := keys country_counts in
      let country_values := values country_counts in
      Some {| x := country_names;
              y := country_values;
              hovertext :=
                map (fun entry : string * nat =>
                       ("Country: " ++ fst entry ++ "<br>Citations: "
                        ++ str_nat (snd entry))%string)
                    (combine country_names country_values) |}
  end.

End Bargraph.

(** ** [scraper/marketplace_class.py]: the metadata of a listing

    The scraper reads the [application/ld+json] scripts of the page.  A
    script is given here by what [json.loads] makes of it, [None] when it
    raises [JSONDecodeError]. *)

Module Marketplace.
Import Str Py Float.

(** A value decoded from JSON; an object is a [dict]. *)
#[warnings="-register-all"] Inductive json : Type :=
| JNull
| JBool (b : bool)
| JInt (z : Z)
| JFloat (x : float_value)
| JStr (s : string)
| JList (items : list json)
| JObject (members : dict json).

(** [json_content.update(d)]. *)
Definition update (json_content d : dict json) : dict json :=
  fold_left (fun content entry => dict_set (fst entry) (snd entry) content)
    d json_content.

(** The loop over the items of a decoded list. *)
Fixpoint update_items (json_content : dict json) (parsed_content : list json)
  : dict json :=
  match parsed_content with
  | [] => json_content
  | JObject item :: rest => update_items (update json_content item) rest
  | _ :: rest => update_items json_content rest
  end.

(** The loop over the scripts, in [__init__]. *)
Fixpoint collect (json_content : dict json) (script_tag : list (option json))
  : dict json :=
  match script_tag with
  | [] => json_content
  | None :: rest => collect json_content rest
  | Some (JObject parsed_content) :: rest =>
      collect (update json_content parsed_content) rest
  | Some (JList parsed_content) :: rest =>
      collect (update_items json_content parsed_content) rest
  | Some _ :: rest => collect json_content rest
  end.

(** [key in d]. *)
Definition has_key (key : string) (d : dict json) : bool :=
  match dict_get key d with Some _ => true | None => false end.

Definition required_keys : list string :=
  ["offers"; "name"; "description"; "itemListElement"]%string.

Definition _validate_schema (json_content : dict json) : outcome unit :=
  let missing := filter (fun key => negb (has_key key json_content)) required_keys in
  match missing with
  | _ :: _ => Raise InvalidDataFormat
  | [] =>
      match dict_get "itemListElement" json_content with
      | Some (JList item_list) =>
          if (List.length item_list <? 3)%nat then Raise InvalidDataFormat
          else
            match dict_get "offers" json_content with
            | Some (JObject offers) =>
                if negb (has_key "price" offers)
                   || negb (has_key "priceCurrency" offers)
                then Raise InvalidDataFormat
                else Ok tt
            | _ => Raise InvalidDataFormat
            end
      | _ => Raise InvalidDataFormat
      end
  end.

(** [FacebookMarketplaceScraper(mobile_soup, base_soup)], as far as the
    metadata goes: the content collected, once validated. *)
Definition init (script_tag : list (option json)) : outcome (dict json) :=
  let json_content := collect [] script_tag in
  match _validate_schema json_content with
  | Ok _ => Ok json_content
  | Raise e => Raise e
  | OutOfFuel => OutOfFuel
  end.

(** [float(v)] with [TypeError] and [ValueError] turned into
    [InvalidDataFormat], as [get_listing_price] does.  An integer is the
    rational it is: the [OverflowError] of one too large for a [float] is
    not in the model. *)
Definition float_or_invalid (v : json) : outcome float_value :=
  match v with
  | JBool b => Ok (Finite (if b then 1 else 0))
  | JInt z => Ok (Finite (inject_Z z))
  | JFloat x => Ok x
  | JStr s =>
      match py_float s with
      | Ok x => Ok x
      | _ => Raise InvalidDataFormat
      end
  | JNull => Raise InvalidDataFormat
  | JList _ => Raise InvalidDataFormat
  | JObject _ => Raise InvalidDataFormat
  end.

(** [v[key]] for a string [key], [None] for the [KeyError] of an object
    without the key and for the [TypeError] of any other value. *)
Definition member (key : string) (v : json) : option json :=
  match v with
  | JObject d => dict_get key d
  | _ => None
  end.

(** [v[i]] followed by a subscript with a string key: an item of a list;
    a one-character string taken from a string cannot be subscripted with
    a key, nor can what any other value gives. *)
Definition item (i : nat) (v : json) : option json :=
  match v with
  | JList items => nth_error items i
  | _ => None
  end.

Definition get_listing_price (json_content : dict json) : outcome float_value :=
  match dict_get "offers" json_content with
  | Some offers =>
      match member "price" offers with
      | Some price => float_or_invalid price
      | None => Raise InvalidDataFormat
      end
  | None => Raise InvalidDataFormat
  end.

Section Getters.
(** [str(v)] of a decoded value. *)
Variable py_str : json -> string.

Definition get_listing_title (json_content : dict json) : outcome string :=
  match dict_get "name" json_content with
  | Some name => Ok (py_str name)
  | None => Raise InvalidDataFormat
  end.

Definition get_listing_description (json_content : dict json) : outcome string :=
  match dict_get "description" json_content with
  | Some description => Ok (py_str description)
  | None => Raise InvalidDataFormat
  end.

Definition listing_item_name (i : nat) (json_content : dict json)
  : outcome string :=
  match dict_get "itemListElement" json_content with
  | Some item_list =>
      match item i item_list with
      | Some element =>
          match member "name" element with
          | Some name => Ok (py_str name)
          | None => Raise InvalidDataFormat
          end
      | None => Raise InvalidDataFormat
      end
  | None => Raise InvalidDataFormat
  end.

Definition get_listing_city (json_content : dict json) : outcome string :=
  listing_item_name 1 json_content.

Definition get_listing_category (json_content : dict json) : outcome string :=
  listing_item_name 2 json_content.

Definition get_listing_currency (json_content : dict json) : outcome string :=
  match dict_get "offers" json_content with
  | Some offers =>
      match member "priceCurrency" offers with
      | Some currency => Ok (py_str currency)
      | None => Raise InvalidDataFormat
      end
  | None => Raise InvalidDataFormat
  end.

End Getters.

End Marketplace.

(** ** [utils._validate_chart_inputs] *)

Module Chart.

Definition _validate_chart_inputs {A B C D : Type}
    (similar_prices : list A) (similar_shipping : list B)
    (similar_descriptions : list C) (similar_conditions : list D)
  : outcome unit :=
  let prices := List.length similar_prices in
  let shipping := List.length similar_shipping in
  let descriptions := List.length similar_descriptions in
  let conditions := List.length similar_conditions in
  if negb ((shipping =? prices)%nat && (descriptions =? prices)%nat
           && (conditions =? prices)%nat)
  then Raise InvalidDataFormat
  else if (prices =? 0)%nat then Raise InvalidDataFormat
  else Ok tt.

End Chart.

(** * Notions used to state the properties *)

Section TitleNotions.
Import Str.
Local Open Scope string_scope.

(** A lower-case letter or a digit: the characters of a normalised title
    other than the separating space. *)
Definition is_word_char (c : ascii) : bool := is_lower c || is_digit c.

(** [spaced prev s]: [s] is made of word characters and single spaces, and
    does not start with a space when [prev] tells that a space precedes. *)
Fixpoint spaced (prev : bool) (s : string) : bool :=
  match s with
  | EmptyString => true
  | String c s' =>
      if Ascii.eqb c " " then negb prev && spaced true s'
      else is_word_char c && spaced false s'
  end.

(** Word characters and white space only, nothing in upper case. *)
Fixpoint plain (s : string) : bool :=
  match s with
  | EmptyString => true
  | String c s' => (is_word_char c || is_space c) && plain s'
  end.

End TitleNotions.

Section SelectionNotions.
Import Str Py EbayScraper.
Local Open Scope Q_scope.

(** The two kinds of prices. *)
Definition is_float (v : pyval) : Prop := exists p, v = PyFloat p.
Definition is_str (v : pyval) : Prop := exists s, v = PyStr s.

(** The candidates of the specification's data model: every price is a
    float. *)
Definition float_priced (d : dict details) : Prop :=
  forall entry, In entry d -> is_float (d_price (snd entry)).

(** The entries of greatest similarity. *)
Definition most_similar (d : dict details) (e : string * details) : Prop :=
  In e d /\ forall e', In e' d -> d_similarity (snd e') <= d_similarity (snd e).

(** The two candidates of similarity 0.9 priced 20 and 10. *)
Definition two_tied_candidates : dict details :=
  [ ("first"%string,
     {| d_price := PyFloat 20; d_shipping := PyFloat 0; d_country := "US";
        d_condition := "New"; d_similarity := 9 # 10 |});
    ("second"%string,
     {| d_price := PyFloat 10; d_shipping := PyFloat 0; d_country := "US";
        d_condition := "New"; d_similarity := 9 # 10 |}) ].

(** A threshold the filter accepts. *)
Definition valid_threshold (t : Q) : Prop := 0 <= t /\ t <= 1.

(** The product of the repository's filter test. *)
Definition test_item : product :=
  {| title := "test item"; price := 10; shipping := 2; country := "US";
     condition := "New" |}.

End SelectionNotions.

Section SearchNotions.
Import Str Py EbayScraper.
Local Open Scope Q_scope.

(** The pages requested, in order. *)
Fixpoint page_requests (l : list event) : list nat :=
  match l with
  | [] => []
  | Fetch _ page :: l' => page :: page_requests l'
  | _ :: l' => page_requests l'
  end.

(** The thresholds of the filtering attempts, in order. *)
Fixpoint thresholds (l : list event) : list Q :=
  match l with
  | [] => []
  | Filter t _ :: l' => t :: thresholds l'
  | _ :: l' => thresholds l'
  end.

(** An event other than a filtering attempt that found something or
    raised. *)
Definition quiet (e : event) : Prop :=
  match e with
  | Filter _ r => r = Ok []
  | _ => True
  end.

(** The thresholds of [n] successive iterations of the loop entered with
    the accumulator [ramp_down]: each adds 0.05 to the accumulator and
    filters at [max(0, 0.35 - accumulator)]. *)
Fixpoint ramp_thresholds (n : nat) (ramp_down : Q) : list Q :=
  match n with
  | O => []
  | S n' =>
      py_max 0 (similarity_threshold - (ramp_down + ramp_step))
      :: ramp_thresholds n' (ramp_down + ramp_step)
  end.

(** A page on which nothing was extracted. *)
Definition empty_page : soup :=
  {| product_title := []; product_price := []; product_shipping := [];
     product_country := []; product_condition := [] |}.

(** The web on which every page is empty. *)
Definition empty_web : web := fun _ _ => Some empty_page.

(** A filtering attempt at a threshold that is not negative and, when
    [strict], not above 0.35 and not rejected. *)
Definition clamped (strict : bool) (e : event) : Prop :=
  match e with
  | Filter t r =>
      0 <= t
      /\ (strict = true ->
          t <= similarity_threshold /\ r <> Raise InvalidSimilarityThreshold)
  | _ => True
  end.

(** A run all of whose attempts are clamped, that does not raise
    [InvalidSimilarityThreshold] when [strict], and whose value satisfies
    [post]. *)
Definition safe {A} (strict : bool) (post : A -> Prop) (m : run A) : Prop :=
  Forall (clamped strict) (trace m)
  /\ (strict = true -> result m <> Raise InvalidSimilarityThreshold)
  /\ (forall a, result m = Ok a -> post a).

(** The outcomes of the filtering attempts, in order. *)
Fixpoint outcomes (l : list event) : list (outcome (dict scored)) :=
  match l with
  | [] => []
  | Filter _ r :: l' => r :: outcomes l'
  | _ :: l' => outcomes l'
  end.

End SearchNotions.

Section MatcherNotions.
Import Difflib.
Local Open Scope nat_scope.

(** A block inside the region [a[alo:ahi]], [b[blo:bhi]]. *)
Definition block_within (alo ahi blo bhi : nat) (x : block) : Prop :=
  let '(i, j, k) := x in
  alo <= i /\ i + k <= ahi /\ blo <= j /\ j + k <= bhi.

(** The lengths recorded in a row of [j2len] while row [i] is scanned: a
    match ending at [(i, j)] fits between [alo] and [i], [blo] and [j]. *)
Definition row_within (alo blo i : nat) (m : nat -> nat) : Prop :=
  forall j, m j <= S i - alo /\ m j <= S j - blo.

(** A region of the queue, and the measure that decreases at every
    iteration of the loop of [get_matching_blocks]. *)
Definition region_ok (r : region) : Prop :=
  let '(alo, ahi, blo, bhi) := r in alo <= ahi /\ blo <= bhi.

Fixpoint queue_size (queue : list region) : nat :=
  match queue with
  | [] => 0
  | (alo, ahi, _, _) :: queue' => 2 * (ahi - alo) + 1 + queue_size queue'
  end.

(** [diag c i]: the number of consecutive elements of [c] that are not
    popular and end just before position [i]; the length recorded on the
    diagonal of [j2len] after row [i - 1] when [c] is matched with itself. *)
Fixpoint diag (c : list ascii) (i : nat) : nat :=
  match i with
  | 0 => 0
  | S i' => if is_popular c (elt_at c i') then 0 else S (diag c i')
  end.

(** The row of [j2len] met when row [i] is scanned: no entry exceeds the
    diagonal one, which is [diag c i]. *)
Definition row_diag (c : list ascii) (i : nat) (m : nat -> nat) : Prop :=
  (forall j, j2len_get_pred m j <= diag c (Nat.min j i))
  /\ j2len_get_pred m i = diag c i.

(** The best match so far lies on the diagonal, within the [n] elements,
    and is at least as long as every diagonal run seen. *)
Definition best_diag (c : list ascii) (n i : nat) (best : block) : Prop :=
  let '(besti, bestj, bestsize) := best in
  besti = bestj /\ besti + bestsize <= n
  /\ forall j, j <= i -> diag c j <= bestsize.

(** The diagonal entry of row [i] has been written and counted. *)
Definition visited (c : list ascii) (i : nat) (m : nat -> nat) (best : block)
  : Prop :=
  m i = diag c (S i) /\ diag c (S i) <= snd best.

End MatcherNotions.

Section CandidateNotions.
Import Str Py EbayScraper Views.
Local Open Scope Q_scope.

(** A string written by the format [",.2f"]. *)
Definition money (s : string) : Prop := exists x, s = format_money x.

(** The six lists are parallel, and prices and shipping costs are
    formatted amounts. *)
Definition parallel (f : found) : Prop :=
  let n := List.length (descriptions f) in
  List.length (prices f) = n /\ List.length (shippings f) = n
  /\ List.length (countries f) = n /\ List.length (conditions f) = n
  /\ List.length (similarities f) = n
  /\ Forall money (prices f) /\ Forall money (shippings f).

(** An entry whose price and shipping cost are formatted strings. *)
Definition formatted (d : details) : Prop :=
  exists p q, d_price d = PyStr (format_money p)
              /\ d_shipping d = PyStr (format_money q).

(** A first page with two listings as similar to the query as each other,
    one at 99.00 and one at 1000.00, and empty pages after it. *)
Definition two_cameras : soup :=
  {| product_title := ["Camera One"; "Camera Two"]%string;
     product_price := [99; 1000];
     product_shipping := [5; 0];
     product_country := ["US"; "US"]%string;
     product_condition := ["Used"; "New"]%string |}.

(** The web that serves them, and what a search for ["camera"] returns
    on it. *)
Definition camera_web : web :=
  fun _ page => if (page =? 0)%nat then Some two_cameras else Some empty_page.

Definition camera_found : found :=
  Eval vm_compute in
    match result (find_viable_product 3 camera_web "camera" 0) with
    | Ok f => f
    | _ => no_products
    end.

End CandidateNotions.

Section TextNotions.
Import Str.
Local Open Scope string_scope.

(** Whether the character occurs in the string. *)
Fixpoint has_char (c : ascii) (s : string) : bool :=
  match s with
  | EmptyString => false
  | String x s' => Ascii.eqb x c || has_char c s'
  end.

(** [single_spaced prev s]: [s] is made of ASCII letters and digits and of
    single spaces, and does not start with a space when [prev] tells that
    a space precedes. *)
Fixpoint single_spaced (prev : bool) (s : string) : bool :=
  match s with
  | EmptyString => true
  | String c s' =>
      if Ascii.eqb c " " then negb prev && single_spaced true s'
      else is_alnum c && single_spaced false s'
  end.

(** Letters, digits and white space only. *)
Fixpoint alnum_or_space (s : string) : bool :=
  match s with
  | EmptyString => true
  | String c s' => (is_alnum c || is_space c) && alnum_or_space s'
  end.

(** The last character is a space. *)
Fixpoint ends_with_space (s : string) : bool :=
  match s with
  | EmptyString => false
  | String c EmptyString => Ascii.eqb c " "
  | String _ s' => ends_with_space s'
  end.

End TextNotions.

Section MatcherSizeNotions.
Import Difflib.
Local Open Scope nat_scope.

(** The total length of a list of blocks. *)
Definition sizes (l : list block) : nat := list_sum (map (fun x : block => snd x) l).

(** The elements of [a], and of [b], that the regions of the queue cover. *)
Fixpoint span_a (queue : list region) : nat :=
  match queue with
  | [] => 0
  | (alo, ahi, _, _) :: queue' => (ahi - alo) + span_a queue'
  end.

Fixpoint span_b (queue : list region) : nat :=
  match queue with
  | [] => 0
  | (_, _, blo, bhi) :: queue' => (bhi - blo) + span_b queue'
  end.

End MatcherSizeNotions.

Section FilterNotions.
Import Str Py EbayScraper.
Local Open Scope Q_scope.

(** The last product of the list that has the title. *)
Fixpoint last_with_title (k : string) (product_info : list product)
  : option product :=
  match product_info with
  | [] => None
  | p :: rest =>
      match last_with_title k rest with
      | Some q => Some q
      | None => if String.eqb (title p) k then Some p else None
      end
  end.

(** The entry the filter stores for a product. *)
Definition scored_of (target_title : string) (p : product) : scored :=
  {| s_price := price p; s_shipping := shipping p; s_country := country p;
     s_condition := condition p;
     s_similarity := get_similarity (title p) target_title |}.

End FilterNotions.

Section CandidateRowsNotions.
Import Str Py EbayScraper.
Local Open Scope Q_scope.

(** The rows of six parallel lists, as far as the shortest goes. *)
Fixpoint rows (descriptions : list string) (prices shipping : list pyval)
    (countries conditions : list string) (similarities : list Q)
  : list (string * details) :=
  match descriptions, prices, shipping, countries, conditions, similarities with
  | description :: descriptions', price :: prices', ship :: shipping',
    country :: countries', condition :: conditions', similarity :: similarities' =>
      (description,
       {| d_price := price; d_shipping := ship; d_country := country;
          d_condition := condition; d_similarity := similarity |})
      :: rows descriptions' prices' shipping' countries' conditions' similarities'
  | _, _, _, _, _, _ => []
  end.

(** The value of the last pair with the key. *)
Fixpoint last_entry {V : Type} (k : string) (l : list (string * V)) : option V :=
  match l with
  | [] => None
  | (k', v) :: l' =>
      match last_entry k l' with
      | Some v' => Some v'
      | None => if String.eqb k' k then Some v else None
      end
  end.

(** The list without the repetitions of its elements: each is kept where it
    first occurs. *)
Fixpoint first_occurrences (l : list string) : list string :=
  match l with
  | [] => []
  | k :: l' => k :: filter (fun k' => negb (String.eqb k' k)) (first_occurrences l')
  end.

(** The six lists have one length. *)
Definition same_lengths (descriptions : list string) (prices shipping : list pyval)
    (countries conditions : list string) (similarities : list Q) : Prop :=
  let n := List.length descriptions in
  List.length prices = n /\ List.length shipping = n
  /\ List.length countries = n /\ List.length conditions = n
  /\ List.length similarities = n.

(** Two entries whose prices are of different kinds. *)
Definition mixed_prices (d : dict details) : Prop :=
  exists e1 e2, In e1 d /\ In e2 d
                /\ is_float (d_price (snd e1)) /\ is_str (d_price (snd e2)).

End CandidateRowsNotions.

Section PageNotions.
Import Str Py EbayScraper.
Local Open Scope Q_scope.

(** The records of a page before any row is removed. *)
Definition raw_records (page : soup) : list product :=
  zip_products (product_title page) (product_price page) (product_shipping page)
    (product_country page) (product_condition page).

(** A page of a hundred listings, the last of them at a price far from the
    others. *)
Definition hundred_listings : soup :=
  {| product_title := repeat "Camera"%string 100;
     product_price := (map (fun i => inject_Z (Z.of_nat i)) (seq 1 99) ++ [100000])%list;
     product_shipping := repeat 0 100;
     product_country := repeat "US"%string 100;
     product_condition := repeat "New"%string 100 |}.

End PageNotions.

Section RampNotions.
Import Str Py EbayScraper.
Local Open Scope Q_scope.

(** The accumulator after [n] iterations of the ramp-down loop. *)
Fixpoint ramped (n : nat) (ramp_down : Q) : Q :=
  match n with
  | O => ramp_down
  | S n' => ramped n' (ramp_down + ramp_step)
  end.

(** The thresholds of a search over [pages] pages on each of which the
    base attempt and three ramped ones are made, the accumulator being
    carried from a page to the next. *)
Fixpoint quiet_thresholds (pages : nat) (ramp_down : Q) : list Q :=
  match pages with
  | O => []
  | S pages' =>
      (similarity_threshold :: ramp_thresholds 3 ramp_down)
      ++ quiet_thresholds pages' (ramped 3 ramp_down)
  end.

(** A description and the similarity returned with it. *)
Definition scored_against (target : string) (description : string) (s : Q) : Prop :=
  s = get_similarity description target /\ 0 <= s <= 1.

End RampNotions.

Section GetterNotions.
Import Str Py Float EbayGetters.
Local Open Scope Q_scope.

(** Every character of the string is of the class. *)
Fixpoint all_chars (P : ascii -> bool) (s : string) : bool :=
  match s with
  | EmptyString => true
  | String c s' => P c && all_chars P s'
  end.

(** The text holds an amount the price getter reads. *)
Definition has_price (text : string) : bool :=
  match search_price text with Some _ => true | None => false end.

(** A number that is not negative. *)
Definition amount (v : float_value) : Prop := exists x, v = Finite x /\ 0 <= x.

(** What follows a run of digits: the end, or a character that is neither
    a digit nor an underscore. *)
Definition ends_digits (rest : string) : Prop :=
  match rest with
  | EmptyString => True
  | String c _ => is_digit c = false /\ Ascii.eqb c "_" = false
  end.

(** The value of [whole.fraction]. *)
Definition decimal_value (whole fraction : string) : Q :=
  inject_Z (Z.of_N (digits_value (whole ++ fraction)))
  * Qpower 10 (0 - Z.of_nat (String.length fraction)).

End GetterNotions.

Section AmountNotions.
Import Str Py Float EbayGetters.
Local Open Scope Q_scope.

(** The hundredths the format [",.2f"] writes for an amount. *)
Definition cents (x : Q) : N :=
  round_half_even (Z.abs_N (Qnum x) * 100) (Npos (Qden x)).

(** The amount rounded to the hundredth. *)
Definition rounded (x : Q) : Q :=
  let r := inject_Z (Z.of_N (cents x)) / 100 in
  if Qlt_bool x 0 then - r else r.

(** The amount is written with a thousands separator: it rounds to
    1,000.00 or more. *)
Definition in_thousands (x : Q) : Prop := (100000 <= cents x)%N.

End AmountNotions.

Section MarketplaceNotions.
Import Py Float Marketplace.

(** A conversion to strings that gives a string itself. *)
Definition sample_str (v : json) : string :=
  match v with JStr s => s | _ => EmptyString end.

(** The metadata of a listing, in one script. *)
Definition sample_scripts : list (option json) :=
  [Some (JObject
     [("name", JStr "Camera"); ("description", JStr "A camera");
      ("offers", JObject [("price", JStr "10.00"); ("priceCurrency", JStr "CAD")]);
      ("itemListElement",
       JList [JObject [("name", JStr "Marketplace")];
              JObject [("name", JStr "Toronto")];
              JStr "Electronics"])]%string)].

Definition sample_content : dict json :=
  Eval vm_compute in collect [] sample_scripts.

End MarketplaceNotions.

Section SimilarityLengthNotions.
Import Str Py EbayScraper.

(** The characters the matcher is given for an argument. *)
Definition cleaned (s : string) : list ascii :=
  list_ascii_of_string (delete_chars is_punctuation (strip (lower s))).

End SimilarityLengthNotions.

Section SelectionOrderNotions.
Import Str Py Float EbayScraper EbayGetters Views.
Local Open Scope Q_scope.

(** The candidates [Index.post] passes to the selector: every price is a
    string. *)
Definition str_priced (d : dict details) : Prop :=
  forall entry, In entry d -> is_str (d_price (snd entry)).

(** The amount a price stands for: the float itself, or the number
    [float(s.replace(",", ""))] that [Index.post] reads from the string. *)
Definition amount_of (v : pyval) : option Q :=
  match v with
  | PyFloat x => Some x
  | PyStr s =>
      match py_float (remove_commas s) with
      | Ok (Finite x) => Some x
      | _ => None
      end
  end.

(** No entry as similar as [best] stands for a lower amount. *)
Definition least_amount (d : dict details) (best : string * details) : Prop :=
  forall e p q,
    In e d -> d_similarity (snd e) == d_similarity (snd best) ->
    amount_of (d_price (snd best)) = Some p ->
    amount_of (d_price (snd e)) = Some q -> p <= q.

(** The candidates of the search for ["camera"] on [camera_web]. *)
Definition camera_candidates : dict details :=
  Eval vm_compute in
    match post_candidates camera_found with
    | Ok candidates => candidates
    | _ => []
    end.

(** Two candidates, one priced by a float and one by a string. *)
Definition two_kinds : dict details :=
  [ ("first"%string,
     {| d_price := PyFloat 20; d_shipping := PyFloat 0; d_country := "US";
        d_condition := "New"; d_similarity := 9 # 10 |});
    ("second"%string,
     {| d_price := PyStr "10.00"; d_shipping := PyStr "0.00"; d_country := "US";
        d_condition := "New"; d_similarity := 9 # 10 |}) ].

End SelectionOrderNotions.

Section PageEndNotions.
Import Str Py EbayScraper.
Local Open Scope Q_scope.

(** How a page ends when its last filtering attempt ended as [r] after
    [n] iterations of the loop: the accumulator has grown [n] times and
    the page has added to the six lists what the attempt returned, or the
    exception of the attempt ends the search. *)
Definition page_ends (m : run (Q * found)) (ramp_down : Q) (acc : found)
    (n : nat) (r : outcome (dict scored)) : Prop :=
  match r with
  | Ok filtered => result m = Ok (ramped n ramp_down, accumulate acc filtered)
  | Raise e => result m = Raise e
  | OutOfFuel => False
  end.

End PageEndNotions.

Section DoubleOutlierNotions.
Import Double UtilsDouble.

(** The deviations [d[i] = |values[i] - median(values)|] and their median,
    in double precision. *)
Definition abs_deviations (data : list double) : list double :=
  map (fun x => abs (sub x (np_median data))) data.

Definition median_deviation (data : list double) : double :=
  np_median (abs_deviations data).

(** The rule of the median absolute deviation for the value at index [i]. *)
Definition mad_rule (data : list double) (m : double) (i : nat) : Prop :=
  exists v, nth_error data i = Some v /\
    let d := abs (sub v (np_median data)) in
    if np_isclose (median_deviation data) zero then leb m d = true
    else leb m (div d (median_deviation data)) = true.

(** The mantissa of 1.0 and of 2.0. *)
Definition pow52 : positive := 4503599627370496.

Definition one : double := S754_finite false pow52 (-52).
Definition two : double := S754_finite false pow52 (-51).

End DoubleOutlierNotions.

Section TextsNotions.
Import Str Py Float EbayScraper EbayGetters.
Local Open Scope Q_scope.

(** What the five getters return on a page, when they return. *)
Definition read (page : EbayTexts.texts) : outcome soup :=
  obind (get_product_price (EbayTexts.price_texts page)) (fun prices =>
  obind (get_product_shipping (EbayTexts.shipping_texts page)) (fun shipping =>
  Ok {| product_title := EbayTexts.get_product_title page;
        product_price := map EbayTexts.number prices;
        product_shipping := map EbayTexts.number shipping;
        product_country := EbayTexts.get_product_country page;
        product_condition := EbayTexts.get_product_condition page |})).

(** The pages as the getters read them; a page they cannot read counts as
    missing. *)
Definition read_web (w : EbayTexts.web) : web :=
  fun query page_number =>
    match w query page_number with
    | Some page =>
        match read page with
        | Ok parsed => Some parsed
        | _ => None
        end
    | None => None
    end.

(** The page is served and the getters return on it. *)
Definition readable (w : EbayTexts.web) (query : string) (page_number : nat)
  : Prop :=
  exists page parsed, w query page_number = Some page /\ read page = Ok parsed.

(** The page is served, and a shipping cost on it is not a number. *)
Definition unreadable (w : EbayTexts.web) (query : string) (page_number : nat)
  : Prop :=
  exists page, w query page_number = Some page
               /\ get_product_shipping (EbayTexts.shipping_texts page)
                  = Raise ValueError.

(** A page of two listings, and one the cost of whose second listing says
    more than the amount. *)
Definition two_listings : EbayTexts.texts :=
  {| EbayTexts.title_texts := ["Camera One"; "Camera Two"]%string;
     EbayTexts.price_texts := ["$99.00"; "$1,000.00"]%string;
     EbayTexts.shipping_texts := ["+$5.00 shipping"; "Free shipping"]%string;
     EbayTexts.location_texts := ["from United States"; "from Japan"]%string;
     EbayTexts.condition_texts := ["Pre-Owned"; "Brand New"]%string |}.

Definition late_delivery : EbayTexts.texts :=
  {| EbayTexts.title_texts := ["Camera One"; "Camera Two"]%string;
     EbayTexts.price_texts := ["$99.00"; "$1,000.00"]%string;
     EbayTexts.shipping_texts :=
       ["+$5.00 shipping"; "+$5.00 shipping, 2-4 days"]%string;
     EbayTexts.location_texts := ["from United States"; "from Japan"]%string;
     EbayTexts.condition_texts := ["Pre-Owned"; "Brand New"]%string |}.

(** The web that serves [two_listings] as every page but the second, and
    [second] as the second. *)
Definition failing_web (second : option EbayTexts.texts) : EbayTexts.web :=
  fun _ page_number =>
    if (page_number =? 1)%nat then second else Some two_listings.

(** The web that serves [first] as its first page and pages without
    listings after it. *)
Definition texts_web (first : EbayTexts.texts) : EbayTexts.web :=
  fun _ page_number =>
    if (page_number =? 0)%nat then Some first
    else Some {| EbayTexts.title_texts := []; EbayTexts.price_texts := [];
                 EbayTexts.shipping_texts := []; EbayTexts.location_texts := [];
                 EbayTexts.condition_texts := [] |}.

End TextsNotions.

(** * Properties *)

(** ** Properties of [price_difference_rating] *)

Section RatingFacts.
Import Rating.
Local Open Scope R_scope.

Lemma clip_bounds (x lo hi : R) : lo <= hi -> lo <= clip x lo hi <= hi.
Proof.
  intros Hle. unfold clip, Rmin, Rmax.
  destruct (Rle_dec x lo); destruct (Rle_dec _ hi); lra.
Qed.

Lemma clip_as_clamp (x : R) : clip x 0 5 = Rmax 0 (Rmin x 5).
Proof.
  unfold clip, Rmin, Rmax.
  destruct (Rle_dec x 0), (Rle_dec x 5);
    repeat (destruct (Rle_dec _ _); try lra).
Qed.

Lemma rating_numeric (x y : R) (days : Z) :
  0 < x ->
  price_difference_rating (Numeric x) (Numeric y) days
  = Ok (qualityRating x y days).
Proof.
  intros Hx. unfold price_difference_rating, qualityRating,
    qualityRating_adjusted, qualityRating_penalty; simpl.
  destruct (Rle_dec x 0) as [Hn|_]; [lra|].
  rewrite clip_as_clamp.
  unfold decay_constant, linear_factor, threshold_days.
  replace (days >=? 7)%Z with (7 <=? days)%Z
    by (rewrite Z.geb_leb; reflexivity).
  reflexivity.
Qed.

(** C7. On numeric prices with a positive initial price the rating is the
    specification's [qualityRating] and lies in [0,5]; the call raises
    [InvalidDataFormat] exactly when a price is not numeric or the initial
    price is not positive. *)
Theorem price_difference_rating_spec (initial final : price_arg) (days : Z) :
  (forall x y, initial = Numeric x -> final = Numeric y -> 0 < x ->
     exists r, price_difference_rating initial final days = Ok r
               /\ r = qualityRating x y days /\ 0 <= r <= 5)
  /\ (price_difference_rating initial final days = Raise InvalidDataFormat
      <-> initial = NonNumeric \/ final = NonNumeric
          \/ exists x, initial = Numeric x /\ x <= 0).
Proof.
  split.
  - intros x y -> -> Hx. exists (qualityRating x y days).
    split; [apply rating_numeric; assumption|]. split; [reflexivity|].
    unfold qualityRating. cbv zeta. rewrite <- clip_as_clamp.
    apply clip_bounds; lra.
  - destruct initial as [x|], final as [y|]; simpl.
    + unfold price_difference_rating; simpl.
      destruct (Rle_dec x 0) as [Hle|Hgt].
      * split; [intros _|reflexivity]. right; right. exists x. auto.
      * split; [discriminate|].
        intros [H|[H|[x' [H Hx']]]]; try discriminate.
        injection H as <-. contradiction.
    + split; [auto|reflexivity].
    + split; [auto|reflexivity].
    + split; [auto|reflexivity].
Qed.

Lemma price_difference_rating_spec_witness :
  exists r, price_difference_rating (Numeric 100) (Numeric 50) 14 = Ok r
            /\ r = qualityRating 100 50 14 /\ 0 <= r <= 5.
Proof.
  apply (proj1 (price_difference_rating_spec (Numeric 100) (Numeric 50) 14)
           100 50 eq_refl eq_refl).
  lra.
Defined.

End RatingFacts.

(** ** The positions of a mask, and sorted arrays *)

Section OutlierFacts.
Import Utils.
Local Open Scope Q_scope.

Lemma where_from_In (mask : list bool) : forall k i,
  In i (where_from k mask)
  <-> exists j, i = (k + j)%nat /\ nth_error mask j = Some true.
Proof.
  induction mask as [|b mask IH]; intros k i; simpl.
  - split; [tauto|]. intros [[|j] [_ H]]; discriminate.
  - assert (Hrec : In i (where_from (S k) mask)
                   <-> exists j, i = (k + S j)%nat
                                 /\ nth_error mask j = Some true).
    { rewrite IH. split; intros [j [-> Hj]]; exists j; split; auto; lia. }
    destruct b; simpl; rewrite Hrec; split.
    + intros [<-|[j [-> Hj]]]; [exists 0%nat|exists (S j)]; split; auto; lia.
    + intros [[|j] [-> Hj]]; [left; lia|right; exists j; auto].
    + intros [j [-> Hj]]. exists (S j); auto.
    + intros [[|j] [-> Hj]]; [discriminate|exists j; auto].
Qed.

Lemma where_from_sorted (mask : list bool) : forall k,
  StronglySorted lt (where_from k mask).
Proof.
  induction mask as [|b mask IH]; intros k; simpl; [constructor|].
  destruct b; [|apply IH].
  constructor; [apply IH|].
  apply Forall_forall. intros i Hi.
  apply where_from_In in Hi. destruct Hi as [j [-> _]]. lia.
Qed.

Lemma where_from_all_false (mask : list bool) : forall k,
  (forall b, In b mask -> b = false) -> where_from k mask = [].
Proof.
  induction mask as [|b mask IH]; intros k Hall; simpl; [reflexivity|].
  rewrite (Hall b (or_introl eq_refl)). apply IH.
  intros b' Hb'. apply Hall. right; assumption.
Qed.

Lemma insert_sorted_In (x y : Q) (l : list Q) :
  In x (insert_sorted y l) -> x = y \/ In x l.
Proof.
  induction l as [|z l IH]; simpl.
  - intros [H|[]]; auto.
  - destruct (Qle_bool y z); simpl; intros [H|H]; auto.
    destruct (IH H); auto.
Qed.

Lemma insert_sorted_length (y : Q) (l : list Q) :
  List.length (insert_sorted y l) = S (List.length l).
Proof.
  induction l as [|z l IH]; simpl; [reflexivity|].
  destruct (Qle_bool y z); simpl; congruence.
Qed.

Lemma np_sort_In (x : Q) (l : list Q) : In x (np_sort l) -> In x l.
Proof.
  induction l as [|y l IH]; simpl; [tauto|].
  intros H. apply insert_sorted_In in H. destruct H; auto.
Qed.

Lemma np_sort_length (l : list Q) : List.length (np_sort l) = List.length l.
Proof.
  induction l as [|y l IH]; simpl; [reflexivity|].
  rewrite insert_sorted_length. congruence.
Qed.

End OutlierFacts.

(** ** Properties of title normalisation *)

Section NormalizeFacts.
Import Str Utils EbayScraper.
Local Open Scope string_scope.

Ltac by_cases_on c :=
  destruct c as [[] [] [] [] [] [] [] []]; vm_compute; try reflexivity;
  try discriminate; auto.

Lemma word_char_lower (c : ascii) : is_word_char c = true -> lower_char c = c.
Proof. by_cases_on c. Qed.

Lemma word_char_alnum (c : ascii) : is_word_char c = true -> is_alnum c = true.
Proof. by_cases_on c. Qed.

Lemma word_char_not_space (c : ascii) : is_word_char c = true -> is_space c = false.
Proof. by_cases_on c. Qed.

Lemma space_is_space : is_space " " = true.
Proof. reflexivity. Qed.

Lemma space_not_word : is_word_char " " = false.
Proof. reflexivity. Qed.

(** After [lower], a character kept by the first substitution is a word
    character or white space. *)
Lemma lowered_kept (c : ascii) :
  negb (is_alnum (lower_char c) || is_space (lower_char c)) = false ->
  is_word_char (lower_char c) || is_space (lower_char c) = true.
Proof. by_cases_on c. Qed.

Lemma first_pass_plain (s : string) : forall in_run,
  plain (sub_runs (fun c => negb (is_alnum c || is_space c)) in_run (lower s))
  = true.
Proof.
  induction s as [|c s IH]; intros in_run; simpl; [reflexivity|].
  destruct (negb (is_alnum (lower_char c) || is_space (lower_char c))) eqn:Hc.
  - destruct in_run; simpl; rewrite ?IH; reflexivity.
  - simpl. rewrite (lowered_kept c Hc), IH. reflexivity.
Qed.

Lemma second_pass_spaced (s : string) : forall in_run,
  plain s = true -> spaced in_run (sub_runs is_space in_run s) = true.
Proof.
  induction s as [|c s IH]; intros in_run Hs; simpl; [reflexivity|].
  simpl in Hs. apply andb_true_iff in Hs. destruct Hs as [Hc Hs].
  destruct (is_space c) eqn:Hsp.
  - destruct in_run; simpl; [apply IH; assumption|].
    apply IH; assumption.
  - rewrite orb_false_r in Hc. simpl.
    destruct (Ascii.eqb c " ") eqn:He.
    + apply Ascii.eqb_eq in He. subst c. discriminate Hsp.
    + rewrite Hc. simpl. apply IH; assumption.
Qed.

Lemma spaced_weaken (s : string) : spaced true s = true -> spaced false s = true.
Proof.
  destruct s as [|c s]; simpl; [reflexivity|].
  destruct (Ascii.eqb c " "); [discriminate|auto].
Qed.

Lemma lstrip_spaced (s : string) :
  spaced false s = true -> spaced true (lstrip s) = true.
Proof.
  destruct s as [|c s]; simpl; [reflexivity|].
  destruct (Ascii.eqb c " ") eqn:He.
  - apply Ascii.eqb_eq in He. subst c. simpl. intros Hs.
    destruct s as [|c' s]; [reflexivity|]. simpl in Hs |- *.
    destruct (Ascii.eqb c' " ") eqn:He'; [discriminate|].
    apply andb_true_iff in Hs. destruct Hs as [Hc' Hs].
    rewrite (word_char_not_space _ Hc'). simpl. rewrite He', Hc', Hs. reflexivity.
  - intros Hs. apply andb_true_iff in Hs. destruct Hs as [Hc Hs].
    rewrite (word_char_not_space _ Hc). simpl. rewrite He, Hc, Hs. reflexivity.
Qed.

Lemma rstrip_spaced (s : string) : forall prev,
  spaced prev s = true -> spaced prev (rstrip s) = true.
Proof.
  induction s as [|c s IH]; intros prev Hs; simpl; [reflexivity|].
  destruct (is_space c && is_empty (rstrip s)); [reflexivity|].
  simpl in Hs |- *. destruct (Ascii.eqb c " ").
  - apply andb_true_iff in Hs. destruct Hs as [Hp Hs].
    rewrite Hp. simpl. apply IH; assumption.
  - apply andb_true_iff in Hs. destruct Hs as [Hc Hs].
    rewrite Hc. simpl. apply IH; assumption.
Qed.

Lemma rstrip_idempotent (s : string) : rstrip (rstrip s) = rstrip s.
Proof.
  induction s as [|c s IH]; simpl; [reflexivity|].
  destruct (is_space c && is_empty (rstrip s)) eqn:Hc; simpl; [reflexivity|].
  rewrite IH, Hc. reflexivity.
Qed.

(** A spaced string is a fixed point of every step of the normalisation
    but the final [rstrip]. *)
Lemma spaced_lower (s : string) : forall prev,
  spaced prev s = true -> lower s = s.
Proof.
  induction s as [|c s IH]; intros prev Hs; simpl; [reflexivity|].
  simpl in Hs. destruct (Ascii.eqb c " ") eqn:He.
  - apply Ascii.eqb_eq in He. subst c.
    apply andb_true_iff in Hs. destruct Hs as [_ Hs].
    rewrite (IH _ Hs). reflexivity.
  - apply andb_true_iff in Hs. destruct Hs as [Hc Hs].
    rewrite (word_char_lower _ Hc), (IH _ Hs). reflexivity.
Qed.

Lemma spaced_first_pass (s : string) : forall prev in_run,
  spaced prev s = true ->
  sub_runs (fun c => negb (is_alnum c || is_space c)) in_run s = s.
Proof.
  induction s as [|c s IH]; intros prev in_run Hs; simpl; [reflexivity|].
  simpl in Hs. destruct (Ascii.eqb c " ") eqn:He.
  - apply Ascii.eqb_eq in He. subst c.
    apply andb_true_iff in Hs. destruct Hs as [_ Hs].
    simpl. rewrite (IH _ _ Hs). reflexivity.
  - apply andb_true_iff in Hs. destruct Hs as [Hc Hs].
    rewrite (word_char_alnum _ Hc). simpl. rewrite (IH _ _ Hs). reflexivity.
Qed.

Lemma spaced_second_pass (s : string) : forall prev,
  spaced prev s = true -> sub_runs is_space prev s = s.
Proof.
  induction s as [|c s IH]; intros prev Hs; simpl; [reflexivity|].
  simpl in Hs. destruct (Ascii.eqb c " ") eqn:He.
  - apply Ascii.eqb_eq in He. subst c.
    apply andb_true_iff in Hs. destruct Hs as [Hp Hs].
    apply negb_true_iff in Hp. subst prev.
    rewrite space_is_space, (IH _ Hs). reflexivity.
  - apply andb_true_iff in Hs. destruct Hs as [Hc Hs].
    rewrite (word_char_not_space _ Hc), (IH _ Hs). reflexivity.
Qed.

Lemma spaced_lstrip (s : string) : spaced true s = true -> lstrip s = s.
Proof.
  destruct s as [|c s]; simpl; [reflexivity|].
  destruct (Ascii.eqb c " "); [discriminate|].
  intros Hs. apply andb_true_iff in Hs. destruct Hs as [Hc _].
  rewrite (word_char_not_space _ Hc). reflexivity.
Qed.

Lemma normalize_title_spaced (t : string) :
  exists w, normalize_title t = rstrip w /\ spaced true (rstrip w) = true.
Proof.
  unfold normalize_title, clean_text, strip, re_sub_runs.
  eexists. split; [reflexivity|].
  apply rstrip_spaced, lstrip_spaced, second_pass_spaced, first_pass_plain.
Qed.

(** C8. Normalising a normalised title changes nothing. *)
Theorem normalize_title_idempotent (t : string) :
  normalize_title (normalize_title t) = normalize_title t.
Proof.
  destruct (normalize_title_spaced t) as [w [-> Hw]].
  unfold normalize_title, clean_text, strip, re_sub_runs.
  rewrite (spaced_lower _ _ Hw).
  rewrite (spaced_first_pass _ _ false Hw).
  rewrite (spaced_second_pass _ _ (spaced_weaken _ Hw)).
  rewrite (spaced_lstrip _ Hw).
  apply rstrip_idempotent.
Qed.

(** The repository's test of [clean_text]. *)
Example clean_text_normalises_whitespace :
  clean_text ("   Hello!!!   World" ++ String (ascii_of_nat 10) EmptyString)
  = "Hello World".
Proof. reflexivity. Qed.

End NormalizeFacts.

(** ** Properties of [lowest_price_highest_similarity] *)

Section SelectionFacts.
Import Str Py EbayScraper.
Local Open Scope Q_scope.

Lemma Qlt_bool_true (x y : Q) : Qlt_bool x y = true <-> x < y.
Proof.
  unfold Qlt_bool. rewrite negb_true_iff. split.
  - intros H. apply Qnot_le_lt. intros Hle.
    apply Qle_bool_iff in Hle. congruence.
  - intros H. destruct (Qle_bool y x) eqn:Hle; [|reflexivity].
    apply Qle_bool_iff in Hle. Lqa.lra.
Qed.

Lemma Qlt_bool_false (x y : Q) : Qlt_bool x y = false <-> y <= x.
Proof.
  unfold Qlt_bool. rewrite negb_false_iff. apply Qle_bool_iff.
Qed.

Section OneKind.
(** A kind of prices on which [<] does not raise: the floats, or the
    strings. *)
Variable kind : pyval -> Prop.
Hypothesis comparable :
  forall x y, kind x -> kind y -> exists lower, py_lt x y = Ok lower.

(** The first loop, once both variables are set: it ends with the first
    item of greatest similarity. *)
Lemma scan_items_max (items : list details) : forall mx mn,
  kind (d_price mn) ->
  (forall x, In x items -> kind (d_price x)) ->
  exists mx' mn',
    scan_items (Some mx, Some mn) items = Ok (Some mx', Some mn')
    /\ (mx' = mx \/ In mx' items)
    /\ d_similarity mx <= d_similarity mx'
    /\ (forall x, In x items -> d_similarity x <= d_similarity mx').
Proof.
  induction items as [|item items IH]; intros mx mn Hmn Hkind.
  - exists mx, mn. simpl. repeat split; auto; [Lqa.lra|tauto].
  - destruct (comparable (d_price item) (d_price mn)
                (Hkind item (or_introl eq_refl)) Hmn) as [lower Hlower].
    cbn [scan_items scan_item]. rewrite Hlower. cbn [obind].
    set (mx1 := if Qlt_bool (d_similarity mx) (d_similarity item)
                then item else mx).
    set (mn1 := if lower then item else mn).
    assert (Hmn1 : kind (d_price mn1)).
    { unfold mn1. destruct lower; auto. apply Hkind. left; reflexivity. }
    destruct (IH mx1 mn1 Hmn1 (fun x Hx => Hkind x (or_intror Hx)))
      as [mx' [mn' [Hrun [Hin [Hge Hall]]]]].
    exists mx', mn'. split; [exact Hrun|].
    assert (Hstep : d_similarity mx <= d_similarity mx1
                    /\ d_similarity item <= d_similarity mx1
                    /\ (mx1 = mx \/ mx1 = item)).
    { unfold mx1.
      destruct (Qlt_bool (d_similarity mx) (d_similarity item)) eqn:Hlt.
      - apply Qlt_bool_true in Hlt. repeat split; auto; Lqa.lra.
      - apply Qlt_bool_false in Hlt. repeat split; auto; Lqa.lra. }
    destruct Hstep as [H1 [H2 H3]].
    split; [|split].
    + destruct Hin as [->|Hin]; [|right; right; exact Hin].
      destruct H3 as [->| ->]; [left|right; left]; reflexivity.
    + Lqa.lra.
    + intros x [<-|Hx]; [Lqa.lra|auto].
Qed.

(** On a non-empty map the selector is [min], by price, of the entries of
    greatest similarity, in the order of the map. *)
Lemma selection_is_min_of_most_similar (d : dict details) :
  d <> [] ->
  (forall e, In e d -> kind (d_price (snd e))) ->
  exists first others,
    lowest_price_highest_similarity d = min_by_price first others
    /\ forall e, In e (first :: others) <-> most_similar d e.
Proof.
  intros Hne Hkind.
  destruct d as [|[name0 item0] d']; [congruence|].
  set (d := (name0, item0) :: d') in *.
  unfold lowest_price_highest_similarity. fold d.
  change (match d with [] => Raise NoProductsFound | _ :: _ => ?k end) with k.
  assert (Hvals : forall x, In x (values d') -> kind (d_price x)).
  { intros x Hx. apply in_map_iff in Hx. destruct Hx as [e [<- He]].
    apply Hkind. right; exact He. }
  destruct (scan_items_max (values d') item0 item0
              (Hkind (name0, item0) (or_introl eq_refl)) Hvals)
    as [mx [mn [Hrun [Hin [Hge Hall]]]]].
  assert (Hrun' : scan_items (None, None) (values d) = Ok (Some mx, Some mn))
    by exact Hrun.
  rewrite Hrun'. cbn [obind fst].
  assert (Hmax : forall e, In e d -> d_similarity (snd e) <= d_similarity mx).
  { intros e [<-|He]; [exact Hge|]. apply Hall. apply in_map. exact He. }
  assert (Hmx : exists name, In (name, mx) d).
  { destruct Hin as [->|Hin]; [exists name0; left; reflexivity|].
    apply in_map_iff in Hin. destruct Hin as [[n x] [Hx He]].
    simpl in Hx. subst x. exists n. right; exact He. }
  set (tied := filter (fun item : string * details =>
                         Qeq_bool (d_similarity (snd item)) (d_similarity mx)) d).
  assert (Htied : forall e, In e tied <-> most_similar d e).
  { intros e. unfold tied, most_similar. rewrite filter_In, Qeq_bool_iff.
    destruct Hmx as [name Hname]. split.
    - intros [He Hs]. split; [exact He|].
      intros e' He'. rewrite Hs. apply Hmax. exact He'.
    - intros [He Hs]. split; [exact He|].
      apply Qle_antisym; [apply Hmax; exact He|apply (Hs (name, mx) Hname)]. }
  destruct tied as [|first others].
  { destruct Hmx as [name Hname].
    assert (Hnone : In (name, mx) []).
    { apply Htied. split; [exact Hname|]. intros e' He'. apply Hmax. exact He'. }
    destruct Hnone. }
  exists first, others. split; [reflexivity|exact Htied].
Qed.

End OneKind.

Lemma floats_comparable (x y : pyval) :
  is_float x -> is_float y -> exists lower, py_lt x y = Ok lower.
Proof. intros [p ->] [q ->]. simpl. eauto. Qed.

Lemma strs_comparable (x y : pyval) :
  is_str x -> is_str y -> exists lower, py_lt x y = Ok lower.
Proof. intros [s ->] [t ->]. simpl. eauto. Qed.

(** [min] with the price as key returns the first item of least price. *)
Lemma min_by_price_least (items : list (string * details)) : forall current,
  (forall e, In e (current :: items) -> is_float (d_price (snd e))) ->
  exists best p,
    min_by_price current items = Ok best
    /\ In best (current :: items)
    /\ d_price (snd best) = PyFloat p
    /\ (forall e q, In e (current :: items) ->
          d_price (snd e) = PyFloat q -> p <= q).
Proof.
  induction items as [|item items IH]; intros current Hnum.
  - destruct (Hnum current (or_introl eq_refl)) as [p Hp].
    exists current, p. simpl. repeat split; auto.
    intros e q [<-|[]] Hq. rewrite Hp in Hq. injection Hq as <-. Lqa.lra.
  - destruct (Hnum current (or_introl eq_refl)) as [pc Hpc].
    destruct (Hnum item (or_intror (or_introl eq_refl))) as [pi Hpi].
    simpl. rewrite Hpi, Hpc. simpl.
    set (next := if Qlt_bool pi pc then item else current).
    assert (Hnext : (next = item \/ next = current)
                    /\ exists pn, d_price (snd next) = PyFloat pn
                                  /\ pn <= pi /\ pn <= pc).
    { unfold next. destruct (Qlt_bool pi pc) eqn:Hlt.
      - apply Qlt_bool_true in Hlt. split; [auto|].
        exists pi. repeat split; auto; Lqa.lra.
      - apply Qlt_bool_false in Hlt. split; [auto|].
        exists pc. repeat split; auto; Lqa.lra. }
    destruct Hnext as [Hwhich [pn [Hpn [Hn1 Hn2]]]].
    destruct (IH next) as [best [p [Hrun [Hin [Hp Hleast]]]]].
    { intros e [<-|He]; [exists pn; exact Hpn|].
      apply Hnum. right; right; exact He. }
    exists best, p. split; [exact Hrun|]. split; [|split; [exact Hp|]].
    + destruct Hin as [<-|Hin]; [|right; right; exact Hin].
      destruct Hwhich as [->| ->]; simpl; auto.
    + assert (Hpn' : p <= pn) by (apply (Hleast next); simpl; auto).
      intros e q [<-|[<-|He]] Hq.
      * rewrite Hpc in Hq. injection Hq as <-. Lqa.lra.
      * rewrite Hpi in Hq. injection Hq as <-. Lqa.lra.
      * apply (Hleast e); simpl; auto.
Qed.

Example select_tie_break :
  lowest_price_highest_similarity two_tied_candidates
  = Ok (nth 1 two_tied_candidates ("first"%string,
          {| d_price := PyFloat 20; d_shipping := PyFloat 0; d_country := "US";
             d_condition := "New"; d_similarity := 9 # 10 |})).
Proof. reflexivity. Qed.

(** *** Prices that are strings *)

Lemma str_lt_irrefl (a : string) : str_lt a a = false.
Proof.
  induction a as [|x a IH]; simpl; [reflexivity|].
  rewrite Nat.ltb_irrefl. exact IH.
Qed.

Lemma str_lt_trans (a : string) : forall b c,
  str_lt a b = true -> str_lt b c = true -> str_lt a c = true.
Proof.
  induction a as [|x a IH]; intros [|y b] [|z c]; simpl; try discriminate;
    try reflexivity.
  destruct (nat_of_ascii x <? nat_of_ascii y) eqn:Exy;
    destruct (nat_of_ascii y <? nat_of_ascii z) eqn:Eyz;
    destruct (nat_of_ascii y <? nat_of_ascii x) eqn:Eyx;
    destruct (nat_of_ascii z <? nat_of_ascii y) eqn:Ezy;
    destruct (nat_of_ascii x <? nat_of_ascii z) eqn:Exz;
    destruct (nat_of_ascii z <? nat_of_ascii x) eqn:Ezx;
    try discriminate; try reflexivity;
    rewrite ?Nat.ltb_lt, ?Nat.ltb_ge in *; try lia.
  apply IH.
Qed.

Lemma str_lt_total (a : string) : forall b,
  str_lt a b = false -> a = b \/ str_lt b a = true.
Proof.
  induction a as [|x a IH]; intros [|y b]; simpl; auto; try discriminate.
  destruct (nat_of_ascii x <? nat_of_ascii y) eqn:Exy; [discriminate|].
  destruct (nat_of_ascii y <? nat_of_ascii x) eqn:Eyx; [auto|].
  intros H. apply Nat.ltb_ge in Exy, Eyx.
  assert (Hxy : x = y).
  { rewrite <- (ascii_nat_embedding x), <- (ascii_nat_embedding y).
    f_equal. lia. }
  subst y. destruct (IH b H) as [->|Hb]; auto.
Qed.

(** [a <= b] and [b <= c] give [a <= c], for [x <= y] read as [not y < x]. *)
Lemma str_le_trans (a b c : string) :
  str_lt b a = false -> str_lt c b = false -> str_lt c a = false.
Proof.
  intros Hab Hbc. destruct (str_lt c a) eqn:Hca; [|reflexivity].
  destruct (str_lt_total b a Hab) as [->|Hlt]; [congruence|].
  rewrite (str_lt_trans c a b Hca Hlt) in Hbc. discriminate.
Qed.

Lemma str_lt_asym (a b : string) : str_lt a b = true -> str_lt b a = false.
Proof.
  intros H. destruct (str_lt b a) eqn:E; [|reflexivity].
  rewrite <- (str_lt_irrefl a). symmetry. apply (str_lt_trans a b a H E).
Qed.

(** On string prices [min] returns the first item below which no other
    lies in the order of the strings. *)
Lemma min_by_price_strings (items : list (string * details)) : forall current,
  (forall e, In e (current :: items) -> is_str (d_price (snd e))) ->
  exists best s,
    min_by_price current items = Ok best
    /\ In best (current :: items)
    /\ d_price (snd best) = PyStr s
    /\ (forall e t, In e (current :: items) ->
          d_price (snd e) = PyStr t -> str_lt t s = false).
Proof.
  induction items as [|item items IH]; intros current Hstr.
  - destruct (Hstr current (or_introl eq_refl)) as [s Hs].
    exists current, s. simpl. repeat split; auto.
    intros e t [<-|[]] Ht. rewrite Hs in Ht. injection Ht as <-.
    apply str_lt_irrefl.
  - destruct (Hstr current (or_introl eq_refl)) as [sc Hsc].
    destruct (Hstr item (or_intror (or_introl eq_refl))) as [si Hsi].
    simpl. rewrite Hsi, Hsc. simpl.
    set (next := if str_lt si sc then item else current).
    assert (Hnext : (next = item \/ next = current)
                    /\ exists sn, d_price (snd next) = PyStr sn
                                  /\ str_lt si sn = false
                                  /\ str_lt sc sn = false).
    { unfold next. destruct (str_lt si sc) eqn:Hlt.
      - split; [auto|]. exists si. split; [exact Hsi|].
        split; [apply str_lt_irrefl|apply str_lt_asym; exact Hlt].
      - split; [auto|]. exists sc. split; [exact Hsc|].
        split; [exact Hlt|apply str_lt_irrefl]. }
    destruct Hnext as [Hwhich [sn [Hsn [Hn1 Hn2]]]].
    destruct (IH next) as [best [s [Hrun [Hin [Hs Hleast]]]]].
    { intros e [<-|He]; [exists sn; exact Hsn|].
      apply Hstr. right; right; exact He. }
    exists best, s. split; [exact Hrun|]. split; [|split; [exact Hs|]].
    + destruct Hin as [<-|Hin]; [|right; right; exact Hin].
      destruct Hwhich as [->| ->]; simpl; auto.
    + assert (Hsn' : str_lt sn s = false)
        by (apply (Hleast next); simpl; auto).
      intros e t [<-|[<-|He]] Ht.
      * rewrite Hsc in Ht. injection Ht as <-.
        apply (str_le_trans s sn sc Hsn' Hn2).
      * rewrite Hsi in Ht. injection Ht as <-.
        apply (str_le_trans s sn si Hsn' Hn1).
      * apply (Hleast e); simpl; auto.
Qed.

End SelectionFacts.

(** ** Properties of [filter_products_by_similarity] *)

Section FilterFacts.
Import Py EbayScraper.
Local Open Scope Q_scope.

Lemma valid_threshold_bool (t : Q) :
  Qle_bool 0 t && Qle_bool t 1 = true <-> valid_threshold t.
Proof.
  unfold valid_threshold. rewrite andb_true_iff, !Qle_bool_iff. tauto.
Qed.

(** The loop examines every product, in order, and does not raise. *)
Lemma filter_loop_runs (product_info : list product) (target : string) (t : Q) :
  forall acc, exists d,
    filter_loop product_info target t acc
    = (map (fun p => Similarity (title p) target) product_info, Ok d).
Proof.
  induction product_info as [|p rest IH]; intros acc; simpl.
  - exists acc. reflexivity.
  - match goal with |- context [filter_loop rest target t ?acc'] =>
      destruct (IH acc') as [d Hd]; rewrite Hd end.
    exists d. reflexivity.
Qed.

Lemma filter_valid (product_info : list product) (target : string) (t : Q) :
  valid_threshold t ->
  exists d,
    filter_products_by_similarity product_info target t
    = (map (fun p => Similarity (title p) target) product_info, Ok d).
Proof.
  intros Hv. apply valid_threshold_bool in Hv.
  unfold filter_products_by_similarity. rewrite Hv. simpl.
  apply filter_loop_runs.
Qed.

Lemma filter_invalid (product_info : list product) (target : string) (t : Q) :
  ~ valid_threshold t ->
  filter_products_by_similarity product_info target t
  = ([], Raise InvalidSimilarityThreshold).
Proof.
  intros Hv. unfold filter_products_by_similarity.
  destruct (Qle_bool 0 t && Qle_bool t 1) eqn:Hb; [|reflexivity].
  apply valid_threshold_bool in Hb. contradiction.
Qed.

(** C6. The filter raises [InvalidSimilarityThreshold] exactly when the
    threshold is outside [0,1], and then no similarity has been computed;
    a threshold inside [0,1], 0 and 1 included, is accepted and every
    product is compared with the target. *)
Theorem filter_products_by_similarity_threshold
    (product_info : list product) (target : string) (t : Q) :
  let call := filter_products_by_similarity product_info target t in
  (result call = Raise InvalidSimilarityThreshold <-> ~ valid_threshold t)
  /\ (~ valid_threshold t -> trace call = [])
  /\ (valid_threshold t ->
      exists d, result call = Ok d
                /\ trace call
                   = map (fun p => Similarity (title p) target) product_info)
  /\ (exists d, result (filter_products_by_similarity product_info target 0) = Ok d)
  /\ (exists d, result (filter_products_by_similarity product_info target 1) = Ok d).
Proof.
  cbv zeta.
  assert (Hdec : valid_threshold t \/ ~ valid_threshold t).
  { destruct (Qle_bool 0 t && Qle_bool t 1) eqn:Hb.
    - left. apply valid_threshold_bool. exact Hb.
    - right. intros Hv. apply valid_threshold_bool in Hv. congruence. }
  split; [|split; [|split; [|split]]].
  - destruct Hdec as [Hv|Hv].
    + destruct (filter_valid product_info target t Hv) as [d ->]. simpl.
      split; [discriminate|contradiction].
    + rewrite (filter_invalid product_info target t Hv). simpl. tauto.
  - intros Hv. rewrite (filter_invalid product_info target t Hv). reflexivity.
  - intros Hv. destruct (filter_valid product_info target t Hv) as [d ->].
    exists d. split; reflexivity.
  - destruct (filter_valid product_info target 0) as [d ->];
      [split; Lqa.lra|]. exists d. reflexivity.
  - destruct (filter_valid product_info target 1) as [d ->];
      [split; Lqa.lra|]. exists d. reflexivity.
Qed.

Lemma filter_products_by_similarity_threshold_witness :
  trace (filter_products_by_similarity [test_item] "title" (10000001 # 10000000))
  = [].
Proof.
  apply (proj1 (proj2 (filter_products_by_similarity_threshold
                         [test_item] "title" (10000001 # 10000000)))).
  unfold valid_threshold. intros [_ H]. revert H. apply Qlt_not_le. reflexivity.
Defined.

(** The repository's two tests of the filter. *)
Example filter_keeps_test_item :
  exists d,
    result (filter_products_by_similarity [test_item] "test item" (5 # 10)) = Ok d
    /\ keys d = ["test item"%string].
Proof. eexists. split; [vm_compute; reflexivity|reflexivity]. Qed.

Example filter_rejects_one_and_a_half :
  result (filter_products_by_similarity [] "title" (15 # 10))
  = Raise InvalidSimilarityThreshold.
Proof. reflexivity. Qed.

End FilterFacts.

(** ** Properties of the adaptive search *)

Section SearchFacts.
Import Str Py EbayScraper.
Local Open Scope Q_scope.
Local Open Scope run_scope.

(** *** Traces of composed runs *)

Lemma trace_bind {A B} (m : run A) (f : A -> run B) :
  trace (bind m f)
  = (trace m ++ match result m with Ok a => trace (f a) | _ => [] end)%list.
Proof.
  destruct m as [l [a|e|]]; simpl; rewrite ?app_nil_r; try reflexivity.
  destruct (f a); reflexivity.
Qed.

Lemma result_bind {A B} (m : run A) (f : A -> run B) :
  result (bind m f)
  = match result m with
    | Ok a => result (f a)
    | Raise e => Raise e
    | OutOfFuel => OutOfFuel
    end.
Proof.
  destruct m as [l [a|e|]]; simpl; try reflexivity.
  destruct (f a); reflexivity.
Qed.

Lemma Forall_trace_bind {A B} (P : event -> Prop) (m : run A) (f : A -> run B) :
  Forall P (trace (bind m f))
  <-> Forall P (trace m)
      /\ (forall a, result m = Ok a -> Forall P (trace (f a))).
Proof.
  rewrite trace_bind, Forall_app. split; intros [H1 H2]; split; auto.
  - intros a Ha. rewrite Ha in H2. exact H2.
  - destruct (result m) as [a| |]; auto.
Qed.

(** *** One filtering attempt *)

Lemma listing_trace (page : soup) (title : string) (t : Q) :
  let call := filter_products_by_similarity (get_product_info page) (lower title) t in
  listing_product_similarity page title t
  = ((trace call ++ [Filter t (result call)])%list, result call).
Proof. reflexivity. Qed.

Lemma listing_valid (page : soup) (title : string) (t : Q) :
  valid_threshold t ->
  exists d,
    listing_product_similarity page title t
    = ((map (fun p => Similarity (EbayScraper.title p) (lower title))
          (get_product_info page) ++ [Filter t (Ok d)])%list, Ok d).
Proof.
  intros Hv. unfold listing_product_similarity.
  destruct (filter_valid (get_product_info page) (lower title) t Hv) as [d ->].
  exists d. reflexivity.
Qed.

Lemma listing_invalid (page : soup) (title : string) (t : Q) :
  ~ valid_threshold t ->
  listing_product_similarity page title t
  = ([Filter t (Raise InvalidSimilarityThreshold)],
     Raise InvalidSimilarityThreshold).
Proof.
  intros Hv. unfold listing_product_similarity.
  rewrite (filter_invalid (get_product_info page) (lower title) t Hv). reflexivity.
Qed.

Lemma listing_not_out_of_fuel (page : soup) (title : string) (t : Q) :
  result (listing_product_similarity page title t) <> OutOfFuel.
Proof.
  destruct (Qle_bool 0 t && Qle_bool t 1) eqn:Hb.
  - apply valid_threshold_bool in Hb.
    destruct (listing_valid page title t Hb) as [d ->]. discriminate.
  - rewrite listing_invalid; [discriminate|].
    intros Hv. apply valid_threshold_bool in Hv. congruence.
Qed.

(** The events of one attempt other than its [Filter] event are
    comparisons. *)
Lemma listing_events (page : soup) (title : string) (t : Q) (e : event) :
  In e (trace (listing_product_similarity page title t)) ->
  (exists s1 s2, e = Similarity s1 s2)
  \/ e = Filter t (result (listing_product_similarity page title t)).
Proof.
  destruct (Qle_bool 0 t && Qle_bool t 1) eqn:Hb.
  - apply valid_threshold_bool in Hb.
    destruct (listing_valid page title t Hb) as [d ->]. simpl.
    rewrite in_app_iff, in_map_iff. intros [[p [<- _]]|[<-|[]]]; eauto.
  - rewrite listing_invalid.
    + simpl. intros [<-|[]]. auto.
    + intros Hv. apply valid_threshold_bool in Hv. congruence.
Qed.

(** *** Counting *)

Lemma page_requests_app (l1 l2 : list event) :
  page_requests (l1 ++ l2) = (page_requests l1 ++ page_requests l2)%list.
Proof.
  induction l1 as [|[q p|s1 s2|t r] l1 IH]; simpl; rewrite ?IH; reflexivity.
Qed.

Lemma thresholds_app (l1 l2 : list event) :
  thresholds (l1 ++ l2) = (thresholds l1 ++ thresholds l2)%list.
Proof.
  induction l1 as [|[q p|s1 s2|t r] l1 IH]; simpl; rewrite ?IH; reflexivity.
Qed.

Lemma listing_page_requests (page : soup) (title : string) (t : Q) :
  page_requests (trace (listing_product_similarity page title t)) = [].
Proof.
  destruct (Qle_bool 0 t && Qle_bool t 1) eqn:Hb.
  - apply valid_threshold_bool in Hb.
    destruct (listing_valid page title t Hb) as [d ->]. simpl.
    rewrite page_requests_app. simpl. rewrite app_nil_r.
    induction (get_product_info page); simpl; auto.
  - rewrite listing_invalid; [reflexivity|].
    intros Hv. apply valid_threshold_bool in Hv. congruence.
Qed.

Lemma listing_thresholds (page : soup) (title : string) (t : Q) :
  thresholds (trace (listing_product_similarity page title t)) = [t].
Proof.
  destruct (Qle_bool 0 t && Qle_bool t 1) eqn:Hb.
  - apply valid_threshold_bool in Hb.
    destruct (listing_valid page title t Hb) as [d ->]. simpl.
    rewrite thresholds_app. simpl.
    induction (get_product_info page); simpl; auto.
  - rewrite listing_invalid; [reflexivity|].
    intros Hv. apply valid_threshold_bool in Hv. congruence.
Qed.

Lemma listing_quiet (page : soup) (title : string) (t : Q) :
  Forall quiet (trace (listing_product_similarity page title t)) ->
  result (listing_product_similarity page title t) = Ok [].
Proof.
  intros H. rewrite Forall_forall in H.
  apply (H (Filter t (result (listing_product_similarity page title t)))).
  rewrite listing_trace. cbv zeta. simpl. apply in_or_app. right. left.
  reflexivity.
Qed.

(** *** The ramp-down loop *)

Lemma ramp_down_loop_unfold (fuel : nat) (page : soup) (title : string)
    (ce : nat) (ramp_down : Q) :
  ramp_down_loop (S fuel) page title ce ramp_down
  = bind (listing_product_similarity page title
            (py_max 0 (similarity_threshold - (ramp_down + ramp_step))))
      (fun filtered =>
         if (ce =? 2)%nat then ret (ramp_down + ramp_step, filtered)
         else match filtered with
              | _ :: _ => ret (ramp_down + ramp_step, filtered)
              | [] => ramp_down_loop fuel page title (ce + 1)
                        (ramp_down + ramp_step)
              end).
Proof. reflexivity. Qed.

(** Entered after [ce] empty iterations, the loop makes between one and
    [3 - ce] filtering attempts, at the thresholds of the ramp, and requests
    no page. *)
Lemma ramp_down_loop_attempts (page : soup) (title : string) (fuel : nat) :
  forall ce ramp_down,
    (ce <= 2)%nat ->
    let m := ramp_down_loop (S fuel) page title ce ramp_down in
    (exists n, (1 <= n <= 3 - ce)%nat
               /\ thresholds (trace m) = ramp_thresholds n ramp_down)
    /\ page_requests (trace m) = [].
Proof.
  induction fuel as [|fuel IH]; intros ce ramp_down Hce; cbv zeta;
    rewrite ramp_down_loop_unfold, trace_bind, thresholds_app,
      page_requests_app, listing_thresholds, listing_page_requests;
    set (call := listing_product_similarity page title _);
    destruct (result call) as [filtered| |];
    try (split; [exists 1%nat; split; [lia|reflexivity]|reflexivity]).
  - destruct (ce =? 2)%nat; [|destruct filtered];
      (split; [exists 1%nat; split; [lia|reflexivity]|reflexivity]).
  - destruct (ce =? 2)%nat eqn:E;
      [split; [exists 1%nat; split; [lia|reflexivity]|reflexivity]|].
    apply Nat.eqb_neq in E.
    destruct filtered;
      [|split; [exists 1%nat; split; [lia|reflexivity]|reflexivity]].
    destruct (IH (ce + 1)%nat (ramp_down + ramp_step)) as [[n [Hn Ht]] Hp];
      [lia|].
    split; [|exact Hp].
    exists (S n). split; [lia|]. rewrite Ht. reflexivity.
Qed.

(** With three iterations allowed the loop is never cut short. *)
Lemma ramp_down_loop_terminates (page : soup) (title : string) (fuel : nat) :
  forall ce ramp_down,
    (ce <= 2)%nat -> (3 - ce <= fuel)%nat ->
    result (ramp_down_loop fuel page title ce ramp_down) <> OutOfFuel.
Proof.
  induction fuel as [|fuel IH]; intros ce ramp_down Hce Hfuel; [lia|].
  rewrite ramp_down_loop_unfold, result_bind.
  set (call := listing_product_similarity page title _).
  pose proof (listing_not_out_of_fuel page title
                (py_max 0 (similarity_threshold - (ramp_down + ramp_step)))) as Hl.
  fold call in Hl.
  destruct (result call) as [filtered| |]; [|discriminate|congruence].
  destruct (ce =? 2)%nat eqn:E; [discriminate|].
  apply Nat.eqb_neq in E.
  destruct filtered; [|discriminate].
  apply IH; lia.
Qed.

(** When every attempt comes back empty the loop gives up at the third:
    it has then filtered three times, not twice. *)
Lemma ramp_down_loop_quiet (page : soup) (title : string) (fuel : nat) :
  forall ce ramp_down,
    (ce <= 2)%nat -> (3 - ce <= fuel)%nat ->
    let m := ramp_down_loop fuel page title ce ramp_down in
    Forall quiet (trace m) ->
    thresholds (trace m) = ramp_thresholds (3 - ce) ramp_down
    /\ exists ramp_down', result m = Ok (ramp_down', []).
Proof.
  induction fuel as [|fuel IH]; intros ce ramp_down Hce Hfuel; cbv zeta;
    [lia|].
  rewrite ramp_down_loop_unfold. intros Hq.
  apply Forall_trace_bind in Hq. destruct Hq as [Hq1 Hq2].
  apply listing_quiet in Hq1. specialize (Hq2 [] Hq1).
  rewrite trace_bind, result_bind, thresholds_app, listing_thresholds, Hq1.
  destruct (ce =? 2)%nat eqn:E.
  - apply Nat.eqb_eq in E. subst ce. simpl. split; [reflexivity|eauto].
  - apply Nat.eqb_neq in E.
    destruct (IH (ce + 1)%nat (ramp_down + ramp_step)) as [Ht [r' Hr]];
      [lia|lia|exact Hq2|].
    rewrite Ht, Hr. split; [|eauto].
    replace (3 - ce)%nat with (S (3 - (ce + 1))) by lia. reflexivity.
Qed.

Lemma outcomes_app (l1 l2 : list event) :
  outcomes (l1 ++ l2) = (outcomes l1 ++ outcomes l2)%list.
Proof.
  induction l1 as [|[q p|s1 s2|t r] l1 IH]; simpl; rewrite ?IH; reflexivity.
Qed.

Lemma listing_outcomes (page : soup) (title : string) (t : Q) :
  outcomes (trace (listing_product_similarity page title t))
  = [result (listing_product_similarity page title t)].
Proof.
  destruct (Qle_bool 0 t && Qle_bool t 1) eqn:Hb.
  - apply valid_threshold_bool in Hb.
    destruct (listing_valid page title t Hb) as [d ->]. simpl.
    rewrite outcomes_app. simpl.
    induction (get_product_info page); simpl; auto.
  - rewrite listing_invalid; [reflexivity|].
    intros Hv. apply valid_threshold_bool in Hv. congruence.
Qed.

(** Entered after [ce] empty iterations and with enough fuel, the loop
    makes [n <= 3 - ce] attempts at the thresholds of the ramp and requests
    no page: all but the last are empty, the last one is not empty unless
    it is the [(3 - ce)]-th, and the loop returns what the last one gave,
    with the accumulator grown [n] times, or raises what it raised. *)
Lemma ramp_down_loop_ends (page : soup) (title : string) (fuel : nat) :
  forall ce ramp_down,
    (ce <= 2)%nat -> (3 - ce <= fuel)%nat ->
    let m := ramp_down_loop fuel page title ce ramp_down in
    exists n rs r,
      (1 <= n <= 3 - ce)%nat
      /\ thresholds (trace m) = ramp_thresholds n ramp_down
      /\ outcomes (trace m) = (rs ++ [r])%list
      /\ Forall (fun x => x = Ok []) rs
      /\ ((n < 3 - ce)%nat -> r <> Ok [])
      /\ page_requests (trace m) = []
      /\ match r with
         | Ok filtered => result m = Ok (ramped n ramp_down, filtered)
         | Raise e => result m = Raise e
         | OutOfFuel => False
         end.
Proof.
  induction fuel as [|fuel IH]; intros ce ramp_down Hce Hfuel; cbv zeta;
    [lia|].
  rewrite ramp_down_loop_unfold.
  set (t := py_max 0 (similarity_threshold - (ramp_down + ramp_step))).
  pose proof (listing_not_out_of_fuel page title t) as Hnf.
  rewrite trace_bind, result_bind, thresholds_app, outcomes_app,
    page_requests_app, listing_thresholds, listing_outcomes,
    listing_page_requests.
  destruct (result (listing_product_similarity page title t))
    as [filtered|e|] eqn:Hr; [| |congruence].
  - destruct (ce =? 2)%nat eqn:E.
    + apply Nat.eqb_eq in E. subst ce.
      exists 1%nat, [], (Ok filtered).
      split; [lia|]. split; [reflexivity|]. split; [reflexivity|].
      split; [constructor|]. split; [simpl; lia|].
      split; reflexivity.
    + apply Nat.eqb_neq in E. destruct filtered as [|x filtered].
      * destruct (IH (ce + 1)%nat (ramp_down + ramp_step))
          as (n & rs & r & Hn & Ht & Ho & Hrs & Hlast & Hp & Hend); [lia|lia|].
        exists (S n), (Ok [] :: rs), r.
        rewrite Ht, Ho, Hp.
        split; [lia|]. split; [reflexivity|]. split; [reflexivity|].
        split; [constructor; [reflexivity|exact Hrs]|].
        split; [intros Hlt; apply Hlast; lia|].
        split; [reflexivity|exact Hend].
      * exists 1%nat, [], (Ok (x :: filtered)).
        split; [lia|]. split; [reflexivity|]. split; [reflexivity|].
        split; [constructor|]. split; [discriminate|].
        split; reflexivity.
  - exists 1%nat, [], (Raise e).
    split; [lia|]. split; [reflexivity|]. split; [reflexivity|].
    split; [constructor|]. split; [discriminate|]. split; reflexivity.
Qed.

(** The three re-filterings of an empty page, after the attempt at 0.35:
    at 0.30, 0.25 and 0.20. *)
Example ramp_down_loop_empty_page :
  Forall2 Qeq (thresholds (trace (ramp_down_loop 3 empty_page "camera" 0 0)))
    [30 # 100; 25 # 100; 20 # 100].
Proof. repeat constructor. Qed.

(** *** A search that finds nothing *)

Lemma create_url_ok (w : web) (title : string) (p : nat) (page : soup) :
  w title p = Some page ->
  create_url w title p = ([Fetch title p], Ok page).
Proof. intros H. unfold create_url. rewrite H. reflexivity. Qed.

Lemma search_page_quiet (fuel : nat) (w : web) (title : string)
    (ramp_down : Q) (acc : found) (p : nat) :
  (3 <= fuel)%nat -> w title p <> None ->
  let m := search_page fuel w title (ramp_down, acc) p in
  Forall quiet (trace m) ->
  page_requests (trace m) = [p]
  /\ exists st', result m = Ok st' /\ descriptions (snd st') = descriptions acc.
Proof.
  intros Hfuel Hw. cbv zeta. unfold search_page.
  destruct (w title p) as [page|] eqn:Hpage; [|congruence].
  rewrite (create_url_ok _ _ _ _ Hpage). intros Hq.
  apply Forall_trace_bind in Hq. destruct Hq as [_ Hq].
  specialize (Hq page eq_refl).
  apply Forall_trace_bind in Hq. destruct Hq as [Hq1 Hq].
  apply listing_quiet in Hq1. specialize (Hq [] Hq1).
  apply Forall_trace_bind in Hq. destruct Hq as [Hq2 _].
  destruct (ramp_down_loop_quiet page title fuel 0%nat ramp_down) as [_ [r' Hr]];
    [lia|simpl; lia|exact Hq2|].
  destruct fuel as [|fuel']; [lia|].
  destruct (ramp_down_loop_attempts page title fuel' 0 ramp_down) as [_ Hp];
    [lia|]. cbv zeta in Hp.
  rewrite !trace_bind, !result_bind, !page_requests_app.
  cbn [result trace fst snd].
  rewrite !trace_bind, !result_bind, !page_requests_app, Hq1.
  rewrite !trace_bind, !result_bind, !page_requests_app, Hr, Hp.
  rewrite listing_page_requests. cbn [result trace fst snd ret app page_requests].
  split; [reflexivity|].
  eexists. split; [reflexivity|]. cbn [snd accumulate descriptions keys map].
  apply app_nil_r.
Qed.

Lemma search_pages_quiet (fuel : nat) (w : web) (title : string)
    (page_numbers : list nat) : forall ramp_down acc,
  (3 <= fuel)%nat ->
  (forall p, In p page_numbers -> w title p <> None) ->
  let m := search_pages fuel w title (ramp_down, acc) page_numbers in
  Forall quiet (trace m) ->
  page_requests (trace m) = page_numbers
  /\ exists st', result m = Ok st' /\ descriptions (snd st') = descriptions acc.
Proof.
  induction page_numbers as [|p rest IH]; intros ramp_down acc Hfuel Hw; cbv zeta.
  - intros _. split; [reflexivity|]. eexists. split; reflexivity.
  - change (search_pages fuel w title (ramp_down, acc) (p :: rest))
      with (bind (search_page fuel w title (ramp_down, acc) p)
                 (fun st' => search_pages fuel w title st' rest)).
    intros Hq.
    apply Forall_trace_bind in Hq. destruct Hq as [Hq1 Hq2].
    destruct (search_page_quiet fuel w title ramp_down acc p Hfuel
                (Hw p (or_introl eq_refl)) Hq1)
      as [Hp [[r1 acc1] [Hr1 Hd1]]].
    specialize (Hq2 _ Hr1).
    destruct (IH r1 acc1 Hfuel (fun q Hq => Hw q (or_intror Hq)) Hq2)
      as [Hp' [st' [Hr' Hd']]].
    rewrite trace_bind, result_bind, page_requests_app, Hr1, Hp, Hp', Hr'.
    split; [reflexivity|]. exists st'. split; [reflexivity|].
    rewrite Hd'. exact Hd1.
Qed.

(** C3. When the five pages are served and every filtering attempt, at the
    base threshold or ramped, comes back empty, the search requests the
    pages 0 to 4 once each and then raises [NoProductsFound]. *)
Theorem find_viable_product_all_empty
    (fuel : nat) (w : web) (title : string) (ramp_down : Q) :
  (3 <= fuel)%nat ->
  (forall p, (p < 5)%nat -> w title p <> None) ->
  let m := find_viable_product fuel w title ramp_down in
  Forall quiet (trace m) ->
  result m = Raise NoProductsFound
  /\ page_requests (trace m) = [0; 1; 2; 3; 4]%nat.
Proof.
  intros Hfuel Hw. cbv zeta. unfold find_viable_product. intros Hq.
  apply Forall_trace_bind in Hq. destruct Hq as [Hq _].
  destruct (search_pages_quiet fuel w title (seq 0 5) ramp_down no_products
              Hfuel) as [Hp [st' [Hr Hd]]].
  { intros p Hin. apply Hw. apply in_seq in Hin. lia. }
  { exact Hq. }
  rewrite trace_bind, result_bind, page_requests_app, Hr, Hp.
  simpl in Hd. rewrite Hd. split; reflexivity.
Qed.

Lemma find_viable_product_all_empty_witness :
  result (find_viable_product 3 empty_web "camera" 0) = Raise NoProductsFound
  /\ page_requests (trace (find_viable_product 3 empty_web "camera" 0))
     = [0; 1; 2; 3; 4]%nat.
Proof.
  apply (find_viable_product_all_empty 3 empty_web "camera" 0 (le_n 3)).
  - intros p _. discriminate.
  - vm_compute. repeat constructor.
Defined.

(** *** The thresholds of a search *)

Lemma safe_bind {A B} (strict : bool) (post : A -> Prop) (post' : B -> Prop)
    (m : run A) (f : A -> run B) :
  safe strict post m ->
  (forall a, post a -> safe strict post' (f a)) ->
  safe strict post' (bind m f).
Proof.
  intros [Ht [Hr Hp]] Hf. split; [|split].
  - apply Forall_trace_bind. split; [exact Ht|].
    intros a Ha. apply (Hf a (Hp a Ha)).
  - intros Hs. rewrite result_bind. destruct (result m) as [a|e|] eqn:E.
    + apply (Hf a (Hp a eq_refl)); exact Hs.
    + intros H. apply (Hr Hs). congruence.
    + discriminate.
  - intros b. rewrite result_bind. destruct (result m) as [a|e|] eqn:E;
      try discriminate.
    apply (Hf a (Hp a eq_refl)).
Qed.

Lemma safe_ret {A} (strict : bool) (post : A -> Prop) (a : A) :
  post a -> safe strict post (ret a).
Proof.
  intros Ha. split; [constructor|split]; simpl.
  - discriminate.
  - intros a' H. injection H as <-. exact Ha.
Qed.

Lemma py_max_lower (x : Q) : 0 <= py_max 0 x.
Proof.
  unfold py_max. destruct (Qlt_bool 0 x) eqn:H.
  - apply Qlt_bool_true in H. Lqa.lra.
  - Lqa.lra.
Qed.

Lemma py_max_upper (x c : Q) : 0 <= c -> x <= c -> py_max 0 x <= c.
Proof. intros Hc Hx. unfold py_max. destruct (Qlt_bool 0 x); assumption. Qed.

Lemma listing_safe (strict : bool) (page : soup) (title : string) (t : Q) :
  0 <= t -> (strict = true -> t <= similarity_threshold) ->
  safe strict (fun _ => True) (listing_product_similarity page title t).
Proof.
  intros H0 Hs.
  assert (Hok : strict = true ->
                result (listing_product_similarity page title t)
                <> Raise InvalidSimilarityThreshold).
  { intros E. destruct (listing_valid page title t) as [d ->]; [|discriminate].
    split; [exact H0|]. specialize (Hs E). unfold similarity_threshold in Hs.
    Lqa.lra. }
  split; [|split; [exact Hok|auto]].
  apply Forall_forall. intros e He.
  destruct (listing_events page title t e He) as [[s1 [s2 ->]]| ->]; simpl; auto.
Qed.

Lemma ramp_down_loop_safe (strict : bool) (page : soup) (title : string)
    (fuel : nat) : forall ce ramp_down,
  (strict = true -> - ramp_step <= ramp_down) ->
  safe strict (fun st => strict = true -> - ramp_step <= fst st)
    (ramp_down_loop fuel page title ce ramp_down).
Proof.
  induction fuel as [|fuel IH]; intros ce ramp_down Hr.
  - split; [constructor|split]; simpl; discriminate.
  - rewrite ramp_down_loop_unfold.
    assert (Hr' : strict = true -> - ramp_step <= ramp_down + ramp_step).
    { intros E. specialize (Hr E). unfold ramp_step in *. Lqa.lra. }
    apply (safe_bind strict (fun _ => True)).
    + apply listing_safe; [apply py_max_lower|].
      intros E. specialize (Hr E).
      apply py_max_upper; unfold similarity_threshold, ramp_step in *; Lqa.lra.
    + intros filtered _. destruct (ce =? 2)%nat; [apply safe_ret; exact Hr'|].
      destruct filtered; [apply IH; exact Hr'|apply safe_ret; exact Hr'].
Qed.

Lemma create_url_safe (strict : bool) (w : web) (title : string) (p : nat) :
  safe strict (fun _ => True) (create_url w title p).
Proof.
  unfold create_url. destruct (w title p); simpl;
    (split; [repeat constructor|split; [discriminate|auto]]).
Qed.

Lemma search_page_safe (strict : bool) (fuel : nat) (w : web) (title : string)
    (st : Q * found) (p : nat) :
  (strict = true -> - ramp_step <= fst st) ->
  safe strict (fun st' => strict = true -> - ramp_step <= fst st')
    (search_page fuel w title st p).
Proof.
  destruct st as [ramp_down acc]. simpl fst. intros Hr. unfold search_page.
  apply (safe_bind strict (fun _ => True)); [apply create_url_safe|].
  intros page _. apply (safe_bind strict (fun _ => True)).
  { apply listing_safe; unfold similarity_threshold; Lqa.lra. }
  intros filtered _.
  apply (safe_bind strict (fun st' : Q * dict scored => strict = true -> - ramp_step <= fst st')).
  { destruct filtered; [apply ramp_down_loop_safe; exact Hr|].
    apply safe_ret. exact Hr. }
  intros [r' f'] Hpost. apply safe_ret. exact Hpost.
Qed.

Lemma search_pages_safe (strict : bool) (fuel : nat) (w : web) (title : string)
    (page_numbers : list nat) : forall st,
  (strict = true -> - ramp_step <= fst st) ->
  safe strict (fun _ => True) (search_pages fuel w title st page_numbers).
Proof.
  induction page_numbers as [|p rest IH]; intros st Hr.
  - apply safe_ret. exact I.
  - change (search_pages fuel w title st (p :: rest))
      with (bind (search_page fuel w title st p)
                 (fun st' => search_pages fuel w title st' rest)).
    apply (safe_bind strict (fun st' : Q * found => strict = true -> - ramp_step <= fst st')).
    + apply search_page_safe. exact Hr.
    + intros st' Hst'. apply IH. exact Hst'.
Qed.

Lemma find_viable_product_safe (strict : bool) (fuel : nat) (w : web)
    (title : string) (ramp_down : Q) :
  (strict = true -> - ramp_step <= ramp_down) ->
  safe strict (fun _ => True) (find_viable_product fuel w title ramp_down).
Proof.
  intros Hr. unfold find_viable_product.
  apply (safe_bind strict (fun _ => True)).
  - apply search_pages_safe. exact Hr.
  - intros st _. destruct (descriptions (snd st)).
    + split; [constructor|split]; simpl; [discriminate|discriminate].
    + apply safe_ret. exact I.
Qed.

(** C9, as stated, for a caller that passes a negative accumulator: on an
    empty first page the search re-filters at 1.30 and the validation
    rejects it. *)
Lemma find_viable_product_thresholds_counterexample :
  ~ (forall fuel w title ramp_down t r,
       In (Filter t r) (trace (find_viable_product fuel w title ramp_down)) ->
       0 <= t /\ t <= similarity_threshold
       /\ r <> Raise InvalidSimilarityThreshold).
Proof.
  intros H.
  destruct (H 3%nat empty_web "camera"%string (-1)
              (py_max 0 (similarity_threshold - (-1 + ramp_step)))
              (Raise InvalidSimilarityThreshold)) as [_ [_ Hr]].
  - right; right; left. reflexivity.
  - apply Hr. reflexivity.
Qed.

Example negative_ramp_down_rejected :
  result (find_viable_product 3 empty_web "camera" (-1))
  = Raise InvalidSimilarityThreshold
  /\ Forall2 Qeq (thresholds (trace (find_viable_product 3 empty_web "camera" (-1))))
       [35 # 100; 130 # 100].
Proof. split; [reflexivity|repeat constructor]. Qed.

(** C9 (amended). Every threshold the search passes to the filter is at
    least 0; when the accumulator passed by the caller is at least -0.05,
    as the 0.0 of the only caller is, every threshold is also at most
    0.35, no filtering attempt is rejected
    and the search does not raise [InvalidSimilarityThreshold]. *)
Theorem find_viable_product_thresholds
    (fuel : nat) (w : web) (title : string) (ramp_down : Q) :
  let m := find_viable_product fuel w title ramp_down in
  (forall t r, In (Filter t r) (trace m) -> 0 <= t)
  /\ (- ramp_step <= ramp_down ->
      (forall t r, In (Filter t r) (trace m) ->
         t <= similarity_threshold /\ r <> Raise InvalidSimilarityThreshold)
      /\ result m <> Raise InvalidSimilarityThreshold).
Proof.
  cbv zeta. split.
  - intros t r Hin.
    destruct (find_viable_product_safe false fuel w title ramp_down) as [Ht _];
      [discriminate|].
    rewrite Forall_forall in Ht. apply (Ht _ Hin).
  - intros Hr.
    destruct (find_viable_product_safe true fuel w title ramp_down) as [Ht [Hres _]];
      [intros _; exact Hr|].
    split; [|apply Hres; reflexivity].
    intros t r Hin. rewrite Forall_forall in Ht.
    apply (Ht _ Hin). reflexivity.
Qed.

Lemma find_viable_product_thresholds_witness :
  (forall t r,
     In (Filter t r) (trace (find_viable_product 3 empty_web "camera" 0)) ->
     t <= similarity_threshold /\ r <> Raise InvalidSimilarityThreshold)
  /\ result (find_viable_product 3 empty_web "camera" 0)
     <> Raise InvalidSimilarityThreshold.
Proof.
  apply (proj2 (find_viable_product_thresholds 3 empty_web "camera" 0)).
  unfold ramp_step. discriminate.
Defined.

(** *** Termination *)

Lemma bind_not_out_of_fuel {A B} (m : run A) (f : A -> run B) :
  result m <> OutOfFuel ->
  (forall a, result m = Ok a -> result (f a) <> OutOfFuel) ->
  result (bind m f) <> OutOfFuel.
Proof.
  intros Hm Hf. rewrite result_bind.
  destruct (result m) as [a|e|];
    [apply Hf; reflexivity|discriminate|exfalso; apply Hm; reflexivity].
Qed.

Lemma search_pages_terminates (fuel : nat) (w : web) (title : string)
    (page_numbers : list nat) : forall st,
  (3 <= fuel)%nat ->
  result (search_pages fuel w title st page_numbers) <> OutOfFuel.
Proof.
  induction page_numbers as [|p rest IH]; intros st Hfuel; [discriminate|].
  change (search_pages fuel w title st (p :: rest))
    with (bind (search_page fuel w title st p)
               (fun st' => search_pages fuel w title st' rest)).
  apply bind_not_out_of_fuel; [|intros st' _; apply IH; exact Hfuel].
  destruct st as [ramp_down acc]. unfold search_page.
  apply bind_not_out_of_fuel.
  { unfold create_url. destruct (w title p); discriminate. }
  intros page _. apply bind_not_out_of_fuel;
    [apply listing_not_out_of_fuel|].
  intros filtered _. apply bind_not_out_of_fuel.
  - destruct filtered; [|discriminate].
    apply ramp_down_loop_terminates; simpl; lia.
  - intros [r' f'] _. discriminate.
Qed.

(** With three iterations allowed to each ramp-down loop, the search runs
    to its end: the model never cuts it short. *)
Lemma find_viable_product_terminates (fuel : nat) (w : web) (title : string)
    (ramp_down : Q) :
  (3 <= fuel)%nat ->
  result (find_viable_product fuel w title ramp_down) <> OutOfFuel.
Proof.
  intros Hfuel. unfold find_viable_product. apply bind_not_out_of_fuel.
  - apply search_pages_terminates. exact Hfuel.
  - intros st _. destruct (descriptions (snd st)); discriminate.
Qed.

End SearchFacts.

(** ** Properties of the sequence matcher *)

Section MatcherFacts.
Import Difflib.
Local Open Scope nat_scope.

(** *** The positions of an element *)

Lemma positions_from_In (elt : ascii) (l : list ascii) : forall k j,
  In j (positions_from k elt l)
  <-> exists i, j = k + i /\ nth_error l i = Some elt.
Proof.
  induction l as [|x l IH]; intros k j; simpl.
  - split; [tauto|]. intros [[|i] [_ H]]; discriminate.
  - assert (Hrec : In j (positions_from (S k) elt l)
                   <-> exists i, j = k + S i /\ nth_error l i = Some elt).
    { rewrite IH. split; intros [i [-> Hi]]; exists i; split; auto; lia. }
    destruct (Ascii.eqb x elt) eqn:E; simpl; rewrite Hrec; split.
    + apply Ascii.eqb_eq in E. subst x.
      intros [<-|[i [-> Hi]]]; [exists 0|exists (S i)]; split; auto; lia.
    + intros [[|i] [-> Hi]]; [left; lia|right; exists i; auto].
    + intros [i [-> Hi]]. exists (S i); auto.
    + intros [[|i] [-> Hi]]; [|exists i; auto].
      simpl in Hi. injection Hi as ->. rewrite Ascii.eqb_refl in E. discriminate.
Qed.

Lemma positions_from_sorted (elt : ascii) (l : list ascii) : forall k,
  StronglySorted lt (positions_from k elt l).
Proof.
  induction l as [|x l IH]; intros k; simpl; [constructor|].
  destruct (Ascii.eqb x elt); [|apply IH].
  constructor; [apply IH|].
  apply Forall_forall. intros j Hj.
  apply positions_from_In in Hj. destruct Hj as [i [-> _]]. lia.
Qed.

Lemma elt_at_nth_error (l : list ascii) (i : nat) :
  i < List.length l -> nth_error l i = Some (elt_at l i).
Proof. intros H. unfold elt_at. apply nth_error_nth'. exact H. Qed.

Lemma nth_error_elt_at (l : list ascii) (i : nat) (x : ascii) :
  nth_error l i = Some x -> i < List.length l /\ elt_at l i = x.
Proof.
  intros H. split; [apply nth_error_Some; congruence|].
  unfold elt_at. apply nth_error_nth. exact H.
Qed.

(** The entries of [b2j] for an element: ascending positions of [b] that
    hold the element. *)
Lemma b2j_sorted (b : list ascii) (elt : ascii) : StronglySorted lt (b2j b elt).
Proof.
  unfold b2j. destruct (is_popular b elt); [constructor|].
  apply positions_from_sorted.
Qed.

Lemma b2j_In (b : list ascii) (elt : ascii) (j : nat) :
  In j (b2j b elt) ->
  j < List.length b /\ elt_at b j = elt /\ is_popular b elt = false.
Proof.
  unfold b2j. destruct (is_popular b elt) eqn:E; [intros []|].
  intros H. apply positions_from_In in H. destruct H as [i [-> Hi]].
  apply nth_error_elt_at in Hi. simpl. tauto.
Qed.

Lemma b2j_complete (b : list ascii) (j : nat) :
  j < List.length b -> is_popular b (elt_at b j) = false ->
  In j (b2j b (elt_at b j)).
Proof.
  intros Hj Hp. unfold b2j. rewrite Hp. apply positions_from_In.
  exists j. split; [reflexivity|]. apply elt_at_nth_error. exact Hj.
Qed.

(** *** The longest match lies inside the region searched *)

Lemma scan_row_within (i alo blo bhi : nat) (j2len : nat -> nat) :
  alo <= i ->
  (forall j, j2len_get_pred j2len j <= i - alo
             /\ j2len_get_pred j2len j <= j - blo) ->
  forall js newj2len best,
    row_within alo blo i newj2len ->
    block_within alo (S i) blo bhi best ->
    row_within alo blo i (fst (scan_row i blo bhi j2len js newj2len best))
    /\ block_within alo (S i) blo bhi
         (snd (scan_row i blo bhi j2len js newj2len best)).
Proof.
  intros Hi Hprev. induction js as [|j js IH]; intros newj2len best Hrow Hbest;
    simpl; [auto|].
  destruct (j <? blo) eqn:Hlo; [apply IH; assumption|].
  destruct (bhi <=? j) eqn:Hhi; [simpl; auto|].
  apply Nat.ltb_ge in Hlo. apply Nat.leb_gt in Hhi.
  destruct best as [[besti bestj] bestsize].
  destruct (Hprev j) as [Hk1 Hk2].
  apply IH.
  - intros x. unfold j2len_set. destruct (x =? j) eqn:E; [|apply Hrow].
    apply Nat.eqb_eq in E. subst x. lia.
  - destruct (bestsize <? j2len_get_pred j2len j + 1); [|exact Hbest].
    simpl. lia.
Qed.

Lemma scan_rows_within (a b : list ascii) (alo blo bhi : nat) :
  forall len i j2len best,
    alo <= i ->
    (forall j, j2len_get_pred j2len j <= i - alo
               /\ j2len_get_pred j2len j <= j - blo) ->
    block_within alo i blo bhi best ->
    block_within alo (i + len) blo bhi
      (scan_rows a b (seq i len) blo bhi j2len best).
Proof.
  induction len as [|len IH]; intros i j2len best Hi Hprev Hbest; simpl.
  - rewrite Nat.add_0_r. exact Hbest.
  - destruct (scan_row_within i alo blo bhi j2len Hi Hprev
                (b2j b (elt_at a i)) j2len_empty best) as [Hrow Hbest'].
    + intros j. unfold j2len_empty. lia.
    + destruct best as [[besti bestj] bestsize]. simpl in *. lia.
    + destruct (scan_row i blo bhi j2len (b2j b (elt_at a i)) j2len_empty best)
        as [newj2len best']. simpl in Hrow, Hbest'.
      replace (i + S len) with (S i + len) by lia.
      apply IH; [lia| |exact Hbest'].
      intros [|j]; cbn [j2len_get_pred]; [lia|]. destruct (Hrow j). lia.
Qed.

Lemma extend_left_unfold (a b : list ascii) (junk : bool) (alo blo : nat)
    (i' j' bestsize : nat) :
  extend_left a b junk alo blo (S i') (S j') bestsize
  = if (alo <? S i') && (blo <? S j')
       && Bool.eqb (isbjunk (elt_at b j')) junk
       && Ascii.eqb (elt_at a i') (elt_at b j')
    then extend_left a b junk alo blo i' j' (bestsize + 1)
    else (S i', S j', bestsize).
Proof. reflexivity. Qed.

Lemma extend_right_unfold (a b : list ascii) (junk : bool)
    (gap bhi besti bestj bestsize : nat) :
  extend_right a b junk (S gap) bhi besti bestj bestsize
  = if (bestj + bestsize <? bhi)
       && Bool.eqb (isbjunk (elt_at b (bestj + bestsize))) junk
       && Ascii.eqb (elt_at a (besti + bestsize)) (elt_at b (bestj + bestsize))
    then extend_right a b junk gap bhi besti bestj (bestsize + 1)
    else bestsize.
Proof. reflexivity. Qed.

Lemma extend_left_within (a b : list ascii) (junk : bool) (alo blo : nat) :
  forall besti bestj bestsize,
    alo <= besti -> blo <= bestj ->
    let '(i, j, k) := extend_left a b junk alo blo besti bestj bestsize in
    alo <= i /\ blo <= j /\ i + k = besti + bestsize
    /\ j + k = bestj + bestsize /\ bestsize <= k.
Proof.
  induction besti as [|i' IH]; intros bestj bestsize Ha Hb.
  - cbn [extend_left]. lia.
  - destruct bestj as [|j']; [cbn [extend_left]; lia|].
    rewrite extend_left_unfold.
    destruct ((alo <? S i') && (blo <? S j')
              && Bool.eqb (isbjunk (elt_at b j')) junk
              && Ascii.eqb (elt_at a i') (elt_at b j')) eqn:E; [|lia].
    apply andb_true_iff in E. destruct E as [E _].
    apply andb_true_iff in E. destruct E as [E _].
    apply andb_true_iff in E. destruct E as [E1 E2].
    apply Nat.ltb_lt in E1, E2.
    specialize (IH j' (bestsize + 1)).
    destruct (extend_left a b junk alo blo i' j' (bestsize + 1)) as [[i j] k].
    lia.
Qed.

Lemma extend_right_within (a b : list ascii) (junk : bool) (bhi besti bestj : nat) :
  forall gap bestsize,
    bestj + bestsize <= bhi ->
    let k := extend_right a b junk gap bhi besti bestj bestsize in
    bestsize <= k /\ k <= bestsize + gap /\ bestj + k <= bhi.
Proof.
  induction gap as [|gap IH]; intros bestsize Hb; cbv zeta.
  - cbn [extend_right]. lia.
  - rewrite extend_right_unfold.
    destruct ((bestj + bestsize <? bhi)
              && Bool.eqb (isbjunk (elt_at b (bestj + bestsize))) junk
              && Ascii.eqb (elt_at a (besti + bestsize))
                   (elt_at b (bestj + bestsize))) eqn:E; [|lia].
    apply andb_true_iff in E. destruct E as [E _].
    apply andb_true_iff in E. destruct E as [E _].
    apply Nat.ltb_lt in E.
    specialize (IH (bestsize + 1)). cbv zeta in IH. lia.
Qed.

Lemma extend_within (a b : list ascii) (junk : bool) (alo ahi blo bhi : nat)
    (best : block) :
  block_within alo ahi blo bhi best ->
  block_within alo ahi blo bhi (extend a b junk alo ahi blo bhi best)
  /\ snd best <= snd (extend a b junk alo ahi blo bhi best).
Proof.
  destruct best as [[besti bestj] bestsize]. unfold extend, block_within.
  intros (H1 & H2 & H3 & H4).
  pose proof (extend_left_within a b junk alo blo besti bestj bestsize H1 H3) as HL.
  destruct (extend_left a b junk alo blo besti bestj bestsize) as [[i j] k].
  destruct HL as (L1 & L2 & L3 & L4 & L5).
  pose proof (extend_right_within a b junk bhi i j (ahi - (i + k)) k) as HR.
  cbv zeta in HR. simpl. lia.
Qed.

Lemma find_longest_match_within (a b : list ascii) (alo ahi blo bhi : nat) :
  alo <= ahi -> blo <= bhi ->
  block_within alo ahi blo bhi (find_longest_match a b alo ahi blo bhi).
Proof.
  intros Ha Hb. unfold find_longest_match.
  apply extend_within, extend_within.
  replace ahi with (alo + (ahi - alo)) at 1 by lia.
  apply scan_rows_within; [lia| |simpl; lia].
  intros j. unfold j2len_empty. destruct j; simpl; lia.
Qed.

(** *** The loop of [get_matching_blocks] terminates *)

Lemma matching_loop_total (a b : list ascii) (fuel : nat) :
  forall queue matching_blocks,
    Forall region_ok queue -> queue_size queue <= fuel ->
    matching_loop a b fuel queue matching_blocks <> None.
Proof.
  induction fuel as [|fuel IH]; intros queue acc Hok Hsize.
  - destruct queue as [|[[[alo ahi] blo] bhi] queue]; simpl in *;
      [discriminate|lia].
  - destruct queue as [|[[[alo ahi] blo] bhi] queue]; [discriminate|].
    cbn [matching_loop]. inversion Hok as [|r q Hr Hok']; subst.
    destruct Hr as [Ha Hb].
    pose proof (find_longest_match_within a b alo ahi blo bhi Ha Hb) as Hw.
    destruct (find_longest_match a b alo ahi blo bhi) as [[i j] k].
    simpl in Hw. simpl in Hsize.
    destruct (k =? 0) eqn:Ek; [apply IH; [exact Hok'|lia]|].
    apply Nat.eqb_neq in Ek.
    apply IH.
    + destruct ((alo <? i) && (blo <? j)) eqn:E1;
        destruct ((i + k <? ahi) && (j + k <? bhi)) eqn:E2;
        repeat (constructor; [simpl; lia|]); exact Hok'.
    + destruct ((alo <? i) && (blo <? j));
        destruct ((i + k <? ahi) && (j + k <? bhi)); simpl; lia.
Qed.

(** The fuel given by [get_matching_blocks] is enough: the branch [None] of
    its [match] is never taken. *)
Lemma get_matching_blocks_total (a b : list ascii) :
  matching_loop a b (matching_fuel a)
    [(0, List.length a, 0, List.length b)] [] <> None.
Proof.
  apply matching_loop_total.
  - constructor; [simpl; lia|constructor].
  - unfold matching_fuel. simpl. lia.
Qed.

(** *** A sequence matched against itself *)

Section SelfMatch.
Variable c : list ascii.
Let n : nat := List.length c.

Lemma diag_le (i : nat) : diag c i <= i.
Proof.
  induction i as [|i IH]; simpl; [lia|].
  destruct (is_popular c (elt_at c i)); lia.
Qed.

Lemma diag_step (i : nat) :
  is_popular c (elt_at c i) = false -> diag c (S i) = S (diag c i).
Proof. intros H. simpl. rewrite H. reflexivity. Qed.

Lemma scan_row_diag (i : nat) (j2len : nat -> nat) :
  i < n -> row_diag c i j2len ->
  forall js newj2len best,
    StronglySorted lt js ->
    (forall j, In j js ->
       j < n /\ elt_at c j = elt_at c i /\ is_popular c (elt_at c i) = false) ->
    (forall j, newj2len j <= diag c (S (Nat.min j i))) ->
    best_diag c n i best ->
    In i js \/ visited c i newj2len best ->
    let out := scan_row i 0 n j2len js newj2len best in
    (forall j, fst out j <= diag c (S (Nat.min j i)))
    /\ best_diag c n i (snd out)
    /\ visited c i (fst out) (snd out).
Proof.
  intros Hi [Hrow Hdiag].
  induction js as [|j js IH]; intros newj2len best Hsort Hjs Hnew Hbest Hvis;
    cbv zeta.
  - simpl. destruct Hvis as [[]|Hvis]. auto.
  - cbn [scan_row].
    destruct (Hjs j (or_introl eq_refl)) as (Hjn & Hjc & Hpop).
    replace (j <? 0) with false by (symmetry; apply Nat.ltb_ge; lia).
    replace (n <=? j) with false by (symmetry; apply Nat.leb_gt; lia).
    inversion Hsort as [|j' js' Hsort' Hlt]; subst.
    rewrite Forall_forall in Hlt.
    destruct best as [[besti bestj] bestsize].
    set (k := j2len_get_pred j2len j + 1).
    assert (Hk : k <= diag c (S (Nat.min j i))).
    { rewrite diag_step.
      - unfold k. specialize (Hrow j). lia.
      - destruct (Nat.min_spec j i) as [[_ ->]|[_ ->]]; [rewrite Hjc|];
          exact Hpop. }
    assert (Hother : j <> i -> k <= bestsize).
    { intros Hne. destruct Hbest as (_ & _ & Hb).
      destruct (Nat.lt_ge_cases j i) as [Hlt'|Hge].
      - rewrite Nat.min_l in Hk by lia. specialize (Hb (S j)). lia.
      - rewrite Nat.min_r in Hk by lia.
        destruct Hvis as [[Heq|Hin]|[_ Hv]]; [lia| |cbn [snd] in Hv; lia].
        specialize (Hlt i Hin). lia. }
    apply IH.
    + exact Hsort'.
    + intros x Hx. apply Hjs. right; exact Hx.
    + intros x. unfold j2len_set. destruct (x =? j) eqn:E; [|apply Hnew].
      apply Nat.eqb_eq in E. subst x. exact Hk.
    + destruct (bestsize <? k) eqn:E; [|exact Hbest].
      apply Nat.ltb_lt in E.
      assert (j = i)
        by (destruct (Nat.eq_dec j i) as [Heq|Hne];
            [exact Heq|specialize (Hother Hne); lia]).
      subst j. destruct Hbest as (_ & _ & Hb).
      assert (k = diag c (S i)) by (unfold k; rewrite diag_step, Hdiag; [lia|exact Hpop]).
      pose proof (diag_le (S i)). cbn [best_diag]. repeat split; try lia.
      intros x Hx. specialize (Hb x Hx). lia.
    + destruct (Nat.eq_dec j i) as [->|Hne].
      * right. unfold visited, j2len_set. rewrite Nat.eqb_refl.
        assert (k = diag c (S i))
          by (unfold k; rewrite diag_step, Hdiag; [lia|exact Hpop]).
        split; [assumption|].
        destruct (bestsize <? k) eqn:E; cbn [snd];
          [lia|apply Nat.ltb_ge in E; lia].
      * destruct Hvis as [[Heq|Hin]|[Hv1 Hv2]]; [congruence|left; exact Hin|].
        right. unfold visited, j2len_set.
        replace (i =? j) with false by (symmetry; apply Nat.eqb_neq; lia).
        split; [exact Hv1|].
        cbn [snd] in Hv2.
        destruct (bestsize <? k) eqn:E; cbn [snd]; [|exact Hv2].
        apply Nat.ltb_lt in E. lia.
Qed.

Lemma scan_rows_diag : forall len i j2len best,
  i + len <= n -> row_diag c i j2len -> best_diag c n i best ->
  let '(besti, bestj, bestsize) :=
    scan_rows c c (seq i len) 0 n j2len best in
  besti = bestj /\ besti + bestsize <= n.
Proof.
  induction len as [|len IH]; intros i j2len best Hlen Hrow Hbest.
  - simpl. destruct best as [[besti bestj] bestsize].
    destruct Hbest as (H1 & H2 & _). auto.
  - cbn [seq scan_rows].
    destruct (scan_row_diag i j2len ltac:(lia) Hrow
                (b2j c (elt_at c i)) j2len_empty best) as (Hnew & Hbest' & Hvis).
    + apply b2j_sorted.
    + intros j Hj. apply b2j_In in Hj. fold n in Hj. tauto.
    + intros j. unfold j2len_empty. lia.
    + exact Hbest.
    + destruct (is_popular c (elt_at c i)) eqn:Hpop.
      * right. unfold visited, j2len_empty. cbn [diag]. rewrite Hpop. lia.
      * left. apply b2j_complete; [fold n; lia|exact Hpop].
    + destruct (scan_row i 0 n j2len (b2j c (elt_at c i)) j2len_empty best)
        as [newj2len best']. cbn [fst snd] in Hnew, Hbest', Hvis.
      apply IH; [lia| |].
      * destruct Hvis as [Hv _]. split.
        -- intros [|j]; cbn [j2len_get_pred]; [lia|].
           rewrite <- Nat.succ_min_distr. apply Hnew.
        -- exact Hv.
      * destruct best' as [[besti bestj] bestsize].
        destruct Hbest' as (H1 & H2 & H3). destruct Hvis as [_ Hv].
        cbn [snd] in Hv. repeat split; auto.
        intros j Hj. destruct (Nat.eq_dec j (S i)) as [->|Hne]; [exact Hv|].
        apply H3. lia.
Qed.

Lemma extend_left_self (junk : bool) : forall i s,
  extend_left c c junk 0 0 i i s = if junk then (i, i, s) else (0, 0, s + i).
Proof.
  induction i as [|i IH]; intros s.
  - cbn [extend_left]. destruct junk; [reflexivity|]. f_equal. lia.
  - rewrite extend_left_unfold. unfold isbjunk at 1.
    rewrite Ascii.eqb_refl. destruct junk; simpl; [reflexivity|].
    rewrite IH. f_equal. lia.
Qed.

Lemma extend_right_self (junk : bool) : forall gap s,
  s + gap = n ->
  extend_right c c junk gap n 0 0 s = if junk then s else n.
Proof.
  induction gap as [|gap IH]; intros s Hs.
  - cbn [extend_right]. destruct junk; lia.
  - rewrite extend_right_unfold. unfold isbjunk at 1.
    rewrite Ascii.eqb_refl.
    replace (0 + s <? n) with true by (symmetry; apply Nat.ltb_lt; lia).
    destruct junk; simpl; [reflexivity|]. apply IH. lia.
Qed.

(** The longest match of a sequence with itself is the whole sequence. *)
Lemma find_longest_match_self : find_longest_match c c 0 n 0 n = (0, 0, n).
Proof.
  unfold find_longest_match. rewrite Nat.sub_0_r.
  pose proof (scan_rows_diag n 0 j2len_empty (0, 0, 0)) as H.
  destruct (scan_rows c c (seq 0 n) 0 n j2len_empty (0, 0, 0))
    as [[besti bestj] bestsize].
  destruct H as [<- Hle].
  - lia.
  - split; [intros j; unfold j2len_empty; destruct j; simpl; lia|reflexivity].
  - simpl. repeat split; try lia. intros j Hj. replace j with 0 by lia. simpl. lia.
  - unfold extend at 2. rewrite extend_left_self.
    rewrite extend_right_self by lia.
    unfold extend. rewrite extend_left_self. cbn [Nat.add].
    rewrite Nat.sub_diag. reflexivity.
Qed.

End SelfMatch.

Lemma get_matching_blocks_self (c : list ascii) :
  list_sum (map (fun x : block => snd x) (get_matching_blocks c c))
  = List.length c.
Proof.
  unfold get_matching_blocks, matching_fuel.
  replace (2 * List.length c + 1) with (S (2 * List.length c)) by lia.
  cbn [matching_loop]. rewrite find_longest_match_self.
  destruct (List.length c) as [|m] eqn:E.
  - reflexivity.
  - cbn [Nat.eqb]. replace (0 <? 0) with false by reflexivity.
    cbn [andb]. replace (0 + S m <? S m) with false
      by (symmetry; apply Nat.ltb_ge; lia).
    cbn [andb matching_loop app sort_blocks fold_right insert_block collapse].
    cbn. lia.
Qed.

Lemma ratio_self (c : list ascii) : (ratio c c == 1)%Q.
Proof.
  unfold ratio. rewrite get_matching_blocks_self. unfold calculate_ratio.
  destruct (List.length c + List.length c =? 0) eqn:E; [reflexivity|].
  apply Nat.eqb_neq in E.
  rewrite Nat2Z.inj_add, inject_Z_plus.
  assert (Hnz : ~ (inject_Z (Z.of_nat (List.length c)) == 0)%Q).
  { intros H. unfold Qeq in H. simpl in H. lia. }
  field. intros H. apply Hnz. Lqa.lra.
Qed.

End MatcherFacts.

(** ** The similarity of a string with itself *)

Section SimilarityFacts.
Import EbayScraper.

(** C4. A string is as similar to itself as can be: [get_similarity(s, s)]
    is 1, for every [s]. *)
Theorem get_similarity_self (s : string) : (get_similarity s s == 1)%Q.
Proof. unfold get_similarity. apply ratio_self. Qed.

End SimilarityFacts.

(** ** The candidates built from a search *)

Section CandidateFacts.
Import Str Py EbayScraper Views.
Local Open Scope Q_scope.

Lemma result_bind_Ok {A B} (m : run A) (f : A -> run B) (b : B) :
  result (bind m f) = Ok b ->
  exists a, result m = Ok a /\ result (f a) = Ok b.
Proof.
  rewrite result_bind. destruct (result m) as [a|e|]; try discriminate.
  intros H. exists a. auto.
Qed.

Lemma accumulate_parallel (acc : found) (d : dict scored) :
  parallel acc -> parallel (accumulate acc d).
Proof.
  unfold parallel, accumulate, keys, values. cbn [descriptions prices shippings
    countries conditions similarities].
  intros (H1 & H2 & H3 & H4 & H5 & H6 & H7).
  rewrite !length_app, !length_map, H1, H2, H3, H4, H5.
  repeat split; try reflexivity.
  - apply Forall_app. split; [exact H6|].
    apply Forall_forall. intros s Hs. apply in_map_iff in Hs.
    destruct Hs as [x [<- _]]. eexists. reflexivity.
  - apply Forall_app. split; [exact H7|].
    apply Forall_forall. intros s Hs. apply in_map_iff in Hs.
    destruct Hs as [x [<- _]]. eexists. reflexivity.
Qed.

Lemma search_page_parallel (fuel : nat) (w : web) (title : string)
    (st st' : Q * found) (p : nat) :
  parallel (snd st) ->
  result (search_page fuel w title st p) = Ok st' -> parallel (snd st').
Proof.
  destruct st as [ramp_down acc]. cbn [snd]. intros Hacc. unfold search_page.
  intros H.
  apply result_bind_Ok in H. destruct H as [page [_ H]].
  apply result_bind_Ok in H. destruct H as [filtered [_ H]].
  apply result_bind_Ok in H. destruct H as [[r' d] [_ H]].
  cbn in H. injection H as <-. cbn [snd]. apply accumulate_parallel. exact Hacc.
Qed.

Lemma search_pages_parallel (fuel : nat) (w : web) (title : string)
    (page_numbers : list nat) : forall st st',
  parallel (snd st) ->
  result (search_pages fuel w title st page_numbers) = Ok st' ->
  parallel (snd st').
Proof.
  induction page_numbers as [|p rest IH]; intros st st' Hst H.
  - cbn in H. injection H as <-. exact Hst.
  - change (search_pages fuel w title st (p :: rest))
      with (bind (search_page fuel w title st p)
                 (fun st1 => search_pages fuel w title st1 rest)) in H.
    apply result_bind_Ok in H. destruct H as [st1 [H1 H2]].
    apply (IH st1 st'); [|exact H2].
    apply (search_page_parallel fuel w title st st1 p Hst H1).
Qed.

Lemma find_viable_product_parallel (fuel : nat) (w : web) (title : string)
    (ramp_down : Q) (f : found) :
  result (find_viable_product fuel w title ramp_down) = Ok f ->
  parallel f /\ descriptions f <> [].
Proof.
  unfold find_viable_product. intros H.
  apply result_bind_Ok in H. destruct H as [st [H1 H2]].
  apply search_pages_parallel in H1;
    [|cbn; repeat split; try reflexivity; constructor].
  destruct (descriptions (snd st)) eqn:E; [discriminate|].
  cbn in H2. injection H2 as <-. split; [exact H1|]. congruence.
Qed.

(** The values of a dictionary keep a property through [d[k] = v]. *)
Lemma dict_set_values {V} (P : V -> Prop) (k : string) (v : V) (d : dict V) :
  P v -> (forall e, In e d -> P (snd e)) ->
  forall e, In e (dict_set k v d) -> P (snd e).
Proof.
  intros Hv. induction d as [|[k' v'] d IH]; intros Hd e; simpl.
  - intros [<-|[]]. exact Hv.
  - destruct (String.eqb k' k).
    + intros [<-|He]; [exact Hv|]. apply Hd. right; exact He.
    + intros [<-|He]; [apply (Hd (k', v')); left; reflexivity|].
      apply IH; [|exact He]. intros e' He'. apply Hd. right; exact He'.
Qed.

Lemma dict_set_nonempty {V} (k : string) (v : V) (d : dict V) :
  dict_set k v d <> [].
Proof.
  destruct d as [|[k' v'] d]; simpl; [discriminate|].
  destruct (String.eqb k' k); discriminate.
Qed.

Lemma zip_candidates_formatted (ds : list string) :
  forall (ps ss : list string) (cs ks : list string) (sims : list Q) acc,
    Forall money ps -> Forall money ss ->
    (forall e, In e acc -> formatted (snd e)) ->
    forall e,
      In e (zip_candidates ds (map PyStr ps) (map PyStr ss) cs ks sims acc) ->
      formatted (snd e).
Proof.
  induction ds as [|d ds IH]; intros ps ss cs ks sims acc Hp Hs Hacc;
    [exact Hacc|].
  destruct ps as [|p ps]; [exact Hacc|].
  destruct ss as [|s ss]; [exact Hacc|].
  destruct cs as [|c cs]; [exact Hacc|].
  destruct ks as [|k ks]; [exact Hacc|].
  destruct sims as [|sim sims]; [exact Hacc|].
  inversion Hp as [|? ? [x Hx] Hp']; subst.
  inversion Hs as [|? ? [y Hy] Hs']; subst.
  cbn [map zip_candidates]. apply IH; [exact Hp'|exact Hs'|].
  apply dict_set_values; [|exact Hacc].
  exists x, y. split; reflexivity.
Qed.

Lemma zip_candidates_nonempty (ds : list string) :
  forall (ps ss : list pyval) (cs ks : list string) (sims : list Q) acc,
    acc <> [] -> zip_candidates ds ps ss cs ks sims acc <> [].
Proof.
  induction ds as [|d ds IH]; intros ps ss cs ks sims acc Hacc; [exact Hacc|].
  destruct ps as [|p ps]; [exact Hacc|].
  destruct ss as [|s ss]; [exact Hacc|].
  destruct cs as [|c cs]; [exact Hacc|].
  destruct ks as [|k ks]; [exact Hacc|].
  destruct sims as [|sim sims]; [exact Hacc|].
  cbn [zip_candidates]. apply IH. apply dict_set_nonempty.
Qed.

Lemma post_candidates_formatted (f : found) :
  parallel f -> descriptions f <> [] ->
  exists candidates,
    post_candidates f = Ok candidates
    /\ candidates <> []
    /\ forall e, In e candidates -> formatted (snd e).
Proof.
  intros (H1 & H2 & H3 & H4 & H5 & H6 & H7) Hne.
  unfold post_candidates, construct_candidates.
  rewrite !length_map, H1, H2, H3, H4, H5, !Nat.eqb_refl. cbn [andb].
  eexists. split; [reflexivity|]. split.
  - destruct (descriptions f) as [|d ds]; [congruence|].
    destruct (prices f) as [|p ps]; [discriminate|].
    destruct (shippings f) as [|s ss]; [discriminate|].
    destruct (countries f) as [|c cs]; [discriminate|].
    destruct (conditions f) as [|k ks]; [discriminate|].
    destruct (similarities f) as [|sim sims]; [discriminate|].
    cbn [map zip_candidates]. apply zip_candidates_nonempty.
    apply dict_set_nonempty.
  - apply zip_candidates_formatted; [exact H6|exact H7|intros e []].
Qed.

(** C10. The candidates built from the lists a search returned hold their
    price and shipping cost as the strings written by [",.2f"], and the
    selector breaks the tie between the most similar ones with [<] on those
    strings: it returns an entry below whose price string no other lies in
    the order of the strings, in which ["1,000.00"] comes before ["99.00"]. *)
Theorem search_candidates_compared_as_strings :
  (forall fuel w title ramp_down f,
     result (find_viable_product fuel w title ramp_down) = Ok f ->
     exists candidates,
       post_candidates f = Ok candidates
       /\ (forall e, In e candidates -> formatted (snd e))
       /\ exists best s,
            lowest_price_highest_similarity candidates = Ok best
            /\ most_similar candidates best
            /\ d_price (snd best) = PyStr s
            /\ forall e t, most_similar candidates e ->
                 d_price (snd e) = PyStr t -> str_lt t s = false)
  /\ (forall s t, py_lt (PyStr s) (PyStr t) = Ok (str_lt s t))
  /\ format_money (123456 # 100) = "1,234.56"%string
  /\ format_money 1000 = "1,000.00"%string
  /\ format_money 99 = "99.00"%string
  /\ py_lt (PyStr "1,000.00") (PyStr "99.00") = Ok true
  /\ py_lt (PyFloat 1000) (PyFloat 99) = Ok false.
Proof.
  split; [|repeat split; reflexivity].
  intros fuel w title ramp_down f Hf.
  apply find_viable_product_parallel in Hf. destruct Hf as [Hpar Hne].
  destruct (post_candidates_formatted f Hpar Hne) as [cands [Hc [Hcne Hfmt]]].
  exists cands. split; [exact Hc|]. split; [exact Hfmt|].
  assert (Hstr : forall e, In e cands -> is_str (d_price (snd e))).
  { intros e He. destruct (Hfmt e He) as [p [_ [Hp _]]]. eexists. exact Hp. }
  destruct (selection_is_min_of_most_similar is_str strs_comparable cands Hcne Hstr)
    as [first [others [-> Htied]]].
  destruct (min_by_price_strings others first) as [best [s [Hbest [Hbin [Hs Hleast]]]]].
  { intros e He. apply Hstr. apply Htied. exact He. }
  exists best, s. split; [exact Hbest|]. split; [apply Htied; exact Hbin|].
  split; [exact Hs|].
  intros e t He Ht. apply (Hleast e t); [apply Htied; exact He|exact Ht].
Qed.

Lemma search_candidates_compared_as_strings_witness :
  exists candidates,
    post_candidates camera_found = Ok candidates
    /\ (forall e, In e candidates -> formatted (snd e))
    /\ exists best s,
         lowest_price_highest_similarity candidates = Ok best
         /\ most_similar candidates best
         /\ d_price (snd best) = PyStr s
         /\ forall e t, most_similar candidates e ->
              d_price (snd e) = PyStr t -> str_lt t s = false.
Proof.
  apply (proj1 search_candidates_compared_as_strings 3%nat camera_web
           "camera"%string 0 camera_found).
  vm_compute. reflexivity.
Defined.

(** On those two listings the selection returns the one at 1,000.00: its
    price string is the lesser one. *)
Example camera_selection :
  prices camera_found = ["99.00"; "1,000.00"]%string
  /\ exists candidates best,
       post_candidates camera_found = Ok candidates
       /\ lowest_price_highest_similarity candidates = Ok best
       /\ fst best = "camera two"%string
       /\ d_price (snd best) = PyStr "1,000.00".
Proof.
  split; [reflexivity|]. eexists. eexists.
  split; [vm_compute; reflexivity|]. split; [vm_compute; reflexivity|].
  split; reflexivity.
Qed.

End CandidateFacts.

(** ** More on [price_difference_rating] *)

Section RatingMore.
Import Rating.
Local Open Scope R_scope.

Lemma exp_nonpos_le_1 (x : R) : x <= 0 -> exp x <= 1.
Proof.
  intros [Hlt | ->]; [|rewrite exp_0; lra].
  rewrite <- exp_0. left. apply exp_increasing. exact Hlt.
Qed.

(** The factor of the penalty, [e^(-0.01 t) + 0.0125 t], grows with the
    days past the threshold. *)
Lemma penalty_factor_increasing (s t : R) :
  0 <= s <= t ->
  exp (- (1 / 100) * s) + 125 / 10000 * s
  <= exp (- (1 / 100) * t) + 125 / 10000 * t.
Proof.
  intros [Hs Hst].
  replace (- (1 / 100) * t) with (- (1 / 100) * s + - (1 / 100) * (t - s)) by ring.
  rewrite exp_plus.
  pose proof (exp_pos (- (1 / 100) * s)) as HA.
  pose proof (exp_nonpos_le_1 (- (1 / 100) * s) ltac:(lra)) as HA1.
  pose proof (exp_nonpos_le_1 (- (1 / 100) * (t - s)) ltac:(lra)) as HB1.
  pose proof (exp_ineq1_le (- (1 / 100) * (t - s))) as HB.
  set (A := exp (- (1 / 100) * s)) in *.
  set (B := exp (- (1 / 100) * (t - s))) in *.
  assert (A * (1 - B) <= 1 - B) by nra.
  nra.
Qed.

Lemma adjusted_positive (x : R) (days : Z) :
  0 < x -> 0 < qualityRating_adjusted x days.
Proof.
  intros Hx. unfold qualityRating_adjusted, qualityRating_penalty.
  destruct (7 <=? days)%Z eqn:E; [|exact Hx].
  apply Z.leb_le in E.
  assert (0 <= IZR (days - 7)) by (apply IZR_le; lia).
  pose proof (exp_pos (- (1 / 100) * IZR (days - 7))). nra.
Qed.

Lemma adjusted_monotone (x : R) (d1 d2 : Z) :
  0 < x -> (d1 <= d2)%Z ->
  qualityRating_adjusted x d1 <= qualityRating_adjusted x d2.
Proof.
  intros Hx Hd. unfold qualityRating_adjusted, qualityRating_penalty.
  destruct (7 <=? d1)%Z eqn:E1; destruct (7 <=? d2)%Z eqn:E2;
    rewrite ?Z.leb_le, ?Z.leb_gt in *; try lia; try lra.
  - assert (Hs : 0 <= IZR (d1 - 7) <= IZR (d2 - 7))
      by (split; apply IZR_le; lia).
    pose proof (penalty_factor_increasing _ _ Hs). nra.
  - assert (0 <= IZR (d2 - 7)) by (apply IZR_le; lia).
    pose proof (exp_pos (- (1 / 100) * IZR (d2 - 7))). nra.
Qed.

Lemma adjusted_doubles (x : R) (days : Z) :
  0 < x -> (7 <= days)%Z -> 2 * x <= qualityRating_adjusted x days.
Proof.
  intros Hx Hd. unfold qualityRating_adjusted, qualityRating_penalty.
  replace (7 <=? days)%Z with true by (symmetry; apply Z.leb_le; exact Hd).
  assert (Hs : 0 <= 0 <= IZR (days - 7)) by (split; [lra|apply IZR_le; lia]).
  pose proof (penalty_factor_increasing _ _ Hs) as H.
  rewrite Rmult_0_r, exp_0 in H. nra.
Qed.

(** The rating is [5 * final / adjusted] brought into [0,5]. *)
Lemma rating_closed_form (x y : R) (days : Z) :
  0 < x ->
  price_difference_rating (Numeric x) (Numeric y) days
  = Ok (clip (5 * y / qualityRating_adjusted x days) 0 5).
Proof.
  intros Hx. rewrite (rating_numeric x y days Hx). f_equal.
  unfold qualityRating. cbv zeta. rewrite <- clip_as_clamp.
  pose proof (adjusted_positive x days Hx) as Ha.
  set (adj := qualityRating_adjusted x days) in *.
  destruct (Rle_dec adj y) as [Hle|Hgt].
  - assert (5 <= 5 * y / adj).
    { unfold Rdiv. apply Rmult_le_reg_r with adj; [exact Ha|].
      rewrite Rmult_assoc, Rinv_l by lra. lra. }
    unfold clip, Rmin, Rmax.
    repeat (destruct (Rle_dec _ _); try lra).
  - f_equal. field. lra.
Qed.

Lemma clip_monotone (u v : R) : u <= v -> clip u 0 5 <= clip v 0 5.
Proof.
  intros H. unfold clip, Rmin, Rmax.
  repeat (destruct (Rle_dec _ _); try lra).
Qed.

Lemma clip_nonpos (u : R) : u <= 0 -> clip u 0 5 = 0.
Proof.
  intros H. unfold clip, Rmin, Rmax.
  repeat (destruct (Rle_dec _ _); try lra).
Qed.

Lemma ratio_monotone_num (y1 y2 a : R) :
  0 < a -> y1 <= y2 -> 5 * y1 / a <= 5 * y2 / a.
Proof.
  intros Ha Hy. unfold Rdiv. apply Rmult_le_compat_r; [|lra].
  left. apply Rinv_0_lt_compat. exact Ha.
Qed.

Lemma ratio_antitone_den (y a1 a2 : R) :
  0 <= y -> 0 < a1 -> a1 <= a2 -> 5 * y / a2 <= 5 * y / a1.
Proof.
  intros Hy Ha1 Ha. unfold Rdiv. apply Rmult_le_compat_l; [lra|].
  apply Rinv_le_contravar; assumption.
Qed.

(** X1. At equal initial price and age, a higher comparable price never
    lowers the rating. *)
Theorem rating_monotone_in_final (x y1 y2 : R) (days : Z) (r1 r2 : R) :
  0 < x -> y1 <= y2 ->
  price_difference_rating (Numeric x) (Numeric y1) days = Ok r1 ->
  price_difference_rating (Numeric x) (Numeric y2) days = Ok r2 ->
  r1 <= r2.
Proof.
  intros Hx Hy H1 H2. rewrite rating_closed_form in H1, H2 by exact Hx.
  injection H1 as <-. injection H2 as <-.
  apply clip_monotone, ratio_monotone_num; [|exact Hy].
  apply adjusted_positive. exact Hx.
Qed.

Lemma rating_monotone_in_final_witness :
  qualityRating 100 50 14 <= qualityRating 100 80 14.
Proof.
  apply (rating_monotone_in_final 100 50 80 14);
    [lra|lra|apply rating_numeric; lra|apply rating_numeric; lra].
Defined.

(** X2. At equal prices, an older listing never rates better: the rating
    does not increase with the days listed. *)
Theorem rating_antitone_in_days (x y : R) (d1 d2 : Z) (r1 r2 : R) :
  0 < x -> (d1 <= d2)%Z ->
  price_difference_rating (Numeric x) (Numeric y) d1 = Ok r1 ->
  price_difference_rating (Numeric x) (Numeric y) d2 = Ok r2 ->
  r2 <= r1.
Proof.
  intros Hx Hd H1 H2. rewrite rating_closed_form in H1, H2 by exact Hx.
  injection H1 as <-. injection H2 as <-.
  pose proof (adjusted_positive x d1 Hx) as Ha1.
  pose proof (adjusted_positive x d2 Hx) as Ha2.
  pose proof (adjusted_monotone x d1 d2 Hx Hd) as Ha.
  destruct (Rle_dec 0 y) as [Hy|Hy].
  - apply clip_monotone, ratio_antitone_den; assumption.
  - assert (H1 : 5 * y / qualityRating_adjusted x d1 <= 0).
    { unfold Rdiv. pose proof (Rinv_0_lt_compat _ Ha1). nra. }
    assert (H2 : 5 * y / qualityRating_adjusted x d2 <= 0).
    { unfold Rdiv. pose proof (Rinv_0_lt_compat _ Ha2). nra. }
    rewrite (clip_nonpos _ H1), (clip_nonpos _ H2). lra.
Qed.

Lemma rating_antitone_in_days_witness :
  qualityRating 100 50 14 <= qualityRating 100 50 0.
Proof.
  apply (rating_antitone_in_days 100 50 0 14);
    [lra|lia|apply rating_numeric; lra|apply rating_numeric; lra].
Defined.

(** X3. Before the seventh day a listing whose comparable costs as much or
    more rates 5; from the seventh day on the initial price counts at least
    double, so the rating is at most [5 * final / (2 * initial)]: 2.5 at
    most for a comparable that costs the same. *)
Theorem rating_seventh_day (x y : R) (days : Z) (r : R) :
  0 < x ->
  price_difference_rating (Numeric x) (Numeric y) days = Ok r ->
  ((days < 7)%Z -> x <= y -> r = 5)
  /\ ((7 <= days)%Z -> r * (2 * x) <= 5 * Rmax y 0).
Proof.
  intros Hx H. rewrite rating_closed_form in H by exact Hx.
  injection H as <-. split.
  - intros Hd Hy. unfold qualityRating_adjusted.
    replace (7 <=? days)%Z with false by (symmetry; apply Z.leb_gt; exact Hd).
    assert (5 <= 5 * y / x).
    { unfold Rdiv. apply Rmult_le_reg_r with x; [exact Hx|].
      rewrite Rmult_assoc, Rinv_l by lra. lra. }
    unfold clip, Rmin, Rmax. repeat (destruct (Rle_dec _ _); try lra).
  - intros Hd. pose proof (adjusted_doubles x days Hx Hd) as Ha.
    set (adj := qualityRating_adjusted x days) in *.
    assert (Hadj : 0 < adj) by lra.
    assert (Hq : 5 * y / adj * adj = 5 * y) by (field; lra).
    unfold clip, Rmin, Rmax.
    repeat (destruct (Rle_dec _ _); try nra).
Qed.

Lemma rating_seventh_day_witness :
  qualityRating 100 100 7 * (2 * 100) <= 5 * Rmax 100 0.
Proof.
  apply (proj2 (rating_seventh_day 100 100 7 (qualityRating 100 100 7)
                  ltac:(lra) (rating_numeric 100 100 7 ltac:(lra)))).
  lia.
Defined.

End RatingMore.

(** ** Properties of [remove_illegal_characters] and [clean_text] *)

Section TextFacts.
Import Str Utils.
Local Open Scope string_scope.

Lemma has_char_app (c : ascii) (s t : string) :
  has_char c (s ++ t) = has_char c s || has_char c t.
Proof.
  induction s as [|x s IH]; simpl; [reflexivity|].
  rewrite IH. apply orb_assoc.
Qed.

Lemma sub_char_removes (c : ascii) (repl s : string) :
  has_char c repl = false -> has_char c (sub_char c repl s) = false.
Proof.
  intros Hr. induction s as [|x s IH]; simpl; [reflexivity|].
  destruct (Ascii.eqb x c) eqn:E.
  - rewrite has_char_app, Hr, IH. reflexivity.
  - simpl. rewrite E, IH. reflexivity.
Qed.

Lemma sub_char_keeps_out (c d : ascii) (repl s : string) :
  has_char d repl = false -> has_char d s = false ->
  has_char d (sub_char c repl s) = false.
Proof.
  intros Hr. induction s as [|x s IH]; simpl; [reflexivity|].
  intros Hs. apply orb_false_iff in Hs. destruct Hs as [Hx Hs].
  destruct (Ascii.eqb x c).
  - rewrite has_char_app, Hr, (IH Hs). reflexivity.
  - simpl. rewrite Hx, (IH Hs). reflexivity.
Qed.

Lemma sub_char_absent (c : ascii) (repl s : string) :
  has_char c s = false -> sub_char c repl s = s.
Proof.
  induction s as [|x s IH]; simpl; [reflexivity|].
  intros Hs. apply orb_false_iff in Hs. destruct Hs as [Hx Hs].
  rewrite Hx, (IH Hs). reflexivity.
Qed.

(** X4. A sanitised title contains neither [#] nor [&]; a title that has
    neither is returned as it is, so that sanitising twice is sanitising
    once. *)
Theorem remove_illegal_characters_clean (title : string) :
  has_char "#" (remove_illegal_characters title) = false
  /\ has_char "&" (remove_illegal_characters title) = false
  /\ (has_char "#" title = false -> has_char "&" title = false ->
      remove_illegal_characters title = title)
  /\ remove_illegal_characters (remove_illegal_characters title)
     = remove_illegal_characters title.
Proof.
  assert (H1 : has_char "#" (remove_illegal_characters title) = false).
  { unfold remove_illegal_characters.
    apply sub_char_keeps_out; [reflexivity|].
    apply sub_char_removes. reflexivity. }
  assert (H2 : has_char "&" (remove_illegal_characters title) = false).
  { unfold remove_illegal_characters. apply sub_char_removes. reflexivity. }
  assert (H3 : forall t, has_char "#" t = false -> has_char "&" t = false ->
                         remove_illegal_characters t = t).
  { intros t Ha Hb. unfold remove_illegal_characters.
    rewrite (sub_char_absent "#" "%2" t Ha). apply sub_char_absent. exact Hb. }
  split; [exact H1|]. split; [exact H2|]. split; [apply H3|].
  apply H3; assumption.
Qed.

Lemma remove_illegal_characters_clean_witness :
  remove_illegal_characters "Guitar 1 and Case" = "Guitar 1 and Case".
Proof.
  apply (proj1 (proj2 (proj2
           (remove_illegal_characters_clean "Guitar 1 and Case"))));
    reflexivity.
Defined.

(** The repository's test of [remove_illegal_characters]. *)
Example remove_illegal_characters_replaces_reserved :
  remove_illegal_characters "Guitar #1 & Case" = "Guitar %21 %26 Case".
Proof. reflexivity. Qed.

(** *** [clean_text] on any title *)

Lemma alnum_not_space (c : ascii) : is_alnum c = true -> is_space c = false.
Proof.
  destruct c as [[] [] [] [] [] [] [] []]; vm_compute; auto; discriminate.
Qed.

Lemma alnum_not_blank (c : ascii) : is_alnum c = true -> Ascii.eqb c " " = false.
Proof.
  destruct c as [[] [] [] [] [] [] [] []]; vm_compute; auto; discriminate.
Qed.

Lemma first_pass_alnum_or_space (s : string) : forall in_run,
  alnum_or_space (sub_runs (fun c => negb (is_alnum c || is_space c)) in_run s)
  = true.
Proof.
  induction s as [|c s IH]; intros in_run; simpl; [reflexivity|].
  destruct (is_alnum c || is_space c) eqn:Hc; simpl.
  - rewrite Hc, IH. reflexivity.
  - destruct in_run; simpl; rewrite ?IH; reflexivity.
Qed.

Lemma second_pass_single_spaced (s : string) : forall in_run,
  alnum_or_space s = true ->
  single_spaced in_run (sub_runs is_space in_run s) = true.
Proof.
  induction s as [|c s IH]; intros in_run Hs; simpl; [reflexivity|].
  simpl in Hs. apply andb_true_iff in Hs. destruct Hs as [Hc Hs].
  destruct (is_space c) eqn:Hsp.
  - destruct in_run; simpl; apply IH; assumption.
  - rewrite orb_false_r in Hc. simpl.
    rewrite (alnum_not_blank c Hc), Hc. simpl. apply IH; assumption.
Qed.

Lemma lstrip_single_spaced (s : string) :
  single_spaced false s = true -> single_spaced true (lstrip s) = true.
Proof.
  destruct s as [|c s]; simpl; [reflexivity|].
  destruct (Ascii.eqb c " ") eqn:He.
  - apply Ascii.eqb_eq in He. subst c. simpl. intros Hs.
    destruct s as [|c' s]; [reflexivity|]. simpl in Hs |- *.
    destruct (Ascii.eqb c' " ") eqn:He'; [discriminate|].
    apply andb_true_iff in Hs. destruct Hs as [Hc' Hs].
    rewrite (alnum_not_space _ Hc'). simpl. rewrite He', Hc', Hs. reflexivity.
  - intros Hs. apply andb_true_iff in Hs. destruct Hs as [Hc Hs].
    rewrite (alnum_not_space _ Hc). simpl. rewrite He, Hc, Hs. reflexivity.
Qed.

Lemma rstrip_single_spaced (s : string) : forall prev,
  single_spaced prev s = true -> single_spaced prev (rstrip s) = true.
Proof.
  induction s as [|c s IH]; intros prev Hs; simpl; [reflexivity|].
  destruct (is_space c && is_empty (rstrip s)); [reflexivity|].
  simpl in Hs |- *. destruct (Ascii.eqb c " ").
  - apply andb_true_iff in Hs. destruct Hs as [Hp Hs].
    rewrite Hp. simpl. apply IH; assumption.
  - apply andb_true_iff in Hs. destruct Hs as [Hc Hs].
    rewrite Hc. simpl. apply IH; assumption.
Qed.

Lemma rstrip_no_final_space (s : string) : ends_with_space (rstrip s) = false.
Proof.
  induction s as [|c s IH]; simpl; [reflexivity|].
  destruct (is_space c && is_empty (rstrip s)) eqn:E; [reflexivity|].
  destruct (rstrip s) as [|c' r] eqn:Er.
  - simpl in E. rewrite andb_true_r in E. simpl.
    destruct (Ascii.eqb c " ") eqn:Eb; [|reflexivity].
    apply Ascii.eqb_eq in Eb. subst c. discriminate E.
  - exact IH.
Qed.

Lemma single_spaced_first_pass (s : string) : forall prev in_run,
  single_spaced prev s = true ->
  sub_runs (fun c => negb (is_alnum c || is_space c)) in_run s = s.
Proof.
  induction s as [|c s IH]; intros prev in_run Hs; simpl; [reflexivity|].
  simpl in Hs. destruct (Ascii.eqb c " ") eqn:He.
  - apply Ascii.eqb_eq in He. subst c.
    apply andb_true_iff in Hs. destruct Hs as [_ Hs].
    simpl. rewrite (IH _ _ Hs). reflexivity.
  - apply andb_true_iff in Hs. destruct Hs as [Hc Hs].
    rewrite Hc. simpl. rewrite (IH _ _ Hs). reflexivity.
Qed.

Lemma single_spaced_second_pass (s : string) : forall prev,
  single_spaced prev s = true -> sub_runs is_space prev s = s.
Proof.
  induction s as [|c s IH]; intros prev Hs; simpl; [reflexivity|].
  simpl in Hs. destruct (Ascii.eqb c " ") eqn:He.
  - apply Ascii.eqb_eq in He. subst c.
    apply andb_true_iff in Hs. destruct Hs as [Hp Hs].
    apply negb_true_iff in Hp. subst prev.
    change (is_space " ") with true. cbv iota. rewrite (IH _ Hs). reflexivity.
  - apply andb_true_iff in Hs. destruct Hs as [Hc Hs].
    rewrite (alnum_not_space _ Hc), (IH _ Hs). reflexivity.
Qed.

Lemma single_spaced_weaken (s : string) :
  single_spaced true s = true -> single_spaced false s = true.
Proof.
  destruct s as [|c s]; simpl; [reflexivity|].
  destruct (Ascii.eqb c " "); [discriminate|auto].
Qed.

Lemma single_spaced_lstrip (s : string) :
  single_spaced true s = true -> lstrip s = s.
Proof.
  destruct s as [|c s]; simpl; [reflexivity|].
  destruct (Ascii.eqb c " "); [discriminate|].
  intros Hs. apply andb_true_iff in Hs. destruct Hs as [Hc _].
  rewrite (alnum_not_space _ Hc). reflexivity.
Qed.

Lemma rstrip_twice (s : string) : rstrip (rstrip s) = rstrip s.
Proof.
  induction s as [|c s IH]; simpl; [reflexivity|].
  destruct (is_space c && is_empty (rstrip s)) eqn:Hc; simpl; [reflexivity|].
  rewrite IH, Hc. reflexivity.
Qed.

(** X5. Whatever the title, [clean_text] returns ASCII letters and digits
    separated by single spaces, with no space at either end, and cleaning a
    cleaned title changes nothing. *)
Theorem clean_text_tidy (title : string) :
  single_spaced true (clean_text title) = true
  /\ ends_with_space (clean_text title) = false
  /\ clean_text (clean_text title) = clean_text title.
Proof.
  unfold clean_text, strip, re_sub_runs.
  set (w := lstrip (sub_runs is_space false
                      (sub_runs (fun c => negb (is_alnum c || is_space c))
                         false title))).
  assert (Hw : single_spaced true (rstrip w) = true).
  { apply rstrip_single_spaced, lstrip_single_spaced,
      second_pass_single_spaced, first_pass_alnum_or_space. }
  split; [exact Hw|]. split; [apply rstrip_no_final_space|].
  rewrite (single_spaced_first_pass _ true false Hw).
  rewrite (single_spaced_second_pass _ _ (single_spaced_weaken _ Hw)).
  rewrite (single_spaced_lstrip _ Hw).
  apply rstrip_twice.
Qed.

End TextFacts.

(** ** Properties of [percentage_difference] *)

Section PercentageFacts.
Import Py Utils Percentage.
Local Open Scope Q_scope.

Lemma np_isclose_iff (a b : Q) :
  np_isclose a b = true <-> Qabs (a - b) <= atol + rtol * Qabs b.
Proof. unfold np_isclose. apply Qle_bool_iff. Qed.

Lemma Qabs_nonneg_eq (x : Q) : 0 <= x -> Qabs x == x.
Proof. intros H. rewrite Qabs_pos by exact H. reflexivity. Qed.

(** Two prices that are not negative, the greater of which is close to 0,
    are close to each other. *)
Lemma close_to_zero_close (a b : Q) :
  0 <= b -> b <= a -> np_isclose a 0 = true ->
  np_isclose a b = true /\ np_isclose b a = true.
Proof.
  intros Hb Hab H0. apply np_isclose_iff in H0.
  assert (Ha : a <= atol).
  { setoid_replace (a - 0) with a in H0 by ring.
    rewrite Qabs_nonneg_eq in H0 by Lqa.lra.
    change (Qabs 0) with 0 in H0. Lqa.lra. }
  assert (Hr : 0 <= rtol) by (unfold rtol; discriminate).
  split; apply np_isclose_iff.
  - rewrite (Qabs_nonneg_eq (a - b)) by Lqa.lra.
    rewrite (Qabs_nonneg_eq b) by exact Hb. Lqa.nra.
  - setoid_replace (b - a) with (- (a - b)) by ring.
    rewrite Qabs_opp, (Qabs_nonneg_eq (a - b)) by Lqa.lra.
    rewrite (Qabs_nonneg_eq a) by Lqa.lra. Lqa.nra.
Qed.

(** X6. [percentage_difference] raises [InvalidDataFormat] exactly when a
    price is not numeric or is negative, and raises nothing else. *)
Theorem percentage_difference_errors (list_price best_price : price_arg) :
  (percentage_difference list_price best_price = Raise InvalidDataFormat
   <-> list_price = NonNumeric \/ best_price = NonNumeric
       \/ exists a b, list_price = Numeric a /\ best_price = Numeric b
                      /\ (a < 0 \/ b < 0))
  /\ ((exists d, percentage_difference list_price best_price = Ok d)
      \/ percentage_difference list_price best_price = Raise InvalidDataFormat).
Proof.
  destruct list_price as [a|], best_price as [b|];
    try (split; [split; [auto|reflexivity]|right; reflexivity]).
  unfold percentage_difference. simpl.
  destruct (Qlt_bool a 0 || Qlt_bool b 0) eqn:E.
  - split; [|right; reflexivity]. split; [intros _|reflexivity].
    right; right. exists a, b. split; [reflexivity|]. split; [reflexivity|].
    apply orb_true_iff in E. destruct E as [E|E];
      apply Qlt_bool_true in E; auto.
  - assert (Hok : exists d,
               (if np_isclose a b
                then Ok {| amount := "0.00"; type := "equal" |}
                else
                  let '(baseline, difference_type, difference_value) :=
                    if Qlt_bool b a
                    then (if negb (np_isclose a 0) then a else 1,
                          "decrease"%string, a - b)
                    else (if negb (np_isclose b 0) then b else 1,
                          "increase"%string, b - a) in
                  Ok {| amount := format_fixed2
                                    (Qabs difference_value / baseline * 100);
                        type := difference_type |}) = Ok d).
    { destruct (np_isclose a b); [eauto|]. destruct (Qlt_bool b a); eauto. }
    destruct Hok as [d Hd]. rewrite Hd. split; [|left; eauto].
    split; [discriminate|].
    apply orb_false_iff in E. destruct E as [Ea Eb].
    apply Qlt_bool_false in Ea, Eb.
    intros [H|[H|[a' [b' [Ha [Hb Hneg]]]]]]; try discriminate.
    injection Ha as <-. injection Hb as <-. destruct Hneg; Lqa.lra.
Qed.

(** With the arithmetic of the rationals: on two prices that are not
    negative the result is ["0.00"], ["equal"] when [numpy.isclose] holds
    of them; otherwise its type is ["decrease"] when the list price is the
    greater and ["increase"] when it is the lesser, and its amount is the
    [".2f"] format of [|list - best| / max(list, best) * 100], a percentage
    above 0 and at most 100: the replacement of a zero baseline by 1.0
    never takes effect. *)
Lemma percentage_difference_exact (a b : Q) :
  0 <= a -> 0 <= b ->
  exists d,
    percentage_difference (Numeric a) (Numeric b) = Ok d
    /\ (np_isclose a b = true ->
        d = {| amount := "0.00"; type := "equal" |})
    /\ (np_isclose a b = false ->
        type d = (if Qlt_bool b a then "decrease" else "increase")%string
        /\ exists p,
             amount d = format_fixed2 p
             /\ p == Qabs (a - b) / Qmax a b * 100
             /\ 0 < p <= 100).
Proof.
  intros Ha Hb. unfold percentage_difference. cbn [to_float obind].
  assert (Hneg : Qlt_bool a 0 || Qlt_bool b 0 = false).
  { apply orb_false_iff. split; apply Qlt_bool_false; assumption. }
  rewrite Hneg.
  destruct (np_isclose a b) eqn:Hclose.
  { eexists. split; [reflexivity|]. split; [reflexivity|discriminate]. }
  assert (Hne : ~ a == b).
  { intros Heq. assert (Hc : np_isclose a b = true).
    { apply np_isclose_iff. setoid_replace (a - b) with 0 by (rewrite Heq; ring).
      change (Qabs 0) with 0.
      pose proof (Qabs_nonneg b). unfold atol, rtol. Lqa.nra. }
    congruence. }
  destruct (Qlt_bool b a) eqn:Hlt.
  - apply Qlt_bool_true in Hlt.
    assert (H0 : np_isclose a 0 = false).
    { destruct (np_isclose a 0) eqn:E; [|reflexivity].
      destruct (close_to_zero_close a b Hb ltac:(Lqa.lra) E) as [Hc _].
      congruence. }
    rewrite H0. cbn [negb]. cbv beta iota.
    eexists. split; [reflexivity|]. split; [discriminate|]. intros _.
    split; [reflexivity|]. eexists. split; [reflexivity|].
    assert (Hmax : Qmax a b == a) by (apply Q.max_l; Lqa.lra).
    split; [|split].
    + rewrite Hmax. reflexivity.
    + rewrite (Qabs_nonneg_eq (a - b)) by Lqa.lra.
      apply Qmult_lt_0_compat; [|reflexivity].
      apply Qlt_shift_div_l; Lqa.lra.
    + rewrite (Qabs_nonneg_eq (a - b)) by Lqa.lra.
      setoid_replace 100 with (1 * 100) at 2 by ring.
      apply Qmult_le_compat_r; [|discriminate].
      apply Qle_shift_div_r; Lqa.lra.
  - apply Qlt_bool_false in Hlt.
    assert (Hlt' : a < b).
    { destruct (Qlt_le_dec a b) as [H|H]; [exact H|].
      exfalso. apply Hne. apply Qle_antisym; assumption. }
    assert (H0 : np_isclose b 0 = false).
    { destruct (np_isclose b 0) eqn:E; [|reflexivity].
      destruct (close_to_zero_close b a Ha Hlt E) as [_ Hc]. congruence. }
    rewrite H0. cbn [negb]. cbv beta iota.
    eexists. split; [reflexivity|]. split; [discriminate|]. intros _.
    split; [reflexivity|]. eexists. split; [reflexivity|].
    assert (Hmax : Qmax a b == b) by (apply Q.max_r; Lqa.lra).
    split; [|split].
    + rewrite Hmax. setoid_replace (a - b) with (- (b - a)) by ring.
      rewrite Qabs_opp. reflexivity.
    + rewrite (Qabs_nonneg_eq (b - a)) by Lqa.lra.
      apply Qmult_lt_0_compat; [|reflexivity].
      apply Qlt_shift_div_l; Lqa.lra.
    + rewrite (Qabs_nonneg_eq (b - a)) by Lqa.lra.
      setoid_replace 100 with (1 * 100) at 2 by ring.
      apply Qmult_le_compat_r; [|discriminate].
      apply Qle_shift_div_r; Lqa.lra.
Qed.

(** The two values the specification lists. *)
Example percentage_difference_examples :
  percentage_difference (Numeric 100) (Numeric 100)
  = Ok {| amount := "0.00"; type := "equal" |}
  /\ percentage_difference (Numeric 150) (Numeric 100)
     = Ok {| amount := "33.33"; type := "decrease" |}.
Proof. split; reflexivity. Qed.

End PercentageFacts.

(** ** The range of the similarity *)

Section SimilarityRange.
Import Difflib EbayScraper.
Local Open Scope nat_scope.

Lemma sizes_app (l1 l2 : list block) : sizes (l1 ++ l2) = sizes l1 + sizes l2.
Proof. unfold sizes. rewrite map_app, list_sum_app. reflexivity. Qed.

(** The blocks found lie in disjoint parts of [a] and of [b]: their total
    length is bounded by what the queue still covers. *)
Lemma matching_loop_sizes (a b : list ascii) (fuel : nat) :
  forall queue acc blocks,
    Forall region_ok queue ->
    matching_loop a b fuel queue acc = Some blocks ->
    sizes blocks <= sizes acc + span_a queue
    /\ sizes blocks <= sizes acc + span_b queue.
Proof.
  induction fuel as [|fuel IH]; intros queue acc blocks Hok Hrun.
  - destruct queue as [|[[[alo ahi] blo] bhi] queue]; simpl in Hrun;
      [|discriminate].
    injection Hrun as <-. simpl. lia.
  - destruct queue as [|[[[alo ahi] blo] bhi] queue].
    { simpl in Hrun. injection Hrun as <-. simpl. lia. }
    cbn [matching_loop] in Hrun.
    inversion Hok as [|r q Hr Hok']; subst. destruct Hr as [Ha Hb].
    pose proof (find_longest_match_within a b alo ahi blo bhi Ha Hb) as Hw.
    destruct (find_longest_match a b alo ahi blo bhi) as [[i j] k].
    simpl in Hw. destruct Hw as (W1 & W2 & W3 & W4).
    cbn [span_a span_b].
    destruct (k =? 0) eqn:Ek.
    + destruct (IH queue acc blocks Hok' Hrun). lia.
    + apply IH in Hrun.
      * assert (Hk : sizes [(i, j, k)] = k) by (unfold sizes; simpl; lia).
        rewrite sizes_app, Hk in Hrun. destruct Hrun as [H1 H2].
        destruct ((alo <? i) && (blo <? j));
          destruct ((i + k <? ahi) && (j + k <? bhi));
          cbn [span_a span_b] in H1, H2; lia.
      * destruct ((alo <? i) && (blo <? j)) eqn:E1;
          destruct ((i + k <? ahi) && (j + k <? bhi)) eqn:E2;
          repeat (constructor; [simpl; lia|]); exact Hok'.
Qed.

Lemma insert_block_sizes (x : block) (l : list block) :
  sizes (insert_block x l) = snd x + sizes l.
Proof.
  induction l as [|y l IH]; simpl; [reflexivity|].
  destruct (block_le x y); [reflexivity|].
  unfold sizes in *. simpl. rewrite IH. lia.
Qed.

Lemma sort_blocks_sizes (l : list block) : sizes (sort_blocks l) = sizes l.
Proof.
  induction l as [|x l IH]; [reflexivity|].
  unfold sort_blocks in *. cbn [fold_right]. rewrite insert_block_sizes, IH.
  reflexivity.
Qed.

Lemma collapse_sizes (blocks : list block) : forall cur non_adjacent,
  sizes (collapse cur blocks non_adjacent)
  = sizes non_adjacent + snd cur + sizes blocks.
Proof.
  induction blocks as [|[[i2 j2] k2] blocks IH]; intros [[i1 j1] k1] acc.
  - cbn [collapse]. destruct (k1 =? 0) eqn:E.
    + apply Nat.eqb_eq in E. subst. unfold sizes. simpl. lia.
    + rewrite sizes_app. unfold sizes. simpl. lia.
  - cbn [collapse].
    destruct ((i1 + k1 =? i2) && (j1 + k1 =? j2)).
    + rewrite IH. unfold sizes. simpl. lia.
    + rewrite IH. destruct (k1 =? 0) eqn:E.
      * apply Nat.eqb_eq in E. subst. unfold sizes. simpl. lia.
      * rewrite sizes_app. unfold sizes. simpl. lia.
Qed.

(** The matching blocks of two sequences cover at most the shorter one. *)
Lemma get_matching_blocks_sizes (a b : list ascii) :
  sizes (get_matching_blocks a b) <= List.length a
  /\ sizes (get_matching_blocks a b) <= List.length b.
Proof.
  unfold get_matching_blocks.
  destruct (matching_loop a b (matching_fuel a)
              [(0, List.length a, 0, List.length b)] []) as [blocks|] eqn:E.
  - apply matching_loop_sizes in E; [|constructor; [simpl; lia|constructor]].
    rewrite sizes_app, collapse_sizes, sort_blocks_sizes.
    unfold sizes in *. simpl in *. lia.
  - unfold sizes. simpl. lia.
Qed.

Lemma ratio_range (a b : list ascii) : (0 <= ratio a b <= 1)%Q.
Proof.
  unfold ratio. fold (sizes (get_matching_blocks a b)).
  destruct (get_matching_blocks_sizes a b) as [Ha Hb].
  set (m := sizes (get_matching_blocks a b)) in *.
  unfold calculate_ratio.
  destruct (List.length a + List.length b =? 0) eqn:E;
    [split; discriminate|].
  apply Nat.eqb_neq in E.
  assert (Hlen : (0 < inject_Z (Z.of_nat (List.length a + List.length b)))%Q).
  { unfold Qlt. simpl. lia. }
  assert (Hm : (0 <= inject_Z (Z.of_nat m))%Q).
  { change 0%Q with (inject_Z 0). rewrite <- Zle_Qle. lia. }
  assert (H2m : (inject_Z 2 * inject_Z (Z.of_nat m)
                 <= inject_Z (Z.of_nat (List.length a + List.length b)))%Q).
  { rewrite <- inject_Z_mult, <- Zle_Qle. lia. }
  change (inject_Z 2) with 2%Q in H2m.
  split.
  - apply Qle_shift_div_l; [exact Hlen|]. Lqa.lra.
  - apply Qle_shift_div_r; [exact Hlen|]. Lqa.lra.
Qed.

(** X8. The similarity of two strings lies between 0 and 1. *)
Theorem get_similarity_range (string1 string2 : string) :
  (0 <= get_similarity string1 string2 <= 1)%Q.
Proof. unfold get_similarity. apply ratio_range. Qed.

End SimilarityRange.

(** ** Dictionaries *)

Section DictFacts.
Import Py.
Context {V : Type}.

Lemma dict_get_set_eq (k : string) (v : V) (d : dict V) :
  dict_get k (dict_set k v d) = Some v.
Proof.
  induction d as [|[k' v'] d IH]; simpl.
  - rewrite String.eqb_refl. reflexivity.
  - destruct (String.eqb k' k) eqn:E; simpl; rewrite E; [reflexivity|exact IH].
Qed.

Lemma dict_get_set_ne (k k' : string) (v : V) (d : dict V) :
  k <> k' -> dict_get k' (dict_set k v d) = dict_get k' d.
Proof.
  intros Hne. induction d as [|[k0 v0] d IH]; simpl.
  - destruct (String.eqb k k') eqn:E; [|reflexivity].
    apply String.eqb_eq in E. contradiction.
  - destruct (String.eqb k0 k) eqn:E; simpl.
    + apply String.eqb_eq in E. subst k0.
      destruct (String.eqb k k') eqn:E'; [|reflexivity].
      apply String.eqb_eq in E'. contradiction.
    + rewrite IH. reflexivity.
Qed.

Lemma keys_dict_set (k k' : string) (v : V) (d : dict V) :
  In k' (keys (dict_set k v d)) <-> k' = k \/ In k' (keys d).
Proof.
  unfold keys. induction d as [|[k0 v0] d IH]; simpl.
  - intuition.
  - destruct (String.eqb k0 k) eqn:E; simpl.
    + apply String.eqb_eq in E. subst k0. intuition.
    + rewrite IH. intuition.
Qed.

Lemma NoDup_keys_dict_set (k : string) (v : V) (d : dict V) :
  NoDup (keys d) -> NoDup (keys (dict_set k v d)).
Proof.
  unfold keys. induction d as [|[k0 v0] d IH]; simpl; intros Hnd.
  - constructor; [intros []|constructor].
  - inversion Hnd as [|? ? Hnot Hnd']; subst.
    destruct (String.eqb k0 k) eqn:E; simpl.
    + constructor; assumption.
    + constructor; [|apply IH; exact Hnd'].
      intros Hin. apply (keys_dict_set k k0 v d) in Hin.
      destruct Hin as [->|Hin]; [|contradiction].
      rewrite String.eqb_refl in E. discriminate.
Qed.

Lemma dict_get_Some_In (k : string) (v : V) (d : dict V) :
  dict_get k d = Some v -> In (k, v) d.
Proof.
  induction d as [|[k0 v0] d IH]; simpl; [discriminate|].
  destruct (String.eqb k0 k) eqn:E.
  - apply String.eqb_eq in E. subst k0. intros H. injection H as <-. auto.
  - auto.
Qed.

Lemma In_dict_get (k : string) (v : V) (d : dict V) :
  NoDup (keys d) -> In (k, v) d -> dict_get k d = Some v.
Proof.
  unfold keys. induction d as [|[k0 v0] d IH]; simpl; intros Hnd; [intros []|].
  inversion Hnd as [|? ? Hnot Hnd']; subst.
  intros [H|H].
  - injection H as -> ->. rewrite String.eqb_refl. reflexivity.
  - destruct (String.eqb k0 k) eqn:E; [|auto].
    apply String.eqb_eq in E. subst k0. exfalso. apply Hnot.
    apply in_map_iff. exists (k, v). auto.
Qed.

Lemma dict_get_None_keys (k : string) (d : dict V) :
  dict_get k d = None <-> ~ In k (keys d).
Proof.
  unfold keys. induction d as [|[k0 v0] d IH]; simpl; [tauto|].
  destruct (String.eqb k0 k) eqn:E.
  - apply String.eqb_eq in E. subst k0. split; [discriminate|tauto].
  - apply String.eqb_neq in E. rewrite IH. tauto.
Qed.

End DictFacts.

(** ** What the filter keeps *)

Section FilterKeeps.
Import Str Py EbayScraper.
Local Open Scope Q_scope.

Lemma filter_loop_result_cons (p : product) (rest : list product)
    (target : string) (t : Q) (acc : dict scored) :
  result (filter_loop (p :: rest) target t acc)
  = result (filter_loop rest target t
              (if Qle_bool t (get_similarity (title p) target)
               then dict_set (title p) (scored_of target p) acc
               else acc)).
Proof. cbn [filter_loop]. rewrite result_bind. reflexivity. Qed.

Lemma filter_loop_lookup (target : string) (t : Q) (product_info : list product) :
  forall acc, NoDup (keys acc) ->
  exists d,
    result (filter_loop product_info target t acc) = Ok d
    /\ NoDup (keys d)
    /\ forall k,
         dict_get k d
         = match (if Qle_bool t (get_similarity k target)
                  then last_with_title k product_info else None) with
           | Some p => Some (scored_of target p)
           | None => dict_get k acc
           end.
Proof.
  induction product_info as [|p rest IH]; intros acc Hnd.
  - exists acc. split; [reflexivity|]. split; [exact Hnd|].
    intros k. simpl. destruct (Qle_bool t (get_similarity k target)); reflexivity.
  - rewrite filter_loop_result_cons.
    set (acc' := if Qle_bool t (get_similarity (title p) target)
                 then dict_set (title p) (scored_of target p) acc else acc).
    assert (Hnd' : NoDup (keys acc')).
    { unfold acc'. destruct (Qle_bool _ _); [|exact Hnd].
      apply NoDup_keys_dict_set. exact Hnd. }
    destruct (IH acc' Hnd') as [d [Hrun [Hd Hget]]].
    exists d. split; [exact Hrun|]. split; [exact Hd|].
    intros k. rewrite Hget. cbn [last_with_title].
    destruct (Qle_bool t (get_similarity k target)) eqn:Hk.
    + destruct (last_with_title k rest) as [q|]; [reflexivity|].
      destruct (String.eqb (title p) k) eqn:E.
      * apply String.eqb_eq in E. unfold acc'. rewrite E, Hk.
        rewrite <- E. apply dict_get_set_eq.
      * apply String.eqb_neq in E. unfold acc'.
        destruct (Qle_bool t (get_similarity (title p) target));
          [apply dict_get_set_ne; exact E|reflexivity].
    + unfold acc'.
      destruct (Qle_bool t (get_similarity (title p) target)) eqn:Hp;
        [|reflexivity].
      apply dict_get_set_ne. intros E. rewrite E in Hp. congruence.
Qed.

(** X9. For a threshold in [0,1] the filter returns a dictionary without
    repeated keys in which a title is present exactly when some product has
    it and its similarity to the target reaches the threshold; the entry is
    then that of the last such product, with that similarity. *)
Theorem filter_products_by_similarity_lookup
    (product_info : list product) (target : string) (t : Q) :
  valid_threshold t ->
  exists d,
    result (filter_products_by_similarity product_info target t) = Ok d
    /\ NoDup (keys d)
    /\ forall k,
         dict_get k d
         = if Qle_bool t (get_similarity k target)
           then option_map (scored_of target) (last_with_title k product_info)
           else None.
Proof.
  intros Hv. apply valid_threshold_bool in Hv.
  unfold filter_products_by_similarity. rewrite Hv. cbn [negb].
  destruct (filter_loop_lookup target t product_info [] (NoDup_nil _))
    as [d [Hrun [Hd Hget]]].
  exists d. split; [exact Hrun|]. split; [exact Hd|].
  intros k. rewrite Hget.
  destruct (Qle_bool t (get_similarity k target)); [|reflexivity].
  destruct (last_with_title k product_info); reflexivity.
Qed.

Lemma filter_products_by_similarity_lookup_witness :
  exists d,
    result (filter_products_by_similarity [test_item] "test item" (5 # 10)) = Ok d
    /\ NoDup (keys d)
    /\ forall k,
         dict_get k d
         = if Qle_bool (5 # 10) (get_similarity k "test item")
           then option_map (scored_of "test item")
                  (last_with_title k [test_item])
           else None.
Proof.
  apply (filter_products_by_similarity_lookup [test_item] "test item" (5 # 10)).
  split; discriminate.
Defined.

(** X10. Lowering the threshold loses nothing: what the filter keeps at a
    threshold it keeps, with the same entry, at every lower one. *)
Theorem filter_products_by_similarity_monotone
    (product_info : list product) (target : string) (t1 t2 : Q)
    (d1 d2 : dict scored) :
  valid_threshold t1 -> valid_threshold t2 -> t1 <= t2 ->
  result (filter_products_by_similarity product_info target t1) = Ok d1 ->
  result (filter_products_by_similarity product_info target t2) = Ok d2 ->
  forall k v, dict_get k d2 = Some v -> dict_get k d1 = Some v.
Proof.
  intros H1 H2 Hle R1 R2 k v.
  destruct (filter_loop_lookup target t1 product_info [] (NoDup_nil _))
    as [e1 [E1 [_ G1]]].
  destruct (filter_loop_lookup target t2 product_info [] (NoDup_nil _))
    as [e2 [E2 [_ G2]]].
  apply valid_threshold_bool in H1, H2.
  unfold filter_products_by_similarity in R1, R2.
  rewrite H1 in R1. rewrite H2 in R2. cbn [negb] in R1, R2.
  rewrite E1 in R1. rewrite E2 in R2. injection R1 as <-. injection R2 as <-.
  rewrite G1, G2.
  destruct (Qle_bool t2 (get_similarity k target)) eqn:K2; [|discriminate].
  apply Qle_bool_iff in K2.
  assert (K1 : Qle_bool t1 (get_similarity k target) = true)
    by (apply Qle_bool_iff; Lqa.lra).
  rewrite K1. destruct (last_with_title k product_info); [auto|discriminate].
Qed.

Lemma filter_products_by_similarity_monotone_witness :
  dict_get "test item" [("test item"%string, scored_of "test item" test_item)]
  = Some (scored_of "test item" test_item).
Proof.
  apply (filter_products_by_similarity_monotone [test_item] "test item"
           (3 # 10) (5 # 10)
           [("test item"%string, scored_of "test item" test_item)]
           [("test item"%string, scored_of "test item" test_item)]).
  - split; discriminate.
  - split; discriminate.
  - discriminate.
  - vm_compute. reflexivity.
  - vm_compute. reflexivity.
  - reflexivity.
Defined.

End FilterKeeps.

(** ** What [construct_candidates] builds *)

Section CandidateRows.
Import Str Py EbayScraper.
Local Open Scope Q_scope.

Lemma zip_candidates_lookup (ds : list string) :
  forall ps ss cs ks sims acc k,
    dict_get k (zip_candidates ds ps ss cs ks sims acc)
    = match last_entry k (rows ds ps ss cs ks sims) with
      | Some v => Some v
      | None => dict_get k acc
      end.
Proof.
  induction ds as [|d ds IH]; intros ps ss cs ks sims acc k; [reflexivity|].
  destruct ps as [|p ps], ss as [|s ss], cs as [|c cs], ks as [|c' ks],
    sims as [|sim sims]; try reflexivity.
  cbn [zip_candidates rows last_entry]. rewrite IH.
  destruct (last_entry k (rows ds ps ss cs ks sims)); [reflexivity|].
  destruct (String.eqb d k) eqn:E.
  - apply String.eqb_eq in E. subst d. apply dict_get_set_eq.
  - apply String.eqb_neq in E. apply dict_get_set_ne. exact E.
Qed.

Lemma keys_dict_set_list {V} (k : string) (v : V) (d : dict V) :
  keys (dict_set k v d)
  = if existsb (String.eqb k) (keys d) then keys d else (keys d ++ [k])%list.
Proof.
  unfold keys. induction d as [|[k0 v0] d IH]; [reflexivity|].
  cbn [dict_set map fst existsb].
  rewrite (String.eqb_sym k k0).
  destruct (String.eqb k0 k) eqn:E; [reflexivity|].
  cbn [map fst orb]. rewrite IH.
  destruct (existsb (String.eqb k) (map fst d)); reflexivity.
Qed.

Lemma filter_filter_absent (seen : list string) (k : string) (l : list string) :
  existsb (String.eqb k) seen = true ->
  filter (fun x => negb (existsb (String.eqb x) seen))
    (filter (fun x => negb (String.eqb x k)) l)
  = filter (fun x => negb (existsb (String.eqb x) seen)) l.
Proof.
  intros Hk. induction l as [|x l IH]; [reflexivity|].
  cbn [filter]. destruct (String.eqb x k) eqn:E; cbn [negb filter].
  - apply String.eqb_eq in E. subst x. rewrite Hk. cbn [negb]. exact IH.
  - rewrite IH. reflexivity.
Qed.

Lemma filter_snoc_absent (seen : list string) (k : string) (l : list string) :
  filter (fun x => negb (existsb (String.eqb x) (seen ++ [k]))) l
  = filter (fun x => negb (existsb (String.eqb x) seen))
      (filter (fun x => negb (String.eqb x k)) l).
Proof.
  induction l as [|x l IH]; [reflexivity|].
  cbn [filter]. rewrite existsb_app. cbn [existsb]. rewrite orb_false_r.
  destruct (String.eqb x k) eqn:E; cbn [negb filter].
  - rewrite orb_true_r. cbn [negb]. exact IH.
  - rewrite orb_false_r, IH. reflexivity.
Qed.

Lemma zip_candidates_keys (ds : list string) :
  forall ps ss cs ks sims acc,
    keys (zip_candidates ds ps ss cs ks sims acc)
    = (keys acc
       ++ filter (fun x => negb (existsb (String.eqb x) (keys acc)))
            (first_occurrences (map fst (rows ds ps ss cs ks sims))))%list.
Proof.
  induction ds as [|d ds IH]; intros ps ss cs ks sims acc;
    [symmetry; apply app_nil_r|].
  destruct ps as [|p ps], ss as [|s ss], cs as [|c cs], ks as [|c' ks],
    sims as [|sim sims]; try (symmetry; apply app_nil_r).
  cbn [zip_candidates rows map fst first_occurrences filter].
  rewrite IH, keys_dict_set_list.
  destruct (existsb (String.eqb d) (keys acc)) eqn:E; cbn [negb].
  - rewrite filter_filter_absent by exact E. reflexivity.
  - rewrite <- app_assoc. cbn [app]. rewrite filter_snoc_absent. reflexivity.
Qed.

Lemma rows_keys (ds : list string) :
  forall ps ss cs ks sims,
    same_lengths ds ps ss cs ks sims ->
    map fst (rows ds ps ss cs ks sims) = ds.
Proof.
  unfold same_lengths.
  induction ds as [|d ds IH]; intros ps ss cs ks sims (H1 & H2 & H3 & H4 & H5);
    [reflexivity|].
  destruct ps as [|p ps], ss as [|s ss], cs as [|c cs], ks as [|c' ks],
    sims as [|sim sims]; try discriminate.
  cbn [rows map fst]. f_equal. apply IH.
  cbn [List.length] in *. repeat split; lia.
Qed.

Lemma filter_all_true {A} (f : A -> bool) (l : list A) :
  (forall x, f x = true) -> filter f l = l.
Proof.
  intros H. induction l as [|x l IH]; [reflexivity|].
  cbn [filter]. rewrite H, IH. reflexivity.
Qed.

(** X11. Given six lists of one length, [construct_candidates] returns a
    dictionary whose keys are the descriptions without their repetitions,
    each where it first occurs, and in which a description maps to the
    details of the last row that carries it; given lists of different
    lengths it raises [InvalidDataFormat]. *)
Theorem construct_candidates_rows (ds : list string) (ps ss : list pyval)
    (cs ks : list string) (sims : list Q) :
  (same_lengths ds ps ss cs ks sims ->
   exists d,
     construct_candidates ds ps ss cs ks sims = Ok d
     /\ keys d = first_occurrences ds
     /\ forall k, dict_get k d = last_entry k (rows ds ps ss cs ks sims))
  /\ (~ same_lengths ds ps ss cs ks sims ->
      construct_candidates ds ps ss cs ks sims = Raise InvalidDataFormat).
Proof.
  unfold construct_candidates. split.
  - intros Hlen. pose proof Hlen as (H1 & H2 & H3 & H4 & H5).
    rewrite H1, H2, H3, H4, H5, !Nat.eqb_refl. cbn [andb].
    eexists. split; [reflexivity|]. split.
    + rewrite zip_candidates_keys, (rows_keys ds ps ss cs ks sims Hlen).
      cbn [keys map app existsb]. apply filter_all_true. reflexivity.
    + intros k. rewrite zip_candidates_lookup.
      destruct (last_entry k (rows ds ps ss cs ks sims)); reflexivity.
  - intros Hlen.
    destruct ((List.length ps =? List.length ds)%nat
              && (List.length ss =? List.length ds)%nat
              && (List.length cs =? List.length ds)%nat
              && (List.length ks =? List.length ds)%nat
              && (List.length sims =? List.length ds)%nat) eqn:E; [|reflexivity].
    exfalso. apply Hlen. rewrite !andb_true_iff, !Nat.eqb_eq in E.
    unfold same_lengths. tauto.
Qed.

Lemma construct_candidates_rows_witness :
  (exists d,
     construct_candidates ["a"; "b"; "a"]%string
       [PyStr "3.00"; PyStr "2.00"; PyStr "1.00"]
       [PyStr "0.00"; PyStr "0.00"; PyStr "0.00"]
       ["US"; "US"; "CA"]%string ["New"; "New"; "Used"]%string
       [1 # 2; 1 # 2; 1 # 2] = Ok d
     /\ keys d = first_occurrences ["a"; "b"; "a"]%string
     /\ forall k,
          dict_get k d
          = last_entry k
              (rows ["a"; "b"; "a"]%string
                 [PyStr "3.00"; PyStr "2.00"; PyStr "1.00"]
                 [PyStr "0.00"; PyStr "0.00"; PyStr "0.00"]
                 ["US"; "US"; "CA"]%string ["New"; "New"; "Used"]%string
                 [1 # 2; 1 # 2; 1 # 2]))
  /\ construct_candidates ["a"; "b"]%string [PyStr "3.00"] [] [] [] []
     = Raise InvalidDataFormat.
Proof.
  split.
  - apply (proj1 (construct_candidates_rows ["a"; "b"; "a"]%string
                    [PyStr "3.00"; PyStr "2.00"; PyStr "1.00"]
                    [PyStr "0.00"; PyStr "0.00"; PyStr "0.00"]
                    ["US"; "US"; "CA"]%string ["New"; "New"; "Used"]%string
                    [1 # 2; 1 # 2; 1 # 2])).
    unfold same_lengths. cbn [List.length]. repeat split.
  - apply (proj2 (construct_candidates_rows ["a"; "b"]%string
                    [PyStr "3.00"] [] [] [] [])).
    unfold same_lengths. cbn [List.length]. intros (H & _). discriminate H.
Defined.

End CandidateRows.

(** ** Prices of two kinds *)

Section MixedPrices.
Import Str Py EbayScraper.
Local Open Scope Q_scope.

Lemma py_lt_kinds (x y : pyval) :
  (is_float x /\ is_str y) \/ (is_str x /\ is_float y) ->
  py_lt x y = Raise TypeError.
Proof.
  intros [[[p ->] [s ->]]|[[s ->] [p ->]]]; reflexivity.
Qed.

Lemma kind_cases (x : pyval) : is_float x \/ is_str x.
Proof. destruct x as [p|s]; [left|right]; eexists; reflexivity. Qed.

Lemma kinds_disjoint (x : pyval) : is_float x -> is_str x -> False.
Proof. intros [p ->] [s H]. discriminate H. Qed.

(** Once both variables are set, the first loop raises [TypeError] at the
    first item whose price is not of the kind of the first price. *)
Lemma scan_items_mixed (items : list details) : forall mx mn x,
  In x items ->
  (is_float (d_price mn) /\ is_str (d_price x))
  \/ (is_str (d_price mn) /\ is_float (d_price x)) ->
  scan_items (Some mx, Some mn) items = Raise TypeError.
Proof.
  induction items as [|item items IH]; intros mx mn x Hin Hkinds; [destruct Hin|].
  cbn [scan_items scan_item].
  destruct (d_price item) as [pi|si] eqn:Hi, (d_price mn) as [pm|sm] eqn:Hm;
    cbn [py_lt obind]; try reflexivity.
  - destruct Hin as [->|Hin].
    { rewrite Hi in Hkinds.
      destruct Hkinds as [[_ [s H]]|[[s H] _]]; discriminate H. }
    assert (Hx : is_str (d_price x))
      by (destruct Hkinds as [[_ H]|[[s H] _]]; [exact H|discriminate H]).
    apply (IH _ _ x Hin). left. split; [|exact Hx].
    destruct (Qlt_bool pi pm); [rewrite Hi|rewrite Hm]; eexists; reflexivity.
  - destruct Hin as [->|Hin].
    { rewrite Hi in Hkinds.
      destruct Hkinds as [[[p H] _]|[_ [p H]]]; discriminate H. }
    assert (Hx : is_float (d_price x))
      by (destruct Hkinds as [[[p H] _]|[_ H]]; [discriminate H|exact H]).
    apply (IH _ _ x Hin). right. split; [|exact Hx].
    destruct (str_lt si sm); [rewrite Hi|rewrite Hm]; eexists; reflexivity.
Qed.

(** X12. On a non-empty map the selector raises [TypeError] when the prices
    are of two kinds, floats and strings; when they are of one kind it
    returns an entry of the map. *)
Theorem lowest_price_highest_similarity_kinds (d : dict details) :
  d <> [] ->
  (mixed_prices d -> lowest_price_highest_similarity d = Raise TypeError)
  /\ (~ mixed_prices d ->
      exists best, lowest_price_highest_similarity d = Ok best /\ In best d).
Proof.
  intros Hne. split.
  - intros (e1 & e2 & H1 & H2 & Hf & Hs).
    destruct d as [|[name0 item0] d']; [congruence|].
    unfold lowest_price_highest_similarity.
    cbn [values map snd scan_items scan_item obind].
    assert (Hx : exists x, In x (map snd d')
                   /\ ((is_float (d_price item0) /\ is_str (d_price x))
                       \/ (is_str (d_price item0) /\ is_float (d_price x)))).
    { destruct (kind_cases (d_price item0)) as [H0|H0].
      - destruct H2 as [<-|H2];
          [exfalso; apply (kinds_disjoint _ H0 Hs)|].
        exists (snd e2). split; [apply in_map; exact H2|left; auto].
      - destruct H1 as [<-|H1];
          [exfalso; apply (kinds_disjoint _ Hf H0)|].
        exists (snd e1). split; [apply in_map; exact H1|right; auto]. }
    destruct Hx as [x [Hin Hk]].
    rewrite (scan_items_mixed (map snd d') item0 item0 x Hin Hk). reflexivity.
  - intros Hmix.
    destruct d as [|e0 d'] eqn:Hd; [congruence|]. rewrite <- Hd in *.
    assert (H0 : In e0 d) by (rewrite Hd; left; reflexivity).
    destruct (kind_cases (d_price (snd e0))) as [Hk|Hk].
    + assert (Hall : forall e, In e d -> is_float (d_price (snd e))).
      { intros e He. destruct (kind_cases (d_price (snd e))) as [H|H]; [exact H|].
        exfalso. apply Hmix. exists e0, e. auto. }
      destruct (selection_is_min_of_most_similar is_float floats_comparable d
                  Hne Hall) as [first [others [-> Htied]]].
      destruct (min_by_price_least others first) as [best [p [Hbest [Hbin _]]]].
      { intros e He. apply Hall. apply Htied. exact He. }
      exists best. split; [exact Hbest|]. apply Htied in Hbin. apply Hbin.
    + assert (Hall : forall e, In e d -> is_str (d_price (snd e))).
      { intros e He. destruct (kind_cases (d_price (snd e))) as [H|H]; [|exact H].
        exfalso. apply Hmix. exists e, e0. auto. }
      destruct (selection_is_min_of_most_similar is_str strs_comparable d
                  Hne Hall) as [first [others [-> Htied]]].
      destruct (min_by_price_strings others first) as [best [s [Hbest [Hbin _]]]].
      { intros e He. apply Hall. apply Htied. exact He. }
      exists best. split; [exact Hbest|]. apply Htied in Hbin. apply Hbin.
Qed.

Lemma lowest_price_highest_similarity_kinds_witness :
  lowest_price_highest_similarity
    [("a"%string, {| d_price := PyFloat 1; d_shipping := PyFloat 0;
                     d_country := "US"; d_condition := "New";
                     d_similarity := 1 # 2 |});
     ("b"%string, {| d_price := PyStr "1.00"; d_shipping := PyStr "0.00";
                     d_country := "US"; d_condition := "New";
                     d_similarity := 1 # 2 |})]
  = Raise TypeError.
Proof.
  apply lowest_price_highest_similarity_kinds; [discriminate|].
  eexists; eexists. split; [left; reflexivity|].
  split; [right; left; reflexivity|].
  split; eexists; reflexivity.
Defined.

End MixedPrices.

(** ** The records of a page *)

Section PageRecords.
Import Str Py Utils EbayScraper.
Local Open Scope Q_scope.

Lemma zip_products_nil (ts : list string) (ps ss : list Q) (cs ks : list string) :
  ps = [] \/ ss = [] \/ cs = [] \/ ks = [] -> zip_products ts ps ss cs ks = [].
Proof.
  destruct ts, ps, ss, cs, ks; intros [H|[H|[H|H]]];
    try reflexivity; discriminate H.
Qed.

(** Removing the same indices from the five lists removes the rows at
    those indices: the lists stay aligned. *)
Lemma drop_indices_zip (out : list nat) (ts : list string) :
  forall k ps ss cs ks,
    zip_products (drop_indices k out ts) (drop_indices k out ps)
      (drop_indices k out ss) (drop_indices k out cs) (drop_indices k out ks)
    = drop_indices k out (zip_products ts ps ss cs ks).
Proof.
  induction ts as [|t ts IH]; intros k ps ss cs ks; [reflexivity|].
  destruct ps as [|p ps];
    [rewrite !zip_products_nil by (cbn [drop_indices]; tauto); reflexivity|].
  destruct ss as [|s ss];
    [rewrite !zip_products_nil by (cbn [drop_indices]; tauto); reflexivity|].
  destruct cs as [|c cs];
    [rewrite !zip_products_nil by (cbn [drop_indices]; tauto); reflexivity|].
  destruct ks as [|c' ks];
    [rewrite !zip_products_nil by (cbn [drop_indices]; tauto); reflexivity|].
  cbn [drop_indices zip_products].
  destruct (existsb (Nat.eqb k) out); cbn [zip_products]; rewrite IH; reflexivity.
Qed.

Lemma drop_indices_In {A} (out : list nat) (l : list A) : forall k r,
  In r (drop_indices k out l)
  <-> exists i, nth_error l i = Some r /\ ~ In (k + i)%nat out.
Proof.
  induction l as [|x l IH]; intros k r.
  - cbn. split; [tauto|]. intros [[|i] [H _]]; discriminate H.
  - cbn [drop_indices].
    assert (Hk : existsb (Nat.eqb k) out = true <-> In k out).
    { rewrite existsb_exists. split.
      - intros [j [Hj E]]. apply Nat.eqb_eq in E. subst j. exact Hj.
      - intros H. exists k. split; [exact H|apply Nat.eqb_refl]. }
    destruct (existsb (Nat.eqb k) out) eqn:E.
    + rewrite IH. split.
      * intros [i [Hi Hout]]. exists (S i). split; [exact Hi|].
        replace (k + S i)%nat with (S k + i)%nat by lia. exact Hout.
      * intros [[|i] [Hi Hout]].
        { exfalso. apply Hout. rewrite Nat.add_0_r. apply Hk. reflexivity. }
        exists i. split; [exact Hi|].
        replace (S k + i)%nat with (k + S i)%nat by lia. exact Hout.
    + cbn [In]. rewrite IH. split.
      * intros [<-|[i [Hi Hout]]].
        { exists 0%nat. split; [reflexivity|]. rewrite Nat.add_0_r.
          intros H. apply Hk in H. discriminate H. }
        exists (S i). split; [exact Hi|].
        replace (k + S i)%nat with (S k + i)%nat by lia. exact Hout.
      * intros [[|i] [Hi Hout]].
        { left. cbn in Hi. injection Hi as ->. reflexivity. }
        right. exists i. split; [exact Hi|].
        replace (S k + i)%nat with (k + S i)%nat by lia. exact Hout.
Qed.

Lemma get_product_info_small (page : soup) :
  (List.length (product_title page) < removal_threshold)%nat ->
  get_product_info page = raw_records page.
Proof.
  intros Hlt. unfold get_product_info, remove_outliers, raw_records.
  apply Nat.leb_gt in Hlt. rewrite Hlt. reflexivity.
Qed.

Lemma get_product_info_large (page : soup) :
  (removal_threshold <= List.length (product_title page))%nat ->
  get_product_info page
  = drop_indices 0 (reject_outliers (product_price page) (15 # 10))
      (raw_records page).
Proof.
  intros Hle. unfold get_product_info, remove_outliers, raw_records.
  apply Nat.leb_le in Hle. rewrite Hle.
  cbn [product_title product_price product_shipping product_country
       product_condition].
  apply drop_indices_zip.
Qed.

Lemma reject_outliers_bound (data : list Q) (m : Q) (i : nat) :
  In i (reject_outliers data m) -> (i < List.length data)%nat.
Proof.
  unfold reject_outliers. destruct data as [|x0 data']; [intros []|].
  set (data := x0 :: data').
  assert (Hw : forall mask : list bool,
             List.length mask = List.length data ->
             In i (np_where mask) -> (i < List.length data)%nat).
  { intros mask Hlen Hin. unfold np_where in Hin. apply where_from_In in Hin.
    destruct Hin as [j [-> Hj]]. cbn [Nat.add]. rewrite <- Hlen.
    apply nth_error_Some. congruence. }
  destruct (np_isclose _ _); apply Hw; rewrite !length_map; reflexivity.
Qed.


Lemma zip_products_titles (ts : list string) :
  forall ps ss cs ks r,
    In r (zip_products ts ps ss cs ks) ->
    exists t, In t ts /\ title r = normalize_title t.
Proof.
  induction ts as [|t ts IH]; intros ps ss cs ks r; [intros []|].
  destruct ps as [|p ps], ss as [|s ss], cs as [|c cs], ks as [|c' ks];
    try (cbn [zip_products In]; intros H; contradiction H).
  cbn [zip_products In]. intros [<-|Hin].
  - exists t. split; [left; reflexivity|reflexivity].
  - destruct (IH _ _ _ _ _ Hin) as [t' [Ht' Hr]].
    exists t'. split; [right; exact Ht'|exact Hr].
Qed.

Lemma drop_indices_incl {A} (out : list nat) (l : list A) : forall k x,
  In x (drop_indices k out l) -> In x l.
Proof.
  intros k x H. apply drop_indices_In in H. destruct H as [i [Hi _]].
  apply nth_error_In in Hi. exact Hi.
Qed.

(** X14. The title of every record is the normalised form of a title of
    the page: lower-case letters and digits in words separated by single
    spaces, with no space at either end. *)
Theorem get_product_info_titles (page : soup) (r : product) :
  In r (get_product_info page) ->
  (exists t, In t (product_title page) /\ title r = normalize_title t)
  /\ spaced true (title r) = true
  /\ strip (title r) = title r.
Proof.
  intros Hin.
  assert (Ht : exists t, In t (product_title page)
                         /\ title r = normalize_title t).
  { unfold get_product_info, remove_outliers in Hin.
    destruct (removal_threshold <=? List.length (product_title page))%nat.
    - cbn [product_title product_price product_shipping product_country
           product_condition] in Hin.
      apply zip_products_titles in Hin. destruct Hin as [t [Hin Hr]].
      exists t. split; [|exact Hr].
      apply (drop_indices_incl _ _ _ _ Hin).
    - apply zip_products_titles in Hin. exact Hin. }
  split; [exact Ht|].
  destruct Ht as [t [_ Hr]]. rewrite Hr.
  destruct (normalize_title_spaced t) as [w [-> Hsp]].
  split; [exact Hsp|].
  unfold strip. rewrite (spaced_lstrip _ Hsp). apply rstrip_idempotent.
Qed.

Lemma get_product_info_titles_witness :
  (exists t, In t (product_title two_cameras)
             /\ "camera one"%string = normalize_title t)
  /\ spaced true "camera one" = true
  /\ strip "camera one" = "camera one"%string.
Proof.
  apply (get_product_info_titles two_cameras
           {| title := "camera one"; price := 99; shipping := 5;
              country := "US"; condition := "Used" |}).
  left. reflexivity.
Defined.

End PageRecords.

(** ** More on the search *)

Section SearchMore.
Import Str Py EbayScraper.
Local Open Scope Q_scope.

Lemma base_threshold_valid : valid_threshold similarity_threshold.
Proof. split; discriminate. Qed.

Lemma ramp_threshold_valid (rd : Q) :
  - ramp_step <= rd ->
  valid_threshold (py_max 0 (similarity_threshold - (rd + ramp_step))).
Proof.
  intros H. split; [apply py_max_lower|].
  apply py_max_upper; [discriminate|].
  unfold similarity_threshold, ramp_step in *. Lqa.lra.
Qed.

(** From an accumulator of at least -0.05 the ramp-down loop returns, and
    never with a smaller accumulator. *)
Lemma ramp_down_loop_ok (page : soup) (title : string) (fuel : nat) :
  forall ce rd,
    (ce <= 2)%nat -> (3 - ce <= fuel)%nat -> - ramp_step <= rd ->
    exists rd' d,
      result (ramp_down_loop fuel page title ce rd) = Ok (rd', d) /\ rd <= rd'.
Proof.
  induction fuel as [|fuel IH]; intros ce rd Hce Hfuel Hrd; [lia|].
  rewrite ramp_down_loop_unfold, result_bind.
  destruct (listing_valid page title _ (ramp_threshold_valid rd Hrd)) as [d ->].
  cbn [result snd].
  assert (Hstep : rd <= rd + ramp_step) by (unfold ramp_step; Lqa.lra).
  destruct (ce =? 2)%nat eqn:E.
  - exists (rd + ramp_step), d. split; [reflexivity|exact Hstep].
  - apply Nat.eqb_neq in E. destruct d as [|x d].
    + destruct (IH (ce + 1)%nat (rd + ramp_step)) as [rd' [d' [Hr Hle]]];
        [lia|lia|unfold ramp_step in *; Lqa.lra|].
      exists rd', d'. split; [exact Hr|Lqa.lra].
    + exists (rd + ramp_step), (x :: d). split; [reflexivity|exact Hstep].
Qed.

Lemma search_page_served (fuel : nat) (w : web) (title : string) (rd : Q)
    (acc : found) (p : nat) (page : soup) :
  (3 <= fuel)%nat -> - ramp_step <= rd -> w title p = Some page ->
  exists rd' d,
    result (search_page fuel w title (rd, acc) p) = Ok (rd', accumulate acc d)
    /\ rd <= rd'.
Proof.
  intros Hfuel Hrd Hw. unfold search_page.
  rewrite (create_url_ok _ _ _ _ Hw), result_bind. cbn [result snd].
  rewrite result_bind.
  destruct (listing_valid page title similarity_threshold base_threshold_valid)
    as [d ->].
  cbn [result snd]. rewrite result_bind.
  destruct d as [|x d].
  - destruct (ramp_down_loop_ok page title fuel 0%nat rd) as [rd' [d' [-> Hle]]];
      [lia|simpl; lia|exact Hrd|].
    exists rd', d'. split; [reflexivity|exact Hle].
  - exists rd, (x :: d). split; [reflexivity|Lqa.lra].
Qed.

Lemma search_page_unserved (fuel : nat) (w : web) (title : string)
    (st : Q * found) (p : nat) :
  w title p = None ->
  search_page fuel w title st p = ([Fetch title p], Raise ScraperRequestError).
Proof.
  intros Hw. destruct st as [rd acc]. unfold search_page, create_url.
  rewrite Hw. reflexivity.
Qed.

Lemma ramp_thresholds_length (n : nat) : forall rd,
  List.length (ramp_thresholds n rd) = n.
Proof. induction n as [|n IH]; intros rd; cbn; [|rewrite IH]; reflexivity. Qed.

Lemma ramp_down_loop_counts (page : soup) (title : string) (fuel : nat) (rd : Q) :
  let m := ramp_down_loop fuel page title 0 rd in
  page_requests (trace m) = []
  /\ (List.length (thresholds (trace m)) <= 3)%nat.
Proof.
  cbv zeta. destruct fuel as [|fuel]; [split; [reflexivity|cbn; lia]|].
  destruct (ramp_down_loop_attempts page title fuel 0%nat rd) as [[n [Hn Ht]] Hp];
    [lia|].
  cbv zeta in Ht, Hp. rewrite Ht, Hp, ramp_thresholds_length.
  split; [reflexivity|lia].
Qed.

(** One iteration of the loop over the pages requests its page and filters
    at most four times. *)
Lemma search_page_counts (fuel : nat) (w : web) (title : string)
    (st : Q * found) (p : nat) :
  let m := search_page fuel w title st p in
  page_requests (trace m) = [p]
  /\ (List.length (thresholds (trace m)) <= 4)%nat.
Proof.
  cbv zeta. destruct (w title p) as [page|] eqn:Hw.
  - destruct st as [rd acc]. unfold search_page.
    rewrite (create_url_ok _ _ _ _ Hw).
    rewrite trace_bind, page_requests_app, thresholds_app. cbn [trace result fst snd].
    rewrite trace_bind, page_requests_app, thresholds_app,
      listing_page_requests, listing_thresholds.
    destruct (result (listing_product_similarity page title similarity_threshold))
      as [d| |]; [|split; reflexivity || (cbn; lia)..].
    rewrite trace_bind, page_requests_app, thresholds_app.
    destruct d as [|x d].
    + destruct (ramp_down_loop_counts page title fuel rd) as [Hp Ht].
      cbv zeta in Hp, Ht. rewrite Hp.
      destruct (result (ramp_down_loop fuel page title 0 rd)) as [[rd' d']| |];
        cbn [page_requests thresholds app List.length trace fst ret];
        rewrite ?app_nil_r; (split; [reflexivity|]);
        rewrite ?length_app; cbn [List.length]; lia.
    + cbn. split; [reflexivity|lia].
  - rewrite (search_page_unserved fuel w title st p Hw). cbn.
    split; [reflexivity|lia].
Qed.

Lemma search_pages_cons (fuel : nat) (w : web) (title : string)
    (st : Q * found) (p : nat) (rest : list nat) :
  search_pages fuel w title st (p :: rest)
  = bind (search_page fuel w title st p)
         (fun st' => search_pages fuel w title st' rest).
Proof. reflexivity. Qed.

Lemma search_pages_counts (fuel : nat) (w : web) (title : string)
    (page_numbers : list nat) : forall st,
  let m := search_pages fuel w title st page_numbers in
  exists n,
    (n <= List.length page_numbers)%nat
    /\ page_requests (trace m) = firstn n page_numbers
    /\ (List.length (thresholds (trace m)) <= 4 * n)%nat
    /\ ((exists st', result m = Ok st') -> n = List.length page_numbers).
Proof.
  induction page_numbers as [|p rest IH]; intros st; cbv zeta.
  - exists 0%nat. repeat split; cbn; lia.
  - rewrite search_pages_cons, trace_bind, result_bind, page_requests_app,
      thresholds_app.
    destruct (search_page_counts fuel w title st p) as [Hp Ht].
    cbv zeta in Hp, Ht. rewrite Hp.
    destruct (result (search_page fuel w title st p)) as [st1| |].
    + destruct (IH st1) as [n [Hn [Hreq [Hth Hok]]]]. cbv zeta in Hreq, Hth, Hok.
      exists (S n). rewrite Hreq, length_app. cbn [List.length firstn app].
      repeat split; try lia. intros H. rewrite (Hok H). reflexivity.
    + exists 1%nat. rewrite length_app. cbn [List.length firstn app page_requests thresholds].
      repeat split; try lia. intros [st' H]. discriminate H.
    + exists 1%nat. rewrite length_app. cbn [List.length firstn app page_requests thresholds].
      repeat split; try lia. intros [st' H]. discriminate H.
Qed.

Lemma find_viable_product_trace (fuel : nat) (w : web) (title : string) (rd : Q) :
  trace (find_viable_product fuel w title rd)
  = trace (search_pages fuel w title (rd, no_products) (seq 0 5)).
Proof.
  unfold find_viable_product. rewrite trace_bind.
  destruct (result (search_pages fuel w title (rd, no_products) (seq 0 5)))
    as [st| |]; rewrite ?app_nil_r; try reflexivity.
  destruct (descriptions (snd st)); cbn; apply app_nil_r.
Qed.

(** X15. Whatever the pages hold, a search requests the pages 0, 1, ... in
    order, at most five of them and none twice, and filters at most four
    times for each page it requested: at most twenty times in all. *)
Theorem find_viable_product_work (fuel : nat) (w : web) (title : string)
    (ramp_down : Q) :
  let m := find_viable_product fuel w title ramp_down in
  exists n,
    (n <= 5)%nat
    /\ page_requests (trace m) = seq 0 n
    /\ (List.length (thresholds (trace m)) <= 4 * n)%nat.
Proof.
  cbv zeta. rewrite find_viable_product_trace.
  destruct (search_pages_counts fuel w title (seq 0 5) (ramp_down, no_products))
    as [n [Hn [Hreq [Hth _]]]].
  cbv zeta in Hreq, Hth. cbn [List.length seq] in Hn.
  exists n. split; [exact Hn|]. split; [|exact Hth].
  rewrite Hreq.
  destruct n as [|[|[|[|[|[|n]]]]]]; try reflexivity. lia.
Qed.

End SearchMore.

(** ** What a successful search returns *)

Section SearchFound.
Import Str Py EbayScraper.
Local Open Scope Q_scope.

Lemma last_with_title_In (k : string) (product_info : list product) (p : product) :
  last_with_title k product_info = Some p -> In p product_info /\ title p = k.
Proof.
  induction product_info as [|q rest IH]; [discriminate|].
  cbn [last_with_title]. destruct (last_with_title k rest) as [p'|].
  - intros H. injection H as ->. destruct (IH eq_refl) as [Hin Ht].
    split; [right; exact Hin|exact Ht].
  - destruct (String.eqb (title q) k) eqn:E; [|discriminate].
    intros H. injection H as <-. apply String.eqb_eq in E.
    split; [left; reflexivity|exact E].
Qed.

Lemma get_similarity_bounds (s1 s2 : string) : 0 <= get_similarity s1 s2 <= 1.
Proof. unfold get_similarity. apply ratio_range. Qed.

(** Every entry of the dictionary the filter returns holds the similarity
    of its key to the target. *)
Lemma filter_entries (product_info : list product) (target : string) (t : Q)
    (d : dict scored) :
  result (filter_products_by_similarity product_info target t) = Ok d ->
  forall k v, In (k, v) d -> scored_against target k (s_similarity v).
Proof.
  unfold filter_products_by_similarity.
  destruct (negb (Qle_bool 0 t && Qle_bool t 1)); [discriminate|].
  destruct (filter_loop_lookup target t product_info [] (NoDup_nil _))
    as [d' [Hrun [Hnd Hget]]].
  rewrite Hrun. intros H. injection H as <-. intros k v Hin.
  apply (In_dict_get k v d' Hnd) in Hin. rewrite Hget in Hin.
  destruct (Qle_bool t (get_similarity k target)); [|discriminate].
  destruct (last_with_title k product_info) as [p|] eqn:Hp; [|discriminate].
  injection Hin as <-. apply last_with_title_In in Hp. destruct Hp as [_ <-].
  split; [reflexivity|apply get_similarity_bounds].
Qed.

Lemma listing_entries (page : soup) (title : string) (t : Q) (d : dict scored) :
  result (listing_product_similarity page title t) = Ok d ->
  forall k v, In (k, v) d -> scored_against (lower title) k (s_similarity v).
Proof.
  unfold listing_product_similarity. cbn [result snd].
  apply filter_entries.
Qed.

Lemma ramp_down_loop_entries (page : soup) (title : string) (fuel : nat) :
  forall ce rd rd' d,
    result (ramp_down_loop fuel page title ce rd) = Ok (rd', d) ->
    forall k v, In (k, v) d -> scored_against (lower title) k (s_similarity v).
Proof.
  induction fuel as [|fuel IH]; intros ce rd rd' d; [discriminate|].
  rewrite ramp_down_loop_unfold, result_bind.
  destruct (result (listing_product_similarity page title _))
    as [filtered| |] eqn:Hl; try discriminate.
  destruct (ce =? 2)%nat.
  - intros H. injection H as _ <-. apply (listing_entries _ _ _ _ Hl).
  - destruct filtered as [|x filtered].
    + apply IH.
    + intros H. injection H as _ <-. apply (listing_entries _ _ _ _ Hl).
Qed.

Lemma entries_Forall2 (target : string) (d : dict scored) :
  (forall k v, In (k, v) d -> scored_against target k (s_similarity v)) ->
  Forall2 (scored_against target) (keys d) (map s_similarity (values d)).
Proof.
  unfold keys, values. induction d as [|[k v] d IH]; intros H; cbn [map fst snd].
  - constructor.
  - constructor; [apply (H k v); left; reflexivity|].
    apply IH. intros k' v' Hin. apply H. right. exact Hin.
Qed.

Lemma search_page_scored (fuel : nat) (w : web) (title : string)
    (st st' : Q * found) (p : nat) :
  Forall2 (scored_against (lower title)) (descriptions (snd st))
    (similarities (snd st)) ->
  result (search_page fuel w title st p) = Ok st' ->
  Forall2 (scored_against (lower title)) (descriptions (snd st'))
    (similarities (snd st')).
Proof.
  destruct st as [rd acc]. cbn [snd]. intros Hacc. unfold search_page.
  rewrite !result_bind.
  destruct (result (create_url w title p)) as [page| |]; try discriminate.
  rewrite result_bind.
  destruct (result (listing_product_similarity page title similarity_threshold))
    as [filtered| |] eqn:Hl; try discriminate.
  rewrite result_bind.
  destruct filtered as [|x filtered].
  - destruct (result (ramp_down_loop fuel page title 0 rd)) as [[rd' d]| |] eqn:Hr;
      try discriminate.
    cbn [ret result snd]. intros H. injection H as <-.
    cbn [snd accumulate descriptions similarities].
    apply Forall2_app; [exact Hacc|]. apply entries_Forall2.
    apply (ramp_down_loop_entries _ _ _ _ _ _ _ Hr).
  - cbn [ret result snd]. intros H. injection H as <-.
    cbn [snd accumulate descriptions similarities].
    apply Forall2_app; [exact Hacc|]. apply entries_Forall2.
    apply (listing_entries _ _ _ _ Hl).
Qed.

Lemma search_pages_scored (fuel : nat) (w : web) (title : string)
    (page_numbers : list nat) : forall st st',
  Forall2 (scored_against (lower title)) (descriptions (snd st))
    (similarities (snd st)) ->
  result (search_pages fuel w title st page_numbers) = Ok st' ->
  Forall2 (scored_against (lower title)) (descriptions (snd st'))
    (similarities (snd st')).
Proof.
  induction page_numbers as [|p rest IH]; intros st st' Hst H.
  - cbn in H. injection H as <-. exact Hst.
  - rewrite search_pages_cons in H.
    apply result_bind_Ok in H. destruct H as [st1 [H1 H2]].
    apply (IH st1 st'); [|exact H2].
    apply (search_page_scored fuel w title st st1 p Hst H1).
Qed.

(** X17. When the search returns, all five pages have been requested, the
    six lists are of one length, which is not 0, the prices and the
    shipping costs are strings written by [",.2f"], and every similarity
    is that of the description at the same place to the query in lower
    case, a number from 0 to 1. *)
Theorem find_viable_product_found (fuel : nat) (w : web) (title : string)
    (ramp_down : Q) (f : found) :
  let m := find_viable_product fuel w title ramp_down in
  result m = Ok f ->
  page_requests (trace m) = [0; 1; 2; 3; 4]%nat
  /\ parallel f
  /\ descriptions f <> []
  /\ Forall2 (scored_against (lower title)) (descriptions f) (similarities f).
Proof.
  cbv zeta. intros Hf. split; [|split; [|split]].
  - rewrite find_viable_product_trace.
    destruct (search_pages_counts fuel w title (seq 0 5) (ramp_down, no_products))
      as [n [_ [Hreq [_ Hok]]]].
    cbv zeta in Hreq, Hok. rewrite Hreq.
    unfold find_viable_product in Hf. apply result_bind_Ok in Hf.
    destruct Hf as [st [Hst _]].
    rewrite (Hok (ex_intro _ st Hst)). reflexivity.
  - apply (find_viable_product_parallel fuel w title ramp_down f Hf).
  - apply (find_viable_product_parallel fuel w title ramp_down f Hf).
  - unfold find_viable_product in Hf. apply result_bind_Ok in Hf.
    destruct Hf as [st [Hst Hf]].
    apply search_pages_scored in Hst; [|constructor].
    destruct (descriptions (snd st)) eqn:E; [discriminate|].
    cbn in Hf. injection Hf as <-. rewrite E. exact Hst.
Qed.

Lemma find_viable_product_found_witness :
  page_requests (trace (find_viable_product 3 camera_web "camera" 0))
  = [0; 1; 2; 3; 4]%nat
  /\ parallel camera_found
  /\ descriptions camera_found <> []
  /\ Forall2 (scored_against (lower "camera")) (descriptions camera_found)
       (similarities camera_found).
Proof.
  apply (find_viable_product_found 3 camera_web "camera" 0 camera_found).
  vm_compute. reflexivity.
Defined.

(** *** The accumulator is carried from a page to the next *)

Lemma ramp_down_loop_quiet_state (page : soup) (title : string) (fuel : nat) :
  forall ce rd,
    (ce <= 2)%nat -> (3 - ce <= fuel)%nat ->
    Forall quiet (trace (ramp_down_loop fuel page title ce rd)) ->
    result (ramp_down_loop fuel page title ce rd) = Ok (ramped (3 - ce) rd, []).
Proof.
  induction fuel as [|fuel IH]; intros ce rd Hce Hfuel; [lia|].
  rewrite ramp_down_loop_unfold. intros Hq.
  apply Forall_trace_bind in Hq. destruct Hq as [Hq1 Hq2].
  apply listing_quiet in Hq1. specialize (Hq2 [] Hq1).
  rewrite result_bind, Hq1.
  destruct (ce =? 2)%nat eqn:E.
  - apply Nat.eqb_eq in E. subst ce. reflexivity.
  - apply Nat.eqb_neq in E.
    rewrite (IH (ce + 1)%nat (rd + ramp_step)); [|lia|lia|exact Hq2].
    replace (3 - ce)%nat with (S (3 - (ce + 1))) by lia. reflexivity.
Qed.

Lemma search_page_quiet_thresholds (fuel : nat) (w : web) (title : string)
    (rd : Q) (acc : found) (p : nat) :
  (3 <= fuel)%nat -> w title p <> None ->
  let m := search_page fuel w title (rd, acc) p in
  Forall quiet (trace m) ->
  thresholds (trace m) = similarity_threshold :: ramp_thresholds 3 rd
  /\ exists acc', result m = Ok (ramped 3 rd, acc').
Proof.
  intros Hfuel Hw. cbv zeta. unfold search_page.
  destruct (w title p) as [page|] eqn:Hpage; [|congruence].
  rewrite (create_url_ok _ _ _ _ Hpage). intros Hq.
  apply Forall_trace_bind in Hq. destruct Hq as [_ Hq].
  specialize (Hq page eq_refl).
  apply Forall_trace_bind in Hq. destruct Hq as [Hq1 Hq].
  apply listing_quiet in Hq1. specialize (Hq [] Hq1).
  apply Forall_trace_bind in Hq. destruct Hq as [Hq2 _].
  destruct (ramp_down_loop_quiet page title fuel 0%nat rd) as [Ht _];
    [lia|simpl; lia|exact Hq2|].
  pose proof (ramp_down_loop_quiet_state page title fuel 0%nat rd
                ltac:(lia) ltac:(simpl; lia) Hq2) as Hr.
  cbv zeta in Ht. cbn [Nat.sub] in Ht, Hr.
  rewrite !trace_bind, !result_bind, !thresholds_app.
  cbn [result trace fst snd].
  rewrite !trace_bind, !result_bind, !thresholds_app, Hq1, listing_thresholds.
  rewrite !trace_bind, !result_bind, !thresholds_app, Hr, Ht.
  cbn [result trace fst snd ret app thresholds]. rewrite app_nil_r.
  split; [reflexivity|]. eexists. reflexivity.
Qed.

Lemma search_pages_quiet_thresholds (fuel : nat) (w : web) (title : string)
    (page_numbers : list nat) : forall rd acc,
  (3 <= fuel)%nat ->
  (forall p, In p page_numbers -> w title p <> None) ->
  Forall quiet (trace (search_pages fuel w title (rd, acc) page_numbers)) ->
  thresholds (trace (search_pages fuel w title (rd, acc) page_numbers))
  = quiet_thresholds (List.length page_numbers) rd.
Proof.
  induction page_numbers as [|p rest IH]; intros rd acc Hfuel Hw;
    [reflexivity|].
  rewrite search_pages_cons. intros Hq.
  apply Forall_trace_bind in Hq. destruct Hq as [Hq1 Hq2].
  destruct (search_page_quiet_thresholds fuel w title rd acc p Hfuel
              (Hw p (or_introl eq_refl)) Hq1) as [Ht [acc' Hr]].
  specialize (Hq2 _ Hr).
  rewrite trace_bind, thresholds_app, Hr, Ht.
  rewrite (IH (ramped 3 rd) acc' Hfuel (fun q Hq => Hw q (or_intror Hq)) Hq2).
  reflexivity.
Qed.

(** X18. The accumulator [ramp_down] is not reset between pages.  When the
    five pages are served and every attempt comes back empty, each page is
    filtered at 0.35 and then three times down the ramp, which goes on
    from where the page before left it; called with [ramp_down = 0], as
    the view does, the search filters at 0.35, 0.30, 0.25, 0.20 on the
    first page, 0.35, 0.15, 0.10, 0.05 on the second, and at 0.35, 0, 0, 0
    on each of the other three. *)
Theorem find_viable_product_ramp_carried (fuel : nat) (w : web)
    (title : string) (ramp_down : Q) :
  (3 <= fuel)%nat ->
  (forall p, (p < 5)%nat -> w title p <> None) ->
  let m := find_viable_product fuel w title ramp_down in
  Forall quiet (trace m) ->
  thresholds (trace m) = quiet_thresholds 5 ramp_down
  /\ Forall2 Qeq (quiet_thresholds 5 0)
       [35 # 100; 30 # 100; 25 # 100; 20 # 100;
        35 # 100; 15 # 100; 10 # 100; 5 # 100;
        35 # 100; 0; 0; 0;
        35 # 100; 0; 0; 0;
        35 # 100; 0; 0; 0].
Proof.
  intros Hfuel Hw. cbv zeta. rewrite find_viable_product_trace. intros Hq.
  split.
  - apply (search_pages_quiet_thresholds fuel w title (seq 0 5) ramp_down
             no_products Hfuel); [|exact Hq].
    intros p Hin. apply Hw. apply in_seq in Hin. lia.
  - vm_compute. repeat (constructor; [reflexivity|]). constructor.
Qed.

Lemma find_viable_product_ramp_carried_witness :
  thresholds (trace (find_viable_product 3 empty_web "camera" 0))
  = quiet_thresholds 5 0
  /\ Forall2 Qeq (quiet_thresholds 5 0)
       [35 # 100; 30 # 100; 25 # 100; 20 # 100;
        35 # 100; 15 # 100; 10 # 100; 5 # 100;
        35 # 100; 0; 0; 0;
        35 # 100; 0; 0; 0;
        35 # 100; 0; 0; 0].
Proof.
  apply (find_viable_product_ramp_carried 3 empty_web "camera" 0 (le_n 3)).
  - intros p _. discriminate.
  - vm_compute. repeat constructor.
Defined.

End SearchFound.

(** ** The keys of the filtered dictionary *)

Section FilterKeys.
Import Str Py EbayScraper.
Local Open Scope Q_scope.

Lemma filter_loop_keys (target : string) (t : Q) (product_info : list product) :
  forall acc d,
    result (filter_loop product_info target t acc) = Ok d ->
    keys d
    = (keys acc
       ++ filter (fun x => negb (existsb (String.eqb x) (keys acc)))
            (first_occurrences
               (map title
                  (filter (fun p => Qle_bool t (get_similarity (title p) target))
                     product_info))))%list.
Proof.
  induction product_info as [|p rest IH]; intros acc d.
  - cbn. intros H. injection H as <-. symmetry. apply app_nil_r.
  - rewrite filter_loop_result_cons. cbn [filter].
    destruct (Qle_bool t (get_similarity (title p) target)).
    + intros H. rewrite (IH _ _ H), keys_dict_set_list.
      cbn [map first_occurrences filter].
      destruct (existsb (String.eqb (title p)) (keys acc)) eqn:E; cbn [negb].
      * rewrite filter_filter_absent by exact E. reflexivity.
      * rewrite <- app_assoc. cbn [app]. rewrite filter_snoc_absent. reflexivity.
    + apply IH.
Qed.

(** X19. The keys of the dictionary the filter returns are the titles of
    the products whose similarity reaches the threshold, without
    repetitions and in the order of their first occurrences; at the
    threshold 0, which the ramp reaches, no product is left out. *)
Theorem filter_products_by_similarity_keys
    (product_info : list product) (target : string) (t : Q) (d : dict scored) :
  result (filter_products_by_similarity product_info target t) = Ok d ->
  keys d
  = first_occurrences
      (map title
         (filter (fun p => Qle_bool t (get_similarity (title p) target))
            product_info))
  /\ (t == 0 -> keys d = first_occurrences (map title product_info)).
Proof.
  unfold filter_products_by_similarity.
  destruct (negb (Qle_bool 0 t && Qle_bool t 1)); [discriminate|].
  intros H. apply filter_loop_keys in H. cbn [keys map app existsb] in H.
  rewrite filter_all_true in H by reflexivity.
  split; [exact H|].
  intros Ht. rewrite H. f_equal. f_equal. apply filter_all_true.
  intros p. apply Qle_bool_iff. rewrite Ht. apply get_similarity_bounds.
Qed.

Lemma filter_products_by_similarity_keys_witness :
  keys [("test item"%string, scored_of "other" test_item)]
  = first_occurrences
      (map title
         (filter (fun p => Qle_bool 0 (get_similarity (title p) "other"))
            [test_item]))
  /\ (0 == 0 ->
      keys [("test item"%string, scored_of "other" test_item)]
      = first_occurrences (map title [test_item])).
Proof.
  apply (filter_products_by_similarity_keys [test_item] "other" 0).
  vm_compute. reflexivity.
Defined.

End FilterKeys.

(** ** What the similarity does not see *)

Section SimilarityBlind.
Import Str Py EbayScraper.
Local Open Scope Q_scope.

Lemma lower_char_idempotent (c : ascii) : lower_char (lower_char c) = lower_char c.
Proof. destruct c as [[] [] [] [] [] [] [] []]; reflexivity. Qed.

Lemma lower_char_space (c : ascii) : is_space (lower_char c) = is_space c.
Proof. destruct c as [[] [] [] [] [] [] [] []]; reflexivity. Qed.

Lemma lower_idempotent (s : string) : lower (lower s) = lower s.
Proof.
  induction s as [|c s IH]; [reflexivity|].
  cbn [lower]. rewrite lower_char_idempotent, IH. reflexivity.
Qed.

Lemma lower_lstrip (s : string) : lower (lstrip s) = lstrip (lower s).
Proof.
  induction s as [|c s IH]; [reflexivity|].
  cbn [lower lstrip]. rewrite lower_char_space.
  destruct (is_space c); [exact IH|reflexivity].
Qed.

Lemma lower_is_empty (s : string) : is_empty (lower s) = is_empty s.
Proof. destruct s; reflexivity. Qed.

Lemma lower_rstrip (s : string) : lower (rstrip s) = rstrip (lower s).
Proof.
  induction s as [|c s IH]; [reflexivity|].
  cbn [lower rstrip]. rewrite lower_char_space, <- IH, lower_is_empty.
  destruct (is_space c && is_empty (rstrip s)); reflexivity.
Qed.

Lemma lower_strip (s : string) : lower (strip s) = strip (lower s).
Proof. unfold strip. rewrite lower_rstrip, lower_lstrip. reflexivity. Qed.

Lemma lstrip_idempotent (s : string) : lstrip (lstrip s) = lstrip s.
Proof.
  induction s as [|c s IH]; [reflexivity|].
  cbn [lstrip]. destruct (is_space c) eqn:E; [exact IH|].
  cbn [lstrip]. rewrite E. reflexivity.
Qed.

Lemma lstrip_rstrip (s : string) : lstrip (rstrip s) = rstrip (lstrip s).
Proof.
  induction s as [|c s IH]; [reflexivity|].
  cbn [lstrip rstrip]. destruct (is_space c) eqn:E; cbn [andb].
  - destruct (is_empty (rstrip s)) eqn:Hr.
    + rewrite <- IH. destruct (rstrip s); [reflexivity|discriminate Hr].
    + cbn [lstrip]. rewrite E. exact IH.
  - cbn [lstrip rstrip]. rewrite E. reflexivity.
Qed.

Lemma strip_idempotent (s : string) : strip (strip s) = strip s.
Proof.
  unfold strip. rewrite lstrip_rstrip, lstrip_idempotent.
  apply rstrip_idempotent.
Qed.

(** The string the matcher is given for an argument. *)
Lemma get_similarity_unfold (s1 s2 : string) :
  get_similarity s1 s2
  = Difflib.ratio
      (list_ascii_of_string (delete_chars is_punctuation (strip (lower s1))))
      (list_ascii_of_string (delete_chars is_punctuation (strip (lower s2)))).
Proof. reflexivity. Qed.

(** X20. The similarity sees neither the case of the letters nor the white
    space around its arguments.  It is not blind to punctuation: the white
    space is stripped before the punctuation is deleted, so that ["a !"]
    is compared as ["a "] and is not as similar to ["a"] as ["a"] is. *)
Theorem get_similarity_blind (s1 s2 : string) :
  get_similarity (lower s1) s2 = get_similarity s1 s2
  /\ get_similarity s1 (lower s2) = get_similarity s1 s2
  /\ get_similarity (strip s1) s2 = get_similarity s1 s2
  /\ get_similarity s1 (strip s2) = get_similarity s1 s2
  /\ get_similarity "a !" "a" == 2 # 3
  /\ get_similarity (delete_chars is_punctuation "a !") "a" == 1.
Proof.
  rewrite !get_similarity_unfold, !lower_idempotent, !lower_strip,
    !strip_idempotent.
  repeat split; reflexivity.
Qed.

End SimilarityBlind.

(** ** Reading numbers *)

Section FloatFacts.
Import Str Py Float EbayGetters.
Local Open Scope Q_scope.

Lemma all_chars_app (P : ascii -> bool) (s t : string) :
  all_chars P (s ++ t) = all_chars P s && all_chars P t.
Proof.
  induction s as [|c s IH]; [reflexivity|].
  cbn [String.append all_chars]. rewrite IH. apply andb_assoc.
Qed.

Lemma all_chars_weaken (P Q : ascii -> bool) (s : string) :
  (forall c, P c = true -> Q c = true) ->
  all_chars P s = true -> all_chars Q s = true.
Proof.
  intros H. induction s as [|c s IH]; [reflexivity|].
  cbn [all_chars]. rewrite !andb_true_iff. intros [Hc Hs].
  split; [apply H; exact Hc|apply IH; exact Hs].
Qed.

Lemma digit_not_float_space (c : ascii) :
  is_digit c = true -> is_float_space c = false.
Proof. destruct c as [[] [] [] [] [] [] [] []]; vm_compute; auto; discriminate. Qed.

Lemma digit_not_sign (c : ascii) :
  is_digit c = true -> Ascii.eqb c "-" = false /\ Ascii.eqb c "+" = false.
Proof. destruct c as [[] [] [] [] [] [] [] []]; vm_compute; auto; discriminate. Qed.

Lemma digit_not_comma (c : ascii) : is_digit c = true -> Ascii.eqb c "," = false.
Proof. destruct c as [[] [] [] [] [] [] [] []]; vm_compute; auto; discriminate. Qed.

Lemma digit_not_name (c : ascii) (s : string) :
  is_digit c = true ->
  String.eqb (lower (String c s)) "inf" = false
  /\ String.eqb (lower (String c s)) "infinity" = false
  /\ String.eqb (lower (String c s)) "nan" = false.
Proof.
  intros H. cbn [lower String.eqb].
  assert (Hi : Ascii.eqb (lower_char c) "i" = false
               /\ Ascii.eqb (lower_char c) "n" = false).
  { revert H. destruct c as [[] [] [] [] [] [] [] []]; vm_compute; auto;
      discriminate. }
  destruct Hi as [-> ->]. auto.
Qed.

Lemma span_digits_spec (s : string) :
  s = (fst (span_digits s) ++ snd (span_digits s))%string
  /\ all_chars is_digit (fst (span_digits s)) = true.
Proof.
  induction s as [|c s [IH1 IH2]]; [split; reflexivity|].
  cbn [span_digits]. destruct (is_digit c) eqn:E; [|split; reflexivity].
  destruct (span_digits s) as [d r]. cbn [fst snd] in *.
  cbn [String.append all_chars]. rewrite E, IH2, <- IH1. split; reflexivity.
Qed.

Lemma match_amount_shape (sep : ascii) (s m : string) :
  match_amount sep s = Some m ->
  exists whole fraction,
    m = (whole ++ String sep fraction)%string
    /\ all_chars is_digit whole = true /\ all_chars is_digit fraction = true
    /\ whole <> EmptyString /\ fraction <> EmptyString.
Proof.
  unfold match_amount.
  destruct (span_digits_spec s) as [_ Hw].
  destruct (span_digits s) as [whole rest]. cbn [fst snd] in Hw.
  destruct whole as [|w whole]; [discriminate|].
  destruct rest as [|c rest']; [discriminate|].
  destruct (Ascii.eqb c sep); [|discriminate].
  destruct (span_digits_spec rest') as [_ Hf].
  destruct (span_digits rest') as [fraction rest'']. cbn [fst snd] in Hf.
  destruct fraction as [|f fraction]; [discriminate|].
  intros H. injection H as <-.
  exists (String w whole), (String f fraction).
  repeat split; try assumption; discriminate.
Qed.

Lemma search_price_shape (s : string) : forall m,
  search_price s = Some m ->
  exists sep whole fraction,
    (sep = "."%char \/ sep = ","%char)
    /\ m = (whole ++ String sep fraction)%string
    /\ all_chars is_digit whole = true /\ all_chars is_digit fraction = true
    /\ whole <> EmptyString /\ fraction <> EmptyString.
Proof.
  induction s as [|c s IH]; intros m.
  - cbn. discriminate.
  - cbn [search_price].
    destruct (match_amount "." (String c s)) as [m1|] eqn:E1.
    { intros H. injection H as <-. exists "."%char.
      destruct (match_amount_shape _ _ _ E1) as (w & f & H).
      exists w, f. split; [left; reflexivity|exact H]. }
    destruct (match_amount "," (String c s)) as [m2|] eqn:E2.
    { intros H. injection H as <-. exists ","%char.
      destruct (match_amount_shape _ _ _ E2) as (w & f & H).
      exists w, f. split; [right; reflexivity|exact H]. }
    apply IH.
Qed.

Lemma digitpart_tail_digits (d : string) : forall rest,
  all_chars is_digit d = true -> ends_digits rest ->
  digitpart_tail (d ++ rest) = (d, rest).
Proof.
  induction d as [|c d IH]; intros rest Hd Hrest.
  - cbn [String.append]. destruct rest as [|c r]; [reflexivity|].
    destruct Hrest as [H1 H2]. cbn [digitpart_tail]. rewrite H1, H2. reflexivity.
  - cbn [all_chars] in Hd. apply andb_true_iff in Hd. destruct Hd as [Hc Hd].
    cbn [String.append digitpart_tail]. rewrite Hc, (IH rest Hd Hrest).
    reflexivity.
Qed.

Lemma digitpart_digits (d rest : string) :
  d <> EmptyString -> all_chars is_digit d = true -> ends_digits rest ->
  digitpart (d ++ rest) = Some (d, rest).
Proof.
  destruct d as [|c d]; [congruence|]. intros _ Hd Hrest.
  cbn [all_chars] in Hd. apply andb_true_iff in Hd. destruct Hd as [Hc Hd].
  cbn [String.append digitpart]. rewrite Hc, (digitpart_tail_digits d rest Hd Hrest).
  reflexivity.
Qed.

Lemma append_empty_r (s : string) : (s ++ "")%string = s.
Proof. induction s as [|c s IH]; [reflexivity|]. cbn. rewrite IH. reflexivity. Qed.

Lemma lstrip_float_plain (s : string) :
  all_chars (fun c => negb (is_float_space c)) s = true -> lstrip_float s = s.
Proof.
  destruct s as [|c s]; [reflexivity|]. cbn [all_chars lstrip_float].
  rewrite andb_true_iff, negb_true_iff. intros [-> _]. reflexivity.
Qed.

Lemma rstrip_float_plain (s : string) :
  all_chars (fun c => negb (is_float_space c)) s = true -> rstrip_float s = s.
Proof.
  induction s as [|c s IH]; [reflexivity|]. cbn [all_chars rstrip_float].
  rewrite andb_true_iff, negb_true_iff. intros [Hc Hs].
  rewrite Hc, (IH Hs). reflexivity.
Qed.

(** [float] of digits, a point and digits. *)
Lemma py_float_point (whole fraction : string) :
  whole <> EmptyString -> fraction <> EmptyString ->
  all_chars is_digit whole = true -> all_chars is_digit fraction = true ->
  py_float (whole ++ String "." fraction)
  = Ok (Finite (decimal_value whole fraction)).
Proof.
  intros Hw Hf Hdw Hdf. unfold py_float.
  assert (Hplain : all_chars (fun c => negb (is_float_space c))
                     (whole ++ String "." fraction) = true).
  { rewrite all_chars_app. cbn [all_chars].
    rewrite (all_chars_weaken is_digit _ whole), (all_chars_weaken is_digit _ fraction);
      try assumption; try reflexivity;
      intros c Hc; rewrite (digit_not_float_space c Hc); reflexivity. }
  rewrite (lstrip_float_plain _ Hplain), (rstrip_float_plain _ Hplain).
  destruct whole as [|c whole]; [congruence|].
  pose proof Hdw as Hdw'. cbn [all_chars] in Hdw'.
  apply andb_true_iff in Hdw'. destruct Hdw' as [Hc _].
  cbn [String.append sign_of].
  destruct (digit_not_sign c Hc) as [-> ->].
  destruct (digit_not_name c (whole ++ String "." fraction) Hc) as (-> & -> & ->).
  cbn [orb]. unfold floatnumber, number.
  change (String c (whole ++ String "." fraction))
    with (String c whole ++ String "." fraction)%string.
  rewrite (digitpart_digits (String c whole) (String "." fraction) Hw Hdw);
    [|split; reflexivity].
  cbn [Ascii.eqb Bool.eqb].
  rewrite <- (append_empty_r fraction) at 1.
  rewrite (digitpart_digits fraction "" Hf Hdf I).
  cbn [exponent is_empty]. reflexivity.
Qed.

(** [float] of digits. *)
Lemma py_float_digits (digits : string) :
  digits <> EmptyString -> all_chars is_digit digits = true ->
  py_float digits = Ok (Finite (decimal_value digits "")).
Proof.
  intros Hd Hdd. unfold py_float.
  assert (Hplain : all_chars (fun c => negb (is_float_space c)) digits = true).
  { apply (all_chars_weaken is_digit); [|exact Hdd].
    intros c Hc. rewrite (digit_not_float_space c Hc). reflexivity. }
  rewrite (lstrip_float_plain _ Hplain), (rstrip_float_plain _ Hplain).
  destruct digits as [|c digits]; [congruence|].
  pose proof Hdd as Hdd'. cbn [all_chars] in Hdd'.
  apply andb_true_iff in Hdd'. destruct Hdd' as [Hc _].
  cbn [sign_of].
  destruct (digit_not_sign c Hc) as [-> ->].
  destruct (digit_not_name c digits Hc) as (-> & -> & ->).
  cbn [orb]. unfold floatnumber, number.
  rewrite <- (append_empty_r (String c digits)) at 1.
  rewrite (digitpart_digits (String c digits) "" Hd Hdd I).
  cbn [exponent is_empty]. reflexivity.
Qed.

Lemma decimal_value_nonneg (whole fraction : string) :
  0 <= decimal_value whole fraction.
Proof.
  unfold decimal_value. apply Qmult_le_0_compat.
  - change 0 with (inject_Z 0). rewrite <- Zle_Qle. apply N2Z.is_nonneg.
  - apply Qpower_0_le. discriminate.
Qed.

Lemma remove_commas_app (s t : string) :
  remove_commas (s ++ t) = (remove_commas s ++ remove_commas t)%string.
Proof.
  unfold remove_commas. induction s as [|c s IH]; [reflexivity|].
  cbn [String.append delete_chars]. rewrite IH.
  destruct (Ascii.eqb c ","); reflexivity.
Qed.

Lemma remove_commas_digits (d : string) :
  all_chars is_digit d = true -> remove_commas d = d.
Proof.
  unfold remove_commas. induction d as [|c d IH]; [reflexivity|].
  cbn [all_chars delete_chars]. rewrite andb_true_iff. intros [Hc Hd].
  rewrite (digit_not_comma c Hc), (IH Hd). reflexivity.
Qed.

(** What the price getter makes of a match is a number that is not
    negative. *)
Lemma matched_price (text m : string) :
  search_price text = Some m ->
  exists x, py_float (remove_commas m) = Ok (Finite x) /\ 0 <= x.
Proof.
  intros H. apply search_price_shape in H.
  destruct H as (sep & w & f & Hsep & -> & Hdw & Hdf & Hw & Hf).
  rewrite remove_commas_app. rewrite (remove_commas_digits w Hdw).
  destruct Hsep as [-> | ->].
  - change (remove_commas (String "." f)) with (String "." (remove_commas f)).
    rewrite (remove_commas_digits f Hdf), (py_float_point w f Hw Hf Hdw Hdf).
    eexists. split; [reflexivity|apply decimal_value_nonneg].
  - change (remove_commas (String "," f)) with (remove_commas f).
    rewrite (remove_commas_digits f Hdf), py_float_digits.
    + eexists. split; [reflexivity|apply decimal_value_nonneg].
    + destruct w; [congruence|discriminate].
    + rewrite all_chars_app, Hdw, Hdf. reflexivity.
Qed.

(** X21. The price getter never raises.  It returns one number for each
    text in which it finds digits, a point or a comma, and digits, and
    nothing for the other texts, so that its list can be shorter than the
    list of the texts; every number is at least 0.  The amount read ends
    with the digits after the first point or comma: of ["$1,234.56"] the
    getter reads ["1,234"], that is 1234. *)
Theorem get_product_price_amounts (texts : list string) :
  (exists prices,
     get_product_price texts = Ok prices
     /\ List.length prices = List.length (filter has_price texts)
     /\ Forall amount prices)
  /\ get_product_price ["$1,234.56"; "N/A"; "$12.50 to $15.00"]%string
     = Ok [Finite 1234; Finite (1250 # 100)].
Proof.
  split; [|reflexivity].
  induction texts as [|text texts (prices & IH & Hlen & Hall)].
  - exists []. repeat split. constructor.
  - cbn [get_product_price filter]. unfold has_price at 1.
    destruct (search_price text) as [m|] eqn:E.
    + destruct (matched_price text m E) as (x & Hx & Hpos).
      rewrite Hx, IH. cbn [obind].
      exists (Finite x :: prices). split; [reflexivity|].
      split; [cbn [List.length]; rewrite Hlen; reflexivity|].
      constructor; [exists x; split; [reflexivity|exact Hpos]|exact Hall].
    + exists prices. repeat split; assumption.
Qed.

End FloatFacts.

(** ** The shipping costs of a page *)

Section ShippingFacts.
Import Str Py Float EbayGetters.
Local Open Scope Q_scope.

Lemma floatnumber_nonneg (s : string) (x : Q) : floatnumber s = Some x -> 0 <= x.
Proof.
  unfold floatnumber. destruct (number s) as [[[whole fraction] rest]|];
    [|discriminate].
  destruct (exponent rest) as [e rest']. destruct (is_empty rest'); [|discriminate].
  intros H. injection H as <-. apply Qmult_le_0_compat.
  - change 0 with (inject_Z 0). rewrite <- Zle_Qle. apply N2Z.is_nonneg.
  - apply Qpower_0_le. discriminate.
Qed.

(** [float] of a string that starts with a digit is a number that is not
    negative, or raises [ValueError]. *)
Lemma py_float_from_digit (c : ascii) (s : string) :
  is_digit c = true ->
  (exists x, py_float (String c s) = Ok (Finite x) /\ 0 <= x)
  \/ py_float (String c s) = Raise ValueError.
Proof.
  intros Hc. unfold py_float. cbn [lstrip_float rstrip_float].
  rewrite (digit_not_float_space c Hc). cbn [rstrip_float andb sign_of].
  rewrite (digit_not_float_space c Hc). cbn [andb sign_of].
  destruct (digit_not_sign c Hc) as [-> ->].
  destruct (digit_not_name c (rstrip_float s) Hc) as (-> & -> & ->).
  cbn [orb].
  destruct (floatnumber (String c (rstrip_float s))) as [x|] eqn:E;
    [left|right; reflexivity].
  exists x. split; [reflexivity|]. apply (floatnumber_nonneg _ _ E).
Qed.

Lemma match_cost_digit (s g : string) :
  match_cost s = Some g -> exists c m, g = String c m /\ is_digit c = true.
Proof.
  unfold match_cost. destruct s as [|c s]; [discriminate|].
  destruct (is_digit c) eqn:E; [|discriminate].
  destruct (upto_last_digit s) as [m|]; [|discriminate].
  intros H. injection H as <-. exists c, m. split; [reflexivity|exact E].
Qed.

Lemma search_shipping_digit (s : string) : forall g,
  search_shipping s = Some (Cost g) ->
  exists c m, g = String c m /\ is_digit c = true.
Proof.
  induction s as [|c s IH]; intros g.
  - cbn. discriminate.
  - cbn [search_shipping].
    destruct (match_cost (String c s)) as [g'|] eqn:E.
    + intros H. injection H as <-. apply (match_cost_digit _ _ E).
    + destruct (String.prefix "Free" (String c s)
                || String.prefix "not specified" (String c s));
        [discriminate|apply IH].
Qed.

(** The cost read from one text. *)
Lemma shipping_cost (text : string) :
  let cost :=
    match search_shipping text with
    | None => Ok (Finite 0)
    | Some (Cost group1) => py_float (remove_commas group1)
    | Some Phrase => Ok (Finite 0)
    end in
  (exists x, cost = Ok (Finite x) /\ 0 <= x) \/ cost = Raise ValueError.
Proof.
  cbv zeta. destruct (search_shipping text) as [[g|]|] eqn:E.
  - destruct (search_shipping_digit _ _ E) as (c & m & -> & Hc).
    unfold remove_commas. cbn [delete_chars]. rewrite (digit_not_comma c Hc).
    apply (py_float_from_digit c _ Hc).
  - left. exists 0. split; [reflexivity|discriminate].
  - left. exists 0. split; [reflexivity|discriminate].
Qed.

(** X22. The shipping getter returns one cost for each text, a number that
    is at least 0, or raises [ValueError], and nothing else: the cost is
    read from the first digit of the text to the last digit of the same
    line, so that a text that says more after the amount is not a number
    and makes the getter fail, and an amount of a single digit is not
    seen, and counts as 0 as ["Free"] does. *)
Theorem get_product_shipping_costs (texts : list string) :
  ((exists costs,
      get_product_shipping texts = Ok costs
      /\ List.length costs = List.length texts
      /\ Forall amount costs)
   \/ get_product_shipping texts = Raise ValueError)
  /\ get_product_shipping
       ["+$5.00 shipping"; "Free shipping"; "+$5 shipping"; "+$1,234.50"]%string
     = Ok [Finite (500 # 100); Finite 0; Finite 0; Finite (123450 # 100)]
  /\ get_product_shipping ["+$12.50 shipping estimate 3-5 days"]%string
     = Raise ValueError.
Proof.
  split; [|split; reflexivity].
  induction texts as [|text texts IH].
  - left. exists []. repeat split. constructor.
  - cbn [get_product_shipping].
    destruct (shipping_cost text) as [(x & -> & Hx)| ->]; [|right; reflexivity].
    cbn [obind].
    destruct IH as [(costs & -> & Hlen & Hall)| ->]; [|right; reflexivity].
    left. exists (Finite x :: costs). split; [reflexivity|].
    split; [cbn [List.length]; rewrite Hlen; reflexivity|].
    constructor; [exists x; split; [reflexivity|exact Hx]|exact Hall].
Qed.

End ShippingFacts.

(** ** Amounts written and read again *)

Section AmountFacts.
Import Str Py Float EbayGetters.
Local Open Scope Q_scope.

Lemma digits_from_uint_acc (u : Decimal.uint) : forall acc,
  digits_from (Npos acc) (NilEmpty.string_of_uint u) = Npos (Pos.of_uint_acc u acc).
Proof.
  induction u; intros acc;
    cbn [NilEmpty.string_of_uint digits_from Pos.of_uint_acc];
    try reflexivity;
    rewrite <- IHu; f_equal; vm_compute digit_value; lia.
Qed.

Lemma digits_from_uint (u : Decimal.uint) :
  digits_from 0 (NilEmpty.string_of_uint u) = Pos.of_uint u.
Proof.
  induction u; cbn [NilEmpty.string_of_uint digits_from Pos.of_uint];
    try reflexivity;
    try (rewrite <- digits_from_uint_acc; f_equal; vm_compute; reflexivity).
  exact IHu.
Qed.

Lemma digits_value_decimal (n : N) : digits_value (decimal n) = n.
Proof.
  unfold digits_value, decimal. rewrite digits_from_uint.
  apply DecimalN.Unsigned.of_to.
Qed.

Lemma string_of_uint_digits (u : Decimal.uint) :
  all_chars is_digit (NilEmpty.string_of_uint u) = true.
Proof. induction u; cbn; auto. Qed.

Lemma decimal_digits (n : N) : all_chars is_digit (decimal n) = true.
Proof. apply string_of_uint_digits. Qed.

Lemma decimal_nonempty (n : N) : decimal n <> EmptyString.
Proof.
  unfold decimal. destruct n as [|p]; [discriminate|].
  cbn [N.to_uint].
  pose proof (DecimalPos.Unsigned.to_uint_nonnil p) as H.
  destruct (Pos.to_uint p); try congruence; discriminate.
Qed.

Lemma digits_from_app (a b : string) : forall acc,
  digits_from acc (a ++ b) = digits_from (digits_from acc a) b.
Proof.
  induction a as [|c a IH]; intros acc; [reflexivity|].
  cbn [String.append digits_from]. apply IH.
Qed.

Lemma digits_from_shift (b : string) : forall acc,
  digits_from acc b = (acc * 10 ^ N.of_nat (String.length b) + digits_value b)%N.
Proof.
  unfold digits_value.
  induction b as [|c b IH]; intros acc.
  - cbn. lia.
  - cbn [digits_from String.length]. rewrite IH, (IH (10 * 0 + digit_value c)%N).
    rewrite Nat2N.inj_succ, N.pow_succ_r'. lia.
Qed.


Lemma two_digits_digits (c : N) : all_chars is_digit (two_digits c) = true.
Proof.
  unfold two_digits. destruct (c <? 10)%N; [|apply decimal_digits].
  cbn [all_chars]. rewrite decimal_digits. reflexivity.
Qed.

Lemma two_digits_value (c : N) : digits_value (two_digits c) = c.
Proof.
  unfold two_digits. destruct (c <? 10)%N; [|apply digits_value_decimal].
  unfold digits_value. cbn [digits_from]. apply digits_value_decimal.
Qed.

Lemma two_digits_length (c : N) : (c < 100)%N -> String.length (two_digits c) = 2%nat.
Proof.
  intros Hc.
  assert (Hall : forallb (fun k => String.length (two_digits (N.of_nat k)) =? 2)%nat
                   (seq 0 100) = true) by (vm_compute; reflexivity).
  rewrite forallb_forall in Hall.
  specialize (Hall (N.to_nat c)). rewrite N2Nat.id in Hall.
  apply Nat.eqb_eq, Hall, in_seq. lia.
Qed.

Lemma remove_commas_group (d : string) :
  remove_commas (group_thousands d) = remove_commas d.
Proof.
  unfold remove_commas. induction d as [|c d IH]; [reflexivity|].
  cbn [group_thousands].
  destruct (negb (is_empty d) && (String.length d mod 3 =? 0)%nat);
    cbn [delete_chars Ascii.eqb Bool.eqb]; rewrite IH;
    destruct (Ascii.eqb c ","); reflexivity.
Qed.

Lemma format_money_unfold (x : Q) :
  format_money x
  = (let body :=
       (group_thousands (decimal (cents x / 100))
        ++ String "." (two_digits (cents x mod 100)))%string in
     if Qlt_bool x 0 then String "-" body else body).
Proof. reflexivity. Qed.

Lemma format_fixed2_unfold (x : Q) :
  format_fixed2 x
  = (let body :=
       (decimal (cents x / 100)
        ++ String "." (two_digits (cents x mod 100)))%string in
     if Qlt_bool x 0 then String "-" body else body).
Proof. reflexivity. Qed.

Lemma remove_commas_format_money (x : Q) :
  remove_commas (format_money x) = format_fixed2 x.
Proof.
  rewrite format_money_unfold, format_fixed2_unfold. cbv zeta.
  assert (H : remove_commas
                (group_thousands (decimal (cents x / 100))
                 ++ String "." (two_digits (cents x mod 100)))
              = (decimal (cents x / 100)
                 ++ String "." (two_digits (cents x mod 100)))%string).
  { rewrite remove_commas_app, remove_commas_group,
      (remove_commas_digits _ (decimal_digits _)).
    change (remove_commas (String "." ?s)) with (String "." (remove_commas s)).
    rewrite (remove_commas_digits _ (two_digits_digits _)). reflexivity. }
  destruct (Qlt_bool x 0); [|exact H].
  change (remove_commas (String "-" ?s)) with (String "-" (remove_commas s)).
  rewrite H. reflexivity.
Qed.


Lemma two_digits_nonempty (c : N) : two_digits c <> EmptyString.
Proof.
  unfold two_digits. destruct (c <? 10)%N; [discriminate|apply decimal_nonempty].
Qed.

(** [float] of [-], digits, a point and digits. *)
Lemma py_float_minus_point (whole fraction : string) :
  whole <> EmptyString -> fraction <> EmptyString ->
  all_chars is_digit whole = true -> all_chars is_digit fraction = true ->
  py_float (String "-" (whole ++ String "." fraction))
  = Ok (Finite (- decimal_value whole fraction)).
Proof.
  intros Hw Hf Hdw Hdf. unfold py_float.
  assert (Hplain : all_chars (fun c => negb (is_float_space c))
                     (String "-" (whole ++ String "." fraction)) = true).
  { cbn [all_chars]. rewrite all_chars_app. cbn [all_chars].
    rewrite (all_chars_weaken is_digit _ whole), (all_chars_weaken is_digit _ fraction);
      try assumption; try reflexivity;
      intros c Hc; rewrite (digit_not_float_space c Hc); reflexivity. }
  rewrite (lstrip_float_plain _ Hplain), (rstrip_float_plain _ Hplain).
  cbn [sign_of Ascii.eqb Bool.eqb].
  destruct whole as [|c whole]; [congruence|].
  pose proof Hdw as Hdw'. cbn [all_chars] in Hdw'.
  apply andb_true_iff in Hdw'. destruct Hdw' as [Hc _].
  cbn [String.append].
  destruct (digit_not_name c (whole ++ String "." fraction) Hc) as (-> & -> & ->).
  cbn [orb]. unfold floatnumber, number.
  change (String c (whole ++ String "." fraction))
    with (String c whole ++ String "." fraction)%string.
  rewrite (digitpart_digits (String c whole) (String "." fraction) Hw Hdw);
    [|split; reflexivity].
  cbn [Ascii.eqb Bool.eqb].
  rewrite <- (append_empty_r fraction) at 1.
  rewrite (digitpart_digits fraction "" Hf Hdf I).
  cbn [exponent is_empty]. reflexivity.
Qed.

Lemma cents_value (x : Q) :
  decimal_value (decimal (cents x / 100)) (two_digits (cents x mod 100))
  == inject_Z (Z.of_N (cents x)) / 100.
Proof.
  unfold decimal_value.
  assert (Hlt : (cents x mod 100 < 100)%N) by (apply N.mod_lt; discriminate).
  rewrite (two_digits_length _ Hlt).
  unfold digits_value. rewrite digits_from_app, digits_from_shift.
  fold (digits_value (decimal (cents x / 100))).
  rewrite digits_value_decimal, two_digits_value, (two_digits_length _ Hlt).
  change (10 ^ N.of_nat 2)%N with 100%N.
  replace (cents x / 100 * 100 + cents x mod 100)%N with (cents x)
    by (rewrite (N.div_mod (cents x) 100) at 1; [lia|discriminate]).
  reflexivity.
Qed.

(** The amount written and read again is the amount rounded to the
    hundredth. *)
Lemma py_float_format_fixed2 (x : Q) :
  exists v, py_float (format_fixed2 x) = Ok (Finite v) /\ v == rounded x.
Proof.
  rewrite format_fixed2_unfold. cbv zeta. unfold rounded.
  destruct (Qlt_bool x 0).
  - rewrite py_float_minus_point;
      [|apply decimal_nonempty|apply two_digits_nonempty
       |apply decimal_digits|apply two_digits_digits].
    eexists. split; [reflexivity|]. rewrite cents_value. reflexivity.
  - rewrite py_float_point;
      [|apply decimal_nonempty|apply two_digits_nonempty
       |apply decimal_digits|apply two_digits_digits].
    eexists. split; [reflexivity|]. apply cents_value.
Qed.

Lemma round_half_even_close (a d : N) :
  (0 < d)%N ->
  (2 * (round_half_even a d * d) <= 2 * a + d
   /\ 2 * a <= 2 * (round_half_even a d * d) + d)%N.
Proof.
  intros Hd. unfold round_half_even. cbv zeta.
  pose proof (N.div_mod a d ltac:(lia)) as Hdm.
  pose proof (N.mod_lt a d ltac:(lia)) as Hr.
  set (q := (a / d)%N) in *. set (r := (a mod d)%N) in *.
  clearbody q r. subst a.
  assert (Hc : (q * d = d * q)%N) by apply N.mul_comm.
  assert (Hs : ((q + 1) * d = d * q + d)%N)
    by (rewrite N.mul_add_distr_r, N.mul_1_l, Hc; reflexivity).
  destruct (2 * r ?= d)%N eqn:E; [destruct (N.even q)| |];
    rewrite ?Hs, ?Hc; clear Hs Hc; generalize (d * q)%N; intros p;
    rewrite ?N.compare_eq_iff, ?N.compare_lt_iff, ?N.compare_gt_iff in E; lia.
Qed.

Lemma rounded_close (x : Q) : Qabs (rounded x - x) <= 1 # 200.
Proof.
  unfold rounded, cents.
  destruct x as [n d]. cbn [Qnum Qden].
  pose proof (round_half_even_close (Z.abs_N n * 100) (Npos d) ltac:(lia))
    as [H1 H2].
  set (h := round_half_even (Z.abs_N n * 100) (N.pos d)) in *.
  assert (Hsign : Qlt_bool (n # d) 0 = true <-> (n < 0)%Z).
  { rewrite Qlt_bool_true. unfold Qlt. cbn. lia. }
  apply Qabs_Qle_condition.
  destruct (Qlt_bool (n # d) 0) eqn:E.
  - assert (Hn : (n < 0)%Z) by (apply Hsign; reflexivity).
    unfold Qle, Qminus, Qplus, Qopp, Qdiv, Qmult, Qinv, inject_Z. cbn.
    split; nia.
  - assert (Hn : (0 <= n)%Z).
    { destruct (Z.lt_ge_cases n 0) as [Hlt|Hge]; [|exact Hge].
      apply Hsign in Hlt. discriminate. }
    unfold Qle, Qminus, Qplus, Qopp, Qdiv, Qmult, Qinv, inject_Z. cbn.
    split; nia.
Qed.

End AmountFacts.

(** ** Thousands separators *)

Section CommaFacts.
Import Str Py Float EbayGetters.
Local Open Scope Q_scope.

Lemma float_space_not_comma (c : ascii) :
  is_float_space c = true -> Ascii.eqb c "," = false.
Proof. destruct c as [[] [] [] [] [] [] [] []]; vm_compute; auto; discriminate. Qed.

Lemma lower_char_comma (c : ascii) : Ascii.eqb (lower_char c) "," = Ascii.eqb c ",".
Proof. destruct c as [[] [] [] [] [] [] [] []]; reflexivity. Qed.

Lemma has_comma_lstrip (s : string) :
  has_char "," (lstrip_float s) = has_char "," s.
Proof.
  induction s as [|c s IH]; [reflexivity|]. cbn [lstrip_float].
  destruct (is_float_space c) eqn:E; [|reflexivity].
  cbn [has_char]. rewrite (float_space_not_comma c E). exact IH.
Qed.

Lemma has_comma_rstrip (s : string) :
  has_char "," (rstrip_float s) = has_char "," s.
Proof.
  induction s as [|c s IH]; [reflexivity|]. cbn [rstrip_float has_char].
  destruct (is_float_space c) eqn:E; cbn [andb].
  - rewrite (float_space_not_comma c E). cbn [orb]. rewrite <- IH.
    destruct (rstrip_float s) as [|a r]; cbn [is_empty]; [reflexivity|].
    cbn [has_char]. rewrite (float_space_not_comma c E). reflexivity.
  - cbn [has_char]. rewrite IH. reflexivity.
Qed.

Lemma has_comma_lower (s : string) : has_char "," (lower s) = has_char "," s.
Proof.
  induction s as [|c s IH]; [reflexivity|].
  cbn [lower has_char]. rewrite lower_char_comma, IH. reflexivity.
Qed.

Lemma has_comma_sign (s : string) :
  has_char "," (snd (sign_of s)) = has_char "," s.
Proof.
  destruct s as [|c s]; [reflexivity|]. cbn [sign_of].
  destruct (Ascii.eqb c "-") eqn:E1.
  { apply Ascii.eqb_eq in E1. subst c. reflexivity. }
  destruct (Ascii.eqb c "+") eqn:E2.
  { apply Ascii.eqb_eq in E2. subst c. reflexivity. }
  reflexivity.
Qed.

Lemma has_comma_digitpart_tail (n : nat) : forall s,
  (String.length s <= n)%nat ->
  has_char "," (snd (digitpart_tail s)) = has_char "," s.
Proof.
  induction n as [|n IH]; intros s Hlen.
  - destruct s; [reflexivity|cbn in Hlen; lia].
  - destruct s as [|c s]; [reflexivity|]. cbn [String.length] in Hlen.
    cbn [digitpart_tail]. destruct (is_digit c) eqn:Ec.
    + specialize (IH s ltac:(lia)). destruct (digitpart_tail s) as [d r].
      cbn [snd has_char] in *. rewrite (digit_not_comma c Ec). exact IH.
    + destruct (Ascii.eqb c "_") eqn:Eu; [|reflexivity].
      apply Ascii.eqb_eq in Eu. subst c.
      destruct s as [|c' s']; [reflexivity|].
      destruct (is_digit c') eqn:Ec'; [|reflexivity].
      cbn [String.length] in Hlen.
      specialize (IH s' ltac:(lia)). destruct (digitpart_tail s') as [d r].
      cbn [snd has_char] in *. rewrite (digit_not_comma c' Ec'). exact IH.
Qed.

Lemma has_comma_digitpart (s d r : string) :
  digitpart s = Some (d, r) -> has_char "," r = has_char "," s.
Proof.
  unfold digitpart. destruct s as [|c s]; [discriminate|].
  destruct (is_digit c) eqn:Ec; [|discriminate].
  pose proof (has_comma_digitpart_tail (String.length s) s (le_n _)) as H.
  destruct (digitpart_tail s) as [d' r']. cbn [snd] in H.
  intros E. injection E as _ <-. cbn [has_char].
  rewrite (digit_not_comma c Ec). exact H.
Qed.

Lemma has_comma_exponent (s : string) :
  has_char "," (snd (exponent s)) = has_char "," s.
Proof.
  unfold exponent. destruct s as [|c s]; [reflexivity|].
  destruct (Ascii.eqb c "e" || Ascii.eqb c "E") eqn:Ee; [|reflexivity].
  pose proof (has_comma_sign s) as Hs.
  destruct (sign_of s) as [negative s'']. cbn [snd] in Hs.
  destruct (digitpart s'') as [[d r]|] eqn:Ed; [|reflexivity].
  cbn [snd has_char]. rewrite (has_comma_digitpart _ _ _ Ed), Hs.
  apply orb_true_iff in Ee.
  destruct Ee as [E|E]; apply Ascii.eqb_eq in E; subst c; reflexivity.
Qed.

Lemma has_comma_number (s whole fraction rest : string) :
  number s = Some (whole, fraction, rest) -> has_char "," rest = has_char "," s.
Proof.
  unfold number. destruct (digitpart s) as [[w r]|] eqn:Ed.
  - pose proof (has_comma_digitpart _ _ _ Ed) as Hr.
    destruct r as [|c r'].
    + intros E. injection E as _ _ <-. exact Hr.
    + destruct (Ascii.eqb c ".") eqn:Ep.
      * apply Ascii.eqb_eq in Ep. subst c.
        destruct (digitpart r') as [[f r'']|] eqn:Ef.
        -- intros E. injection E as _ _ <-.
           rewrite (has_comma_digitpart _ _ _ Ef), <- Hr. reflexivity.
        -- intros E. injection E as _ _ <-. rewrite <- Hr. reflexivity.
      * intros E. injection E as _ _ <-. exact Hr.
  - destruct s as [|c r']; [discriminate|].
    destruct (Ascii.eqb c ".") eqn:Ep; [|discriminate].
    apply Ascii.eqb_eq in Ep. subst c.
    destruct (digitpart r') as [[f r'']|] eqn:Ef; [|discriminate].
    intros E. injection E as _ _ <-.
    rewrite (has_comma_digitpart _ _ _ Ef). reflexivity.
Qed.

Lemma floatnumber_no_comma (s : string) (x : Q) :
  floatnumber s = Some x -> has_char "," s = false.
Proof.
  unfold floatnumber.
  destruct (number s) as [[[w f] r]|] eqn:En; [|discriminate].
  pose proof (has_comma_exponent r) as He.
  destruct (exponent r) as [e r']. cbn [snd] in He.
  destruct r' as [|c r'']; [|discriminate]. intros _.
  rewrite <- (has_comma_number _ _ _ _ En), <- He. reflexivity.
Qed.

(** [float] raises [ValueError] on a string that holds a comma. *)
Lemma py_float_comma (s : string) :
  has_char "," s = true -> py_float s = Raise ValueError.
Proof.
  intros Hs. unfold py_float.
  rewrite <- has_comma_lstrip, <- has_comma_rstrip, <- has_comma_sign in Hs.
  destruct (sign_of (rstrip_float (lstrip_float s))) as [negative body].
  cbn [snd] in Hs.
  destruct (String.eqb (lower body) "inf" || String.eqb (lower body) "infinity")
    eqn:E1.
  { exfalso. rewrite <- has_comma_lower in Hs. apply orb_true_iff in E1.
    destruct E1 as [E|E]; apply String.eqb_eq in E; rewrite E in Hs;
      discriminate Hs. }
  destruct (String.eqb (lower body) "nan") eqn:E2.
  { exfalso. rewrite <- has_comma_lower in Hs.
    apply String.eqb_eq in E2. rewrite E2 in Hs. discriminate Hs. }
  destruct (floatnumber body) as [x|] eqn:E3; [|reflexivity].
  rewrite (floatnumber_no_comma _ _ E3) in Hs. discriminate Hs.
Qed.

Lemma remove_commas_none (s : string) :
  has_char "," s = false -> remove_commas s = s.
Proof.
  unfold remove_commas. induction s as [|c s IH]; [reflexivity|].
  cbn [has_char delete_chars]. intros H. apply orb_false_iff in H.
  destruct H as [-> Hs]. rewrite (IH Hs). reflexivity.
Qed.

Lemma has_comma_digits (d : string) :
  all_chars is_digit d = true -> has_char "," d = false.
Proof.
  induction d as [|c d IH]; [reflexivity|]. cbn [all_chars has_char].
  rewrite andb_true_iff. intros [Hc Hd].
  rewrite (digit_not_comma c Hc), (IH Hd). reflexivity.
Qed.

Lemma has_comma_group (d : string) :
  has_char "," d = false ->
  has_char "," (group_thousands d) = (3 <? String.length d)%nat.
Proof.
  induction d as [|c d IH]; [reflexivity|]. cbn [has_char]. intros H.
  apply orb_false_iff in H. destruct H as [Hc Hd].
  cbn [group_thousands String.length].
  destruct (negb (is_empty d) && (String.length d mod 3 =? 0)%nat) eqn:E.
  - cbn [has_char Ascii.eqb Bool.eqb]. rewrite orb_true_r.
    apply andb_true_iff in E. destruct E as [E1 E2].
    apply Nat.eqb_eq in E2. symmetry. apply Nat.ltb_lt.
    destruct d as [|x [|y [|z d]]]; try discriminate; cbn [String.length]; lia.
  - cbn [has_char]. rewrite Hc, (IH Hd). cbn [orb].
    destruct (3 <? String.length d)%nat eqn:L.
    + apply Nat.ltb_lt in L. symmetry. apply Nat.ltb_lt. lia.
    + apply Nat.ltb_ge in L. symmetry. apply Nat.ltb_ge.
      destruct d as [|x [|y [|z [|t d]]]]; cbn [String.length] in *; try lia.
      discriminate E.
Qed.

Lemma digit_value_bound (c : ascii) : is_digit c = true -> (digit_value c <= 9)%N.
Proof.
  destruct c as [[] [] [] [] [] [] [] []]; vm_compute; try discriminate;
    intros _ H; discriminate H.
Qed.

Lemma digits_from_bound (d : string) : forall acc,
  all_chars is_digit d = true ->
  (digits_from acc d < (acc + 1) * 10 ^ N.of_nat (String.length d))%N.
Proof.
  induction d as [|c d IH]; intros acc Hd.
  - cbn. lia.
  - cbn [all_chars] in Hd. apply andb_true_iff in Hd. destruct Hd as [Hc Hd].
    cbn [digits_from String.length].
    specialize (IH (10 * acc + digit_value c)%N Hd).
    pose proof (digit_value_bound c Hc) as Hv.
    rewrite Nat2N.inj_succ, N.pow_succ_r'.
    set (P := (10 ^ N.of_nat (String.length d))%N) in *.
    assert (HP : (0 < P)%N) by (apply N.neq_0_lt_0, N.pow_nonzero; discriminate).
    nia.
Qed.

Lemma decimal_length (n : N) :
  (3 <? String.length (decimal n))%nat = (1000 <=? n)%N.
Proof.
  destruct (1000 <=? n)%N eqn:E.
  - apply N.leb_le in E. apply Nat.ltb_lt.
    destruct (Nat.lt_ge_cases 3 (String.length (decimal n))) as [H|H]; [exact H|].
    exfalso.
    pose proof (digits_from_bound (decimal n) 0 (decimal_digits n)) as Hb.
    fold (digits_value (decimal n)) in Hb. rewrite digits_value_decimal in Hb.
    assert (Hp : (10 ^ N.of_nat (String.length (decimal n)) <= 10 ^ 3)%N)
      by (apply N.pow_le_mono_r; [discriminate|lia]).
    change (10 ^ 3)%N with 1000%N in Hp. lia.
  - apply N.leb_gt in E. apply Nat.ltb_ge.
    assert (Hall : forallb (fun k => String.length (decimal (N.of_nat k)) <=? 3)%nat
                     (seq 0 1000) = true) by (vm_compute; reflexivity).
    rewrite forallb_forall in Hall.
    specialize (Hall (N.to_nat n)). rewrite N2Nat.id in Hall.
    apply Nat.leb_le, Hall, in_seq. lia.
Qed.

Lemma has_comma_format_money (x : Q) :
  has_char "," (format_money x) = (100000 <=? cents x)%N.
Proof.
  rewrite format_money_unfold. cbv zeta.
  assert (H : has_char ","
                (group_thousands (decimal (cents x / 100))
                 ++ String "." (two_digits (cents x mod 100)))
              = (100000 <=? cents x)%N).
  { rewrite has_char_app. cbn [has_char Ascii.eqb Bool.eqb].
    rewrite (has_comma_digits _ (two_digits_digits _)).
    rewrite (has_comma_group _ (has_comma_digits _ (decimal_digits _))).
    rewrite decimal_length. cbn [orb]. rewrite orb_false_r.
    destruct (100000 <=? cents x)%N eqn:E.
    - apply N.leb_le in E. apply N.leb_le.
      apply (N.Div0.div_le_mono _ _ 100) in E. exact E.
    - apply N.leb_gt in E. apply N.leb_gt.
      apply N.Div0.div_lt_upper_bound. exact E. }
  destruct (Qlt_bool x 0); [|exact H].
  cbn [has_char Ascii.eqb Bool.eqb orb]. exact H.
Qed.

Lemma thousand_in_thousands (x : Q) : 1000 <= x -> in_thousands x.
Proof.
  unfold in_thousands, cents. destruct x as [n d]. cbn [Qnum Qden].
  unfold Qle. cbn. intros H.
  pose proof (round_half_even_close (Z.abs_N n * 100) (Npos d) ltac:(lia))
    as [_ H2].
  set (h := round_half_even (Z.abs_N n * 100) (N.pos d)) in *. clearbody h.
  nia.
Qed.

End CommaFacts.

(** ** The view, from the candidates to the total *)

Section ViewFacts.
Import Str Py Float EbayScraper EbayGetters Views IndexPost.
Local Open Scope Q_scope.

Lemma py_float_money (x : Q) :
  exists v, py_float (remove_commas (format_money x)) = Ok (Finite v)
            /\ v == rounded x.
Proof. rewrite remove_commas_format_money. apply py_float_format_fixed2. Qed.

(** X23. Removing the commas from an amount written with [",.2f"] gives
    the amount written with [".2f"], and [float] reads it as the amount
    rounded to the hundredth, at most 0.005 away: reading back the prices
    the search has formatted never raises [ValueError]. *)
Theorem parse_amounts_formatted (xs : list Q) :
  (forall x, remove_commas (format_money x) = format_fixed2 x)
  /\ exists vs,
       parse_amounts (map format_money xs) = Ok vs
       /\ Forall2 (fun x v => exists y, v = Finite y /\ y == rounded x
                                        /\ Qabs (y - x) <= 1 # 200) xs vs.
Proof.
  split; [apply remove_commas_format_money|].
  induction xs as [|x xs (vs & IH & Hall)].
  - exists []. split; [reflexivity|constructor].
  - destruct (py_float_money x) as (y & Hy & Hr).
    exists (Finite y :: vs). cbn [map parse_amounts]. rewrite Hy, IH.
    split; [reflexivity|]. constructor; [|exact Hall].
    exists y. split; [reflexivity|]. split; [exact Hr|].
    rewrite Hr. apply rounded_close.
Qed.

Lemma parse_amounts_money (l : list string) :
  Forall money l ->
  exists vs, parse_amounts l = Ok vs /\ List.length vs = List.length l.
Proof.
  induction 1 as [|s l [x ->] _ (vs & IH & Hlen)].
  - exists []. split; reflexivity.
  - destruct (py_float_money x) as (y & Hy & _).
    exists (Finite y :: vs). cbn [parse_amounts]. rewrite Hy, IH.
    split; [reflexivity|]. cbn [List.length]. rewrite Hlen. reflexivity.
Qed.

Lemma parse_amounts_nth (l : list string) : forall vs i s,
  parse_amounts l = Ok vs -> nth_error l i = Some s ->
  exists v, nth_error vs i = Some v /\ py_float (remove_commas s) = Ok v.
Proof.
  induction l as [|s0 l IH]; intros vs i s Hp Hi; [destruct i; discriminate|].
  cbn [parse_amounts] in Hp.
  destruct (py_float (remove_commas s0)) as [v0| |] eqn:E0; try discriminate.
  destruct (parse_amounts l) as [vs'| |] eqn:E; try discriminate.
  injection Hp as <-. destruct i as [|i].
  - cbn in Hi. injection Hi as <-. exists v0. split; [reflexivity|exact E0].
  - cbn in Hi. apply (IH vs' i s eq_refl Hi).
Qed.

Lemma In_dict_set {V} (k : string) (v : V) (d : dict V) (e : string * V) :
  In e (dict_set k v d) -> e = (k, v) \/ In e d.
Proof.
  induction d as [|[k0 v0] d IH]; cbn [dict_set In].
  - intros [<-|[]]. left. reflexivity.
  - destruct (String.eqb k0 k) eqn:E; cbn [In].
    + apply String.eqb_eq in E. subst k0. intros [<-|H]; auto.
    + intros [<-|H]; auto. destruct (IH H); auto.
Qed.

Lemma zip_candidates_In (ds : list string) :
  forall ps ss cs ks sims acc e,
    In e (zip_candidates ds ps ss cs ks sims acc) ->
    In e acc \/ In e (rows ds ps ss cs ks sims).
Proof.
  induction ds as [|d ds IH]; intros ps ss cs ks sims acc e; [auto|].
  destruct ps as [|p ps], ss as [|s ss], cs as [|c cs], ks as [|c' ks],
    sims as [|sim sims]; auto.
  cbn [zip_candidates rows In]. intros H.
  destruct (IH _ _ _ _ _ _ _ H) as [Hacc|Hrows]; [|auto].
  destruct (In_dict_set _ _ _ _ Hacc) as [->|Hin]; auto.
Qed.

Lemma rows_country (ds : list string) :
  forall ps ss cs ks sims k v,
    In (k, v) (rows ds ps ss cs ks sims) -> In (d_country v) cs.
Proof.
  induction ds as [|d ds IH]; intros ps ss cs ks sims k v; [intros []|].
  destruct ps as [|p ps], ss as [|s ss], cs as [|c cs], ks as [|c' ks],
    sims as [|sim sims]; try (cbn [rows In]; intros H; contradiction H).
  cbn [rows In]. intros [H|H].
  - injection H as _ <-. left. reflexivity.
  - right. apply (IH _ _ _ _ _ _ _ H).
Qed.

Lemma index_In (x : string) (l : list string) :
  In x l -> exists i, index x l = Some i /\ (i < List.length l)%nat.
Proof.
  induction l as [|y l IH]; [intros []|]. cbn [index List.length].
  destruct (String.eqb y x) eqn:E.
  - intros _. exists 0%nat. split; [reflexivity|lia].
  - intros [H|H]; [subst y; rewrite String.eqb_refl in E; discriminate|].
    destruct (IH H) as [i [-> Hi]]. exists (S i). split; [reflexivity|lia].
Qed.

Lemma in_thousands_dec (x : Q) :
  (in_thousands x <-> (100000 <=? cents x)%N = true).
Proof. unfold in_thousands. symmetry. apply N.leb_le. Qed.

(** [float] of an amount written with [",.2f"]: [ValueError] when it has
    a thousands separator. *)
Lemma float_of_money (p : Q) :
  (in_thousands p -> float_of (PyStr (format_money p)) = Raise ValueError)
  /\ (~ in_thousands p ->
      exists v, float_of (PyStr (format_money p)) = Ok (Finite v)
                /\ v == rounded p).
Proof.
  cbn [float_of]. split.
  - intros H. apply py_float_comma. rewrite has_comma_format_money.
    apply in_thousands_dec. exact H.
  - intros H.
    rewrite <- (remove_commas_none (format_money p)).
    + apply py_float_money.
    + rewrite has_comma_format_money.
      destruct (100000 <=? cents p)%N eqn:E; [|reflexivity].
      exfalso. apply H, in_thousands_dec. exact E.
Qed.

(** The selector on the candidates of a search. *)
Lemma search_best (f : found) :
  parallel f -> descriptions f <> [] ->
  exists candidates name details p q,
    post_candidates f = Ok candidates
    /\ lowest_price_highest_similarity candidates = Ok (name, details)
    /\ In (name, details) candidates
    /\ d_price details = PyStr (format_money p)
    /\ d_shipping details = PyStr (format_money q).
Proof.
  intros Hpar Hne.
  destruct (post_candidates_formatted f Hpar Hne) as [cands [Hc [Hcne Hfmt]]].
  assert (Hstr : forall e, In e cands -> is_str (d_price (snd e))).
  { intros e He. destruct (Hfmt e He) as [p [_ [Hp _]]]. eexists. exact Hp. }
  destruct (selection_is_min_of_most_similar is_str strs_comparable cands Hcne Hstr)
    as [first [others [Hsel Htied]]].
  destruct (min_by_price_strings others first) as [best [s [Hbest [Hbin _]]]].
  { intros e He. apply Hstr. apply Htied. exact He. }
  apply Htied in Hbin. destruct Hbin as [Hbin _].
  destruct best as [name details].
  destruct (Hfmt _ Hbin) as [p [q [Hp Hq]]]. cbn [snd] in Hp, Hq.
  exists cands, name, details, p, q.
  rewrite Hsel. repeat split; assumption.
Qed.

(** X24. The view reads the price and the shipping cost of the best
    product with [float] from the strings the search formatted, commas
    included.  For every search that returns, the view ends with an
    uncaught [ValueError] when the price or the shipping cost of the best
    product rounds to 1,000.00 or more; otherwise it reaches the total,
    which is the sum of the two amounts rounded to the hundredth, and the
    price it displays is the one listed first for the country of the best
    product.  An amount of 1000 or more is one with a thousands
    separator. *)
Theorem post_best_thousands :
  (forall x, 1000 <= x -> in_thousands x)
  /\ forall fuel w title ramp_down f,
       result (find_viable_product fuel w title ramp_down) = Ok f ->
       exists candidates name details p q,
         post_candidates f = Ok candidates
         /\ lowest_price_highest_similarity candidates = Ok (name, details)
         /\ d_price details = PyStr (format_money p)
         /\ d_shipping details = PyStr (format_money q)
         /\ (in_thousands p \/ in_thousands q ->
             post_best f = Uncaught ValueError)
         /\ (~ in_thousands p -> ~ in_thousands q ->
             exists b x y i s v,
               post_best f = Best b
               /\ best_description b = name
               /\ best_total b = Finite (x + y)
               /\ x == rounded p /\ y == rounded q
               /\ index (d_country details) (countries f) = Some i
               /\ nth_error (prices f) i = Some s
               /\ py_float (remove_commas s) = Ok v
               /\ best_price_display b = format_float v).
Proof.
  split; [apply thousand_in_thousands|].
  intros fuel w title ramp_down f Hf.
  destruct (find_viable_product_parallel fuel w title ramp_down f Hf)
    as [Hpar Hne].
  destruct (search_best f Hpar Hne)
    as (cands & name & details & p & q & Hc & Hbest & Hin & Hp & Hq).
  exists cands, name, details, p, q.
  split; [exact Hc|]. split; [exact Hbest|]. split; [exact Hp|].
  split; [exact Hq|].
  pose proof Hpar as (L1 & L2 & L3 & L4 & L5 & M1 & M2).
  destruct (parse_amounts_money _ M1) as (vs1 & P1 & N1).
  destruct (parse_amounts_money _ M2) as (vs2 & P2 & N2).
  destruct (float_of_money p) as [Fp1 Fp2].
  destruct (float_of_money q) as [Fq1 Fq2].
  assert (Hdec : forall x, in_thousands x \/ ~ in_thousands x).
  { intros x. destruct (100000 <=? cents x)%N eqn:E.
    - left. apply in_thousands_dec. exact E.
    - right. intros H. apply in_thousands_dec in H. congruence. }
  split.
  - intros Hcomma. unfold post_best. rewrite Hc, P1, P2, Hbest, Hp, Hq.
    destruct (Hdec p) as [Tp|Tp].
    + rewrite (Fp1 Tp). reflexivity.
    + destruct (Fp2 Tp) as (x & -> & _).
      destruct Hcomma as [Tq|Tq]; [contradiction|].
      rewrite (Fq1 Tq). reflexivity.
  - intros Tp Tq.
    destruct (Fp2 Tp) as (x & Hx & Rx). destruct (Fq2 Tq) as (y & Hy & Ry).
    assert (Hcountry : In (d_country details) (countries f)).
    { unfold post_candidates, construct_candidates in Hc.
      destruct (_ && _) in Hc; [|discriminate]. injection Hc as <-.
      apply zip_candidates_In in Hin. destruct Hin as [[]|Hin].
      apply (rows_country _ _ _ _ _ _ _ _ Hin). }
    destruct (index_In _ _ Hcountry) as (i & Hi & Hlt).
    assert (Hs : exists s, nth_error (prices f) i = Some s).
    { destruct (nth_error (prices f) i) as [s|] eqn:E; [eauto|].
      apply nth_error_None in E. lia. }
    destruct Hs as [s Hs].
    assert (Ht : exists t, nth_error (shippings f) i = Some t).
    { destruct (nth_error (shippings f) i) as [t|] eqn:E; [eauto|].
      apply nth_error_None in E. lia. }
    destruct Ht as [t Ht].
    destruct (parse_amounts_nth _ _ _ _ P1 Hs) as (v & Hv & Hparse).
    destruct (parse_amounts_nth _ _ _ _ P2 Ht) as (v' & Hv' & _).
    eexists _, x, y, i, s, v.
    unfold post_best. rewrite Hc, P1, P2, Hbest, Hp, Hq, Hx, Hy, Hi, Hv, Hv'.
    cbn [best_description best_total best_price_display float_add].
    repeat split; assumption.
Qed.

Lemma post_best_thousands_witness :
  exists candidates name details p q,
    post_candidates camera_found = Ok candidates
    /\ lowest_price_highest_similarity candidates = Ok (name, details)
    /\ d_price details = PyStr (format_money p)
    /\ d_shipping details = PyStr (format_money q)
    /\ (in_thousands p \/ in_thousands q ->
        post_best camera_found = Uncaught ValueError)
    /\ (~ in_thousands p -> ~ in_thousands q ->
        exists b x y i s v,
          post_best camera_found = Best b
          /\ best_description b = name
          /\ best_total b = Finite (x + y)
          /\ x == rounded p /\ y == rounded q
          /\ index (d_country details) (countries camera_found) = Some i
          /\ nth_error (prices camera_found) i = Some s
          /\ py_float (remove_commas s) = Ok v
          /\ best_price_display b = format_float v).
Proof.
  apply (proj2 post_best_thousands 3%nat camera_web "camera"%string 0 camera_found).
  vm_compute. reflexivity.
Defined.

End ViewFacts.

(** ** How many outliers there can be *)

Section HalfKept.
Import Str Py Utils EbayScraper.
Local Open Scope Q_scope.

Lemma insert_sorted_count (f : Q -> bool) (x : Q) (l : list Q) :
  List.length (filter f (insert_sorted x l)) = List.length (filter f (x :: l)).
Proof.
  induction l as [|y l IH]; [reflexivity|].
  cbn [insert_sorted]. destruct (Qle_bool x y); [reflexivity|].
  cbn [filter] in *. destruct (f y), (f x); cbn [List.length] in *; lia.
Qed.

Lemma np_sort_count (f : Q -> bool) (l : list Q) :
  List.length (filter f (np_sort l)) = List.length (filter f l).
Proof.
  induction l as [|x l IH]; [reflexivity|].
  cbn [np_sort fold_right]. fold (np_sort l).
  rewrite insert_sorted_count. cbn [filter].
  destruct (f x); cbn [List.length]; rewrite IH; reflexivity.
Qed.

Lemma insert_sorted_sorted (x : Q) (l : list Q) :
  StronglySorted Qle l -> StronglySorted Qle (insert_sorted x l).
Proof.
  induction l as [|y l IH]; intros Hs.
  - constructor; constructor.
  - cbn [insert_sorted]. inversion Hs as [|? ? Hs' Hall]; subst.
    destruct (Qle_bool x y) eqn:E.
    + apply Qle_bool_iff in E. constructor; [exact Hs|].
      constructor; [exact E|].
      apply Forall_forall. intros z Hz. rewrite Forall_forall in Hall.
      specialize (Hall z Hz). Lqa.lra.
    + constructor; [apply IH; exact Hs'|].
      apply Forall_forall. intros z Hz. apply insert_sorted_In in Hz.
      destruct Hz as [->|Hz].
      * destruct (Qle_bool x y) eqn:E'; [discriminate|].
        assert (Hlt : ~ x <= y) by (intros H; apply Qle_bool_iff in H; congruence).
        Lqa.lra.
      * rewrite Forall_forall in Hall. apply Hall. exact Hz.
Qed.

Lemma np_sort_sorted (l : list Q) : StronglySorted Qle (np_sort l).
Proof.
  induction l as [|x l IH]; [constructor|].
  cbn [np_sort fold_right]. apply insert_sorted_sorted. exact IH.
Qed.

Lemma filter_length_le {A} (f : A -> bool) (l : list A) :
  (List.length (filter f l) <= List.length l)%nat.
Proof.
  induction l as [|x l IH]; [apply le_n|].
  cbn [filter]. destruct (f x); cbn [List.length]; lia.
Qed.

Lemma filter_length_mono {A} (f g : A -> bool) (l : list A) :
  (forall x, In x l -> f x = true -> g x = true) ->
  (List.length (filter f l) <= List.length (filter g l))%nat.
Proof.
  induction l as [|x l IH]; intros H; [apply le_n|].
  assert (IH' := IH (fun y Hy => H y (or_intror Hy))).
  cbn [filter]. destruct (f x) eqn:E.
  - rewrite (H x (or_introl eq_refl) E). cbn [List.length]. lia.
  - destruct (g x); cbn [List.length]; lia.
Qed.

(** In a sorted list at most [length - 1 - k] elements are greater than
    the one at index [k]. *)
Lemma sorted_count_above (s : list Q) :
  StronglySorted Qle s ->
  forall k, (k < List.length s)%nat ->
  (List.length (filter (Qlt_bool (nth k s 0%Q)) s) <= List.length s - 1 - k)%nat.
Proof.
  induction 1 as [|a s Hs IH Hall]; intros k Hk; [cbn in Hk; lia|].
  cbn [List.length] in Hk. destruct k as [|k].
  - cbn [nth filter].
    assert (E : Qlt_bool a a = false) by (apply Qlt_bool_false; Lqa.lra).
    rewrite E. pose proof (filter_length_le (Qlt_bool a) s).
    cbn [List.length]. lia.
  - cbn [nth filter].
    assert (Hin : In (nth k s 0) s) by (apply nth_In; lia).
    rewrite Forall_forall in Hall.
    assert (E : Qlt_bool (nth k s 0) a = false)
      by (apply Qlt_bool_false, Hall, Hin).
    rewrite E. specialize (IH k ltac:(lia)). cbn [List.length]. lia.
Qed.

Lemma sorted_nth_le (s : list Q) :
  StronglySorted Qle s ->
  forall i j, (i <= j)%nat -> (j < List.length s)%nat ->
  nth i s 0 <= nth j s 0.
Proof.
  induction 1 as [|a s Hs IH Hall]; intros i j Hij Hj; [cbn in Hj; lia|].
  cbn [List.length] in Hj. destruct i as [|i], j as [|j]; try lia.
  - Lqa.lra.
  - cbn [nth]. rewrite Forall_forall in Hall. apply Hall, nth_In. lia.
  - cbn [nth]. apply IH; lia.
Qed.

(** At most half of the values are greater than the median. *)
Lemma median_count_above (l : list Q) :
  l <> [] ->
  (List.length (filter (Qlt_bool (np_median l)) l) <= List.length l / 2)%nat.
Proof.
  intros Hne. unfold np_median. cbv zeta.
  pose proof (np_sort_sorted l) as Hs.
  pose proof (np_sort_length l) as Hlen.
  assert (Hn : (0 < List.length l)%nat)
    by (destruct l; [congruence|cbn; lia]).
  set (n := List.length l) in *. set (s := np_sort l) in *.
  destruct (Nat.even n) eqn:E.
  - apply Nat.even_spec in E. destruct E as [q Hq].
    assert (Hdiv : (n / 2 = q)%nat)
      by (rewrite Hq, Nat.mul_comm; apply Nat.div_mul; discriminate).
    rewrite Hdiv.
    assert (Hle : nth (q - 1) s 0 <= nth q s 0)
      by (apply sorted_nth_le; [exact Hs|lia|lia]).
    rewrite <- (np_sort_count _ l). fold s.
    apply Nat.le_trans
      with (List.length (filter (Qlt_bool (nth (q - 1) s 0)) s)).
    + apply filter_length_mono. intros x _ Hx.
      apply Qlt_bool_true in Hx. apply Qlt_bool_true.
      assert (Hm : nth (q - 1) s 0 <= (nth (q - 1) s 0 + nth q s 0) / 2).
      { apply Qle_shift_div_l; [reflexivity|]. Lqa.lra. }
      Lqa.lra.
    + pose proof (sorted_count_above s Hs (q - 1)%nat ltac:(lia)). lia.
  - assert (Hodd : Nat.odd n = true)
      by (rewrite <- Nat.negb_even, E; reflexivity).
    apply Nat.odd_spec in Hodd. destruct Hodd as [q Hq].
    assert (Hdiv : (n / 2 = q)%nat).
    { rewrite Hq. rewrite Nat.add_comm, Nat.mul_comm.
      rewrite Nat.div_add by discriminate. reflexivity. }
    rewrite Hdiv, <- (np_sort_count _ l). fold s.
    pose proof (sorted_count_above s Hs q ltac:(lia)). lia.
Qed.

Lemma median_nonneg (l : list Q) :
  (forall x, In x l -> 0 <= x) -> 0 <= np_median l.
Proof.
  intros H. unfold np_median. cbv zeta.
  assert (Hnth : forall k, 0 <= nth k (np_sort l) 0).
  { intros k. destruct (nth_in_or_default k (np_sort l) 0) as [Hin| ->].
    - apply H, np_sort_In, Hin.
    - Lqa.lra. }
  destruct (Nat.even (List.length l)); [|apply Hnth].
  apply Qle_shift_div_l; [reflexivity|].
  pose proof (Hnth (List.length l / 2 - 1)%nat).
  pose proof (Hnth (List.length l / 2)%nat). Lqa.lra.
Qed.

Lemma where_from_length (mask : list bool) : forall k,
  List.length (where_from k mask) = List.length (filter (fun b => b) mask).
Proof.
  induction mask as [|b mask IH]; intros k; [reflexivity|].
  cbn [where_from filter]. destruct b; cbn [List.length]; rewrite IH; reflexivity.
Qed.

Lemma filter_map_length {A B} (f : A -> B) (g : B -> bool) (l : list A) :
  List.length (filter g (map f l)) = List.length (filter (fun x => g (f x)) l).
Proof.
  induction l as [|x l IH]; [reflexivity|].
  cbn [map filter]. destruct (g (f x)); cbn [List.length]; rewrite IH; reflexivity.
Qed.

Lemma reject_outliers_half (data : list Q) (m : Q) :
  1 < m -> (List.length (reject_outliers data m) <= List.length data / 2)%nat.
Proof.
  intros Hm. unfold reject_outliers. destruct data as [|x0 data']; [apply le_0_n|].
  set (data := x0 :: data') in *. cbv zeta.
  set (dist := map (fun x => Qabs (x - np_median data)) data).
  set (mdev := np_median dist).
  assert (Hlen : List.length dist = List.length data) by apply length_map.
  assert (Hdist : forall d, In d dist -> 0 <= d).
  { intros d Hd. apply in_map_iff in Hd. destruct Hd as [x [<- _]].
    apply Qabs_nonneg. }
  assert (Hmdev : 0 <= mdev) by (apply median_nonneg; exact Hdist).
  assert (Hhalf : (List.length (filter (Qlt_bool mdev) dist)
                   <= List.length data / 2)%nat).
  { rewrite <- Hlen. apply median_count_above. unfold dist, data. discriminate. }
  assert (Hzero : np_isclose mdev 0 = false -> 0 < mdev).
  { intros Hc. destruct (Qlt_le_dec 0 mdev) as [H|H]; [exact H|].
    assert (H0 : mdev == 0) by Lqa.lra.
    assert (Hclose : np_isclose mdev 0 = true).
    { apply np_isclose_iff. rewrite H0. vm_compute. discriminate. }
    congruence. }
  assert (Hsmall : np_isclose mdev 0 = true -> mdev < 1).
  { intros Hc. apply np_isclose_iff in Hc.
    assert (Ha : Qabs (mdev - 0) == mdev) by (rewrite Qabs_pos; Lqa.lra).
    rewrite Ha in Hc. change (Qabs 0) with 0 in Hc.
    unfold atol, rtol in Hc. Lqa.lra. }
  clearbody mdev. clearbody dist.
  eapply Nat.le_trans; [|exact Hhalf].
  destruct (np_isclose mdev 0) eqn:Hc; unfold np_where;
    rewrite where_from_length, !filter_map_length;
    apply filter_length_mono; intros x _ Hx;
    apply Qle_bool_iff in Hx; apply Qlt_bool_true.
  - specialize (Hsmall eq_refl). Lqa.lra.
  - specialize (Hzero eq_refl).
    assert (Hmul : m * mdev <= x).
    { assert (Hx' : x / mdev * mdev == x) by (field; Lqa.lra).
      rewrite <- Hx'. apply Qmult_le_compat_r; [exact Hx|Lqa.lra]. }
    Lqa.nra.
Qed.


Lemma drop_indices_below {A} (o : nat) (out : list nat) (l : list A) :
  forall k, (o < k)%nat -> drop_indices k (o :: out) l = drop_indices k out l.
Proof.
  induction l as [|x l IH]; intros k Hk; [reflexivity|].
  cbn [drop_indices existsb].
  assert (E : (k =? o)%nat = false) by (apply Nat.eqb_neq; lia).
  rewrite E. cbn [orb]. rewrite (IH (S k)) by lia. reflexivity.
Qed.

Lemma drop_indices_one_more {A} (o : nat) (out : list nat) (l : list A) :
  forall k,
    (List.length (drop_indices k out l)
     <= List.length (drop_indices k (o :: out) l) + 1)%nat.
Proof.
  induction l as [|x l IH]; intros k; [cbn; lia|].
  cbn [drop_indices existsb].
  destruct (k =? o)%nat eqn:E; cbn [orb].
  - apply Nat.eqb_eq in E. subst o.
    rewrite (drop_indices_below k out l (S k)) by lia.
    destruct (existsb (Nat.eqb k) out); cbn [List.length]; lia.
  - specialize (IH (S k)).
    destruct (existsb (Nat.eqb k) out); cbn [List.length]; lia.
Qed.

Lemma drop_indices_nil {A} (l : list A) : forall k, drop_indices k [] l = l.
Proof.
  induction l as [|x l IH]; intros k; [reflexivity|].
  cbn [drop_indices existsb]. rewrite IH. reflexivity.
Qed.

Lemma drop_indices_length {A} (out : list nat) (l : list A) (k : nat) :
  (List.length l <= List.length (drop_indices k out l) + List.length out)%nat.
Proof.
  induction out as [|o out IH].
  - rewrite drop_indices_nil. cbn. lia.
  - pose proof (drop_indices_one_more o out l k). cbn [List.length]. lia.
Qed.

(** X25. For [m > 1], and so for the 1.5 of the scraper, [reject_outliers]
    reports at most half of the values: a value is reported only if its
    deviation is greater than the median of the deviations.  The records
    of a page are therefore never fewer than its rows less half the number
    of its prices. *)
Theorem outliers_at_most_half (data : list Q) (m : Q) (page : soup) :
  (1 < m ->
   (List.length (reject_outliers data m) <= List.length data / 2)%nat)
  /\ (List.length (raw_records page) - List.length (product_price page) / 2
      <= List.length (get_product_info page))%nat.
Proof.
  split; [apply reject_outliers_half|].
  destruct (Nat.lt_ge_cases (List.length (product_title page)) removal_threshold)
    as [Hlt|Hge].
  - rewrite (get_product_info_small page Hlt). lia.
  - rewrite (get_product_info_large page Hge).
    pose proof (drop_indices_length
                  (reject_outliers (product_price page) (15 # 10))
                  (raw_records page) 0) as H1.
    pose proof (reject_outliers_half (product_price page) (15 # 10)
                  ltac:(reflexivity)) as H2.
    lia.
Qed.

Lemma outliers_at_most_half_witness :
  (List.length (reject_outliers [1; 1; 1; 10]%Q (15 # 10)) <= 4 / 2)%nat
  /\ (List.length (raw_records hundred_listings)
      - List.length (product_price hundred_listings) / 2
      <= List.length (get_product_info hundred_listings))%nat.
Proof.
  destruct (outliers_at_most_half [1; 1; 1; 10] (15 # 10) hundred_listings)
    as [H1 H2].
  split; [apply H1; reflexivity|exact H2].
Defined.

End HalfKept.

(** ** The bars of the bar graph *)

Section BargraphFacts.
Import Py Bargraph.

(** The count of a key after the counting of a list. *)
Lemma count_from_get (countries : list string) : forall acc k,
  match dict_get k (count_from acc countries) with
  | Some n => n
  | None => 0%nat
  end
  = (count_occ string_dec countries k
     + match dict_get k acc with Some n => n | None => 0%nat end)%nat.
Proof.
  induction countries as [|c countries IH]; intros acc k; [reflexivity|].
  cbn [count_from count_occ]. rewrite IH.
  destruct (string_dec c k) as [->|Hne].
  - rewrite dict_get_set_eq. destruct (dict_get k acc); lia.
  - rewrite (dict_get_set_ne c k _ acc Hne). reflexivity.
Qed.

Lemma count_from_keys (countries : list string) : forall acc,
  keys (count_from acc countries)
  = (keys acc
     ++ filter (fun x => negb (existsb (String.eqb x) (keys acc)))
          (first_occurrences countries))%list.
Proof.
  induction countries as [|c countries IH]; intros acc;
    [symmetry; apply app_nil_r|].
  cbn [count_from first_occurrences filter].
  rewrite IH, keys_dict_set_list.
  destruct (existsb (String.eqb c) (keys acc)) eqn:E; cbn [negb].
  - rewrite filter_filter_absent by exact E. reflexivity.
  - rewrite <- app_assoc. cbn [app]. rewrite filter_snoc_absent. reflexivity.
Qed.

Lemma dict_set_sum (k : string) (d : dict nat) :
  list_sum (values (dict_set k
                      (match dict_get k d with Some n => S n | None => 1%nat end)
                      d))
  = S (list_sum (values d)).
Proof.
  unfold values. induction d as [|[k0 n0] d IH]; [reflexivity|].
  cbn [dict_set dict_get]. destruct (String.eqb k0 k) eqn:E.
  - cbn [map snd]. change (list_sum (?a :: ?l)) with (a + list_sum l)%nat. lia.
  - cbn [map snd]. change (list_sum (?a :: ?l)) with (a + list_sum l)%nat.
    rewrite IH. lia.
Qed.

Lemma count_from_sum (countries : list string) : forall acc,
  list_sum (values (count_from acc countries))
  = (List.length countries + list_sum (values acc))%nat.
Proof.
  induction countries as [|c countries IH]; intros acc; [reflexivity|].
  cbn [count_from List.length]. rewrite IH, dict_set_sum. lia.
Qed.

Lemma first_occurrences_In (l : list string) (k : string) :
  In k (first_occurrences l) -> In k l.
Proof.
  induction l as [|c l IH]; [intros []|].
  cbn [first_occurrences In]. intros [H|H]; [left; exact H|].
  right. apply IH. apply filter_In in H. apply H.
Qed.

Lemma count_from_nodup (countries : list string) : forall acc,
  NoDup (keys acc) -> NoDup (keys (count_from acc countries)).
Proof.
  induction countries as [|c countries IH]; intros acc H; [exact H|].
  cbn [count_from]. apply IH, NoDup_keys_dict_set, H.
Qed.

Lemma entries_counts (countries : list string) (d : dict nat) :
  NoDup (keys d) ->
  (forall k, match dict_get k d with Some n => n | None => 0%nat end
             = count_occ string_dec countries k) ->
  Forall2 (fun name height => height = count_occ string_dec countries name)
    (keys d) (values d).
Proof.
  intros Hnd Hget.
  assert (Hall : forall k n, In (k, n) d -> n = count_occ string_dec countries k).
  { intros k n Hin. rewrite <- Hget, (In_dict_get k n d Hnd Hin). reflexivity. }
  clear Hnd Hget. unfold keys, values.
  induction d as [|[k n] d IH]; cbn [map fst snd]; constructor.
  - apply Hall. left. reflexivity.
  - apply IH. intros k' n' Hin. apply Hall. right. exact Hin.
Qed.

(** X26. The bar graph of a non-empty sequence of countries has one bar for
    each country, in the order in which the countries first occur; the
    height of a bar is the number of occurrences of its country, at least
    1, and the heights add up to the length of the sequence.  An empty
    sequence gives no bar. *)
Theorem create_bargraph_counts (countries : list string) :
  (countries = [] -> create_bargraph countries = None)
  /\ (countries <> [] ->
      exists b,
        create_bargraph countries = Some b
        /\ x b = first_occurrences countries
        /\ Forall2 (fun name height =>
                      height = count_occ string_dec countries name
                      /\ (1 <= height)%nat)
             (x b) (y b)
        /\ list_sum (y b) = List.length countries
        /\ List.length (hovertext b) = List.length (x b)).
Proof.
  split; [intros ->; reflexivity|]. intros Hne.
  destruct countries as [|c0 cs] eqn:Hc; [congruence|]. rewrite <- Hc in *.
  assert (Hb : create_bargraph countries
               = Some {| x := keys (Counter countries);
                         y := values (Counter countries);
                         hovertext :=
                           map (fun entry : string * nat =>
                                  ("Country: " ++ fst entry ++ "<br>Citations: "
                                   ++ str_nat (snd entry))%string)
                               (combine (keys (Counter countries))
                                  (values (Counter countries))) |})
    by (rewrite Hc; reflexivity).
  eexists. split; [exact Hb|]. cbn [x y hovertext]. unfold Counter.
  assert (Hkeys : keys (count_from [] countries) = first_occurrences countries).
  { rewrite count_from_keys. cbn [keys map app existsb].
    apply filter_all_true. reflexivity. }
  split; [exact Hkeys|]. split; [|split].
  - assert (H : Forall2 (fun name height =>
                           height = count_occ string_dec countries name)
                  (keys (count_from [] countries))
                  (values (count_from [] countries))).
    { apply entries_counts; [apply count_from_nodup; constructor|].
      intros k. rewrite count_from_get. cbn. lia. }
    assert (Hin : forall k, In k (keys (count_from [] countries)) ->
                            In k countries).
    { intros k Hk. rewrite Hkeys in Hk. apply first_occurrences_In, Hk. }
    revert H Hin. generalize (keys (count_from [] countries)).
    generalize (values (count_from [] countries)).
    intros vs ks H. induction H as [|k v ks vs Hkv H IH]; intros Hin;
      constructor.
    + split; [exact Hkv|]. subst v.
      apply (count_occ_In string_dec). apply Hin. left. reflexivity.
    + apply IH. intros k' Hk'. apply Hin. right. exact Hk'.
  - rewrite count_from_sum. cbn. lia.
  - rewrite length_map, length_combine. unfold keys, values.
    rewrite !length_map. apply Nat.min_id.
Qed.

Lemma create_bargraph_counts_witness :
  exists b,
    create_bargraph ["US"; "CA"; "US"]%string = Some b
    /\ x b = first_occurrences ["US"; "CA"; "US"]%string
    /\ Forall2 (fun name height =>
                  height = count_occ string_dec ["US"; "CA"; "US"]%string name
                  /\ (1 <= height)%nat)
         (x b) (y b)
    /\ list_sum (y b) = List.length ["US"; "CA"; "US"]%string
    /\ List.length (hovertext b) = List.length (x b).
Proof.
  apply (proj2 (create_bargraph_counts ["US"; "CA"; "US"]%string)).
  discriminate.
Defined.

End BargraphFacts.

(** ** The metadata of a listing *)

Section MarketplaceFacts.
Import Py Float Marketplace.
Variable py_str : json -> string.

Lemma has_key_get (key : string) (d : dict json) :
  has_key key d = true -> exists v, dict_get key d = Some v.
Proof.
  unfold has_key. destruct (dict_get key d) as [v|]; [eauto|discriminate].
Qed.

(** What a validated content holds. *)
Lemma validated (json_content : dict json) :
  _validate_schema json_content = Ok tt ->
  exists name description item_list offers price currency,
    dict_get "name" json_content = Some name
    /\ dict_get "description" json_content = Some description
    /\ dict_get "itemListElement" json_content = Some (JList item_list)
    /\ (3 <= List.length item_list)%nat
    /\ dict_get "offers" json_content = Some (JObject offers)
    /\ dict_get "price" offers = Some price
    /\ dict_get "priceCurrency" offers = Some currency.
Proof.
  unfold _validate_schema, required_keys. cbn [filter].
  destruct (has_key "offers" json_content) eqn:H1; [|discriminate].
  destruct (has_key "name" json_content) eqn:H2; [|discriminate].
  destruct (has_key "description" json_content) eqn:H3; [|discriminate].
  destruct (has_key "itemListElement" json_content) eqn:H4; [|discriminate].
  cbn [negb].
  destruct (has_key_get _ _ H2) as [name Hn].
  destruct (has_key_get _ _ H3) as [description Hd].
  destruct (dict_get "itemListElement" json_content) as [[| | | | |item_list|]|];
    try discriminate.
  destruct (List.length item_list <? 3)%nat eqn:L; [discriminate|].
  apply Nat.ltb_ge in L.
  destruct (dict_get "offers" json_content) as [[| | | | | |offers]|];
    try discriminate.
  destruct (has_key "price" offers) eqn:H5; [|discriminate].
  destruct (has_key "priceCurrency" offers) eqn:H6; [|discriminate].
  destruct (has_key_get _ _ H5) as [price Hp].
  destruct (has_key_get _ _ H6) as [currency Hc].
  intros _. exists name, description, item_list, offers, price, currency.
  repeat split; assumption.
Qed.

Lemma init_Ok (script_tag : list (option json)) (json_content : dict json) :
  init script_tag = Ok json_content ->
  json_content = collect [] script_tag
  /\ _validate_schema json_content = Ok tt.
Proof.
  unfold init.
  destruct (_validate_schema (collect [] script_tag)) as [[]| |] eqn:E;
    try discriminate.
  intros H. injection H as <-. split; [reflexivity|exact E].
Qed.

Lemma _validate_schema_raises (json_content : dict json) (e : exn) :
  _validate_schema json_content = Raise e -> e = InvalidDataFormat.
Proof.
  unfold _validate_schema.
  destruct (filter _ required_keys); [|intros H; injection H as <-; reflexivity].
  destruct (dict_get "itemListElement" json_content) as [[| | | | |item_list|]|];
    try (intros H; injection H as <-; reflexivity).
  destruct (List.length item_list <? 3)%nat;
    [intros H; injection H as <-; reflexivity|].
  destruct (dict_get "offers" json_content) as [[| | | | | |offers]|];
    try (intros H; injection H as <-; reflexivity).
  destruct (negb (has_key "price" offers) || negb (has_key "priceCurrency" offers));
    [intros H; injection H as <-; reflexivity|discriminate].
Qed.

Lemma update_get (d : dict json) : forall json_content key,
  dict_get key (update json_content d)
  = match last_entry key d with
    | Some v => Some v
    | None => dict_get key json_content
    end.
Proof.
  unfold update.
  induction d as [|[k v] d IH]; intros json_content key; [reflexivity|].
  cbn [fold_left fst snd last_entry]. rewrite IH.
  destruct (last_entry key d); [reflexivity|].
  destruct (String.eqb k key) eqn:E.
  - apply String.eqb_eq in E. subst k. apply dict_get_set_eq.
  - apply String.eqb_neq in E. apply dict_get_set_ne. exact E.
Qed.

(** X27. The scraper is constructed, or [InvalidDataFormat] is raised.
    Once it is constructed the getters of the title, of the description
    and of the currency return the strings of the values the metadata
    holds and cannot raise; the price is [float] of the value of
    ["price"], and the city and the category are the names of the items 1
    and 2 of the list, which exist.  The getters of the price, of the city
    and of the category can still raise [InvalidDataFormat]: validation
    ensures that a price is there, not that it is a number, and that the
    list has three items, not that they have names.  Of two scripts that
    give the same key, the later one wins. *)
Theorem init_validates (script_tag : list (option json)) :
  ((exists json_content, init script_tag = Ok json_content)
   \/ init script_tag = Raise InvalidDataFormat)
  /\ (forall json_content,
        init script_tag = Ok json_content ->
        exists name description item_list city category offers price currency,
          dict_get "name" json_content = Some name
          /\ get_listing_title py_str json_content = Ok (py_str name)
          /\ dict_get "description" json_content = Some description
          /\ get_listing_description py_str json_content
             = Ok (py_str description)
          /\ dict_get "offers" json_content = Some (JObject offers)
          /\ dict_get "priceCurrency" offers = Some currency
          /\ get_listing_currency py_str json_content = Ok (py_str currency)
          /\ dict_get "price" offers = Some price
          /\ get_listing_price json_content = float_or_invalid price
          /\ dict_get "itemListElement" json_content = Some (JList item_list)
          /\ nth_error item_list 1 = Some city
          /\ nth_error item_list 2 = Some category
          /\ get_listing_city py_str json_content
             = match member "name" city with
               | Some name => Ok (py_str name)
               | None => Raise InvalidDataFormat
               end
          /\ get_listing_category py_str json_content
             = match member "name" category with
               | Some name => Ok (py_str name)
               | None => Raise InvalidDataFormat
               end)
  /\ (forall a b key,
        dict_get key (collect [] [Some (JObject a); Some (JObject b)])
        = match last_entry key b with
          | Some v => Some v
          | None => last_entry key a
          end).
Proof.
  split; [|split].
  - unfold init.
    destruct (_validate_schema (collect [] script_tag)) as [[]|e|] eqn:E.
    + left. eauto.
    + right. rewrite (_validate_schema_raises _ _ E). reflexivity.
    + exfalso. revert E. unfold _validate_schema.
      destruct (filter _ required_keys); [|discriminate].
      destruct (dict_get "itemListElement" _) as [[| | | | |item_list|]|];
        try discriminate.
      destruct (List.length item_list <? 3)%nat; [discriminate|].
      destruct (dict_get "offers" _) as [[| | | | | |offers]|]; try discriminate.
      destruct (negb (has_key "price" offers)
                || negb (has_key "priceCurrency" offers)); discriminate.
  - intros json_content Hinit. apply init_Ok in Hinit. destruct Hinit as [_ Hv].
    destruct (validated _ Hv)
      as (name & description & item_list & offers & price & currency
          & Hn & Hd & Hl & Hlen & Ho & Hp & Hc).
    destruct item_list as [|e0 [|e1 [|e2 rest]]]; cbn [List.length] in Hlen;
      try lia.
    exists name, description, (e0 :: e1 :: e2 :: rest), e1, e2, offers, price,
      currency.
    unfold get_listing_title, get_listing_description, get_listing_currency,
      get_listing_price, get_listing_city, get_listing_category,
      listing_item_name.
    rewrite Hn, Hd, Hl, Ho. cbn [member item nth_error]. rewrite Hp, Hc.
    repeat split; reflexivity.
  - intros a b key. cbn [collect]. rewrite !update_get. cbn [dict_get].
    destruct (last_entry key b), (last_entry key a); reflexivity.
Qed.

End MarketplaceFacts.

Section MarketplaceSample.
Import Py Float Marketplace.

Lemma init_validates_witness :
  exists name description item_list city category offers price currency,
    dict_get "name" sample_content = Some name
    /\ get_listing_title sample_str sample_content = Ok (sample_str name)
    /\ dict_get "description" sample_content = Some description
    /\ get_listing_description sample_str sample_content
       = Ok (sample_str description)
    /\ dict_get "offers" sample_content = Some (JObject offers)
    /\ dict_get "priceCurrency" offers = Some currency
    /\ get_listing_currency sample_str sample_content = Ok (sample_str currency)
    /\ dict_get "price" offers = Some price
    /\ get_listing_price sample_content = float_or_invalid price
    /\ dict_get "itemListElement" sample_content = Some (JList item_list)
    /\ nth_error item_list 1 = Some city
    /\ nth_error item_list 2 = Some category
    /\ get_listing_city sample_str sample_content
       = match member "name" city with
         | Some name => Ok (sample_str name)
         | None => Raise InvalidDataFormat
         end
    /\ get_listing_category sample_str sample_content
       = match member "name" category with
         | Some name => Ok (sample_str name)
         | None => Raise InvalidDataFormat
         end.
Proof.
  apply (proj1 (proj2 (init_validates sample_str sample_scripts)) sample_content).
  vm_compute. reflexivity.
Defined.

End MarketplaceSample.

(** ** Similarity and lengths *)

Section SimilarityLengths.
Import Str Py Difflib EbayScraper.
Local Open Scope Q_scope.

Lemma ratio_lengths (a b : list ascii) :
  (0 < List.length a + List.length b)%nat ->
  ratio a b * inject_Z (Z.of_nat (List.length a + List.length b))
  <= 2 * inject_Z (Z.of_nat (Nat.min (List.length a) (List.length b))).
Proof.
  intros Hpos. unfold ratio. fold (sizes (get_matching_blocks a b)).
  destruct (get_matching_blocks_sizes a b) as [Ha Hb].
  set (m := sizes (get_matching_blocks a b)) in *.
  unfold calculate_ratio.
  destruct (List.length a + List.length b =? 0)%nat eqn:E;
    [apply Nat.eqb_eq in E; lia|].
  set (n := (List.length a + List.length b)%nat) in *.
  assert (Hn : 0 < inject_Z (Z.of_nat n)).
  { change 0 with (inject_Z 0). rewrite <- Zlt_Qlt. lia. }
  assert (Hm : inject_Z (Z.of_nat m)
               <= inject_Z (Z.of_nat (Nat.min (List.length a) (List.length b)))).
  { rewrite <- Zle_Qle. lia. }
  assert (Heq : 2 * inject_Z (Z.of_nat m) / inject_Z (Z.of_nat n)
                * inject_Z (Z.of_nat n) == 2 * inject_Z (Z.of_nat m))
    by (field; Lqa.lra).
  rewrite Heq. Lqa.lra.
Qed.

(** X28. The similarity of two strings is at most twice the length of the
    shorter of the two cleaned strings over the sum of their lengths: a
    title much longer or much shorter than the query cannot be similar to
    it, and a string that cleaning leaves empty has similarity 0 to any
    that it does not, and 1 to another such. *)
Theorem get_similarity_lengths (string1 string2 : string) :
  let a := cleaned string1 in
  let b := cleaned string2 in
  ((0 < List.length a + List.length b)%nat ->
   get_similarity string1 string2
   * inject_Z (Z.of_nat (List.length a + List.length b))
   <= 2 * inject_Z (Z.of_nat (Nat.min (List.length a) (List.length b))))
  /\ (a <> [] -> b = [] -> get_similarity string1 string2 == 0)
  /\ (a = [] -> b <> [] -> get_similarity string1 string2 == 0)
  /\ (a = [] -> b = [] -> get_similarity string1 string2 == 1).
Proof.
  cbv zeta.
  change (get_similarity string1 string2)
    with (ratio (cleaned string1) (cleaned string2)).
  generalize (cleaned string1) (cleaned string2). intros a b.
  split; [apply ratio_lengths|].
  assert (Hzero : forall a b : list ascii,
            (0 < List.length a + List.length b)%nat ->
            Nat.min (List.length a) (List.length b) = 0%nat ->
            ratio a b == 0).
  { intros a' b' Hpos Hmin. pose proof (ratio_lengths a' b' Hpos) as H.
    rewrite Hmin in H. pose proof (ratio_range a' b') as [H0 _].
    assert (Hn : 0 < inject_Z (Z.of_nat (List.length a' + List.length b'))).
    { change 0 with (inject_Z 0). rewrite <- Zlt_Qlt. lia. }
    change (inject_Z (Z.of_nat 0)) with 0 in H.
    apply Qle_antisym; [|exact H0].
    destruct (Qlt_le_dec 0 (ratio a' b')) as [Hlt|Hle]; [|exact Hle].
    exfalso. Lqa.nra. }
  split; [|split].
  - intros Ha ->. apply Hzero; cbn [List.length].
    + destruct a; [congruence|cbn; lia].
    + apply Nat.min_0_r.
  - intros -> Hb. apply Hzero; cbn [List.length].
    + destruct b; [congruence|cbn; lia].
    + reflexivity.
  - intros -> ->. reflexivity.
Qed.

Lemma get_similarity_lengths_witness :
  get_similarity "camera" "!!!" == 0.
Proof.
  apply (proj1 (proj2 (get_similarity_lengths "camera" "!!!"))).
  - discriminate.
  - reflexivity.
Defined.

End SimilarityLengths.

(** ** The inputs of the chart *)

Section ChartFacts.
Import Str Py Float EbayScraper EbayGetters Views IndexPost Chart.

(** X29. What the view passes to [create_chart] after a search that
    returned passes its validation: the prices and the shipping costs read
    back, the descriptions and the conditions are four sequences of one
    length, which is not 0. *)
Theorem chart_inputs_valid (fuel : nat) (w : web) (title : string)
    (ramp_down : Q) (f : found) :
  result (find_viable_product fuel w title ramp_down) = Ok f ->
  exists similar_prices_float similar_shipping_float,
    parse_amounts (prices f) = Ok similar_prices_float
    /\ parse_amounts (shippings f) = Ok similar_shipping_float
    /\ _validate_chart_inputs similar_prices_float similar_shipping_float
         (descriptions f) (conditions f) = Ok tt.
Proof.
  intros Hf.
  destruct (find_viable_product_parallel fuel w title ramp_down f Hf)
    as [(L1 & L2 & L3 & L4 & L5 & M1 & M2) Hne].
  destruct (parse_amounts_money _ M1) as (ps & P1 & N1).
  destruct (parse_amounts_money _ M2) as (ss & P2 & N2).
  exists ps, ss. split; [exact P1|]. split; [exact P2|].
  unfold _validate_chart_inputs. cbv zeta.
  rewrite N1, N2, L1, L2, L4, !Nat.eqb_refl. cbn [andb negb].
  destruct (descriptions f); [congruence|reflexivity].
Qed.

Lemma chart_inputs_valid_witness :
  exists similar_prices_float similar_shipping_float,
    parse_amounts (prices camera_found) = Ok similar_prices_float
    /\ parse_amounts (shippings camera_found) = Ok similar_shipping_float
    /\ _validate_chart_inputs similar_prices_float similar_shipping_float
         (descriptions camera_found) (conditions camera_found) = Ok tt.
Proof.
  apply (chart_inputs_valid 3 camera_web "camera" 0 camera_found).
  vm_compute. reflexivity.
Defined.

End ChartFacts.

(** ** When the search finds nothing *)

Section SearchFails.
Import Str Py EbayScraper.
Local Open Scope Q_scope.

Lemma listing_empty_quiet (page : soup) (title : string) (t : Q) :
  result (listing_product_similarity page title t) = Ok [] ->
  Forall quiet (trace (listing_product_similarity page title t)).
Proof.
  intros H. apply Forall_forall. intros e He.
  destruct (listing_events _ _ _ _ He) as [[s1 [s2 ->]]| ->];
    [exact I|exact H].
Qed.

Lemma ramp_down_loop_empty_quiet (page : soup) (title : string) (fuel : nat) :
  forall ce rd rd',
    result (ramp_down_loop fuel page title ce rd) = Ok (rd', []) ->
    Forall quiet (trace (ramp_down_loop fuel page title ce rd)).
Proof.
  induction fuel as [|fuel IH]; intros ce rd rd'; [discriminate|].
  rewrite ramp_down_loop_unfold, result_bind. intros H.
  apply Forall_trace_bind.
  destruct (result (listing_product_similarity page title _))
    as [filtered| |] eqn:Hl; try discriminate.
  destruct (ce =? 2)%nat.
  - injection H as _ ->. split; [apply listing_empty_quiet; exact Hl|].
    intros a _. constructor.
  - destruct filtered as [|x filtered]; [|discriminate].
    split; [apply listing_empty_quiet; exact Hl|].
    intros a Ha. injection Ha as <-. apply (IH _ _ _ H).
Qed.

Lemma accumulate_empty (acc : found) (d : dict scored) :
  descriptions (accumulate acc d) = [] -> descriptions acc = [] /\ d = [].
Proof.
  cbn [accumulate descriptions]. intros H. apply app_eq_nil in H.
  destruct H as [H1 H2]. split; [exact H1|].
  destruct d; [reflexivity|discriminate].
Qed.

(** A page after which no description has been found gave nothing. *)
Lemma search_page_empty_quiet (fuel : nat) (w : web) (title : string)
    (rd : Q) (acc : found) (p : nat) (st' : Q * found) :
  result (search_page fuel w title (rd, acc) p) = Ok st' ->
  descriptions (snd st') = [] ->
  descriptions acc = []
  /\ Forall quiet (trace (search_page fuel w title (rd, acc) p)).
Proof.
  unfold search_page. intros H Hd.
  apply result_bind_Ok in H. destruct H as [page [Hpage H]].
  apply result_bind_Ok in H. destruct H as [filtered [Hl H]].
  apply result_bind_Ok in H. destruct H as [[rd' d] [Hr H]].
  cbn in H. injection H as <-. cbn [snd] in Hd.
  apply accumulate_empty in Hd. destruct Hd as [Hacc ->].
  split; [exact Hacc|].
  apply Forall_trace_bind. split.
  { unfold create_url. destruct (w title p); repeat constructor. }
  intros page' Hpage'. rewrite Hpage in Hpage'. injection Hpage' as <-.
  apply Forall_trace_bind.
  destruct filtered as [|x filtered];
    [|cbn in Hr; injection Hr as _ Hx; discriminate Hx].
  split; [apply listing_empty_quiet; exact Hl|].
  intros a Ha. rewrite Hl in Ha. injection Ha as <-.
  apply Forall_trace_bind. split.
  - apply (ramp_down_loop_empty_quiet _ _ _ _ _ _ Hr).
  - intros [rd1 d1] _. constructor.
Qed.

Lemma search_pages_empty_quiet (fuel : nat) (w : web) (title : string)
    (page_numbers : list nat) : forall rd acc st',
  result (search_pages fuel w title (rd, acc) page_numbers) = Ok st' ->
  descriptions (snd st') = [] ->
  descriptions acc = []
  /\ Forall quiet (trace (search_pages fuel w title (rd, acc) page_numbers)).
Proof.
  induction page_numbers as [|p rest IH]; intros rd acc st' H Hd.
  - cbn in H. injection H as <-. split; [exact Hd|constructor].
  - rewrite search_pages_cons in H |- *.
    apply result_bind_Ok in H. destruct H as [[rd1 acc1] [H1 H2]].
    destruct (IH rd1 acc1 st' H2 Hd) as [Hacc1 Hq].
    destruct (search_page_empty_quiet fuel w title rd acc p (rd1, acc1) H1 Hacc1)
      as [Hacc Hq1].
    split; [exact Hacc|].
    apply Forall_trace_bind. split; [exact Hq1|].
    intros a Ha. rewrite H1 in Ha. injection Ha as <-. exact Hq.
Qed.

Lemma search_pages_served (fuel : nat) (w : web) (title : string)
    (page_numbers : list nat) : forall rd acc,
  (3 <= fuel)%nat -> - ramp_step <= rd ->
  (forall p, In p page_numbers -> w title p <> None) ->
  exists st', result (search_pages fuel w title (rd, acc) page_numbers) = Ok st'.
Proof.
  induction page_numbers as [|p rest IH]; intros rd acc Hfuel Hrd Hw.
  - eexists. reflexivity.
  - rewrite search_pages_cons, result_bind.
    destruct (w title p) as [page|] eqn:Hp;
      [|exfalso; apply (Hw p (or_introl eq_refl)); exact Hp].
    destruct (search_page_served fuel w title rd acc p page Hfuel Hrd Hp)
      as (rd' & d & -> & Hle).
    apply IH; [exact Hfuel|Lqa.lra|].
    intros q Hq. apply Hw. right. exact Hq.
Qed.

(** On pages that the getters have read: when the five are served, a
    search called with an accumulator of at least -0.05 returns or raises
    [NoProductsFound], and it raises exactly when every filtering attempt,
    on every page, came back empty. *)
Lemma find_viable_product_on_records
    (fuel : nat) (w : web) (title : string) (ramp_down : Q) :
  (3 <= fuel)%nat -> - ramp_step <= ramp_down ->
  (forall p, (p < 5)%nat -> w title p <> None) ->
  let m := find_viable_product fuel w title ramp_down in
  (result m = Raise NoProductsFound <-> Forall quiet (trace m))
  /\ ((exists f, result m = Ok f) \/ result m = Raise NoProductsFound).
Proof.
  intros Hfuel Hrd Hw. cbv zeta.
  assert (Hserved : forall p, In p (seq 0 5) -> w title p <> None).
  { intros p Hin. apply Hw. apply in_seq in Hin. lia. }
  destruct (search_pages_served fuel w title (seq 0 5) ramp_down no_products
              Hfuel Hrd Hserved) as [st Hst].
  rewrite find_viable_product_trace.
  unfold find_viable_product. rewrite result_bind, Hst.
  split; [split|].
  - intros H. destruct (descriptions (snd st)) eqn:E; [|discriminate].
    destruct st as [rd' acc'].
    apply (search_pages_empty_quiet fuel w title (seq 0 5) ramp_down no_products
             (rd', acc') Hst E).
  - intros Hq.
    destruct (search_pages_quiet fuel w title (seq 0 5) ramp_down no_products
                Hfuel Hserved Hq) as [_ [st' [Hst' Hd]]].
    rewrite Hst in Hst'. injection Hst' as <-. cbn in Hd. rewrite Hd.
    reflexivity.
  - destruct (descriptions (snd st));
      [right; reflexivity|left; eexists; reflexivity].
Qed.

End SearchFails.

(** ** The order of the prices in the selection *)

Section SelectionOrder.
Import Str Py Float EbayScraper EbayGetters Views.
Local Open Scope Q_scope.

Lemma py_lt_floats (p q : Q) : py_lt (PyFloat p) (PyFloat q) = Ok false <-> q <= p.
Proof.
  cbn [py_lt]. split.
  - intros H. injection H as H. apply Qlt_bool_false. exact H.
  - intros H. f_equal. apply Qlt_bool_false. exact H.
Qed.

(** A map that holds a float price and a string price makes the first loop
    of the selector compare the two. *)
Lemma selection_of_mixed (d : dict details) :
  mixed_prices d -> lowest_price_highest_similarity d = Raise TypeError.
Proof.
  intros (e1 & e2 & H1 & H2 & Hf & Hs).
  destruct d as [|[name0 item0] d']; [destruct H1|].
  unfold lowest_price_highest_similarity.
  cbn [values map snd scan_items scan_item obind].
  assert (Hx : exists x, In x (map snd d')
                 /\ ((is_float (d_price item0) /\ is_str (d_price x))
                     \/ (is_str (d_price item0) /\ is_float (d_price x)))).
  { destruct (kind_cases (d_price item0)) as [H0|H0].
    - destruct H2 as [<-|H2];
        [exfalso; apply (kinds_disjoint _ H0 Hs)|].
      exists (snd e2). split; [apply in_map; exact H2|left; auto].
    - destruct H1 as [<-|H1];
        [exfalso; apply (kinds_disjoint _ Hf H0)|].
      exists (snd e1). split; [apply in_map; exact H1|right; auto]. }
  destruct Hx as [x [Hin Hk]].
  rewrite (scan_items_mixed (map snd d') item0 item0 x Hin Hk). reflexivity.
Qed.

(** The prices of a map are all floats, or all strings, or of both
    kinds. *)
Lemma price_kinds (d : dict details) :
  float_priced d \/ str_priced d \/ mixed_prices d.
Proof.
  induction d as [|e d IH]; [left; intros x []|].
  destruct (kind_cases (d_price (snd e))) as [He|He], IH as [H|[H|H]].
  - left. intros x [<-|Hx]; [exact He|apply H; exact Hx].
  - destruct d as [|e' d'].
    + left. intros x [<-|[]]. exact He.
    + right. right. exists e, e'. split; [left; reflexivity|].
      split; [right; left; reflexivity|]. split; [exact He|].
      apply H. left. reflexivity.
  - right. right. destruct H as (e1 & e2 & H1 & H2 & Hf & Hs).
    exists e1, e2. split; [right; exact H1|]. split; [right; exact H2|]. auto.
  - destruct d as [|e' d'].
    + right. left. intros x [<-|[]]. exact He.
    + right. right. exists e', e. split; [right; left; reflexivity|].
      split; [left; reflexivity|]. split; [|exact He].
      apply H. left. reflexivity.
  - right. left. intros x [<-|Hx]; [exact He|apply H; exact Hx].
  - right. right. destruct H as (e1 & e2 & H1 & H2 & Hf & Hs).
    exists e1, e2. split; [right; exact H1|]. split; [right; exact H2|]. auto.
Qed.

Lemma tied_is_most_similar (d : dict details) (best e : string * details) :
  most_similar d best -> In e d ->
  d_similarity (snd e) == d_similarity (snd best) -> most_similar d e.
Proof.
  intros [_ Hmax] He Hs. split; [exact He|].
  intros e' He'. rewrite Hs. apply Hmax. exact He'.
Qed.




End SelectionOrder.

(** ** The attempts made on a page *)

Section PageRamp.
Import Str Py EbayScraper.
Local Open Scope Q_scope.
Local Open Scope run_scope.

Lemma bind_ok {A B} (m : run A) (f : A -> run B) (a : A) :
  result m = Ok a ->
  bind m f = ((trace m ++ trace (f a))%list, result (f a)).
Proof.
  destruct m as [l o]. cbn [result snd]. intros ->. cbn [bind trace fst].
  destruct (f a). reflexivity.
Qed.

(** C2, as stated, on a page with no listing: after the attempt at 0.35 the
    loop makes three re-filterings that all come back empty, not two. *)
Lemma search_page_ramp_down_counterexample :
  ~ (forall fuel page title ramp_down rs,
       (3 <= fuel)%nat ->
       result (listing_product_similarity page title similarity_threshold) = Ok [] ->
       outcomes (trace (ramp_down_loop fuel page title 0 ramp_down)) = rs ->
       Forall (fun x => x = Ok []) rs ->
       (List.length rs <= 2)%nat).
Proof.
  intros H.
  specialize (H 3%nat empty_page "camera"%string 0 [Ok []; Ok []; Ok []]
                (le_n 3) eq_refl eq_refl).
  cbn [List.length] in H.
  assert (Habs : (3 <= 2)%nat) by (apply H; repeat constructor).
  lia.
Qed.

(** C2 (amended). On a page whose filtering at 0.35 came back empty the
    search makes at least one and at most three further filtering attempts
    before it moves on: each adds 0.05 to the accumulator and filters at
    [max(0, 0.35 - accumulator)]; every attempt before the last is empty,
    and the last is the first that is not empty, or raises, or else is the
    third.  The page then adds to the six lists what that last attempt
    returned, and the search goes on to the next page with the accumulator
    as the loop left it. *)
Theorem search_page_ramp_down (fuel : nat) (w : web) (title : string)
    (ramp_down : Q) (acc : found) (p : nat) (page : soup) :
  (3 <= fuel)%nat ->
  w title p = Some page ->
  result (listing_product_similarity page title similarity_threshold) = Ok [] ->
  let m := search_page fuel w title (ramp_down, acc) p in
  exists n rs r,
    (1 <= n <= 3)%nat
    /\ page_requests (trace m) = [p]
    /\ thresholds (trace m) = similarity_threshold :: ramp_thresholds n ramp_down
    /\ outcomes (trace m) = (Ok [] :: rs ++ [r])%list
    /\ Forall (fun x => x = Ok []) rs
    /\ ((n < 3)%nat -> r <> Ok [])
    /\ page_ends m ramp_down acc n r
    /\ forall filtered rest,
         r = Ok filtered ->
         let next :=
           search_pages fuel w title
             (ramped n ramp_down, accumulate acc filtered) rest in
         search_pages fuel w title (ramp_down, acc) (p :: rest)
         = ((trace m ++ trace next)%list, result next).
Proof.
  intros Hfuel Hpage Hbase. cbv zeta.
  cut (exists n rs r,
    (1 <= n <= 3)%nat
    /\ page_requests (trace (search_page fuel w title (ramp_down, acc) p)) = [p]
    /\ thresholds (trace (search_page fuel w title (ramp_down, acc) p))
       = similarity_threshold :: ramp_thresholds n ramp_down
    /\ outcomes (trace (search_page fuel w title (ramp_down, acc) p))
       = (Ok [] :: rs ++ [r])%list
    /\ Forall (fun x => x = Ok []) rs
    /\ ((n < 3)%nat -> r <> Ok [])
    /\ page_ends (search_page fuel w title (ramp_down, acc) p) ramp_down acc n r).
  { intros (n & rs & r & Hn & Hp & Ht & Ho & Hrs & Hlast & Hend).
    exists n, rs, r. repeat (split; [assumption|]).
    intros filtered rest ->. rewrite search_pages_cons.
    exact (bind_ok (search_page fuel w title (ramp_down, acc) p)
             (fun st' => search_pages fuel w title st' rest)
             (ramped n ramp_down, accumulate acc filtered) Hend). }
  destruct (ramp_down_loop_ends page title fuel 0%nat ramp_down)
    as (n & rs & r & Hn & Ht & Ho & Hrs & Hlast & Hp & Hend);
    [lia|simpl; lia|].
  cbv zeta in Ht, Ho, Hp, Hend. cbn [Nat.sub] in Hn, Hlast.
  exists n, rs, r. unfold search_page, page_ends.
  rewrite (create_url_ok _ _ _ _ Hpage).
  rewrite !trace_bind, !result_bind, !page_requests_app, !thresholds_app,
    !outcomes_app.
  cbn [result trace fst snd].
  rewrite !trace_bind, !result_bind, !page_requests_app, !thresholds_app,
    !outcomes_app, Hbase, listing_page_requests, listing_thresholds,
    listing_outcomes, Hbase.
  rewrite !trace_bind, !result_bind, !page_requests_app, !thresholds_app,
    !outcomes_app, Ht, Ho, Hp.
  split; [exact Hn|].
  destruct r as [filtered|e|]; [| |destruct Hend]; rewrite Hend;
    cbn [result trace fst snd ret app page_requests thresholds outcomes];
    rewrite ?app_nil_r;
    (split; [reflexivity|]); (split; [reflexivity|]); (split; [reflexivity|]);
    (split; [exact Hrs|]); (split; [exact Hlast|]); reflexivity.
Qed.

Lemma search_page_ramp_down_witness :
  exists n rs r,
    (1 <= n <= 3)%nat
    /\ page_requests (trace (search_page 3 empty_web "camera" (0, no_products) 0))
       = [0%nat]
    /\ thresholds (trace (search_page 3 empty_web "camera" (0, no_products) 0))
       = similarity_threshold :: ramp_thresholds n 0
    /\ outcomes (trace (search_page 3 empty_web "camera" (0, no_products) 0))
       = (Ok [] :: rs ++ [r])%list
    /\ Forall (fun x => x = Ok []) rs
    /\ ((n < 3)%nat -> r <> Ok [])
    /\ page_ends (search_page 3 empty_web "camera" (0, no_products) 0)
         0 no_products n r
    /\ forall filtered rest,
         r = Ok filtered ->
         search_pages 3 empty_web "camera" (0, no_products) (0%nat :: rest)
         = ((trace (search_page 3 empty_web "camera" (0, no_products) 0)
             ++ trace (search_pages 3 empty_web "camera"
                         (ramped n 0, accumulate no_products filtered) rest))%list,
            result (search_pages 3 empty_web "camera"
                      (ramped n 0, accumulate no_products filtered) rest)).
Proof.
  apply (search_page_ramp_down 3 empty_web "camera" 0 no_products 0 empty_page).
  - lia.
  - reflexivity.
  - reflexivity.
Defined.

End PageRamp.

(** ** [reject_outliers] in double precision *)

Section DoubleFacts.
Import Double.
Local Open Scope Z_scope.

(** The exponent of the format at a magnitude. *)
Lemma fexp_eq (x : Z) : fexp prec emax x = Z.max (x - 53) (-1074).
Proof. reflexivity. Qed.

Lemma digits2_pos_double (m : positive) :
  Zpos (digits2_pos m~0) = Zpos (digits2_pos m) + 1.
Proof. cbn [digits2_pos]. lia. Qed.

(** Rounding a mantissa that already fits changes nothing. *)
Lemma binary_round_aux_fits (s : bool) (m : positive) (e : Z) :
  fexp prec emax (Zpos (digits2_pos m) + e) = e ->
  e <= 971 ->
  binary_round_aux prec emax s (Zpos m) e loc_Exact = S754_finite s m e.
Proof.
  intros Hfexp He. unfold binary_round_aux, shr_fexp.
  cbn [Zdigits2]. rewrite Hfexp, Z.sub_diag.
  cbn [shr shr_record_of_loc shr_m loc_of_shr_record round_nearest_even Zdigits2].
  rewrite Hfexp, Z.sub_diag. cbn [shr shr_record_of_loc shr_m].
  replace (e <=? emax - prec) with true; [reflexivity|].
  symmetry. apply Z.leb_le. unfold emax, prec. lia.
Qed.

(** Rounding an even mantissa that has one bit too many halves it. *)
Lemma binary_round_aux_halves (s : bool) (m : positive) (e : Z) :
  fexp prec emax (Zpos (digits2_pos m) + (e + 1)) = e + 1 ->
  binary_round_aux prec emax s (Zpos m~0) e loc_Exact
  = if e + 1 <=? 971 then S754_finite s m (e + 1) else S754_infinity s.
Proof.
  intros Hfexp. unfold binary_round_aux, shr_fexp.
  cbn [Zdigits2]. rewrite digits2_pos_double.
  replace (Zpos (digits2_pos m) + 1 + e) with (Zpos (digits2_pos m) + (e + 1)) by lia.
  rewrite Hfexp. replace (e + 1 - e) with 1 by lia.
  cbn [shr iter_pos shr_1 shr_record_of_loc shr_m loc_of_shr_record orb
       round_nearest_even Zdigits2].
  rewrite Hfexp, Z.sub_diag. cbn [shr shr_record_of_loc shr_m].
  reflexivity.
Qed.

Lemma bounded_cases (m : positive) (e : Z) :
  bounded prec emax m e = true ->
  fexp prec emax (Zpos (digits2_pos m) + e) = e
  /\ -1074 <= e <= 971
  /\ (Zpos (digits2_pos m) = 53 \/ (Zpos (digits2_pos m) < 53 /\ e = -1074)).
Proof.
  unfold bounded, canonical_mantissa. rewrite andb_true_iff, Z.eqb_eq, Z.leb_le.
  rewrite fexp_eq. unfold emax, prec. lia.
Qed.

Lemma cond_Zopp_double (s : bool) (m : positive) :
  cond_Zopp s (Zpos m) + cond_Zopp s (Zpos m) = cond_Zopp s (Zpos m~0).
Proof. destruct s; cbn [cond_Zopp]; lia. Qed.

Lemma binary_normalize_signed (s : bool) (m : positive) (e : Z) :
  binary_normalize prec emax (cond_Zopp s (Zpos m)) e false
  = binary_round prec emax s m e.
Proof. destruct s; reflexivity. Qed.

(** [x + x] for a finite [x]: the exponent goes up by one, up to the
    infinity, or the mantissa of a subnormal number doubles. *)
Lemma add_same (s : bool) (m : positive) (e : Z) :
  bounded prec emax m e = true ->
  add (S754_finite s m e) (S754_finite s m e)
  = if Zpos (digits2_pos m) =? 53
    then if e + 1 <=? 971 then S754_finite s m (e + 1) else S754_infinity s
    else S754_finite s m~0 e.
Proof.
  intros Hb. destruct (bounded_cases m e Hb) as [Hfexp [He Hd]].
  unfold add, SFadd. rewrite Z.min_id. unfold shl_align at 1 2.
  rewrite Z.sub_diag. cbn [fst].
  rewrite cond_Zopp_double, binary_normalize_signed. unfold binary_round.
  rewrite fexp_eq in Hfexp. rewrite digits2_pos_double, fexp_eq.
  destruct Hd as [Hd|[Hd He']].
  - rewrite Hd. cbn [Z.eqb Pos.eqb].
    replace (Z.max (53 + 1 + e - 53) (-1074)) with (e + 1) by lia.
    unfold shl_align. replace (e + 1 - e) with 1 by lia.
    apply binary_round_aux_halves. rewrite fexp_eq. lia.
  - replace (Zpos (digits2_pos m) =? 53) with false
      by (symmetry; apply Z.eqb_neq; lia).
    replace (Z.max (Zpos (digits2_pos m) + 1 + e - 53) (-1074)) with e by lia.
    unfold shl_align. rewrite Z.sub_diag.
    apply binary_round_aux_fits; [|lia].
    rewrite digits2_pos_double, fexp_eq. lia.
Qed.

Lemma div_eucl_exact (a b : Z) :
  0 < b -> Z.div_eucl (a * b) b = (a, 0).
Proof.
  intros Hb.
  pose proof (Z.div_mul a b ltac:(lia)) as Hq.
  pose proof (Z.mod_mul a b ltac:(lia)) as Hr.
  unfold Z.div, Z.modulo in Hq, Hr.
  destruct (Z.div_eucl (a * b) b) as [q r]. cbn [fst snd] in Hq, Hr.
  congruence.
Qed.

(** Dividing by a power of two whose quotient needs no rounding. *)
Lemma div_pow2 (s : bool) (m : positive) (e ey : Z) (r : double) :
  (let e' := Z.min (fexp prec emax (Zpos (digits2_pos m) + e - (53 + ey))) (e - ey) in
   (e - ey - e' = 52
    /\ binary_round_aux prec emax s (Zpos m) e' loc_Exact = r)
   \/ (e - ey - e' = 53
       /\ binary_round_aux prec emax s (Zpos m~0) e' loc_Exact = r)) ->
  div (S754_finite s m e) (S754_finite false pow52 ey) = r.
Proof.
  cbv zeta. intros H. unfold div, SFdiv, SFdiv_core_binary.
  cbn [Zdigits2]. change (Zpos (digits2_pos pow52)) with 53.
  set (e' := Z.min (fexp prec emax (Zpos (digits2_pos m) + e - (53 + ey))) (e - ey)) in *.
  rewrite xorb_false_r.
  destruct H as [[Hs <-]|[Hs <-]]; rewrite Hs.
  - rewrite Z.shiftl_mul_pow2 by lia.
    change (2 ^ 52) with (Zpos pow52).
    rewrite (div_eucl_exact (Zpos m) (Zpos pow52)) by reflexivity.
    reflexivity.
  - rewrite Z.shiftl_mul_pow2 by lia.
    replace (Zpos m * 2 ^ 53) with (Zpos m~0 * Zpos pow52)
      by (change (2 ^ 53) with (2 * Zpos pow52); lia).
    rewrite (div_eucl_exact (Zpos m~0) (Zpos pow52)) by reflexivity.
    reflexivity.
Qed.

(** The same for an even mantissa, when one bit less is enough. *)
Lemma div_pow2_even (s : bool) (m : positive) (e ey : Z) (r : double) :
  (let e' := Z.min (fexp prec emax (Zpos (digits2_pos m~0) + e - (53 + ey))) (e - ey) in
   e - ey - e' = 51
   /\ binary_round_aux prec emax s (Zpos m) e' loc_Exact = r) ->
  div (S754_finite s m~0 e) (S754_finite false pow52 ey) = r.
Proof.
  cbv zeta. intros [Hs <-]. unfold div, SFdiv, SFdiv_core_binary.
  cbn [Zdigits2]. change (Zpos (digits2_pos pow52)) with 53.
  rewrite xorb_false_r, Hs.
  rewrite Z.shiftl_mul_pow2 by lia.
  replace (Zpos m~0 * 2 ^ 51) with (Zpos m * Zpos pow52)
    by (change (Zpos pow52) with (2 * 2 ^ 51); lia).
  rewrite (div_eucl_exact (Zpos m) (Zpos pow52)) by reflexivity.
  reflexivity.
Qed.

Lemma of_Z_1 : of_Z 1 = one. Proof. reflexivity. Qed.
Lemma of_Z_2 : of_Z 2 = two. Proof. reflexivity. Qed.

Lemma div_one (s : bool) (m : positive) (e : Z) :
  bounded prec emax m e = true ->
  div (S754_finite s m e) one = S754_finite s m e.
Proof.
  intros Hb. destruct (bounded_cases m e Hb) as [Hfexp [He Hd]].
  apply div_pow2. cbv zeta. rewrite fexp_eq in *.
  destruct (Z.eq_dec e (-1074)) as [->|Hne].
  - left. split; [lia|].
    replace (Z.min _ _) with (-1074) by lia.
    apply binary_round_aux_fits; [rewrite fexp_eq; lia|lia].
  - right. split; [lia|].
    replace (Z.min _ _) with (e - 1) by lia.
    rewrite binary_round_aux_halves.
    + replace (e - 1 + 1) with e by lia.
      replace (e <=? 971) with true by (symmetry; apply Z.leb_le; lia).
      reflexivity.
    + rewrite fexp_eq. lia.
Qed.

(** Half of [x + x] is [x], unless [x + x] is an infinity. *)
Lemma half_of_double (s : bool) (m : positive) (e : Z) :
  bounded prec emax m e = true ->
  let x := S754_finite s m e in
  div (add x x) two = x
  \/ (add x x = S754_infinity s /\ div (add x x) two = S754_infinity s).
Proof.
  intros Hb. cbv zeta. rewrite (add_same s m e Hb).
  destruct (bounded_cases m e Hb) as [Hfexp [He Hd]].
  rewrite fexp_eq in Hfexp.
  destruct Hd as [Hd|[Hd He']].
  - rewrite Hd. cbn [Z.eqb Pos.eqb].
    destruct (e + 1 <=? 971) eqn:Hle.
    + left. apply Z.leb_le in Hle. apply div_pow2. cbv zeta. rewrite fexp_eq.
      destruct (Z.eq_dec e (-1074)) as [->|Hne].
      * left. split; [lia|].
        replace (Z.min _ _) with (-1074) by lia.
        apply binary_round_aux_fits; [rewrite fexp_eq; lia|lia].
      * right. split; [lia|].
        replace (Z.min _ _) with (e - 1) by lia.
        rewrite binary_round_aux_halves.
        -- replace (e - 1 + 1) with e by lia.
           replace (e <=? 971) with true by (symmetry; apply Z.leb_le; lia).
           reflexivity.
        -- rewrite fexp_eq. lia.
    + right. split; [reflexivity|destruct s; reflexivity].
  - replace (Zpos (digits2_pos m) =? 53) with false
      by (symmetry; apply Z.eqb_neq; lia).
    left. subst e. apply div_pow2_even. cbv zeta.
    rewrite digits2_pos_double, fexp_eq.
    split; [lia|].
    replace (Z.min _ _) with (-1074) by lia.
    apply binary_round_aux_fits; [rewrite fexp_eq; lia|lia].
Qed.
End DoubleFacts.

Section DoubleOutlierFacts.
Import Double UtilsDouble.

Lemma insert_sorted_same (v : double) (n : nat) :
  insert_sorted v (repeat v n) = repeat v (S n).
Proof.
  induction n as [|n IH]; [reflexivity|].
  cbn [repeat insert_sorted]. destruct (leb v v); [reflexivity|].
  rewrite IH. reflexivity.
Qed.

Lemma np_sort_repeat (v : double) (n : nat) : np_sort (repeat v n) = repeat v n.
Proof.
  induction n as [|n IH]; [reflexivity|].
  cbn [repeat]. unfold np_sort in *. cbn [fold_right]. rewrite IH.
  apply insert_sorted_same.
Qed.

Lemma constant_repeat {A} (l : list A) (v : A) :
  (forall x, In x l -> x = v) -> l = repeat v (List.length l).
Proof.
  induction l as [|x l IH]; intros H; [reflexivity|].
  cbn [List.length repeat]. rewrite (H x (or_introl eq_refl)). f_equal.
  apply IH. intros y Hy. apply H. right. exact Hy.
Qed.

Lemma existsb_repeat {A} (f : A -> bool) (v : A) (n : nat) :
  existsb f (repeat v (S n)) = f v.
Proof.
  induction n as [|n IH]; cbn [repeat existsb] in *; [apply orb_false_r|].
  rewrite IH. apply orb_diag.
Qed.

Lemma nth_repeat_lt {A} (v d : A) (n k : nat) :
  (k < n)%nat -> nth k (repeat v n) d = v.
Proof.
  revert k. induction n as [|n IH]; intros k Hk; [lia|].
  destruct k as [|k]; [reflexivity|]. cbn [repeat nth]. apply IH. lia.
Qed.

(** The median of [n >= 1] copies of [v]: the mean of one middle value or
    of the two. *)
Lemma np_median_repeat (v : double) (n : nat) :
  is_nan v = false ->
  np_median (repeat v (S n)) = div v one
  \/ np_median (repeat v (S n)) = div (add v v) two.
Proof.
  intros Hnan. unfold np_median.
  rewrite existsb_repeat, Hnan, np_sort_repeat, repeat_length.
  assert (Hhalf : (S n / 2 < S n)%nat) by (apply Nat.div_lt; lia).
  destruct (Nat.even (S n)).
  - right. rewrite !nth_repeat_lt by lia. reflexivity.
  - left. rewrite nth_repeat_lt by lia. reflexivity.
Qed.

(** The median of a sample whose values all equal [v]: [v] itself, or the
    infinity when [v + v] overflows. *)
Lemma np_median_of_copies (v : double) (n : nat) :
  is_nan v = false -> valid v = true ->
  np_median (repeat v (S n)) = v
  \/ exists s m e, v = S754_finite s m e
                   /\ np_median (repeat v (S n)) = S754_infinity s.
Proof.
  intros Hnan Hv.
  destruct v as [s|s| |s m e]; [| |discriminate Hnan|].
  - left. destruct (np_median_repeat (S754_zero s) n Hnan) as [-> | ->];
      destruct s; reflexivity.
  - left. destruct (np_median_repeat (S754_infinity s) n Hnan) as [-> | ->];
      destruct s; reflexivity.
  - destruct (np_median_repeat (S754_finite s m e) n Hnan) as [-> | ->].
    + left. apply div_one. exact Hv.
    + destruct (half_of_double s m e Hv) as [H|[_ H]].
      * left. exact H.
      * right. exists s, m, e. split; [reflexivity|exact H].
Qed.

Lemma leb_positive (m : double) : ltb zero m = true -> leb m zero = false.
Proof. destruct m as [s|s| |s mm e]; try destruct s; cbn; congruence. Qed.

Lemma where_all_false (f : double -> bool) (l : list double) :
  (forall d, In d l -> f d = false) -> Utils.np_where (map f l) = [].
Proof.
  intros H. apply where_from_all_false.
  intros b Hb. apply in_map_iff in Hb. destruct Hb as [d [<- Hd]].
  apply H. exact Hd.
Qed.

(** What [reject_outliers] does with [n >= 1] copies of a deviation that
    is zero, infinite or not a number: nothing is reported. *)
Lemma no_outlier_among (delta : double) (m : double) (n : nat) :
  ltb zero m = true ->
  delta = zero \/ delta = S754_infinity false \/ delta = nan ->
  let distribution := repeat delta (S n) in
  let m_deviation := np_median distribution in
  (if np_isclose m_deviation zero then
     Utils.np_where (map (fun d => leb m d) distribution)
   else
     Utils.np_where (map (fun s => leb m s)
                 (map (fun d => div d m_deviation) distribution))) = [].
Proof.
  intros Hm Hdelta. cbv zeta.
  assert (Hmed : np_median (repeat delta (S n)) = delta).
  { destruct Hdelta as [->|[->| ->]].
    - destruct (np_median_repeat zero n eq_refl) as [-> | ->]; reflexivity.
    - destruct (np_median_repeat (S754_infinity false) n eq_refl) as [-> | ->];
        reflexivity.
    - unfold np_median. rewrite existsb_repeat. reflexivity. }
  rewrite Hmed. rewrite map_map.
  destruct Hdelta as [->|[->| ->]].
  - change (np_isclose zero zero) with true. cbv iota.
    apply where_all_false. intros d Hd. apply repeat_spec in Hd. subst d.
    apply leb_positive. exact Hm.
  - change (np_isclose (S754_infinity false) zero) with false. cbv iota.
    apply where_all_false. intros d Hd. apply repeat_spec in Hd. subst d.
    change (div (S754_infinity false) (S754_infinity false)) with nan.
    destruct m as [s|s| |s mm e]; try destruct s; reflexivity.
  - change (np_isclose nan zero) with false. cbv iota.
    apply where_all_false. intros d Hd. apply repeat_spec in Hd. subst d.
    change (div nan nan) with nan.
    destruct m as [s|s| |s mm e]; try destruct s; reflexivity.
Qed.

(** The deviation of a value from the median of a sample of its copies. *)
Lemma deviation_constant (v : double) (n : nat) :
  valid v = true ->
  let delta := abs (sub v (np_median (repeat v (S n)))) in
  delta = zero \/ delta = S754_infinity false \/ delta = nan.
Proof.
  intros Hv. cbv zeta.
  destruct (is_nan v) eqn:Hnan.
  { destruct v; try discriminate Hnan. right. right. reflexivity. }
  destruct (np_median_of_copies v n Hnan Hv) as [-> | (s & m & e & -> & ->)].
  - destruct v as [s|s| |s m e]; [| |discriminate Hnan|].
    + left. destruct s; reflexivity.
    + right. right. destruct s; reflexivity.
    + left. unfold sub, SFsub. rewrite Z.min_id. unfold shl_align.
      rewrite Z.sub_diag. reflexivity.
  - right. left. destruct s; reflexivity.
Qed.

Lemma reject_outliers_of_copies (data : list double) (m v : double) :
  ltb zero m = true -> valid v = true ->
  (forall x, In x data -> x = v) -> reject_outliers data m = [].
Proof.
  intros Hm Hv Hall. rewrite (constant_repeat data v Hall).
  destruct (List.length data) as [|n]; [reflexivity|].
  unfold reject_outliers. cbn [repeat]. change (v :: repeat v n) with (repeat v (S n)).
  set (med := np_median (repeat v (S n))).
  assert (Hdist : map (fun x => abs (sub x med)) (repeat v (S n))
                  = repeat (abs (sub v med)) (S n)).
  { clearbody med. induction (S n) as [|k IH]; [reflexivity|].
    cbn [repeat map]. rewrite IH. reflexivity. }
  rewrite Hdist.
  apply (no_outlier_among (abs (sub v med)) m n Hm).
  apply deviation_constant. exact Hv.
Qed.

Lemma reject_outliers_mad_rule (data : list double) (m : double) (i : nat) :
  In i (reject_outliers data m) <-> mad_rule data m i.
Proof.
  unfold mad_rule, reject_outliers. destruct data as [|x0 data'].
  - simpl. split; [tauto|]. intros [v [H _]]. destruct i; discriminate.
  - set (data := x0 :: data'). fold (abs_deviations data). fold (median_deviation data).
    destruct (np_isclose (median_deviation data) zero); unfold Utils.np_where;
      rewrite where_from_In; simpl Nat.add; unfold abs_deviations;
      rewrite ?map_map.
    + split.
      * intros [j [-> Hj]]. rewrite nth_error_map in Hj.
        destruct (nth_error data j) as [v|]; [|discriminate].
        exists v. split; [reflexivity|]. simpl in Hj.
        injection Hj as Hj. exact Hj.
      * intros [v [Hv Hle]]. exists i. split; [reflexivity|].
        rewrite nth_error_map, Hv. simpl. f_equal. exact Hle.
    + split.
      * intros [j [-> Hj]]. rewrite nth_error_map in Hj.
        destruct (nth_error data j) as [v|]; [|discriminate].
        exists v. split; [reflexivity|]. simpl in Hj.
        injection Hj as Hj. exact Hj.
      * intros [v [Hv Hle]]. exists i. split; [reflexivity|].
        rewrite nth_error_map, Hv. simpl. f_equal. exact Hle.
Qed.

(** C5, as stated, at [m = 0]: two equal values are both reported. *)
Lemma reject_outliers_spec_counterexample :
  ~ (forall (data : list double) (m : double),
       data <> [] -> (forall x y, In x data -> In y data -> x = y) ->
       reject_outliers data m = []).
Proof.
  intros H. specialize (H [of_Z 1; of_Z 1] (of_Z 0)).
  assert (Hrun : reject_outliers [of_Z 1; of_Z 1] (of_Z 0) = [0%nat; 1%nat])
    by reflexivity.
  rewrite Hrun in H. discriminate H.
  - discriminate.
  - intros x y [<-|[<-|[]]] [<-|[<-|[]]]; reflexivity.
Qed.

(** C5 (amended). [reject_outliers] returns, in ascending order, exactly the
    indices that satisfy the rule of the median absolute deviation, computed
    in double precision as numpy computes it;
    [reject_outliers([1,1,1,10], 1.5) = [3]]; and for a positive [m] a
    sample of identical values has no outlier. *)
Theorem reject_outliers_spec (data : list double) (m : double) :
  (forall i, In i (reject_outliers data m) <-> mad_rule data m i)
  /\ StronglySorted lt (reject_outliers data m)
  /\ reject_outliers [of_Z 1; of_Z 1; of_Z 1; of_Z 10] (of_Q (15 # 10)) = [3%nat]
  /\ (ltb zero m = true ->
      forall v, valid v = true -> (forall x, In x data -> x = v) ->
      reject_outliers data m = []).
Proof.
  split; [intros i; apply reject_outliers_mad_rule|].
  split.
  { unfold reject_outliers. destruct data; [constructor|].
    destruct (np_isclose _ _); apply where_from_sorted. }
  split; [reflexivity|].
  intros Hm v Hv Hall. apply (reject_outliers_of_copies data m v Hm Hv Hall).
Qed.

Lemma reject_outliers_spec_witness :
  reject_outliers [of_Z 5; of_Z 5; of_Z 5] (of_Q (15 # 10)) = [].
Proof.
  apply (proj2 (proj2 (proj2
           (reject_outliers_spec [of_Z 5; of_Z 5; of_Z 5] (of_Q (15 # 10)))))
         eq_refl (of_Z 5) eq_refl).
  intros x [<-|[<-|[<-|[]]]]; reflexivity.
Defined.

(** Where the rounding decides: of 1.7, 0.9, 0.1 and 3.6 the median is
    1.3 and the deviations 0.4, 0.4, 1.2 and 2.3 as the reals have them, so
    that the third value lies at 1.5 times the median deviation; in double
    precision its quotient is just below 1.5, and only the fourth value is
    reported.  A sample whose sum overflows has no outlier either. *)
Example reject_outliers_rounding :
  reject_outliers [of_Q (17 # 10); of_Q (9 # 10); of_Q (1 # 10); of_Q (36 # 10)]
    (of_Q (15 # 10))
  = [3%nat]
  /\ Utils.reject_outliers [17 # 10; 9 # 10; 1 # 10; 36 # 10] (15 # 10)
     = [2%nat; 3%nat].
Proof. split; reflexivity. Qed.

End DoubleOutlierFacts.

(** ** The search, from the texts of the pages *)

Section TextsFacts.
Import Str Py Float EbayScraper EbayGetters.
Local Open Scope Q_scope.
Local Open Scope run_scope.

(** *** What the getters do on a page *)

(** The price getter returns, and what it returns are numbers that are
    not negative: [number] loses nothing of them. *)
Lemma get_product_price_returns (texts : list string) :
  exists prices, get_product_price texts = Ok prices /\ Forall amount prices.
Proof.
  induction texts as [|text texts (prices & IH & Hall)];
    [exists []; split; [reflexivity|constructor]|].
  cbn [get_product_price].
  destruct (search_price text) as [m|] eqn:E; [|eauto].
  destruct (matched_price text m E) as (x & -> & Hx). rewrite IH.
  eexists. split; [reflexivity|].
  constructor; [exists x; split; [reflexivity|exact Hx]|exact Hall].
Qed.

(** The shipping getter returns numbers that are not negative, or raises
    [ValueError]. *)
Lemma get_product_shipping_cases (texts : list string) :
  (exists costs, get_product_shipping texts = Ok costs /\ Forall amount costs)
  \/ get_product_shipping texts = Raise ValueError.
Proof.
  induction texts as [|text texts IH];
    [left; exists []; split; [reflexivity|constructor]|].
  cbn [get_product_shipping].
  destruct (shipping_cost text) as [(x & -> & Hx)| ->]; [|right; reflexivity].
  cbn [obind]. destruct IH as [(costs & -> & Hall)| ->]; [|right; reflexivity].
  left. eexists. split; [reflexivity|].
  constructor; [exists x; split; [reflexivity|exact Hx]|exact Hall].
Qed.

(** The getters return, or the shipping getter raises [ValueError]. *)
Lemma read_cases (page : EbayTexts.texts) :
  (exists parsed, read page = Ok parsed
                  /\ exists costs,
                       get_product_shipping (EbayTexts.shipping_texts page)
                       = Ok costs)
  \/ (read page = Raise ValueError
      /\ get_product_shipping (EbayTexts.shipping_texts page) = Raise ValueError).
Proof.
  unfold read.
  destruct (get_product_price_returns (EbayTexts.price_texts page))
    as (prices & -> & _).
  cbn [obind].
  destruct (get_product_shipping_cases (EbayTexts.shipping_texts page))
    as [(costs & -> & _)| ->]; cbn [obind].
  - left. eexists. split; [reflexivity|]. eexists. reflexivity.
  - right. split; reflexivity.
Qed.

Lemma served_cases (w : EbayTexts.web) (title : string) (p : nat) :
  w title p <> None -> readable w title p \/ unreadable w title p.
Proof.
  intros Hw. destruct (w title p) as [page|] eqn:E; [|congruence].
  destruct (read_cases page) as [(parsed & Hr & _)|[_ Hs]].
  - left. exists page, parsed. rewrite E. split; [reflexivity|exact Hr].
  - right. exists page. rewrite E. split; [reflexivity|exact Hs].
Qed.

Lemma unreadable_read (w : EbayTexts.web) (title : string) (p : nat) :
  unreadable w title p ->
  exists page, w title p = Some page /\ read page = Raise ValueError.
Proof.
  intros (page & Hw & Hs). exists page. split; [exact Hw|].
  destruct (read_cases page) as [(parsed & _ & costs & Hc)|[Hr _]];
    [congruence|exact Hr].
Qed.

Lemma readable_not_unreadable (w : EbayTexts.web) (title : string) (p : nat) :
  readable w title p -> unreadable w title p -> False.
Proof.
  intros (page & parsed & Hw & Hr) Hu.
  destruct (unreadable_read w title p Hu) as (page' & Hw' & Hr').
  congruence.
Qed.

Lemma read_web_readable (w : EbayTexts.web) (title : string) (p : nat)
    (page : EbayTexts.texts) (parsed : soup) :
  w title p = Some page -> read page = Ok parsed ->
  read_web w title p = Some parsed.
Proof. intros Hw Hr. unfold read_web. rewrite Hw, Hr. reflexivity. Qed.

(** *** A page that is read is searched as its records are *)

Lemma get_product_info_read (page : EbayTexts.texts) :
  EbayTexts.get_product_info page
  = obind (read page) (fun parsed => Ok (get_product_info parsed)).
Proof.
  unfold EbayTexts.get_product_info, read.
  destruct (get_product_price (EbayTexts.price_texts page)); try reflexivity.
  cbn [obind].
  destruct (get_product_shipping (EbayTexts.shipping_texts page)); reflexivity.
Qed.

Lemma listing_read (page : EbayTexts.texts) (parsed : soup) (title : string)
    (t : Q) :
  read page = Ok parsed ->
  EbayTexts.listing_product_similarity page title t
  = listing_product_similarity parsed title t.
Proof.
  intros Hr. unfold EbayTexts.listing_product_similarity.
  rewrite get_product_info_read, Hr. reflexivity.
Qed.

Lemma listing_unread (page : EbayTexts.texts) (title : string) (t : Q) (e : exn) :
  read page = Raise e ->
  EbayTexts.listing_product_similarity page title t = ([], Raise e).
Proof.
  intros Hr. unfold EbayTexts.listing_product_similarity.
  rewrite get_product_info_read, Hr. reflexivity.
Qed.

Lemma bind_ext {A B} (m : run A) (f g : A -> run B) :
  (forall a, f a = g a) -> bind m f = bind m g.
Proof.
  intros H. destruct m as [l [a|e|]]; cbn [bind]; [rewrite H|..]; reflexivity.
Qed.

Lemma ramp_down_loop_read (page : EbayTexts.texts) (parsed : soup)
    (title : string) (fuel : nat) :
  read page = Ok parsed ->
  forall ce rd,
    EbayTexts.ramp_down_loop fuel page title ce rd
    = ramp_down_loop fuel parsed title ce rd.
Proof.
  intros Hr. induction fuel as [|fuel IH]; intros ce rd; [reflexivity|].
  cbn [EbayTexts.ramp_down_loop ramp_down_loop].
  rewrite (listing_read page parsed title _ Hr).
  apply bind_ext. intros filtered.
  destruct (ce =? 2)%nat; [reflexivity|].
  destruct filtered; [apply IH|reflexivity].
Qed.

Lemma search_page_read (fuel : nat) (w : EbayTexts.web) (title : string)
    (st : Q * found) (p : nat) (page : EbayTexts.texts) (parsed : soup) :
  w title p = Some page -> read page = Ok parsed ->
  EbayTexts.search_page fuel w title st p
  = search_page fuel (read_web w) title st p.
Proof.
  intros Hw Hr. destruct st as [rd acc].
  unfold EbayTexts.search_page, search_page, EbayTexts.create_url, create_url.
  rewrite Hw, (read_web_readable w title p page parsed Hw Hr).
  cbn [bind emit ret app].
  rewrite (listing_read page parsed title _ Hr).
  f_equal. 
  rewrite (ramp_down_loop_read page parsed title fuel Hr). reflexivity.
Qed.

Lemma search_page_missing (fuel : nat) (w : EbayTexts.web) (title : string)
    (st : Q * found) (p : nat) :
  w title p = None ->
  EbayTexts.search_page fuel w title st p
  = ([Fetch title p], Raise ScraperRequestError).
Proof.
  intros Hw. destruct st as [rd acc].
  unfold EbayTexts.search_page, EbayTexts.create_url. rewrite Hw. reflexivity.
Qed.

Lemma search_page_unread (fuel : nat) (w : EbayTexts.web) (title : string)
    (st : Q * found) (p : nat) (page : EbayTexts.texts) (e : exn) :
  w title p = Some page -> read page = Raise e ->
  EbayTexts.search_page fuel w title st p = ([Fetch title p], Raise e).
Proof.
  intros Hw Hr. destruct st as [rd acc].
  unfold EbayTexts.search_page, EbayTexts.create_url. rewrite Hw.
  cbn [bind emit ret app]. rewrite (listing_unread page title _ e Hr).
  reflexivity.
Qed.

Lemma texts_search_pages_cons (fuel : nat) (w : EbayTexts.web) (title : string)
    (st : Q * found) (p : nat) (rest : list nat) :
  EbayTexts.search_pages fuel w title st (p :: rest)
  = bind (EbayTexts.search_page fuel w title st p)
         (fun st' => EbayTexts.search_pages fuel w title st' rest).
Proof. reflexivity. Qed.

(** On pages that are read the search is the search on their records. *)
Lemma search_pages_read (fuel : nat) (w : EbayTexts.web) (title : string)
    (page_numbers : list nat) : forall st,
  (forall p, In p page_numbers -> readable w title p) ->
  EbayTexts.search_pages fuel w title st page_numbers
  = search_pages fuel (read_web w) title st page_numbers.
Proof.
  induction page_numbers as [|p rest IH]; intros st Hread; [reflexivity|].
  rewrite texts_search_pages_cons, search_pages_cons.
  destruct (Hread p (or_introl eq_refl)) as (page & parsed & Hw & Hr).
  rewrite (search_page_read fuel w title st p page parsed Hw Hr).
  apply bind_ext. intros st'. apply IH.
  intros q Hq. apply Hread. right. exact Hq.
Qed.

Lemma find_viable_product_read (fuel : nat) (w : EbayTexts.web)
    (title : string) (rd : Q) :
  (forall p, (p < 5)%nat -> readable w title p) ->
  EbayTexts.find_viable_product fuel w title rd
  = find_viable_product fuel (read_web w) title rd.
Proof.
  intros Hread. unfold EbayTexts.find_viable_product, find_viable_product.
  rewrite search_pages_read; [reflexivity|].
  intros p Hp. apply Hread. apply in_seq in Hp. lia.
Qed.

(** The search stops at the first page whose iteration raises: it has
    requested the pages up to that one, and filtered the pages before it
    at most four times each. *)
Lemma search_pages_stops (fuel : nat) (w : EbayTexts.web) (title : string)
    (p : nat) (e : exn) (l2 : list nat) (l1 : list nat) : forall rd acc,
  (3 <= fuel)%nat -> - ramp_step <= rd ->
  (forall q, In q l1 -> readable w title q) ->
  (forall st, EbayTexts.search_page fuel w title st p
              = ([Fetch title p], Raise e)) ->
  let m := EbayTexts.search_pages fuel w title (rd, acc) (l1 ++ p :: l2) in
  result m = Raise e
  /\ page_requests (trace m) = (l1 ++ [p])%list
  /\ (List.length (thresholds (trace m)) <= 4 * List.length l1)%nat
  /\ exists before, trace m = (before ++ [Fetch title p])%list.
Proof.
  induction l1 as [|q l1 IH]; intros rd acc Hfuel Hrd Hread Hp; cbv zeta.
  - cbn [app]. rewrite texts_search_pages_cons, Hp. cbn.
    split; [reflexivity|]. split; [reflexivity|]. split; [lia|].
    exists []. reflexivity.
  - cbn [app]. rewrite texts_search_pages_cons.
    destruct (Hread q (or_introl eq_refl)) as (page & parsed & Hw & Hr).
    rewrite (search_page_read fuel w title (rd, acc) q page parsed Hw Hr).
    rewrite trace_bind, result_bind, page_requests_app, thresholds_app.
    destruct (search_page_counts fuel (read_web w) title (rd, acc) q)
      as [Hq Ht]. cbv zeta in Hq, Ht. rewrite Hq.
    destruct (search_page_served fuel (read_web w) title rd acc q parsed Hfuel Hrd
                (read_web_readable w title q page parsed Hw Hr))
      as [rd' [d [-> Hle]]].
    destruct (IH rd' (accumulate acc d) Hfuel)
      as [Hres [Hreq [Hth [before Hlast]]]];
      [Lqa.lra|intros q' Hq'; apply Hread; right; exact Hq'|exact Hp|].
    cbv zeta in Hres, Hreq, Hth, Hlast. rewrite Hres, Hreq, Hlast.
    split; [reflexivity|]. split; [reflexivity|].
    split.
    + rewrite length_app, <- Hlast. cbn [List.length]. lia.
    + eexists. rewrite app_assoc. reflexivity.
Qed.

Lemma texts_find_viable_product_trace (fuel : nat) (w : EbayTexts.web)
    (title : string) (rd : Q) :
  trace (EbayTexts.find_viable_product fuel w title rd)
  = trace (EbayTexts.search_pages fuel w title (rd, no_products) (seq 0 5)).
Proof.
  unfold EbayTexts.find_viable_product. rewrite trace_bind.
  destruct (result (EbayTexts.search_pages fuel w title (rd, no_products) (seq 0 5)))
    as [st| |]; rewrite ?app_nil_r; try reflexivity.
  destruct (descriptions (snd st)); cbn; apply app_nil_r.
Qed.

Lemma find_viable_product_stops (fuel : nat) (w : EbayTexts.web)
    (title : string) (rd : Q) (p : nat) (e : exn) :
  (3 <= fuel)%nat -> - ramp_step <= rd -> (p < 5)%nat ->
  (forall q, (q < p)%nat -> readable w title q) ->
  (forall st, EbayTexts.search_page fuel w title st p
              = ([Fetch title p], Raise e)) ->
  let m := EbayTexts.find_viable_product fuel w title rd in
  result m = Raise e
  /\ page_requests (trace m) = seq 0 (S p)
  /\ (List.length (thresholds (trace m)) <= 4 * p)%nat
  /\ exists before, trace m = (before ++ [Fetch title p])%list.
Proof.
  intros Hfuel Hrd Hp Hread Hstop. cbv zeta.
  rewrite texts_find_viable_product_trace. unfold EbayTexts.find_viable_product.
  rewrite result_bind.
  assert (Hsplit : seq 0 5 = (seq 0 p ++ p :: seq (S p) (4 - p))%list).
  { destruct p as [|[|[|[|[|p]]]]]; try reflexivity. lia. }
  rewrite Hsplit.
  destruct (search_pages_stops fuel w title p e (seq (S p) (4 - p)) (seq 0 p)
              rd no_products Hfuel Hrd) as [Hres [Hreq [Hth Hlast]]].
  { intros q Hq. apply Hread. apply in_seq in Hq. lia. }
  { exact Hstop. }
  cbv zeta in Hres, Hreq, Hth, Hlast. rewrite Hres, Hreq.
  split; [reflexivity|]. split; [rewrite seq_S; reflexivity|].
  split; [rewrite length_seq in Hth; exact Hth|exact Hlast].
Qed.

(** Among served pages, the first that cannot be read. *)
Lemma first_unreadable (w : EbayTexts.web) (title : string) (n : nat) :
  (forall p, (p < n)%nat -> w title p <> None) ->
  (forall p, (p < n)%nat -> readable w title p)
  \/ exists p, (p < n)%nat /\ unreadable w title p
                /\ forall q, (q < p)%nat -> readable w title q.
Proof.
  induction n as [|n IH]; intros Hw; [left; intros p Hp; lia|].
  destruct IH as [Hall|(p & Hp & Hu & Hbefore)].
  { intros p Hp. apply Hw. lia. }
  - destruct (served_cases w title n (Hw n ltac:(lia))) as [Hr|Hu].
    + left. intros p Hp. destruct (Nat.eq_dec p n) as [->|Hne]; [exact Hr|].
      apply Hall. lia.
    + right. exists n. split; [lia|]. split; [exact Hu|exact Hall].
  - right. exists p. split; [lia|]. split; [exact Hu|exact Hbefore].
Qed.


Lemma search_page_stops_unreadable (fuel : nat) (w : EbayTexts.web)
    (title : string) (p : nat) :
  unreadable w title p ->
  forall st, EbayTexts.search_page fuel w title st p
             = ([Fetch title p], Raise ValueError).
Proof.
  intros Hu st. destruct (unreadable_read w title p Hu) as (page & Hw & Hr).
  apply (search_page_unread fuel w title st p page ValueError Hw Hr).
Qed.

(** X16. The search ends at the first page that is not served, or on which
    a shipping cost is not a number, the pages before it having been served
    and read: it raises [ScraperRequestError] for a request that failed and
    [ValueError] for a cost, after requesting the pages up to that one and
    no other; the request for that page is the last thing it does, so the
    page is not filtered, and what the earlier pages gave is lost. *)
Theorem find_viable_product_first_failure (fuel : nat) (w : EbayTexts.web)
    (title : string) (ramp_down : Q) (p : nat) :
  (3 <= fuel)%nat -> - ramp_step <= ramp_down -> (p < 5)%nat ->
  (forall q, (q < p)%nat -> readable w title q) ->
  let m := EbayTexts.find_viable_product fuel w title ramp_down in
  (w title p = None ->
   result m = Raise ScraperRequestError
   /\ page_requests (trace m) = seq 0 (S p)
   /\ (List.length (thresholds (trace m)) <= 4 * p)%nat
   /\ exists before, trace m = (before ++ [Fetch title p])%list)
  /\ (unreadable w title p ->
      result m = Raise ValueError
      /\ page_requests (trace m) = seq 0 (S p)
      /\ (List.length (thresholds (trace m)) <= 4 * p)%nat
      /\ exists before, trace m = (before ++ [Fetch title p])%list).
Proof.
  intros Hfuel Hrd Hp Hread. cbv zeta. split.
  - intros Hw.
    apply (find_viable_product_stops fuel w title ramp_down p ScraperRequestError
             Hfuel Hrd Hp Hread).
    intros st. apply search_page_missing. exact Hw.
  - intros Hu.
    apply (find_viable_product_stops fuel w title ramp_down p ValueError
             Hfuel Hrd Hp Hread).
    apply search_page_stops_unreadable. exact Hu.
Qed.

Lemma find_viable_product_first_failure_witness :
  (result (EbayTexts.find_viable_product 3 (failing_web None) "camera" 0)
   = Raise ScraperRequestError
   /\ page_requests
        (trace (EbayTexts.find_viable_product 3 (failing_web None) "camera" 0))
      = seq 0 2
   /\ (List.length
         (thresholds
            (trace (EbayTexts.find_viable_product 3 (failing_web None)
                      "camera" 0)))
       <= 4 * 1)%nat
   /\ exists before,
        trace (EbayTexts.find_viable_product 3 (failing_web None) "camera" 0)
        = (before ++ [Fetch "camera" 1])%list)
  /\ (result (EbayTexts.find_viable_product 3
                (failing_web (Some late_delivery)) "camera" 0)
      = Raise ValueError
      /\ page_requests
           (trace (EbayTexts.find_viable_product 3
                     (failing_web (Some late_delivery)) "camera" 0))
         = seq 0 2
      /\ (List.length
            (thresholds
               (trace (EbayTexts.find_viable_product 3
                         (failing_web (Some late_delivery)) "camera" 0)))
          <= 4 * 1)%nat
      /\ exists before,
           trace (EbayTexts.find_viable_product 3
                    (failing_web (Some late_delivery)) "camera" 0)
           = (before ++ [Fetch "camera" 1])%list).
Proof.
  split.
  - apply (proj1 (find_viable_product_first_failure 3 (failing_web None)
                    "camera" 0 1 (le_n 3) ltac:(discriminate) ltac:(lia)
                    ltac:(intros [|q] Hq; [|lia]; eexists; eexists;
                          split; reflexivity))).
    reflexivity.
  - apply (proj2 (find_viable_product_first_failure 3
                    (failing_web (Some late_delivery))
                    "camera" 0 1 (le_n 3) ltac:(discriminate) ltac:(lia)
                    ltac:(intros [|q] Hq; [|lia]; eexists; eexists;
                          split; reflexivity))).
    eexists. split; reflexivity.
Defined.

(** X30. When the five pages are served, a search called with an
    accumulator of at least -0.05 returns, or raises [NoProductsFound], or
    raises [ValueError]: [ValueError] exactly when a shipping cost of one
    of the pages is not a number, and [NoProductsFound] exactly when the
    five pages are read and every filtering attempt, on every page, comes
    back empty. *)
Theorem find_viable_product_outcomes (fuel : nat) (w : EbayTexts.web)
    (title : string) (ramp_down : Q) :
  (3 <= fuel)%nat -> - ramp_step <= ramp_down ->
  (forall p, (p < 5)%nat -> w title p <> None) ->
  let m := EbayTexts.find_viable_product fuel w title ramp_down in
  ((exists f, result m = Ok f)
   \/ result m = Raise NoProductsFound \/ result m = Raise ValueError)
  /\ (result m = Raise ValueError
      <-> exists p, (p < 5)%nat /\ unreadable w title p)
  /\ (result m = Raise NoProductsFound
      <-> (forall p, (p < 5)%nat -> readable w title p)
          /\ Forall quiet (trace m)).
Proof.
  intros Hfuel Hrd Hw. cbv zeta.
  destruct (first_unreadable w title 5 Hw) as [Hall|(p & Hp & Hu & Hbefore)].
  - rewrite (find_viable_product_read fuel w title ramp_down Hall).
    destruct (find_viable_product_on_records fuel (read_web w) title ramp_down
                Hfuel Hrd) as [Hiff Hcases].
    { intros p Hp. destruct (Hall p Hp) as (page & parsed & Hp1 & Hp2).
      rewrite (read_web_readable w title p page parsed Hp1 Hp2). discriminate. }
    cbv zeta in Hiff, Hcases.
    split; [destruct Hcases as [H|H]; auto|]. split.
    + split.
      * intros H. destruct Hcases as [[f Hf]|Hn]; congruence.
      * intros (p & Hp & Hu). exfalso.
        apply (readable_not_unreadable w title p (Hall p Hp) Hu).
    + rewrite Hiff. tauto.
  - destruct (find_viable_product_stops fuel w title ramp_down p ValueError
                Hfuel Hrd Hp Hbefore
                (search_page_stops_unreadable fuel w title p Hu))
      as [Hres _].
    cbv zeta in Hres. rewrite Hres.
    split; [right; right; reflexivity|]. split.
    + split; [intros _; exists p; auto|reflexivity].
    + split; [discriminate|]. intros [Hall _]. exfalso.
      apply (readable_not_unreadable w title p (Hall p Hp) Hu).
Qed.

Lemma find_viable_product_outcomes_witness :
  ((exists f,
      result (EbayTexts.find_viable_product 3 (texts_web late_delivery) "camera" 0)
      = Ok f)
   \/ result (EbayTexts.find_viable_product 3 (texts_web late_delivery) "camera" 0)
      = Raise NoProductsFound
   \/ result (EbayTexts.find_viable_product 3 (texts_web late_delivery) "camera" 0)
      = Raise ValueError)
  /\ (result (EbayTexts.find_viable_product 3 (texts_web late_delivery) "camera" 0)
      = Raise ValueError
      <-> exists p, (p < 5)%nat /\ unreadable (texts_web late_delivery) "camera" p)
  /\ (result (EbayTexts.find_viable_product 3 (texts_web late_delivery) "camera" 0)
      = Raise NoProductsFound
      <-> (forall p, (p < 5)%nat -> readable (texts_web late_delivery) "camera" p)
          /\ Forall quiet
               (trace (EbayTexts.find_viable_product 3 (texts_web late_delivery)
                         "camera" 0))).
Proof.
  apply (find_viable_product_outcomes 3 (texts_web late_delivery) "camera" 0).
  - lia.
  - discriminate.
  - intros p _. unfold texts_web. destruct (p =? 0)%nat; discriminate.
Defined.

End TextsFacts.

(** ** The percentage, read back *)

Section PercentageRead.
Import Py Utils Percentage Float.
Local Open Scope Q_scope.

Lemma equal_close (a b : Q) : a == b -> np_isclose a b = true.
Proof.
  intros Heq. apply np_isclose_iff.
  setoid_replace (a - b) with 0 by (rewrite Heq; ring).
  change (Qabs 0) with 0.
  pose proof (Qabs_nonneg b). unfold atol, rtol. Lqa.nra.
Qed.

Lemma apart_not_close (a b : Q) :
  0 <= b -> 2 * (atol + rtol * b) <= Qabs (a - b) -> np_isclose a b = false.
Proof.
  intros Hb H. destruct (np_isclose a b) eqn:E; [|reflexivity].
  apply np_isclose_iff in E. rewrite (Qabs_nonneg_eq b Hb) in E.
  unfold atol, rtol in *. Lqa.nra.
Qed.


End PercentageRead.
